(* ===== verification/_CoqProject ===== *)
-Q . S2P
Prelude.v
Effects.v
Heap.v
DeepCopy.v
GoText.v
Concurrency.v
ProviderLocks.v
Floats.v
GoFormat.v
GoCache.v
UnavailableOfferings.v
Labels.v
Scheduling.v
Options.v
CloudTypes.v
Apis.v
Conditions.v
Utils.v
Version.v
Pricing.v
PriceTable.v
VSwitchProvider.v
SecurityGroupProvider.v
InstanceTypeCalc.v
InstanceTypeProvider.v
InstanceSelect.v
InstanceProvider.v
ImageFamily.v
KubeApi.v
CloudProvider.v
Ack.v
Staleness.v
GarbageCollection.v
Tagging.v
Interruption.v
Telemetry.v
UnregisteredTaint.v
ProviderControllers.v
NodeClassHash.v
NodeClassTermination.v
NodeClassStatus.v
Operator.v
OperatorExample.v
WorkQueue.v
ControllerRuntime.v
FairRuns.v
Registration.v
Manager.v
ManagerExample.v
