(* ===== verification/Prelude.v ===== *)
(** * karpenter-provider-alicloud: a verification development

    The program is the Alibaba Cloud provider of karpenter, the node autoscaler
    of Kubernetes.  Karpenter asks it for machines that satisfy a NodeClaim; it
    chooses instance types, a zone, a vSwitch and an image, launches an ECS
    instance that joins the cluster, and later lists, tags, checks and deletes
    what it launched.  Beside that entry point run controllers that resolve the
    NodeClass (the user's description of the machines), refresh catalogues and
    prices, and repair what was left behind.

    ** The parts and how they interact

    - [cloudprovider] (pkg/cloudprovider) is what karpenter calls.  It reads the
      NodeClass, asks the instance type provider for the usable types and the
      instance provider for a launch.
    - The instance provider (pkg/providers/instance) filters the types, takes a
      vSwitch per zone from the vSwitch provider, a join script from the ACK
      provider, and records the offerings that are out of stock in a cache
      (pkg/cache) that the instance type provider reads back through a counter.
    - The instance type provider (pkg/providers/instancetype) turns the ECS
      catalogue, the stock per zone and the prices (pkg/providers/pricing) into
      karpenter instance types with offerings.
    - The status controller writes to a NodeClass the vSwitches, security groups
      and images its selectors resolve to; the launch is gated on the condition
      Ready this produces.  The hash controller writes the hash by which drift
      is decided, the termination controller keeps a NodeClass in use.
    - Garbage collection deletes instances without a NodeClaim, the tagging
      controller tags, the interruption controller replaces reclaimed spot
      nodes, the unregistered-taint controller removes a taint left behind, the
      refresh controllers update prices and catalogues, telemetry reports.
    - The operator (pkg/operator, pkg/controllers, cmd/controller) makes the
      providers from the options and shares them among all of these.

    ** Files

    Shared: [Prelude] (integers at their width, strings, lists, maps, the
    unspecified choices of the Go runtime, hint databases), [Effects] (errors,
    the state-and-error monad [M], postconditions of runs, pkg/utils/alierrors),
    [Heap] (memory with pointers, slices and maps, and copies that share
    nothing), [GoText] (regular expressions, replacement, words, base64),
    [Concurrency] (goroutines on Go's mutexes, and a lock discipline),
    [Floats] and [GoFormat] (IEEE doubles and the printing of [float32]),
    [GoCache] (the vendored go-cache).

    Data: [Labels], [Options] (pkg/operator/options and the command line),
    [DeepCopy] (the generated copies of the API types), [Scheduling]
    (karpenter's requirements), [CloudTypes]
    (offerings, instance types, resource lists), [Apis] (ECSNodeClass,
    NodeClaim, NodePool), [Conditions] (status conditions), [Utils]
    (pkg/utils), [KubeApi] (results, events, nodes and the API server as
    interfaces with laws and an executable instance).

    Providers: [UnavailableOfferings] (pkg/cache), [Version], [Pricing] with
    [PriceTable] (its embedded price table, the tool that generates it,
    pkg/utils/object and the JSON between them), [VSwitchProvider], [SecurityGroupProvider], [ImageFamily], [Ack]
    (pkg/providers/... of the same names), [InstanceTypeCalc] and
    [InstanceTypeProvider] (instancetype/types.go, instancetype.go),
    [InstanceSelect] and [InstanceProvider] (the choices and the operations of
    instance/instance.go), [CloudProvider] (pkg/cloudprovider).
    [ProviderLocks] holds what each of their methods does with locks and shared
    fields, [Staleness] the invariants of their caches over time.

    Controllers: [NodeClassStatus], [NodeClassHash], [NodeClassTermination]
    (pkg/controllers/nodeclass/...), [GarbageCollection], [Tagging],
    [UnregisteredTaint] (pkg/controllers/nodeclaim/...), [Interruption],
    [ProviderControllers] (pkg/controllers/providers/...), [Telemetry].

    The program: [Operator] (pkg/operator/operator.go, controllers.go,
    pkg/utils/client) joins the providers and controllers into one system that
    serves requests; [OperatorExample] is a whole world to run it in.
    [WorkQueue] and [ControllerRuntime] are the vendored work queue and the
    workers of controller-runtime, [FairRuns] their endless runs in which every
    step gets its turn, [Registration] holds the [Register] methods
    and the requests they make of events, [Manager] puts reconcilers and
    registrations into the runtime (cmd/controller/main.go), and
    [ManagerExample] runs them on a small cluster.

    In each file a module named after the Go package holds a record for the
    state of the provider or controller, one definition per function or method
    under its Go name ([List_], [Get_] and [Set_] where the name is taken), and
    the lemmas; the module named ...Example holds a concrete environment in
    which the theorems are applied and the definitions evaluated.

    ** How the code is translated

    A method is a function in the monad [M] over [St P W]: [P] is the provider's
    own state, [W] the environment (clock, cloud services, API server).  A
    fallible call returns [result]: a value, an error that keeps the structure
    [errors.As] inspects, or a panic (nil dereference, index out of range).
    Remote services, structural hashes, SHA-256, the JSON decoder of the cluster
    metadata and the decimal form of a float are parameters, given by type
    classes; what is relied on of them is a class of laws of its own
    ([ClaimStore], [ClassStore], [NodeStore], [EcsFleet], [PushLog]) with an
    instance in the examples.
    Components that call each other do so through classes that the callee's
    file instantiates: [CloudProviderApi] with the laws [Fleet] is discharged by
    [CloudProvider] for [GarbageCollection], [PricingView] by [Pricing],
    [RegisterScript] and [ClusterCNI] by [Ack], [DiskResolver] by [ImageFamily];
    [Operator] puts the callees' instances in place of the classes.

    The order of a map iteration, of [UnsortedList], of equal elements after
    [sort.Slice] and the random choices are left open: the class [GoRuntime]
    gives any of them, and every theorem holds for all.

    Concurrency is modelled three times.  In the components, and for the requests the
    system serves, an operation is one step: work run in parallel is any order of
    its pieces ([ParallelOrder]; that [ParallelizeUntil] stops early when the
    context is cancelled is left out), and the API server is not written by others
    during one reconciliation.  In [ProviderLocks] the methods are interleaved
    lock by lock and access by access; that they are free of deadlock, and touch
    their guarded fields under their locks, is what supports the first view, and
    C12 says for which four fields it does not hold.  In [ControllerRuntime] a
    controller is a step relation: requests travel from watches, through delays,
    the queue and the workers, while the world changes as it likes between steps;
    a reconciliation is one step of it, and its reads are current.  Progress is
    stated for every fair run, a function from moments to states: weak fairness
    for the deliveries, the delayed queue and the workers, and a clock that
    passes every time; [turns_fair] shows that such runs exist.

    The clock moves in calls and between operations, not in local computation;
    the elements of the lists in service responses (among them the disks of a
    zone) and the values of the price server's map are non-nil except where they
    are options; what only logs, or only decides whether to log, is left out
    (except for the fields it reads, in [ProviderLocks]).  API objects are
    values; C34 shows for memory with aliasing that the copies the controllers
    keep are independent.

    ** Bounds

    Integers whose overflow matters are kept at their width ([int32], [int64],
    [uint64]).  A loop over pages linked by tokens takes fuel, and runs out of
    it as a panic; the completeness theorems assume fuel above the number of
    pages the service has, so they state that the loop ends with everything.
    The vSwitch loop is bounded by the source: pages 1 to 359 of 50 entries, and
    complete up to that many; the CPU reservation is compared with the documented policy for
    every size up to 1024 cores, and the memory label is classified for every
    half GiB up to 1152 GiB; a conflict is retried 5 times, as client-go does.

    ** What the theorems show

    - Launch (C1, C2, C6, C20, C21, C22): what is launched fits the NodeClaim
      and the NodeClass and survived the filters, one machine of the chosen
      capacity type is asked for, the answer describes the machine of the
      service's response and the provider ID leads back to it, shortage is remembered, an unready or
      terminating NodeClass is refused and an event says so; drift is decided
      by the hash, the vSwitches and the security groups, and
      [Create_static_drift]: a fresh machine is not drifted.
    - The whole program (C3, C4, C36): after any requests, in any order, nothing
      cached outlives its lifetime and karpenter is only told of the machine it
      asked for; the options are what the command line, then the environment,
      then the defaults say.
    - Progress (C8, C9, C10): whatever the reconcilers return, the periodic
      controllers, the status of every NodeClass and the release of a NodeClass
      that is being deleted are never forgotten, no two workers are on the same
      object, and in every fair run what is owed a reconciliation gets one.  These
      rest on the invariants [running_exclusive] and [running_tended] of the
      runtime and on [owed_runs].
    - Concurrency (C11, C12, C13): the methods keep a lock discipline, so any
      number of goroutines finish, and race on exactly four fields.
    - Joining the cluster (C15, C16): the decoded user data is, word for word,
      the cluster's command with the labels, node configuration, taint and
      runtime put in that were read for it; the unregistered taint is always
      there.
    - NodeClass (C5, C14, C23, C24, C26, C34): a true condition is backed by
      what was resolved, Ready summarises the others, a change of hash version
      makes nothing drift, the finalizer goes only when nothing refers to the
      class, a copy shares no memory with the original.
    - Choice and catalogue (C17 to C19, C31 to C33, C35, C37 to C39, with
      [createOfferings_exclusive], [calculateCPUOverhead_policy] and
      [List_complete]): each provider's listing against a reference definition,
      coherence of the caches and of the counters in their keys, exclusivity of
      offerings, the arithmetic of capacity and overhead, and the price table
      from the price server through its file to the provider.
    - Controllers (C7, C25, C27 to C30): what is deleted and spared, replaced,
      tagged, untainted and reported, and in which state of the run.
    - C12, C39 and C40, with [List_ignores_system_disk] and
      [getVSwitchID_ignores_zone], show behaviour that departs from what the
      code or its comments intend.

    ** Not modelled

    Karpenter's own controllers, the metrics around the cloud provider, leader
    election and shutting down are not part of the repository's code.  Reads of
    the API server are taken as current: the staleness of the informers' caches
    is not modelled, and neither are the retries of the HTTP clients.  A panic
    of a reconciler ends the process.  Of the controllers in [Manager], those
    that reconcile nodes and NodeClaims on events alone (tagging, interruption,
    telemetry, hash) have their registrations but no theorem on progress.  The
    rate limiter of launches, the token bucket of the retries, the SDK clients,
    [ParseFloat] and the flags of karpenter itself are parameters; that the disk
    filter waits for its workers is taken as given.  [computeEvictionSignal],
    [New] and [YAMLUnmarshal] are not called.
*)

From stdpp Require Export base gmap strings list sorting fin_maps pretty.
From Stdlib Require Export ZArith Lia Ascii.
From Stdlib Require String.
#[global] Close Scope char_scope.


(** ** Scopes, hint databases and tactics of the development *)

Declare Scope go_scope.
Delimit Scope go_scope with go.
#[global] Open Scope go_scope.

(** [go] collects the resolution lemmas that close the common goals of the
    development; [gorw] the rewriting rules of the container operations. *)
Create HintDb go discriminated.
Create Rewrite HintDb gorw.

(** Boolean [decide] tests of the models are opened and closed by
    [case_bool_decide]; [go_cases] additionally splits the conjunctions and
    disjunctions the Go conditions are made of. *)
Ltac go_bool :=
  repeat match goal with
  | H : _ && _ = true |- _ => apply andb_true_iff in H; destruct H
  | H : _ || _ = false |- _ => apply orb_false_iff in H; destruct H
  | H : negb _ = true |- _ => apply negb_true_iff in H
  | H : negb _ = false |- _ => apply negb_false_iff in H
  | H : bool_decide _ = true |- _ => apply bool_decide_eq_true in H
  | H : bool_decide _ = false |- _ => apply bool_decide_eq_false in H
  | |- _ && _ = true => apply andb_true_iff; split
  | |- _ || _ = false => apply orb_false_iff; split
  | |- negb _ = true => apply negb_true_iff
  | |- negb _ = false => apply negb_false_iff
  | |- bool_decide _ = true => apply bool_decide_eq_true
  | |- bool_decide _ = false => apply bool_decide_eq_false
  end.

(** A decidable proposition on closed data, by evaluation. *)
Ltac decide_compute := refine (bool_decide_eq_true_1 _ _); vm_compute; reflexivity.

Ltac go_auto := eauto with go.

(** ** Machine integers

    A Go integer of width [w] is a [Z] kept in range by an explicit wrap. *)

Definition wrap_signed (w : Z) (z : Z) : Z := (z + 2 ^ (w - 1)) mod 2 ^ w - 2 ^ (w - 1).
Definition int32 (z : Z) : Z := wrap_signed 32 z.
Definition int64 (z : Z) : Z := wrap_signed 64 z.
Definition uint64 (z : Z) : Z := z mod 2 ^ 64.
Definition MaxInt64 : Z := 2 ^ 63 - 1.
Definition MinInt64 : Z := - 2 ^ 63.

Lemma wrap_signed_id w z :
  (0 < w)%Z → (- 2 ^ (w - 1) ≤ z < 2 ^ (w - 1))%Z → wrap_signed w z = z.
Proof.
  intros Hw Hz. unfold wrap_signed.
  assert (2 ^ w = 2 * 2 ^ (w - 1))%Z as Hp.
  { rewrite <- Z.pow_succ_r by lia. f_equal. lia. }
  rewrite Z.mod_small; lia.
Qed.

Lemma wrap_signed_range w z :
  (0 < w)%Z → (- 2 ^ (w - 1) ≤ wrap_signed w z < 2 ^ (w - 1))%Z.
Proof.
  intros Hw. unfold wrap_signed.
  assert (2 ^ w = 2 * 2 ^ (w - 1))%Z as Hp.
  { rewrite <- Z.pow_succ_r by lia. f_equal. lia. }
  assert (0 < 2 ^ (w - 1))%Z by (apply Z.pow_pos_nonneg; lia).
  pose proof (Z.mod_pos_bound (z + 2 ^ (w - 1)) (2 ^ w)). lia.
Qed.

Lemma int32_id z : (- 2 ^ 31 ≤ z < 2 ^ 31)%Z → int32 z = z.
Proof. intros. apply wrap_signed_id; [lia | exact H]. Qed.
Lemma int64_id z : (- 2 ^ 63 ≤ z < 2 ^ 63)%Z → int64 z = z.
Proof. intros. apply wrap_signed_id; [lia | exact H]. Qed.
Lemma int32_range z : (- 2 ^ 31 ≤ int32 z < 2 ^ 31)%Z.
Proof. apply (wrap_signed_range 32). lia. Qed.
Lemma int64_range z : (- 2 ^ 63 ≤ int64 z < 2 ^ 63)%Z.
Proof. apply (wrap_signed_range 64). lia. Qed.

(** Wrapped arithmetic is exact modulo 2^64: what is subtracted can be added
    back. *)
Lemma int64_sub_add a b : (- 2 ^ 63 ≤ a < 2 ^ 63)%Z → int64 (int64 (a - b) + b) = a.
Proof.
  intros Ha. rewrite <- (int64_id a Ha) at 2. unfold int64, wrap_signed.
  change (2 ^ (64 - 1))%Z with (2 ^ 63)%Z. f_equal.
  replace ((a - b + 2 ^ 63) mod 2 ^ 64 - 2 ^ 63 + b + 2 ^ 63)%Z
    with ((a - b + 2 ^ 63) mod 2 ^ 64 + b)%Z by lia.
  rewrite Zplus_mod_idemp_l. f_equal. lia.
Qed.

(** A property of the integers up to a bound, by evaluation. *)
Definition check_upto (P : Z → bool) (n : nat) : bool := forallb (λ k, P (Z.of_nat k)) (seq 0 (S n)).
Lemma forall_upto (P : Z → bool) (n : nat) :
  check_upto P n = true → ∀ z, (0 ≤ z ≤ Z.of_nat n)%Z → P z = true.
Proof.
  unfold check_upto. rewrite forallb_forall. intros H z Hz. rewrite <- (Z2Nat.id z) by lia.
  apply H, in_seq. lia.
Qed.

(** ** Durations ([time.Duration], in nanoseconds) *)

Definition Second : Z := 1000000000.
Definition Minute : Z := 60 * Second.
Definition Hour : Z := 60 * Minute.

(** ** Strings

    A Go string is a byte string; comparison is bytewise. *)

Definition str_ltb (s t : string) : bool := String.ltb s t.

Fixpoint has_prefix (p s : string) : bool :=
  match p, s with
  | EmptyString, _ => true
  | String a p', String b s' => bool_decide (a = b) && has_prefix p' s'
  | _, _ => false
  end.

(** [strings.CutPrefix]: what follows the prefix. *)
Fixpoint strip_prefix (p s : string) : option string :=
  match p, s with
  | EmptyString, _ => Some s
  | String a p', String b s' => if bool_decide (a = b) then strip_prefix p' s' else None
  | _, _ => None
  end.

(** What follows the first occurrence of [p]. *)
Fixpoint after_first (p s : string) : option string :=
  match strip_prefix p s with
  | Some r => Some r
  | None => match s with
            | String _ s' => after_first p s'
            | EmptyString => None
            end
  end.

(** [strings.Contains]. *)
Fixpoint str_contains (s sub : string) : bool :=
  has_prefix sub s ||
  match s with
  | EmptyString => false
  | String _ s' => str_contains s' sub
  end.

(** [strings.Split] on a one-byte separator. *)
Fixpoint str_split (c : ascii) (s : string) : list string :=
  match s with
  | EmptyString => [EmptyString]
  | String a s' =>
      if bool_decide (a = c) then EmptyString :: str_split c s'
      else match str_split c s' with
           | [] => [String a EmptyString]
           | h :: t => String a h :: t
           end
  end.

Fixpoint str_has_char (c : ascii) (s : string) : bool :=
  match s with
  | EmptyString => false
  | String a s' => bool_decide (a = c) || str_has_char c s'
  end.

(** The part of [s] after the last occurrence of [c], if there is one. *)
Fixpoint after_last (c : ascii) (s : string) : option string :=
  match s with
  | EmptyString => None
  | String a s' =>
      match after_last c s' with
      | Some r => Some r
      | None => if bool_decide (a = c) then Some s' else None
      end
  end.

(** [strings.ToLower] on ASCII letters (the inputs are ECS specification
    strings, which are ASCII). *)
Definition ascii_lower (a : ascii) : ascii :=
  let n := N_of_ascii a in
  if (65 <=? n)%N && (n <=? 90)%N then ascii_of_N (n + 32) else a.

Fixpoint str_map (f : ascii → ascii) (s : string) : string :=
  match s with
  | EmptyString => EmptyString
  | String a s' => String (f a) (str_map f s')
  end.
Definition str_lower (s : string) : string := str_map ascii_lower s.

(** [strings.ReplaceAll] of one byte by another. *)
Definition str_replace_char (x y : ascii) (s : string) : string :=
  str_map (λ a, if bool_decide (a = x) then y else a) s.

Lemma strip_prefix_Some p s r : strip_prefix p s = Some r ↔ s = p +:+ r.
Proof.
  revert s. induction p as [|a p IH]; intros s.
  - change (EmptyString +:+ r) with r. destruct s; simpl; split; congruence.
  - change (String a p +:+ r) with (String a (p +:+ r)).
    destruct s as [|b s]; simpl; [done|]. case_bool_decide as Hab.
    + subst. rewrite IH. split; congruence.
    + split; [done|]. congruence.
Qed.

Lemma str_app_assoc (a b c : string) : (a +:+ b) +:+ c = a +:+ b +:+ c.
Proof.
  induction a as [|x a IH]; [done|].
  change (String x (a +:+ b) +:+ c = String x (a +:+ b +:+ c)).
  change (String x ((a +:+ b) +:+ c) = String x (a +:+ b +:+ c)). by rewrite IH.
Qed.

Lemma str_length_app (a b : string) : String.length (a +:+ b) = String.length a + String.length b.
Proof.
  induction a as [|x a IH]; [done|]. change (String x a +:+ b) with (String x (a +:+ b)).
  simpl. by rewrite IH.
Qed.

Lemma suffix_of_longer p q r s :
  p +:+ r = q +:+ s → String.length p ≤ String.length q → ∃ c, r = c +:+ s.
Proof.
  revert q. induction p as [|a p IH]; intros q.
  - change (EmptyString +:+ r) with r. intros -> _. by exists q.
  - change (String a p +:+ r) with (String a (p +:+ r)).
    destruct q as [|b q]; [simpl; lia|]. change (String b q +:+ s) with (String b (q +:+ s)).
    intros [= _ Heq] Hl. apply (IH q); [done|simpl in Hl; lia].
Qed.

(** The first occurrence is found whenever there is one, and leaves the longest
    rest: a later occurrence of anything can still be found in it. *)
Lemma after_first_Some p s r : after_first p s = Some r → ∃ a, s = a +:+ p +:+ r.
Proof.
  revert r. induction s as [|b s IH]; intros r; cbn [after_first]; destruct (strip_prefix p _) eqn:H.
  - intros [= ->]. apply strip_prefix_Some in H. by exists "".
  - done.
  - intros [= ->]. apply strip_prefix_Some in H. by exists "".
  - intros [a ->]%IH. by exists (String b a).
Qed.
Lemma after_first_complete p a r :
  ∃ r' c, after_first p (a +:+ p +:+ r) = Some r' ∧ r' = c +:+ r.
Proof.
  induction a as [|b a IH].
  - exists r, "". split; [|done]. assert (strip_prefix p (p +:+ r) = Some r) as H by by apply strip_prefix_Some.
    change ("" +:+ p +:+ r) with (p +:+ r). destruct (p +:+ r); cbn [after_first]; by rewrite H.
  - change (String b a +:+ p +:+ r) with (String b (a +:+ p +:+ r)). cbn [after_first].
    destruct (strip_prefix p (String b (a +:+ p +:+ r))) as [r0|] eqn:H; [|done].
    apply strip_prefix_Some in H. rewrite <- (str_app_assoc a p r) in H.
    destruct (suffix_of_longer p (String b (a +:+ p)) r0 r) as [c Hc]; [done| |by exists r0, c].
    simpl. rewrite str_length_app. lia.
Qed.

Lemma str_has_char_app c s t :
  str_has_char c (s +:+ t) = str_has_char c s || str_has_char c t.
Proof.
  induction s as [|a s IH]; [done|].
  change (String a s +:+ t) with (String a (s +:+ t)). simpl.
  rewrite IH. by destruct (bool_decide _).
Qed.

Lemma after_last_none c s : str_has_char c s = false → after_last c s = None.
Proof.
  induction s as [|a s IH]; simpl; [done|]. intros H.
  apply orb_false_iff in H as [H1 H2]. by rewrite (IH H2), H1.
Qed.

Lemma after_last_app c s t :
  str_has_char c t = false → after_last c (s +:+ String c t) = Some t.
Proof.
  intros Ht. induction s as [|a s IH].
  - change ("" +:+ String c t) with (String c t). simpl.
    rewrite after_last_none by done. by rewrite bool_decide_true.
  - change (String a s +:+ String c t) with (String a (s +:+ String c t)).
    simpl. by rewrite IH.
Qed.

Lemma str_split_no_char c s : str_has_char c s = false → str_split c s = [s].
Proof.
  induction s as [|a s IH]; simpl; [done|]. intros H.
  apply orb_false_iff in H as [-> H2]. by rewrite (IH H2).
Qed.

Lemma str_split_app c s t :
  str_has_char c s = false → str_split c (s +:+ String c t) = s :: str_split c t.
Proof.
  induction s as [|a s IH]; intros H.
  - change ("" +:+ String c t) with (String c t). simpl. by rewrite bool_decide_true.
  - simpl in H. apply orb_false_iff in H as [H1 H2].
    change (String a s +:+ String c t) with (String a (s +:+ String c t)).
    simpl. by rewrite H1, (IH H2).
Qed.

(** Decimal numerals of natural numbers contain no dash. *)
Lemma pretty_N_go_no_dash x s :
  str_has_char "-"%char s = false → str_has_char "-"%char (pretty_N_go x s) = false.
Proof.
  revert s. induction (N.lt_wf_0 x) as [x _ IH]; intros s Hs.
  assert (x = 0 ∨ 0 < x)%N as [->|Hx] by lia; [done|].
  rewrite pretty_N_go_step by done. apply IH; [by apply N.div_lt|]. simpl.
  rewrite Hs, orb_false_r. apply bool_decide_false. unfold pretty_N_char. by repeat case_match.
Qed.
Lemma pretty_no_dash (z : Z) : (0 ≤ z)%Z → str_has_char "-"%char (pretty z) = false.
Proof. intros Hz. destruct z as [|x|x]; [done| |lia]. by apply pretty_N_go_no_dash. Qed.

(** Two strings cut at the first occurrence of a separator. *)
Lemma cut_inj c s s' t t' :
  str_has_char c s = false → str_has_char c s' = false →
  s +:+ String c t = s' +:+ String c t' → s = s' ∧ t = t'.
Proof.
  intros Hs Hs' H.
  assert (str_split c (s +:+ String c t) = str_split c (s' +:+ String c t')) as Hsp by by rewrite H.
  rewrite !str_split_app in Hsp by done. injection Hsp as -> _.
  apply (inj (String.app s')) in H. by injection H.
Qed.

(** ** Slices: the functions of [samber/lo] and [slices] the code uses *)

(** [lo.Find]: the first element satisfying the predicate. *)
Fixpoint lo_find {A} (p : A → bool) (l : list A) : option A :=
  match l with
  | [] => None
  | x :: l' => if p x then Some x else lo_find p l'
  end.

(** [lo.MinBy] on a non-empty slice with head [x]. *)
Fixpoint lo_min_by_from {A} (less : A → A → bool) (x : A) (l : list A) : A :=
  match l with
  | [] => x
  | y :: l' => lo_min_by_from less (if less y x then y else x) l'
  end.
Definition lo_min_by {A} (less : A → A → bool) (l : list A) : option A :=
  match l with
  | [] => None
  | x :: l' => Some (lo_min_by_from less x l')
  end.

(** [lo.Uniq]: first occurrences, in order. *)
Fixpoint lo_uniq_from (seen : gset string) (l : list string) : list string :=
  match l with
  | [] => []
  | x :: l' =>
      if bool_decide (x ∈ seen) then lo_uniq_from seen l'
      else x :: lo_uniq_from ({[x]} ∪ seen) l'
  end.
Definition lo_uniq (l : list string) : list string := lo_uniq_from ∅ l.

(** [lo.Compact] at type [string]: the zero value is dropped. *)
Definition lo_compact (l : list string) : list string := filter (λ s, s ≠ "") l.

(** [lo.Assign] of two maps: the second wins. *)
Definition lo_assign {V} (m1 m2 : gmap string V) : gmap string V := m2 ∪ m1.

(** [bfilter]: [lo.Filter] with a Boolean predicate. *)
Definition bfilter {A} (p : A → bool) (l : list A) : list A := filter (λ x, p x = true) l.

Lemma lo_find_Some {A} (p : A → bool) l x : lo_find p l = Some x → x ∈ l ∧ p x = true.
Proof.
  induction l as [|y l IH]; simpl; [done|]. destruct (p y) eqn:Hp.
  - intros [= ->]. split; [left | done].
  - intros H. destruct (IH H). split; [by right | done].
Qed.

Lemma lo_find_None {A} (p : A → bool) l : lo_find p l = None ↔ ∀ x, x ∈ l → p x = false.
Proof.
  induction l as [|y l IH]; simpl.
  - split; [by intros _ x ?%elem_of_nil | done].
  - destruct (p y) eqn:Hp.
    + split; [done|]. intros H. specialize (H y (list_elem_of_here _ _)). congruence.
    + rewrite IH. split.
      * by intros H x [->|Hx]%elem_of_cons; [| apply H].
      * intros H x Hx. apply H. by right.
Qed.

Lemma elem_of_bfilter {A} (p : A → bool) l x : x ∈ bfilter p l ↔ p x = true ∧ x ∈ l.
Proof. unfold bfilter. by rewrite list_elem_of_filter. Qed.

Lemma bfilter_app {A} (p : A → bool) l k : bfilter p (l ++ k) = bfilter p l ++ bfilter p k.
Proof. apply filter_app. Qed.

Lemma bfilter_cons {A} (p : A → bool) x l :
  bfilter p (x :: l) = if p x then x :: bfilter p l else bfilter p l.
Proof. unfold bfilter. rewrite filter_cons. destruct (p x); by case_decide. Qed.

Lemma bfilter_nil_iff {A} (p : A → bool) l : bfilter p l = [] ↔ ∀ x, x ∈ l → p x = false.
Proof.
  induction l as [|y l IH]; [split; [by intros _ x ?%elem_of_nil | done]|].
  rewrite bfilter_cons. destruct (p y) eqn:Hp.
  - split; [done|]. intros H. specialize (H y (list_elem_of_here _ _)). congruence.
  - rewrite IH. split.
    + by intros H x [->|Hx]%elem_of_cons; [| apply H].
    + intros H x Hx. apply H. by right.
Qed.

Lemma bfilter_sublist {A} (p : A → bool) l : bfilter p l `sublist_of` l.
Proof. apply sublist_filter. Qed.

Lemma fmap_sublist_of {A B} (f : A → B) (l k : list A) :
  l `sublist_of` k → (f <$> l) `sublist_of` (f <$> k).
Proof. induction 1; simpl; by constructor. Qed.

Lemma bfilter_length {A} (p : A → bool) l : length (bfilter p l) ≤ length l.
Proof. apply length_filter. Qed.

#[export] Hint Rewrite @elem_of_bfilter @bfilter_app @bfilter_cons : gorw.

(** A minimum by a strict weak order: no element is smaller than it. *)
Class StrictWeakOrder {A} (less : A → A → bool) : Prop := {
  swo_asym x y : less x y = true → less y x = false;
  swo_neg_trans x y z : less x y = false → less y z = false → less x z = false;
}.

(** [less] orders the elements of [l]; on other values it may be anything. *)
Record orders {A} (less : A → A → bool) (l : list A) : Prop := {
  orders_asym x y : x ∈ l → y ∈ l → less x y = true → less y x = false;
  orders_neg_trans x y z : x ∈ l → y ∈ l → z ∈ l →
    less x y = false → less y z = false → less x z = false;
}.

Lemma swo_orders {A} (less : A → A → bool) `{!StrictWeakOrder less} l : orders less l.
Proof. constructor; intros; [by apply swo_asym|by eapply swo_neg_trans]. Qed.

Lemma orders_subset {A} (less : A → A → bool) l k : (∀ x, x ∈ k → x ∈ l) → orders less l → orders less k.
Proof. intros H []. constructor; eauto. Qed.

(** [x] may precede [y] in a slice sorted by [less]. *)
Definition not_after {A} (less : A → A → bool) (x y : A) : Prop := less y x = false.
#[export] Instance not_after_dec {A} (less : A → A → bool) : RelDecision (not_after less).
Proof. intros x y. unfold not_after. apply _. Defined.

Section min_by.
Context {A : Type} (less : A → A → bool) `{!StrictWeakOrder less}.

Lemma swo_irrefl x : less x x = false.
Proof. destruct (less x x) eqn:H; [|done]. rewrite <- H. by apply swo_asym. Qed.

Lemma lo_min_by_from_spec l x :
  lo_min_by_from less x l ∈ x :: l ∧
  ∀ y, y ∈ x :: l → less y (lo_min_by_from less x l) = false.
Proof.
  revert x. induction l as [|z l IH]; intros x; simpl.
  { split; [left|]. intros y [->|[]%elem_of_nil]%elem_of_cons. apply swo_irrefl. }
  destruct (IH (if less z x then z else x)) as [Hin Hmin]. split.
  - apply elem_of_cons in Hin as [-> | Hin]; [|by do 2 right].
    destruct (less z x); [right; left | left].
  - pose proof (Hmin _ (list_elem_of_here _ _)) as Hh.
    intros y [->|[->|Hy]%elem_of_cons]%elem_of_cons; [| |by apply Hmin; right].
    + destruct (less z x) eqn:Hzx; [|done].
      eapply swo_neg_trans; [|done]. by apply swo_asym.
    + destruct (less z x) eqn:Hzx; [done|]. by eapply swo_neg_trans.
Qed.

Lemma lo_min_by_spec l m :
  lo_min_by less l = Some m → m ∈ l ∧ ∀ y, y ∈ l → less y m = false.
Proof. destruct l as [|x l]; [done|]. intros [= <-]. apply lo_min_by_from_spec. Qed.
End min_by.

(** Lexicographic combination of two strict weak orders, as the comparators of
    [sort.Slice] write it. *)
Lemma lex_swo {A} (lt1 lt2 : A → A → bool) `{!StrictWeakOrder lt1, !StrictWeakOrder lt2} :
  StrictWeakOrder (λ x y, if negb (lt1 x y) && negb (lt1 y x) then lt2 x y else lt1 x y).
Proof.
  constructor.
  - intros x y. destruct (lt1 x y) eqn:Hxy, (lt1 y x) eqn:Hyx; simpl; try done.
    + apply swo_asym in Hxy. congruence.
    + apply swo_asym.
  - intros x y z.
    destruct (lt1 x y) eqn:Hxy, (lt1 y x) eqn:Hyx; simpl; try done;
    destruct (lt1 y z) eqn:Hyz, (lt1 z y) eqn:Hzy; simpl; try done;
    intros H1 H2;
    pose proof (swo_neg_trans (less := lt1) x y z);
    pose proof (swo_neg_trans (less := lt1) y z x);
    pose proof (swo_neg_trans (less := lt1) z x y);
    pose proof (swo_neg_trans (less := lt1) z y x);
    pose proof (swo_neg_trans (less := lt2) x y z);
    destruct (lt1 x z) eqn:Hxz, (lt1 z x) eqn:Hzx; simpl; intuition congruence.
Qed.

(** Strings are ordered strictly by [<]. *)
Lemma str_ltb_compare s t : str_ltb s t = true ↔ String.compare s t = Lt.
Proof. unfold str_ltb, String.ltb. destruct (String.compare s t); naive_solver. Qed.

Lemma str_leb_trans s t u : String.leb s t = true → String.leb t u = true → String.leb s u = true.
Proof.
  intros Hs Ht. assert (String.le s u) as H; [|by apply Is_true_true in H].
  transitivity t; by apply Is_true_true.
Qed.

Lemma str_ltb_false s t : str_ltb s t = false ↔ String.leb t s = true.
Proof.
  unfold str_ltb, String.ltb, String.leb. rewrite String.compare_antisym.
  destruct (String.compare t s); simpl; naive_solver.
Qed.

#[export] Instance str_ltb_swo : StrictWeakOrder str_ltb.
Proof.
  constructor.
  - intros s t. rewrite str_ltb_compare, str_ltb_false. unfold String.leb. by intros ->.
  - intros s t u. rewrite !str_ltb_false. intros. by eapply str_leb_trans.
Qed.

Lemma lo_min_by_from_elem {A} (less : A → A → bool) l x : lo_min_by_from less x l ∈ x :: l.
Proof.
  revert x. induction l as [|z l IH]; intros x; simpl; [left|].
  specialize (IH (if less z x then z else x)). destruct (less z x); set_solver.
Qed.
Lemma lo_min_by_elem {A} (less : A → A → bool) l m : lo_min_by less l = Some m → m ∈ l.
Proof. destruct l as [|x l]; [done|]. intros [= <-]. apply lo_min_by_from_elem. Qed.

Lemma lo_min_by_is_Some {A} (less : A → A → bool) l :
  l ≠ [] → is_Some (lo_min_by less l).
Proof. destruct l; [done|]. intros _. by eexists. Qed.

Lemma lo_uniq_from_spec seen l x : x ∈ lo_uniq_from seen l ↔ x ∈ l ∧ x ∉ seen.
Proof.
  revert seen. induction l as [|y l IH]; intros seen; simpl.
  - set_solver.
  - case_bool_decide; [rewrite IH; set_solver|].
    rewrite elem_of_cons, IH. destruct (decide (x = y)); set_solver.
Qed.

Lemma elem_of_lo_uniq l x : x ∈ lo_uniq l ↔ x ∈ l.
Proof. unfold lo_uniq. rewrite lo_uniq_from_spec. set_solver. Qed.

Lemma NoDup_lo_uniq_from seen l : NoDup (lo_uniq_from seen l).
Proof.
  revert seen. induction l as [|y l IH]; intros seen; simpl; [constructor|].
  case_bool_decide; [done|]. constructor; [|done].
  rewrite lo_uniq_from_spec. set_solver.
Qed.

Lemma elem_of_lo_compact l x : x ∈ lo_compact l ↔ x ∈ l ∧ x ≠ "".
Proof. unfold lo_compact. rewrite list_elem_of_filter. tauto. Qed.

Lemma lookup_lo_assign {V} (m1 m2 : gmap string V) k :
  lo_assign m1 m2 !! k = match m2 !! k with Some v => Some v | None => m1 !! k end.
Proof.
  unfold lo_assign. destruct (m2 !! k) eqn:H.
  - by apply lookup_union_Some_l.
  - by rewrite lookup_union_r.
Qed.
#[export] Hint Rewrite @lookup_lo_assign : gorw.

Lemma bool_decide_if_ext {A} (P Q : Prop) `{!Decision P, !Decision Q} (a b : A) :
  (P ↔ Q) → (if bool_decide P then a else b) = (if bool_decide Q then a else b).
Proof. intros H. by rewrite (bool_decide_ext P Q H). Qed.

(** A left fold that inserts under a key computed from the element. *)
Lemma fold_insert_lookup {A V} (key : A → string) (val : A → V) (l : list A) (m : gmap string V) k :
  foldl (λ acc x, <[key x := val x]> acc) m l !! k =
  match lo_find (λ x, bool_decide (key x = k)) (reverse l) with
  | Some x => Some (val x)
  | None => m !! k
  end.
Proof.
  induction l as [|x l IH] using rev_ind; [done|].
  rewrite foldl_app, reverse_app. simpl. case_bool_decide as Hk.
  - subst. by rewrite lookup_insert_eq.
  - by rewrite lookup_insert_ne.
Qed.

(** ** The Go runtime's unspecified choices

    The order in which [range] visits a map, the order of
    [sets.Set.UnsortedList], the result of the unstable [sort.Slice] among
    equal elements, and the random generators are left open: a runtime is any
    instance of this class, every theorem holds for all of them, and
    [default_runtime] is the instance the examples compute with.  The [nat]
    argument is the program point of the iteration, so that two iterations
    over the same map may visit it in different orders. *)

Class GoRuntime := {
  range_map : ∀ {V}, nat → gmap string V → list (string * V);
  range_map_perm : ∀ V site (m : gmap string V), range_map site m ≡ₚ map_to_list m;
  unsorted_list : nat → gset string → list string;
  unsorted_list_perm : ∀ site s, unsorted_list site s ≡ₚ elements s;
  sort_slice : ∀ {A}, (A → A → bool) → list A → list A;
  sort_slice_perm : ∀ A (less : A → A → bool) l, sort_slice less l ≡ₚ l;
  sort_slice_sorted_on : ∀ A (less : A → A → bool) l, orders less l →
    StronglySorted (not_after less) (sort_slice less l);
  rand_intn : nat → Z → Z;
  rand_intn_bound : ∀ site n, (0 < n)%Z → (0 ≤ rand_intn site n < n)%Z;
}.
#[export] Hint Resolve range_map_perm unsorted_list_perm sort_slice_perm : go.

Section runtime.
Context {RT : GoRuntime}.

(** [lo.Keys] and [lo.Values]. *)
Definition map_keys {V} (site : nat) (m : gmap string V) : list string := (range_map site m).*1.
Definition map_values {V} (site : nat) (m : gmap string V) : list V := (range_map site m).*2.

Lemma elem_of_range_map {V} site (m : gmap string V) k v :
  (k, v) ∈ range_map site m ↔ m !! k = Some v.
Proof. by rewrite range_map_perm, elem_of_map_to_list. Qed.

Lemma elem_of_map_values {V} site (m : gmap string V) v :
  v ∈ map_values site m ↔ ∃ k, m !! k = Some v.
Proof.
  unfold map_values. rewrite list_elem_of_fmap. split.
  - intros ([k v'] & -> & H). exists k. by apply elem_of_range_map in H.
  - intros (k & Hk). exists (k, v). by rewrite elem_of_range_map.
Qed.

Lemma elem_of_map_keys {V} site (m : gmap string V) k :
  k ∈ map_keys site m ↔ is_Some (m !! k).
Proof.
  unfold map_keys. rewrite list_elem_of_fmap. split.
  - intros ([k' v] & -> & H). exists v. by apply elem_of_range_map in H.
  - intros [v ?]. exists (k, v). by rewrite elem_of_range_map.
Qed.

Lemma NoDup_map_keys {V} site (m : gmap string V) : NoDup (map_keys site m).
Proof. unfold map_keys. rewrite range_map_perm. apply NoDup_fst_map_to_list. Qed.

Lemma length_map_values {V} site (m : gmap string V) : length (map_values site m) = size m.
Proof.
  unfold map_values. rewrite length_fmap, (Permutation_length (range_map_perm _ _ _)).
  by rewrite length_map_to_list.
Qed.

Lemma elem_of_unsorted_list site s x : x ∈ unsorted_list site s ↔ x ∈ s.
Proof. by rewrite unsorted_list_perm, elem_of_elements. Qed.

Lemma unsorted_list_singleton site x : unsorted_list site {[x]} = [x].
Proof.
  apply Permutation_singleton_r. rewrite unsorted_list_perm.
  by rewrite elements_singleton.
Qed.

Lemma sort_slice_sorted {A} (less : A → A → bool) `{!StrictWeakOrder less} l :
  StronglySorted (not_after less) (sort_slice less l).
Proof. apply sort_slice_sorted_on. by apply swo_orders. Qed.

(** The first element of a sorted slice is a least one. *)
Lemma sort_slice_head {A} (less : A → A → bool) l x l' :
  orders less l → sort_slice less l = x :: l' → x ∈ l ∧ ∀ y, y ∈ l → less y x = false.
Proof.
  intros Ho Hs. assert (∀ y, y ∈ l ↔ y ∈ x :: l') as Hin by (intros y; by rewrite <- Hs, sort_slice_perm).
  assert (x ∈ l) as Hx by (apply Hin; left). split; [done|]. intros y Hy.
  apply Hin, elem_of_cons in Hy as [->|Hy].
  - destruct (less x x) eqn:Hxx; [|done]. by pose proof (orders_asym _ _ Ho x x Hx Hx Hxx); congruence.
  - pose proof (sort_slice_sorted_on _ _ _ Ho) as Hss. rewrite Hs in Hss.
    apply StronglySorted_inv in Hss as [_ Hall]. rewrite Forall_forall in Hall. exact (Hall y Hy).
Qed.

Lemma elem_of_sort_slice {A} (less : A → A → bool) l x : x ∈ sort_slice less l ↔ x ∈ l.
Proof. by rewrite sort_slice_perm. Qed.
End runtime.

(** ** Collecting under a key

    The listings index what the service returns by its identifier and return
    the values of the map. *)

Definition collect_by {A} (key : A → string) (m : gmap string A) (v : A) : gmap string A :=
  <[key v := v]> m.

(** The key identifies the elements of the list. *)
Definition identifies {A} (key : A → string) (l : list A) : Prop :=
  ∀ v w, v ∈ l → w ∈ l → key v = key w → v = w.

Lemma identifies_NoDup {A} (key : A → string) l : NoDup (key <$> l) → identifies key l.
Proof.
  intros Hnd v w [i Hi]%list_elem_of_lookup [j Hj]%list_elem_of_lookup Heq.
  assert (i = j) as ->; [|congruence].
  apply (NoDup_lookup _ i j (key v) Hnd); rewrite list_lookup_fmap; [by rewrite Hi|by rewrite Hj, Heq].
Qed.

Section collecting.
Context {RT : GoRuntime} {A : Type} (key : A → string).

Lemma lookup_collect l m k :
  foldl (collect_by key) m l !! k =
  match lo_find (λ v, bool_decide (key v = k)) (reverse l) with
  | Some v => Some v
  | None => m !! k
  end.
Proof. apply (fold_insert_lookup key id). Qed.

Lemma elem_of_collected site l v :
  identifies key l → v ∈ map_values site (foldl (collect_by key) ∅ l) ↔ v ∈ l.
Proof.
  intros Hid. rewrite elem_of_map_values. split.
  - intros [k Hk]. rewrite lookup_collect in Hk.
    destruct (lo_find _ _) as [w|] eqn:Hf; [|by rewrite lookup_empty in Hk].
    apply lo_find_Some in Hf as [Hin _]. rewrite elem_of_reverse in Hin. naive_solver.
  - intros Hv. exists (key v). rewrite lookup_collect.
    destruct (lo_find _ _) as [w|] eqn:Hf.
    + apply lo_find_Some in Hf as [Hin Heq%bool_decide_eq_true].
      rewrite elem_of_reverse in Hin. by rewrite (Hid w v).
    + rewrite lo_find_None in Hf. specialize (Hf v). rewrite bool_decide_true in Hf; [|done].
      exfalso. assert (true = false); [|done]. apply Hf. by rewrite elem_of_reverse.
Qed.

Lemma NoDup_collected_keys site l : NoDup (key <$> map_values site (foldl (collect_by key) ∅ l)).
Proof.
  assert (∀ k v, foldl (collect_by key) ∅ l !! k = Some v → key v = k) as Hkey.
  { intros k v Hk. rewrite lookup_collect in Hk.
    destruct (lo_find _ _) as [w|] eqn:Hf; [|by rewrite lookup_empty in Hk].
    apply lo_find_Some in Hf as [_ Heq%bool_decide_eq_true]. naive_solver. }
  unfold map_values. rewrite <- list_fmap_compose.
  apply NoDup_fmap_2_strong; [|rewrite range_map_perm; apply NoDup_map_to_list].
  intros [k1 v1] [k2 v2] H1%elem_of_range_map H2%elem_of_range_map Heq. simpl in Heq.
  apply Hkey in H1 as Hk1. apply Hkey in H2 as Hk2. subst. rewrite Heq in *. congruence.
Qed.

Lemma NoDup_collected site l : NoDup (map_values site (foldl (collect_by key) ∅ l)).
Proof. eapply NoDup_fmap_1, NoDup_collected_keys. Qed.
End collecting.

(** Insertion sort, what [sort.Slice] runs on short slices. *)
Fixpoint insert_by {A} (less : A → A → bool) (x : A) (l : list A) : list A :=
  match l with
  | [] => [x]
  | y :: l' => if less x y then x :: l else y :: insert_by less x l'
  end.
Definition insertion_sort {A} (less : A → A → bool) (l : list A) : list A :=
  foldl (λ acc x, insert_by less x acc) [] l.

Section insertion_sort.
Context {A : Type} (less : A → A → bool).

Lemma insert_by_perm x l : insert_by less x l ≡ₚ x :: l.
Proof. induction l as [|y l IH]; simpl; [done|]. destruct (less x y); [done|]. by rewrite IH, Permutation_swap. Qed.

Lemma insertion_sort_from_perm acc l : foldl (λ acc x, insert_by less x acc) acc l ≡ₚ acc ++ l.
Proof.
  revert acc. induction l as [|x l IH]; intros acc; simpl; [by rewrite app_nil_r|].
  rewrite IH, insert_by_perm. simpl. by rewrite Permutation_middle.
Qed.

Lemma insert_by_sorted x l :
  orders less (x :: l) → StronglySorted (not_after less) l → StronglySorted (not_after less) (insert_by less x l).
Proof.
  induction l as [|y l IH]; intros Ho Hs; simpl; [by repeat constructor|].
  apply StronglySorted_inv in Hs as [Hs Hy]. rewrite Forall_forall in Hy.
  destruct (less x y) eqn:Hxy.
  - constructor; [by constructor; [|rewrite Forall_forall]|].
    assert (less y x = false) as Hyx by (apply (orders_asym _ _ Ho x y); set_solver).
    rewrite Forall_forall. intros z [->|Hz]%elem_of_cons; [done|].
    apply (orders_neg_trans _ _ Ho z y x); [set_solver..|by apply Hy|done].
  - constructor.
    + apply IH; [|done]. apply (orders_subset _ (x :: y :: l)); [set_solver|done].
    + rewrite Forall_forall. intros z. rewrite insert_by_perm.
      intros [->|Hz]%elem_of_cons; [done|by apply Hy].
Qed.

Lemma insertion_sort_sorted l : orders less l → StronglySorted (not_after less) (insertion_sort less l).
Proof.
  intros Ho. unfold insertion_sort.
  assert (∀ acc, orders less (acc ++ l) → StronglySorted (not_after less) acc →
    StronglySorted (not_after less) (foldl (λ acc x, insert_by less x acc) acc l)) as H;
    [|by apply H; [|constructor]].
  clear Ho. induction l as [|x l IH]; intros acc Ho Hs; simpl; [done|]. apply IH.
  - apply (orders_subset _ (acc ++ x :: l)); [|done]. intros y. rewrite insert_by_perm. set_solver.
  - apply insert_by_sorted; [|done]. apply (orders_subset _ (acc ++ x :: l)); [set_solver|done].
Qed.
End insertion_sort.

#[export] Program Instance default_runtime : GoRuntime := {|
  range_map V site m := map_to_list m;
  unsorted_list site s := elements s;
  sort_slice A less l := insertion_sort less l;
  rand_intn site n := 0%Z;
|}.
Next Obligation. done. Qed.
Next Obligation. done. Qed.
Next Obligation. intros. apply insertion_sort_from_perm. Qed.
Next Obligation. intros. by apply insertion_sort_sorted. Qed.
Next Obligation. intros; lia. Qed.
