(* ===== verification/Effects.v ===== *)
(** * Errors and effects

    The Go error values the code builds and inspects ([error], with the
    unwrapping of [errors.As]), the outcome of a fallible call ([result]: a
    value, an error, or a panic), and the state-and-error monad [M] in which the
    stateful components are written.  Also holds [pkg/utils/alierrors]. *)

From S2P Require Import Prelude.

(** ** Error values

    One constructor per way the code makes an error.  [WrapError] is
    [fmt.Errorf] with [%w] (and [alierrors.WithRequestID]); the karpenter error
    structs embed an [error] without an [Unwrap] method, so [errors.As] stops
    at them. *)

Inductive StatusReason := ReasonNotFound | ReasonConflict | ReasonOther.
#[export] Instance StatusReason_eq_dec : EqDecision StatusReason.
Proof. solve_decision. Defined.

Inductive error :=
  | ErrorString (msg : string)
  | WrapError (msg : string) (e : error)
  | NodeClaimNotFoundError (e : error)
  | InsufficientCapacityError (e : error)
  | NodeClassNotReadyError (e : error)
  | InstanceStateOperationNotSupportedError (instanceID : string)
  | SDKError (StatusCode : option Z) (msg : string)
  | StatusError (reason : StatusReason) (msg : string)
  | MultiError (es : list error).

(** [errors.As]: the first error of the tree, in pre-order, matching [p]. *)
Fixpoint errors_as (p : error → bool) (e : error) : option error :=
  if p e then Some e
  else match e with
       | WrapError _ e' => errors_as p e'
       | MultiError es =>
           (fix go (es : list error) : option error :=
              match es with
              | [] => None
              | e' :: es' => match errors_as p e' with
                             | Some r => Some r
                             | None => go es'
                             end
              end) es
       | _ => None
       end.

Definition is_NodeClaimNotFound (e : error) : bool :=
  match e with NodeClaimNotFoundError _ => true | _ => false end.
Definition is_InsufficientCapacity (e : error) : bool :=
  match e with InsufficientCapacityError _ => true | _ => false end.
Definition is_NodeClassNotReady (e : error) : bool :=
  match e with NodeClassNotReadyError _ => true | _ => false end.
Definition is_InstanceStateNotSupported (e : error) : bool :=
  match e with InstanceStateOperationNotSupportedError _ => true | _ => false end.
Definition is_SDKError (e : error) : bool :=
  match e with SDKError _ _ => true | _ => false end.
Definition is_StatusError (e : error) : bool :=
  match e with StatusError _ _ => true | _ => false end.

(** karpenter's [IsNodeClaimNotFoundError] and friends. *)
Definition IsNodeClaimNotFoundError (e : error) : bool :=
  bool_decide (is_Some (errors_as is_NodeClaimNotFound e)).
Definition IsInsufficientCapacityError (e : error) : bool :=
  bool_decide (is_Some (errors_as is_InsufficientCapacity e)).
Definition IsNodeClassNotReadyError (e : error) : bool :=
  bool_decide (is_Some (errors_as is_NodeClassNotReady e)).
Definition IsInstanceStateOperationNotSupportedError (e : error) : bool :=
  bool_decide (is_Some (errors_as is_InstanceStateNotSupported e)).

Definition IgnoreNodeClaimNotFoundError (e : option error) : option error :=
  match e with
  | Some e' => if IsNodeClaimNotFoundError e' then None else Some e'
  | None => None
  end.

(** [apierrors.IsNotFound] / [IsConflict]: the reason of the first API status
    in the chain. *)
Definition ReasonForError (e : error) : StatusReason :=
  match errors_as is_StatusError e with
  | Some (StatusError r _) => r
  | _ => ReasonOther
  end.
Definition IsNotFound (e : error) : bool := bool_decide (ReasonForError e = ReasonNotFound).
Definition IsConflict (e : error) : bool := bool_decide (ReasonForError e = ReasonConflict).

(** [client.IgnoreNotFound]. *)
Definition IgnoreNotFound (e : option error) : option error :=
  match e with
  | Some e' => if IsNotFound e' then None else Some e'
  | None => None
  end.

(** [multierr.Append] and [multierr.Combine] (nil errors are dropped, a single
    error is returned as it is, nested multi-errors are flattened). *)
Definition flatten_error (e : error) : list error :=
  match e with MultiError es => es | _ => [e] end.
Definition multierr_combine (es : list (option error)) : option error :=
  match omap id es with
  | [] => None
  | [e] => Some e
  | es' => Some (MultiError (mjoin (flatten_error <$> es')))
  end.
Definition multierr_append (a b : option error) : option error := multierr_combine [a; b].

(** ** Outcomes of fallible calls *)

Inductive result (A : Type) :=
  | Ok (a : A)
  | Err (e : error)
  | Panic.
Arguments Ok {A} _.
Arguments Err {A} _.
Arguments Panic {A}.

#[export] Instance result_ret : MRet result := λ A a, Ok a.
#[export] Instance result_bind : MBind result := λ A B f m,
  match m with Ok a => f a | Err e => Err e | Panic => Panic end.
#[export] Instance result_fmap : FMap result := λ A B f m,
  match m with Ok a => Ok (f a) | Err e => Err e | Panic => Panic end.

(** Dereferencing a pointer: nil panics. *)
Definition deref {A} (p : option A) : result A :=
  match p with Some a => Ok a | None => Panic end.

(** [lo.FromPtr] / [tea.StringValue] / [tea.Int32Value]: nil is the zero value. *)
Definition ptr_or {A} (zero : A) (p : option A) : A := default zero p.
Definition StringValue (p : option string) : string := ptr_or "" p.
Definition IntValue (p : option Z) : Z := ptr_or 0%Z p.

(** A loop that may panic or fail, left to right. *)
Fixpoint rmapM {A B} (f : A → result B) (l : list A) : result (list B) :=
  match l with
  | [] => Ok []
  | x :: l' => y ← f x; ys ← rmapM f l'; Ok (y :: ys)
  end.
Fixpoint rfoldM {A B} (f : B → A → result B) (b : B) (l : list A) : result B :=
  match l with
  | [] => Ok b
  | x :: l' => b' ← f b x; rfoldM f b' l'
  end.
Fixpoint rfilterM {A} (p : A → result bool) (l : list A) : result (list A) :=
  match l with
  | [] => Ok []
  | x :: l' => b ← p x; r ← rfilterM p l'; Ok (if b : bool then x :: r else r)
  end.

Lemma bind_Ok {A B} (m : result A) (f : A → result B) b :
  (m ≫= f) = Ok b ↔ ∃ a, m = Ok a ∧ f a = Ok b.
Proof. destruct m; simpl; naive_solver. Qed.

Lemma result_Ok_bind {A B} (a : A) (f : A → result B) : (Ok a ≫= f) = f a.
Proof. done. Qed.

Lemma rmapM_cons_Ok {A B} (f : A → result B) x l y ys :
  f x = Ok y → rmapM f l = Ok ys → rmapM f (x :: l) = Ok (y :: ys).
Proof. intros Hx Hl. simpl. by rewrite Hx, result_Ok_bind, Hl. Qed.

Lemma rmapM_Forall2 {A B} (f : A → result B) l ys :
  rmapM f l = Ok ys → Forall2 (λ x y, f x = Ok y) l ys.
Proof.
  revert ys. induction l as [|x l IH]; intros ys; cbn [rmapM]; [by intros [= <-]|].
  rewrite bind_Ok. intros (y & Hy & H). rewrite bind_Ok in H. destruct H as (ys' & Hys & [= <-]).
  constructor; [done|]. by apply IH.
Qed.

Lemma rmapM_Ok {A B} (f : A → result B) (g : A → B) l :
  (∀ x, x ∈ l → f x = Ok (g x)) → rmapM f l = Ok (g <$> l).
Proof.
  induction l as [|x l IH]; intros H; [done|]. simpl.
  rewrite H by left. simpl. rewrite IH; [done|]. intros y Hy. apply H. by right.
Qed.

Lemma rfoldM_cons_Ok {A B} (f : B → A → result B) b b' x l :
  f b x = Ok b' → rfoldM f b (x :: l) = rfoldM f b' l.
Proof. intros H. simpl. by rewrite H. Qed.

Lemma rfoldM_Ok {A B} (f : B → A → result B) (g : B → A → B) b l :
  (∀ b x, x ∈ l → f b x = Ok (g b x)) → rfoldM f b l = Ok (foldl g b l).
Proof.
  revert b. induction l as [|x l IH]; intros b H; [done|]. simpl.
  rewrite H by left. simpl. apply IH. intros b' y Hy. apply H. by right.
Qed.

Lemma rfilterM_Ok {A} (p : A → result bool) (q : A → bool) l :
  (∀ x, x ∈ l → p x = Ok (q x)) → rfilterM p l = Ok (bfilter q l).
Proof.
  induction l as [|x l IH]; intros H; [done|]. simpl.
  rewrite H by left. simpl. rewrite IH by (intros y Hy; apply H; by right).
  simpl. by rewrite bfilter_cons.
Qed.

(** ** The state-and-error monad *)

Definition M (S A : Type) : Type := S → result A * S.

#[export] Instance M_ret {S} : MRet (M S) := λ A a s, (Ok a, s).
#[export] Instance M_bind {S} : MBind (M S) := λ A B f m s,
  match m s with
  | (Ok a, s') => f a s'
  | (Err e, s') => (Err e, s')
  | (Panic, s') => (Panic, s')
  end.

Section monad.
Context {S : Type}.

Definition get_state : M S S := λ s, (Ok s, s).
Definition modify (f : S → S) : M S () := λ s, (Ok (), f s).
Definition gets {A} (f : S → A) : M S A := λ s, (Ok (f s), s).
Definition lift {A} (r : result A) : M S A := λ s, (r, s).
Definition fail {A} (e : error) : M S A := λ s, (Err e, s).

(** [v, err := f()]: an error becomes a value the caller inspects. *)
Definition attempt {A} (m : M S A) : M S (error + A) := λ s,
  match m s with
  | (Ok a, s') => (Ok (inr a), s')
  | (Err e, s') => (Ok (inl e), s')
  | (Panic, s') => (Panic, s')
  end.

(** [if err != nil { return fmt.Errorf("msg, %w", err) }]. *)
Definition wrap {A} (msg : string) (m : M S A) : M S A := λ s,
  match m s with
  | (Err e, s') => (Err (WrapError msg e), s')
  | r => r
  end.

Fixpoint mapM_ {A} (f : A → M S ()) (l : list A) : M S () :=
  match l with
  | [] => mret ()
  | x :: l' => _ ← f x; mapM_ f l'
  end.
Fixpoint mmapM {A B} (f : A → M S B) (l : list A) : M S (list B) :=
  match l with
  | [] => mret []
  | x :: l' => y ← f x; ys ← mmapM f l'; mret (y :: ys)
  end.
End monad.

(** Running a component's operation on its part of a larger state. *)
Definition zoom {S T A} (getp : S → T) (setp : T → S → S) (m : M T A) : M S A := λ s,
  let '(r, t) := m (getp s) in (r, setp t s).

(** The instant read by [time.Now()], in nanoseconds: local computation takes
    no time, and the clock of the environment advances in the external calls
    and between the operations. *)
Class HasClock (W : Type) := clock : W → Z.

(** The state of a provider together with its environment: the remote services
    and the clock. *)
Record St (P W : Type) := MkSt { prov : P; env : W }.
Arguments MkSt {P W} _ _.
Arguments prov {P W} _.
Arguments env {P W} _.

Section provider_state.
Context {P W : Type}.

Definition get_prov : M (St P W) P := gets prov.
Definition set_prov (p : P) : M (St P W) () := modify (λ s, MkSt p (env s)).
Definition now `{!HasClock W} : M (St P W) Z := gets (λ s, clock (env s)).

(** A call to a remote service changes the environment only. *)
Definition call {A} (f : W → result A * W) : M (St P W) A := λ s,
  let '(r, w) := f (env s) in (r, MkSt (prov s) w).

Lemma call_prov {A} (f : W → result A * W) s r s' :
  call f s = (r, s') → prov s' = prov s ∧ f (env s) = (r, env s').
Proof. unfold call. destruct (f (env s)) as [r0 w]. by intros [= <- <-]. Qed.
End provider_state.

(** ** pkg/utils/alierrors *)

Module alierrors.
(** [IsNotFound]: the first SDK error of the chain has status 404; a nil
    status code is dereferenced. *)
Definition IsNotFound (err : error) : result bool :=
  match errors_as is_SDKError err with
  | Some (SDKError code _) => c ← deref code; Ok (bool_decide (c = 404%Z))
  | _ => Ok false
  end.

Definition WithRequestID (requestID : string) (err : option error) : option error :=
  match err with
  | None => None
  | Some e => Some (WrapError ("requestId: " +:+ requestID) e)
  end.
End alierrors.

(** ** Lemmas on errors *)

Lemma IsNodeClaimNotFound_wrap msg e :
  IsNodeClaimNotFoundError (WrapError msg e) = IsNodeClaimNotFoundError e.
Proof. done. Qed.
Lemma IsInsufficientCapacity_wrap msg e :
  IsInsufficientCapacityError (WrapError msg e) = IsInsufficientCapacityError e.
Proof. done. Qed.
Lemma IsNotFound_wrap msg e : IsNotFound (WrapError msg e) = IsNotFound e.
Proof. done. Qed.
#[export] Hint Rewrite IsNodeClaimNotFound_wrap IsInsufficientCapacity_wrap IsNotFound_wrap : gorw.

Lemma multierr_combine_None es : multierr_combine es = None ↔ ∀ o, o ∈ es → o = None.
Proof.
  unfold multierr_combine. split.
  - intros H o Ho. destruct o as [e|]; [|done]. exfalso.
    assert (e ∈ omap id es) as Hx by (apply list_elem_of_omap; by exists (Some e)).
    destruct (omap id es) as [|? [|]]; [by apply elem_of_nil in Hx|done|done].
  - intros H. replace (omap id es) with (@nil error); [done|].
    induction es as [|o es IH]; [done|]. simpl. rewrite (H o) by left.
    apply IH. intros o' Ho'. apply H. by right.
Qed.

Lemma mmapM_Ok_Forall2 {S A B} (f : A → M S B) l s ys s' :
  mmapM f l s = (Ok ys, s') → Forall2 (λ x y, ∃ sa sb, f x sa = (Ok y, sb)) l ys.
Proof.
  revert s ys. induction l as [|x l IH]; intros s ys; cbn [mmapM].
  - intros [= <- _]. constructor.
  - unfold mbind, M_bind. destruct (f x s) as [[y| |] s1] eqn:Hx; [|done..].
    destruct (mmapM f l s1) as [[ys'| |] s2] eqn:Hl; [|done..]. intros [= <- <-].
    constructor; [by exists s, s1|]. exact (IH s1 ys' Hl).
Qed.

(** Inversion of monadic code: the steps of a run that returned a value. *)
Lemma M_bind_Ok {S A B} (m : M S A) (f : A → M S B) s b s' :
  (m ≫= f) s = (Ok b, s') ↔ ∃ a s1, m s = (Ok a, s1) ∧ f a s1 = (Ok b, s').
Proof.
  unfold mbind, M_bind. destruct (m s) as [[a|e|] s1]; split; naive_solver.
Qed.
Lemma wrap_Ok {S A} msg (m : M S A) s a s' : wrap msg m s = (Ok a, s') ↔ m s = (Ok a, s').
Proof. unfold wrap. destruct (m s) as [[]]; naive_solver. Qed.
Lemma M_Ok_bind {S A B} (m : M S A) (f : A → M S B) s a s1 :
  m s = (Ok a, s1) → (m ≫= f) s = f a s1.
Proof. intros H. unfold mbind, M_bind. by rewrite H. Qed.
Lemma M_Err_bind {S A B} (m : M S A) (f : A → M S B) s e s1 :
  m s = (Err e, s1) → (m ≫= f) s = (Err e, s1).
Proof. intros H. unfold mbind, M_bind. by rewrite H. Qed.
Lemma attempt_inr {S A} (m : M S A) s a s' : m s = (Ok a, s') → attempt m s = (Ok (inr a), s').
Proof. intros H. unfold attempt. by rewrite H. Qed.
Lemma attempt_Ok {S A} (m : M S A) s r s' :
  attempt m s = (Ok (inr r), s') → m s = (Ok r, s').
Proof. unfold attempt. destruct (m s) as [[]]; naive_solver. Qed.
Lemma call_Ok {P W A} (f : W → result A * W) (s : St P W) a s' :
  call f s = (Ok a, s') ↔ f (env s) = (Ok a, env s') ∧ prov s' = prov s.
Proof.
  unfold call. destruct (f (env s)) as [r w], s' as [p' w']. simpl. split; [naive_solver|].
  intros [[= -> ->] ->]. done.
Qed.

Lemma call_run {P W A} (f : W → result A * W) (p : P) w r w' :
  f w = (r, w') → call f (MkSt p w) = (r, MkSt p w').
Proof. intros H. unfold call. simpl. by rewrite H. Qed.

(** ** Relations kept by a run

    [respects R m]: whatever the outcome, errors and panics included, the state
    before and the state after a run of [m] are related by [R].  With the rules
    below [auto with respects] propagates what the elementary calls do through
    the code that makes them. *)

Definition respects {S A} (R : relation S) (m : M S A) : Prop := ∀ s, R s (m s).2.

Create HintDb respects discriminated.

Section respects.
Context {S : Type} (R : relation S) `{!PreOrder R}.

Lemma respects_mret {A} (a : A) : respects R (mret a).
Proof. by intros s. Qed.
Lemma respects_fail {A} e : respects R (fail (A := A) e).
Proof. by intros s. Qed.
Lemma respects_lift {A} (r : result A) : respects R (lift r).
Proof. by intros s. Qed.
Lemma respects_gets {A} (f : S → A) : respects R (gets f).
Proof. by intros s. Qed.
Lemma respects_bind {A B} (m : M S A) (f : A → M S B) :
  respects R m → (∀ a, respects R (f a)) → respects R (m ≫= f).
Proof.
  intros Hm Hf s. specialize (Hm s). unfold mbind, M_bind.
  destruct (m s) as [[a|e|] s1]; [|exact Hm..]. etransitivity; [exact Hm|]. apply Hf.
Qed.
Lemma respects_attempt {A} (m : M S A) : respects R m → respects R (attempt m).
Proof. intros Hm s. specialize (Hm s). unfold attempt. by destruct (m s) as [[]]. Qed.
Lemma respects_wrap {A} msg (m : M S A) : respects R m → respects R (wrap msg m).
Proof. intros Hm s. specialize (Hm s). unfold wrap. by destruct (m s) as [[]]. Qed.
Lemma respects_mapM_ {A} (f : A → M S ()) l : (∀ x, x ∈ l → respects R (f x)) → respects R (mapM_ f l).
Proof.
  induction l as [|x l IH]; intros H; [apply respects_mret|].
  apply respects_bind; [apply H; left|]. intros _. apply IH. intros y Hy. apply H. by right.
Qed.
Lemma respects_mmapM {A B} (f : A → M S B) l :
  (∀ x, x ∈ l → respects R (f x)) → respects R (mmapM f l).
Proof.
  induction l as [|x l IH]; intros H; [apply respects_mret|].
  apply respects_bind; [apply H; left|]. intros y. apply respects_bind; [|intros; apply respects_mret].
  apply IH. intros z Hz. apply H. by right.
Qed.
End respects.

Lemma respects_call {P W A} (R : relation (St P W)) (f : W → result A * W) :
  (∀ p w, R (MkSt p w) (MkSt p (f w).2)) → respects R (call f).
Proof. intros H [p w]. specialize (H p w). unfold call. simpl. by destruct (f w). Qed.

(** Relations between environments. *)
Section on_env.
Context {P W : Type} (R : relation W) `{!PreOrder R}.

Definition on_env (s s' : St P W) : Prop := R (env s) (env s').

#[export] Instance on_env_preorder : PreOrder on_env.
Proof.
  split; unfold on_env; [by intros s|]. intros s1 s2 s3 H1 H2. by etransitivity.
Qed.

Lemma on_env_call {A} (f : W → result A * W) : (∀ w, R w (f w).2) → respects on_env (call f).
Proof. intros H. apply respects_call. intros p w. apply H. Qed.
Lemma on_env_same {A} (m : M (St P W) A) : (∀ s, env (m s).2 = env s) → respects on_env m.
Proof. intros H s. unfold on_env. by rewrite H. Qed.
Lemma on_env_set_prov p : respects on_env (set_prov p).
Proof. by apply on_env_same. Qed.
Lemma on_env_get_prov : respects on_env get_prov.
Proof. by apply on_env_same. Qed.
Lemma on_env_now `{!HasClock W} : respects on_env now.
Proof. by apply on_env_same. Qed.
End on_env.

#[export] Hint Resolve on_env_preorder on_env_set_prov on_env_get_prov on_env_now : respects.
#[export] Hint Resolve respects_mret respects_fail respects_lift respects_gets respects_bind
  respects_attempt respects_wrap : respects.

#[export] Hint Extern 1 (PreOrder _) => apply _ : respects.

(** Walks through a monadic definition, splitting its matches, and leaves the
    calls the database says nothing about. *)
Ltac respects_walk :=
  repeat first
    [ solve [auto with respects]
    | match goal with
      | |- ∀ _, _ => intros ?
      | |- respects _ (_ ≫= _) => apply respects_bind
      | |- respects _ (attempt _) => apply respects_attempt
      | |- respects _ (wrap _ _) => apply respects_wrap
      | |- respects _ (match ?x with _ => _ end) => destruct x
      end ].

(** Symbolic execution of monadic code: [mrun] exposes the next step of a
    monadic definition applied to a state. *)
Ltac mrun :=
  unfold mbind, M_bind, mret, M_ret, gets, get_state, modify, lift, fail, attempt, wrap in *;
  simpl in *.
