(* ===== verification/Heap.v ===== *)
(** * Memory with aliasing: pointers, slices and maps

    Elsewhere in the development a Go value is the value itself, which is right
    as long as nobody writes to memory that two variables share.  Here memory is
    explicit: a heap is the list of what was allocated, a pointer or a map is the
    index of a cell, a slice an array's index with an offset and a length.  What a
    variable stands for is read from a memory; [deep] is what it means that a
    function copies it without sharing anything. *)

From S2P Require Import Prelude Effects.

Definition loc := nat.
Record slice := MkSlice { sl_array : loc; sl_offset : nat; sl_len : nat }.

(** A cell holds the target of a pointer, the array of slices, or a map. *)
Inductive cell (E : Type) :=
  | Pointee (e : E)
  | Array (es : list E)
  | Table (m : gmap string E).
Arguments Pointee {E} _.
Arguments Array {E} _.
Arguments Table {E} _.
Definition heap (E : Type) := list (cell E).

(** What is visible of a heap. *)
Definition memory (E : Type) := loc → option (cell E).
Definition view {E} (h : heap E) : memory E := λ l, h !! l.
Definition since {E} (n : nat) (h : heap E) : memory E := λ l, if bool_decide (n ≤ l) then h !! l else None.
Definition within {E} (σ σ' : memory E) : Prop := ∀ l c, σ l = Some c → σ' l = Some c.

(** The types whose values can be put into a cell. *)
Class Storable (E T : Type) := {
  inj : T → E;
  prj : E → option T;
  prj_inj x : prj (inj x) = Some x;
}.

(** What is read does not change when more becomes visible. *)
Class Mono {E V} (r : memory E → option V) : Prop :=
  mono σ σ' v : within σ σ' → r σ = Some v → r σ' = Some v.

Section memory.
Context {E : Type}.
Implicit Types (σ : memory E) (h : heap E).

(** ** Reading *)

Definition load_pointer `{Storable E T} (l : loc) σ : option T :=
  match σ l with Some (Pointee e) => prj e | _ => None end.
Definition load_slice `{Storable E T} (s : slice) σ : option (list T) :=
  match σ (sl_array s) with
  | Some (Array es) =>
      if bool_decide (sl_offset s + sl_len s ≤ length es)
      then mapM prj (take (sl_len s) (drop (sl_offset s) es)) else None
  | _ => None
  end.
Definition load_map `{Storable E T} (l : loc) σ : option (gmap string T) :=
  match σ l with
  | Some (Table m) => if bool_decide (map_Forall (λ _ e, is_Some (prj e)) m) then Some (omap prj m) else None
  | _ => None
  end.

Section reading.
Context `{ST : !Storable E T} {V : Type} (r : memory E → T → option V).
Definition read_pointer σ (p : option loc) : option (option V) :=
  match p with
  | None => Some None
  | Some l => x ← load_pointer l σ; v ← r σ x; Some (Some v)
  end.
Definition read_slice σ (s : option slice) : option (option (list V)) :=
  match s with
  | None => Some None
  | Some s => xs ← load_slice s σ; vs ← mapM (r σ) xs; Some (Some vs)
  end.
Definition read_map σ (m : option loc) : option (option (gmap string T)) :=
  match m with
  | None => Some None
  | Some l => x ← load_map l σ; Some (Some x)
  end.
End reading.
(** A value that refers to nothing. *)
Definition flat {T} σ (x : T) : option T := Some x.

(** ** Copying *)

Definition alloc (c : cell E) : M (heap E) loc := λ h, (Ok (length h), h ++ [c]).
(** Memory that does not have the type it is read at does not occur in Go. *)
Definition loading {A} (f : memory E → option A) : M (heap E) A := λ h,
  (match f (view h) with Some a => Ok a | None => Panic end, h).

Section copying.
Context `{ST : !Storable E T}.
(** [*out = new(T)], and the target copied by [f]. *)
Definition copy_pointer (f : T → M (heap E) T) (p : option loc) : M (heap E) (option loc) :=
  match p with
  | None => mret None
  | Some l =>
      x ← loading (load_pointer l);
      y ← f x;
      out ← alloc (Pointee (inj y));
      mret (Some out)
  end.
(** [*out = make([]T, n)], and each element copied by [f]. *)
Definition copy_slice (f : T → M (heap E) T) (s : option slice) : M (heap E) (option slice) :=
  match s with
  | None => mret None
  | Some s =>
      xs ← loading (load_slice s);
      ys ← mmapM f xs;
      out ← alloc (Array (inj <$> ys));
      mret (Some (MkSlice out 0 (length ys)))
  end.
(** [*out = make(map[string]T, n)], and each entry set. *)
Definition copy_map `{RT : !GoRuntime} (m : option loc) : M (heap E) (option loc) :=
  match m with
  | None => mret None
  | Some l =>
      x ← loading (load_map l);
      out ← alloc (Table (inj <$> foldl (λ out '(key, val), <[key := val]> out) ∅ (range_map 0 x)));
      mret (Some out)
  end.
(** An assignment of the target, or the built-in [copy]: the value as it is. *)
Definition assign (x : T) : M (heap E) T := mret x.
End copying.

(** ** Copies that share nothing *)

(** What [f] returns for [x] stands for the same as [x], all of it in cells that
    were not there before; and it changes no cell that was. *)
Definition returns {T V} (r : memory E → T → option V) (n : nat) (v : V) (h : heap E)
    (m : M (heap E) T) : Prop :=
  ∃ y h', m h = (Ok y, h') ∧ h `prefix_of` h' ∧ r (since n h') y = Some v.
Class deep {T V} (r : memory E → T → option V) (f : T → M (heap E) T) : Prop := {
  deep_mono :: ∀ x, Mono (λ σ, r σ x);
  deep_copy h x v : r (view h) x = Some v → returns r (length h) v h (f x);
}.

Arguments deep_mono {T V} r f _ x.
Arguments deep_copy {T V} r f _ h x v.

Lemma within_view n h : within (since n h) (view h).
Proof. intros l c. unfold since, view. by case_bool_decide. Qed.
Lemma view_prefix h h' : h `prefix_of` h' → within (view h) (view h').
Proof. intros [k ->] l c H. by apply lookup_app_l_Some. Qed.
Lemma since_prefix n n' h h' : n ≤ n' → h `prefix_of` h' → within (since n' h) (since n h').
Proof.
  intros Hn [k ->] l c. unfold since. case_bool_decide; [|done].
  intros Hl. rewrite bool_decide_true by lia. by apply lookup_app_l_Some.
Qed.

#[export] Instance mono_Some {V} (v : V) : Mono (λ _ : memory E, Some v).
Proof. intros σ σ' w _ H. exact H. Qed.
#[export] Instance mono_None {V} : Mono (λ _ : memory E, @None V).
Proof. intros σ σ' w _ H. exact H. Qed.
#[export] Instance mono_bind {A B} (r : memory E → option A) (k : memory E → A → option B) :
  Mono r → (∀ a, Mono (λ σ, k σ a)) → Mono (λ σ, r σ ≫= k σ).
Proof.
  intros Hr Hk σ σ' v Hσ (a & Ha & Hb)%bind_Some. apply bind_Some. exists a.
  split; [by apply (Hr σ)|by apply (Hk a σ)].
Qed.
#[export] Instance mono_mapM {A B} (r : memory E → A → option B) l :
  (∀ x, Mono (λ σ, r σ x)) → Mono (λ σ, mapM (r σ) l).
Proof.
  intros Hr σ σ' vs Hσ Hl%mapM_Some. apply mapM_Some. eapply Forall2_impl; [exact Hl|].
  intros x v. cbn. by apply Hr.
Qed.
#[export] Instance mono_load_pointer `{ST : !Storable E T} l : Mono (load_pointer (T := T) l).
Proof.
  intros σ σ' v Hσ. unfold load_pointer. destruct (σ l) as [c|] eqn:Hl; [|done]. by rewrite (Hσ l c Hl).
Qed.
#[export] Instance mono_load_slice `{ST : !Storable E T} s : Mono (load_slice (T := T) s).
Proof.
  intros σ σ' v Hσ. unfold load_slice. destruct (σ (sl_array s)) as [c|] eqn:Hl; [|done]. by rewrite (Hσ _ c Hl).
Qed.
#[export] Instance mono_load_map `{ST : !Storable E T} l : Mono (load_map (T := T) l).
Proof.
  intros σ σ' v Hσ. unfold load_map. destruct (σ l) as [c|] eqn:Hl; [|done]. by rewrite (Hσ l c Hl).
Qed.

(** *** The steps of a copy *)

Lemma returns_mret {T V} (r : memory E → T → option V) n v h y :
  r (since n h) y = Some v → returns r n v h (mret y).
Proof. intros H. by exists y, h. Qed.

(** A step that only looks. *)
Lemma returns_loading {T V A} (r : memory E → T → option V) n v h (f : memory E → option A) a k :
  f (view h) = Some a → returns r n v h (k a) → returns r n v h (loading f ≫= k).
Proof.
  intros Hf (y & h' & Hk & Hp & Hr). exists y, h'. split; [|done].
  rewrite (M_Ok_bind _ _ _ a h); [done|]. unfold loading. by rewrite Hf.
Qed.

(** A step that copies: what it returns keeps its meaning from then on. *)
Lemma returns_copy {T V T' V'} (r : memory E → T → option V) (r' : memory E → T' → option V') f
    n v v' h (x : T') k :
  deep r' f → n ≤ length h → r' (view h) x = Some v' →
  (∀ y h', h `prefix_of` h' → n ≤ length h' → r' (since n h') y = Some v' → returns r n v h' (k y)) →
  returns r n v h (f x ≫= k).
Proof.
  intros Hf Hn Hx Hk. destruct (deep_copy _ _ Hf h x v' Hx) as (y & h1 & Hfx & Hp & Hy).
  destruct (Hk y h1 Hp) as (z & h2 & Hz & Hp2 & Hr).
  - apply prefix_length in Hp. lia.
  - eapply (deep_mono _ _ Hf y); [|exact Hy]. by apply since_prefix.
  - exists z, h2. split; [by rewrite (M_Ok_bind _ _ _ _ _ Hfx)|]. split; [by etrans|done].
Qed.

Lemma returns_alloc {T V} (r : memory E → T → option V) n v h c k :
  n ≤ length h →
  (∀ l h', h `prefix_of` h' → since n h' l = Some c → returns r n v h' (k l)) →
  returns r n v h (alloc c ≫= k).
Proof.
  intros Hn Hk. destruct (Hk (length h) (h ++ [c])) as (y & h' & Hy & Hp & Hr).
  - by apply prefix_app_r.
  - unfold since. rewrite bool_decide_true by done. by apply list_lookup_middle.
  - exists y, h'. split; [exact Hy|]. split; [|done]. etrans; [|exact Hp]. by apply prefix_app_r.
Qed.

(** *** The copies of pointers, slices and maps *)

#[export] Instance deep_assign {T} : deep (flat (T := T)) assign.
Proof. split; [intros x; apply mono_Some|]. intros h x v Hv. apply returns_mret. exact Hv. Qed.

Lemma deep_mmapM {T V} (r : memory E → T → option V) f n l h vs :
  deep r f → n ≤ length h → mapM (r (view h)) l = Some vs →
  returns (λ σ, mapM (r σ)) n vs h (mmapM f l).
Proof.
  intros Hf. revert h vs. induction l as [|x l IH]; intros h vs Hn Hl.
  { apply returns_mret. exact Hl. }
  apply bind_Some in Hl as (v & Hx & (vs' & Hl & [= <-])%bind_Some).
  eapply returns_copy; [exact Hf|exact Hn|exact Hx|]. intros y h1 Hp Hn1 Hy.
  pose proof (mono_mapM r l (deep_mono _ _ Hf)) as Hm.
  destruct (IH h1 vs' Hn1) as (ys & h2 & Hys & Hp2 & Hr).
  { eapply Hm; [by apply view_prefix|exact Hl]. }
  exists (y :: ys), h2. split; [by rewrite (M_Ok_bind _ _ _ _ _ Hys)|]. split; [done|]. cbn.
  apply bind_Some. exists v. split; [|by rewrite Hr].
  eapply (deep_mono _ _ Hf y); [|exact Hy]. by apply since_prefix.
Qed.

Context `{ST : !Storable E T}.

#[export] Instance deep_pointer {V} (r : memory E → T → option V) f : deep r f → deep (read_pointer r) (copy_pointer f).
Proof.
  intros Hf. pose proof (deep_mono _ _ Hf). split; [intros [l|]; apply _|].
  intros h [l|] v Hv; [|by apply returns_mret]. cbn in Hv.
  apply bind_Some in Hv as (x & Hx & (w & Hw & [= <-])%bind_Some). cbn.
  eapply returns_loading; [exact Hx|]. eapply returns_copy; [exact Hf|done|exact Hw|]. intros y h1 Hp Hn1 Hy.
  apply returns_alloc; [done|]. intros out h2 Hp2 Hout. apply returns_mret. cbn. unfold load_pointer.
  rewrite Hout, prj_inj. cbn. by rewrite (deep_mono _ _ Hf y _ _ w (since_prefix _ _ _ _ (le_n _) Hp2) Hy).
Qed.

Lemma mapM_prj (xs : list T) : mapM prj (inj <$> xs) = Some xs.
Proof. induction xs as [|x xs IH]; [done|]. cbn. rewrite prj_inj. cbn. by rewrite IH. Qed.

#[export] Instance deep_slice {V} (r : memory E → T → option V) f : deep r f → deep (read_slice r) (copy_slice f).
Proof.
  intros Hf. pose proof (deep_mono _ _ Hf). split; [intros [s|]; apply _|].
  intros h [s|] v Hv; [|by apply returns_mret]. cbn in Hv.
  apply bind_Some in Hv as (xs & Hxs & (vs & Hvs & [= <-])%bind_Some). cbn.
  eapply returns_loading; [exact Hxs|].
  destruct (deep_mmapM r f (length h) xs h vs Hf) as (ys & h1 & Hys & Hp1 & Hr); [done|exact Hvs|].
  assert (returns (read_slice r) (length h) (Some vs) h1
    (out ← alloc (Array (inj <$> ys)); mret (Some (MkSlice out 0 (length ys))))) as (y & h2 & Hy & Hp2 & Hv).
  { apply returns_alloc; [by apply prefix_length|]. intros out h2 Hp2 Hout. apply returns_mret.
    cbn. unfold load_slice. cbn [sl_array sl_offset sl_len]. rewrite Hout, length_fmap, bool_decide_true by done.
    rewrite drop_0, take_ge by by rewrite length_fmap. rewrite mapM_prj. cbn.
    assert (Mono (λ σ, mapM (r σ) ys)) as Hm by apply _.
    by rewrite (Hm _ _ vs (since_prefix _ _ _ _ (le_n _) Hp2) Hr). }
  exists y, h2. split; [by rewrite (M_Ok_bind _ _ _ _ _ Hys)|]. split; [by etrans|done].
Qed.

(** Setting the entries of a map one after the other, in any order, gives the map. *)
Lemma range_rebuilds `{RT : !GoRuntime} {A} site (m : gmap string A) :
  foldl (λ out '(key, val), <[key := val]> out) ∅ (range_map site m) = m.
Proof.
  assert (∀ l (acc : gmap string A), NoDup l.*1 →
    foldl (λ out '(key, val), <[key := val]> out) acc l = list_to_map l ∪ acc) as Hfold.
  { induction l as [|[k a] l IH]; intros acc Hnd; cbn; [by rewrite (left_id_L ∅ (∪))|].
    apply NoDup_cons in Hnd as [Hk Hnd]. rewrite IH by done. rewrite <- insert_union_r; [|by apply not_elem_of_list_to_map_1].
    by rewrite insert_union_l. }
  rewrite Hfold by apply (NoDup_map_keys site m). rewrite (right_id_L ∅ (∪)).
  rewrite (list_to_map_proper _ (map_to_list m)); [apply list_to_map_to_list|apply (NoDup_map_keys site m)|apply range_map_perm].
Qed.

Lemma load_Table (σ : memory E) l (m : gmap string T) : σ l = Some (Table (inj <$> m)) → load_map l σ = Some m.
Proof.
  intros Hl. unfold load_map. rewrite Hl, bool_decide_true.
  - f_equal. apply map_eq. intros k. rewrite lookup_omap, lookup_fmap. destruct (m !! k); [|done]. cbn. apply prj_inj.
  - intros k e. rewrite lookup_fmap. intros (x & _ & ->)%fmap_Some. rewrite prj_inj. by exists x.
Qed.

#[export] Instance deep_map `{RT : !GoRuntime} : deep read_map copy_map.
Proof.
  split; [intros [l|]; apply _|].
  intros h [l|] v Hv; [|by apply returns_mret]. cbn in Hv. apply bind_Some in Hv as (m & Hm & [= <-]). cbn.
  eapply returns_loading; [exact Hm|]. apply returns_alloc; [done|]. intros out h1 Hp Hout. apply returns_mret. cbn.
  rewrite range_rebuilds in Hout. by rewrite (load_Table _ _ _ Hout).
Qed.

Lemma lift_view {A V} (r : memory E → A → option V) x v h h' :
  Mono (λ σ, r σ x) → h `prefix_of` h' → r (view h) x = Some v → r (view h') x = Some v.
Proof. intros Hr Hp. by apply Hr, view_prefix. Qed.
Lemma lift_since {A V} (r : memory E → A → option V) x v n h h' :
  Mono (λ σ, r σ x) → h `prefix_of` h' → r (since n h) x = Some v → r (since n h') x = Some v.
Proof. intros Hr Hp. by apply Hr, since_prefix. Qed.
End memory.

(** The copy of a struct, field by field: each copied field is visible in the
    new cells, and stays so while the others are copied. *)
Ltac copy_field :=
  eapply returns_copy; [apply _|eassumption|eassumption|];
  let y := fresh "y" in let h' := fresh "h" in let Hp := fresh "Hp" in
  let Hn := fresh "Hn" in let Hy := fresh "Hy" in
  intros y h' Hp Hn Hy;
  repeat match goal with
  | H : ?r (view ?h) ?x = Some _, Hp : ?h `prefix_of` h' |- _ => apply (lift_view r x _ h h' _ Hp) in H
  | H : ?r (since ?n ?h) ?x = Some _, Hp : ?h `prefix_of` h' |- _ => apply (lift_since r x _ n h h' _ Hp) in H
  end; clear Hp.
Ltac solve_deep rd cp :=
  split; [intros x; unfold rd; apply _|];
  let h := fresh "h" in let x := fresh "x" in let v := fresh "v" in let Hv := fresh "Hv" in
  intros h x v Hv; unfold rd in Hv; unfold cp; pose proof (le_n (length h));
  repeat (let a := fresh "a" in let Ha := fresh "Ha" in apply bind_Some in Hv as (a & Ha & Hv));
  injection Hv as <-; repeat copy_field; apply returns_mret; unfold rd;
  repeat (apply bind_Some; eexists; split; [eassumption|]); reflexivity.
