(* ===== verification/DeepCopy.v ===== *)
(** * Deep copies (pkg/apis/v1alpha1/zz_generated.deepcopy.go)

    The controllers keep a [DeepCopy] of an object they are about to change, to
    compare and to patch against.  The generated functions are translated over
    an explicit heap, together with those of the vendored types they call, and
    shown to share nothing with the original; this is what allows the rest of
    the development to treat such objects as values. *)

From S2P Require Import Prelude Effects Heap.

Module deepcopy.

(** ** The types, for any way to refer to other memory

    A struct is the same record whether its pointers, slices and maps are
    references into the heap or what they refer to; nil is [None] in both. *)

Record kinds := MkKinds { k_ptr : Type → Type; k_slice : Type → Type; k_map : Type → Type }.
Definition refs : kinds := MkKinds (λ _, option loc) (λ _, option slice) (λ _, option loc).
Definition values : kinds := MkKinds option (λ T, option (list T)) (λ T, option (gmap string T)).

Record TypeMeta := MkTypeMeta {
  Kind : string; APIVersion : string
}.
Record FieldsV1 (K : kinds) := MkFieldsV1 {
  Raw : k_slice K Z
}.
Arguments MkFieldsV1 {K} _. Arguments Raw {K} _.
Record ManagedFieldsEntry (K : kinds) := MkManagedFieldsEntry {
  Manager : string; Operation : string; mf_APIVersion : string; mf_Time : k_ptr K Z; FieldsType : string;
  mf_FieldsV1 : k_ptr K (FieldsV1 K); Subresource : string
}.
Arguments MkManagedFieldsEntry {K} _ _ _ _ _ _ _. Arguments Manager {K} _. Arguments Operation {K} _.
Arguments mf_APIVersion {K} _. Arguments mf_Time {K} _. Arguments FieldsType {K} _.
Arguments mf_FieldsV1 {K} _. Arguments Subresource {K} _.
Record OwnerReference (K : kinds) := MkOwnerReference {
  or_APIVersion : string; or_Kind : string; or_Name : string; or_UID : string; Controller : k_ptr K bool;
  BlockOwnerDeletion : k_ptr K bool
}.
Arguments MkOwnerReference {K} _ _ _ _ _ _. Arguments or_APIVersion {K} _. Arguments or_Kind {K} _.
Arguments or_Name {K} _. Arguments or_UID {K} _. Arguments Controller {K} _.
Arguments BlockOwnerDeletion {K} _.
Record ObjectMeta (K : kinds) := MkObjectMeta {
  Name : string; GenerateName : string; Namespace : string; SelfLink : string; UID : string;
  ResourceVersion : string; Generation : Z; CreationTimestamp : Z; DeletionTimestamp : k_ptr K Z;
  DeletionGracePeriodSeconds : k_ptr K Z; Labels : k_map K string; Annotations : k_map K string;
  OwnerReferences : k_slice K (OwnerReference K); Finalizers : k_slice K string;
  ManagedFields : k_slice K (ManagedFieldsEntry K)
}.
Arguments MkObjectMeta {K} _ _ _ _ _ _ _ _ _ _ _ _ _ _ _. Arguments Name {K} _. Arguments GenerateName {K} _.
Arguments Namespace {K} _. Arguments SelfLink {K} _. Arguments UID {K} _. Arguments ResourceVersion {K} _.
Arguments Generation {K} _. Arguments CreationTimestamp {K} _. Arguments DeletionTimestamp {K} _.
Arguments DeletionGracePeriodSeconds {K} _. Arguments Labels {K} _. Arguments Annotations {K} _.
Arguments OwnerReferences {K} _. Arguments Finalizers {K} _. Arguments ManagedFields {K} _.
Record ListMeta (K : kinds) := MkListMeta {
  lm_SelfLink : string; lm_ResourceVersion : string; Continue : string; RemainingItemCount : k_ptr K Z
}.
Arguments MkListMeta {K} _ _ _ _. Arguments lm_SelfLink {K} _. Arguments lm_ResourceVersion {K} _.
Arguments Continue {K} _. Arguments RemainingItemCount {K} _.
Record Condition := MkCondition {
  cond_Type : string; cond_Status : string; ObservedGeneration : Z; LastTransitionTime : Z; Reason : string;
  Message : string
}.
Record NodeSelectorRequirement (K : kinds) := MkNodeSelectorRequirement {
  Key : string; Operator : string; Values : k_slice K string
}.
Arguments MkNodeSelectorRequirement {K} _ _ _. Arguments Key {K} _. Arguments Operator {K} _.
Arguments Values {K} _.
Record VSwitchSelectorTerm (K : kinds) := MkVSwitchSelectorTerm {
  vst_Tags : k_map K string; vst_ID : string
}.
Arguments MkVSwitchSelectorTerm {K} _ _. Arguments vst_Tags {K} _. Arguments vst_ID {K} _.
Record SecurityGroupSelectorTerm (K : kinds) := MkSecurityGroupSelectorTerm {
  sgt_Tags : k_map K string; sgt_ID : string; sgt_Name : string
}.
Arguments MkSecurityGroupSelectorTerm {K} _ _ _. Arguments sgt_Tags {K} _. Arguments sgt_ID {K} _.
Arguments sgt_Name {K} _.
Record ImageSelectorTerm := MkImageSelectorTerm {
  Alias : string; imt_ID : string
}.
Record KubeletConfiguration (K : kinds) := MkKubeletConfiguration {
  ClusterDNS : k_slice K string; MaxPods : k_ptr K Z; PodsPerCore : k_ptr K Z;
  SystemReserved : k_map K string; KubeReserved : k_map K string; EvictionHard : k_map K string;
  EvictionSoft : k_map K string; EvictionSoftGracePeriod : k_map K Z; EvictionMaxPodGracePeriod : k_ptr K Z;
  ImageGCHighThresholdPercent : k_ptr K Z; ImageGCLowThresholdPercent : k_ptr K Z; CPUCFSQuota : k_ptr K bool
}.
Arguments MkKubeletConfiguration {K} _ _ _ _ _ _ _ _ _ _ _ _. Arguments ClusterDNS {K} _.
Arguments MaxPods {K} _. Arguments PodsPerCore {K} _. Arguments SystemReserved {K} _.
Arguments KubeReserved {K} _. Arguments EvictionHard {K} _. Arguments EvictionSoft {K} _.
Arguments EvictionSoftGracePeriod {K} _. Arguments EvictionMaxPodGracePeriod {K} _.
Arguments ImageGCHighThresholdPercent {K} _. Arguments ImageGCLowThresholdPercent {K} _.
Arguments CPUCFSQuota {K} _.
Record SystemDisk (K : kinds) := MkSystemDisk {
  Categories : k_slice K string; Size : k_ptr K Z; PerformanceLevel : k_ptr K string
}.
Arguments MkSystemDisk {K} _ _ _. Arguments Categories {K} _. Arguments Size {K} _.
Arguments PerformanceLevel {K} _.
Record VSwitch := MkVSwitch {
  vsw_ID : string; ZoneID : string
}.
Record SecurityGroup := MkSecurityGroup {
  sg_ID : string; sg_Name : string
}.
Record Image (K : kinds) := MkImage {
  img_ID : string; img_Name : string; Requirements : k_slice K (NodeSelectorRequirement K)
}.
Arguments MkImage {K} _ _ _. Arguments img_ID {K} _. Arguments img_Name {K} _. Arguments Requirements {K} _.
Record ECSNodeClassSpec (K : kinds) := MkECSNodeClassSpec {
  VSwitchSelectorTerms : k_slice K (VSwitchSelectorTerm K); VSwitchSelectionPolicy : string;
  SecurityGroupSelectorTerms : k_slice K (SecurityGroupSelectorTerm K);
  ImageSelectorTerms : k_slice K ImageSelectorTerm; KubeletConfiguration_ : k_ptr K (KubeletConfiguration K);
  SystemDisk_ : k_ptr K (SystemDisk K); Tags : k_map K string; ResourceGroupID : string
}.
Arguments MkECSNodeClassSpec {K} _ _ _ _ _ _ _ _. Arguments VSwitchSelectorTerms {K} _.
Arguments VSwitchSelectionPolicy {K} _. Arguments SecurityGroupSelectorTerms {K} _.
Arguments ImageSelectorTerms {K} _. Arguments KubeletConfiguration_ {K} _. Arguments SystemDisk_ {K} _.
Arguments Tags {K} _. Arguments ResourceGroupID {K} _.
Record ECSNodeClassStatus (K : kinds) := MkECSNodeClassStatus {
  VSwitches : k_slice K VSwitch; SecurityGroups : k_slice K SecurityGroup; Images : k_slice K (Image K);
  Conditions : k_slice K Condition
}.
Arguments MkECSNodeClassStatus {K} _ _ _ _. Arguments VSwitches {K} _. Arguments SecurityGroups {K} _.
Arguments Images {K} _. Arguments Conditions {K} _.
Record ECSNodeClass (K : kinds) := MkECSNodeClass {
  nc_TypeMeta : TypeMeta; nc_ObjectMeta : ObjectMeta K; Spec : ECSNodeClassSpec K;
  Status : ECSNodeClassStatus K
}.
Arguments MkECSNodeClass {K} _ _ _ _. Arguments nc_TypeMeta {K} _. Arguments nc_ObjectMeta {K} _.
Arguments Spec {K} _. Arguments Status {K} _.
Record ECSNodeClassList (K : kinds) := MkECSNodeClassList {
  ncl_TypeMeta : TypeMeta; ncl_ListMeta : ListMeta K; Items : k_slice K (ECSNodeClass K)
}.
Arguments MkECSNodeClassList {K} _ _ _. Arguments ncl_TypeMeta {K} _. Arguments ncl_ListMeta {K} _.
Arguments Items {K} _.

(** What a cell can hold. *)
Inductive elem :=
  | e_Z (x : Z)
  | e_bool (x : bool)
  | e_string (x : string)
  | e_FieldsV1 (x : FieldsV1 refs)
  | e_ManagedFieldsEntry (x : ManagedFieldsEntry refs)
  | e_OwnerReference (x : OwnerReference refs)
  | e_Condition (x : Condition)
  | e_NodeSelectorRequirement (x : NodeSelectorRequirement refs)
  | e_VSwitchSelectorTerm (x : VSwitchSelectorTerm refs)
  | e_SecurityGroupSelectorTerm (x : SecurityGroupSelectorTerm refs)
  | e_ImageSelectorTerm (x : ImageSelectorTerm)
  | e_KubeletConfiguration (x : KubeletConfiguration refs)
  | e_SystemDisk (x : SystemDisk refs)
  | e_VSwitch (x : VSwitch)
  | e_SecurityGroup (x : SecurityGroup)
  | e_Image (x : Image refs)
  | e_ECSNodeClassSpec (x : ECSNodeClassSpec refs)
  | e_ECSNodeClassStatus (x : ECSNodeClassStatus refs)
  | e_ECSNodeClass (x : ECSNodeClass refs)
  | e_ECSNodeClassList (x : ECSNodeClassList refs).
#[export] Instance storable_Z : Storable elem Z :=
  {| inj := e_Z; prj e := match e with e_Z x => Some x | _ => None end; prj_inj _ := eq_refl |}.
#[export] Instance storable_bool : Storable elem bool :=
  {| inj := e_bool; prj e := match e with e_bool x => Some x | _ => None end; prj_inj _ := eq_refl |}.
#[export] Instance storable_string : Storable elem string :=
  {| inj := e_string; prj e := match e with e_string x => Some x | _ => None end; prj_inj _ := eq_refl |}.
#[export] Instance storable_FieldsV1 : Storable elem (FieldsV1 refs) :=
  {| inj := e_FieldsV1; prj e := match e with e_FieldsV1 x => Some x | _ => None end; prj_inj _ := eq_refl |}.
#[export] Instance storable_ManagedFieldsEntry : Storable elem (ManagedFieldsEntry refs) :=
  {| inj := e_ManagedFieldsEntry; prj e := match e with e_ManagedFieldsEntry x => Some x | _ => None end; prj_inj _ := eq_refl |}.
#[export] Instance storable_OwnerReference : Storable elem (OwnerReference refs) :=
  {| inj := e_OwnerReference; prj e := match e with e_OwnerReference x => Some x | _ => None end; prj_inj _ := eq_refl |}.
#[export] Instance storable_Condition : Storable elem Condition :=
  {| inj := e_Condition; prj e := match e with e_Condition x => Some x | _ => None end; prj_inj _ := eq_refl |}.
#[export] Instance storable_NodeSelectorRequirement : Storable elem (NodeSelectorRequirement refs) :=
  {| inj := e_NodeSelectorRequirement; prj e := match e with e_NodeSelectorRequirement x => Some x | _ => None end; prj_inj _ := eq_refl |}.
#[export] Instance storable_VSwitchSelectorTerm : Storable elem (VSwitchSelectorTerm refs) :=
  {| inj := e_VSwitchSelectorTerm; prj e := match e with e_VSwitchSelectorTerm x => Some x | _ => None end; prj_inj _ := eq_refl |}.
#[export] Instance storable_SecurityGroupSelectorTerm : Storable elem (SecurityGroupSelectorTerm refs) :=
  {| inj := e_SecurityGroupSelectorTerm; prj e := match e with e_SecurityGroupSelectorTerm x => Some x | _ => None end; prj_inj _ := eq_refl |}.
#[export] Instance storable_ImageSelectorTerm : Storable elem ImageSelectorTerm :=
  {| inj := e_ImageSelectorTerm; prj e := match e with e_ImageSelectorTerm x => Some x | _ => None end; prj_inj _ := eq_refl |}.
#[export] Instance storable_KubeletConfiguration : Storable elem (KubeletConfiguration refs) :=
  {| inj := e_KubeletConfiguration; prj e := match e with e_KubeletConfiguration x => Some x | _ => None end; prj_inj _ := eq_refl |}.
#[export] Instance storable_SystemDisk : Storable elem (SystemDisk refs) :=
  {| inj := e_SystemDisk; prj e := match e with e_SystemDisk x => Some x | _ => None end; prj_inj _ := eq_refl |}.
#[export] Instance storable_VSwitch : Storable elem VSwitch :=
  {| inj := e_VSwitch; prj e := match e with e_VSwitch x => Some x | _ => None end; prj_inj _ := eq_refl |}.
#[export] Instance storable_SecurityGroup : Storable elem SecurityGroup :=
  {| inj := e_SecurityGroup; prj e := match e with e_SecurityGroup x => Some x | _ => None end; prj_inj _ := eq_refl |}.
#[export] Instance storable_Image : Storable elem (Image refs) :=
  {| inj := e_Image; prj e := match e with e_Image x => Some x | _ => None end; prj_inj _ := eq_refl |}.
#[export] Instance storable_ECSNodeClassSpec : Storable elem (ECSNodeClassSpec refs) :=
  {| inj := e_ECSNodeClassSpec; prj e := match e with e_ECSNodeClassSpec x => Some x | _ => None end; prj_inj _ := eq_refl |}.
#[export] Instance storable_ECSNodeClassStatus : Storable elem (ECSNodeClassStatus refs) :=
  {| inj := e_ECSNodeClassStatus; prj e := match e with e_ECSNodeClassStatus x => Some x | _ => None end; prj_inj _ := eq_refl |}.
#[export] Instance storable_ECSNodeClass : Storable elem (ECSNodeClass refs) :=
  {| inj := e_ECSNodeClass; prj e := match e with e_ECSNodeClass x => Some x | _ => None end; prj_inj _ := eq_refl |}.
#[export] Instance storable_ECSNodeClassList : Storable elem (ECSNodeClassList refs) :=
  {| inj := e_ECSNodeClassList; prj e := match e with e_ECSNodeClassList x => Some x | _ => None end; prj_inj _ := eq_refl |}.

Notation memory := (memory elem).
Notation heap := (heap elem).

(** ** What a struct stands for *)

Definition read_FieldsV1 (σ : memory) (x : FieldsV1 refs) : option (FieldsV1 values) :=
  raw ← read_slice (T := Z) flat σ (Raw x);
  Some (MkFieldsV1 (K := values) raw).
Definition read_ManagedFieldsEntry (σ : memory) (x : ManagedFieldsEntry refs) : option (ManagedFieldsEntry values) :=
  time ← read_pointer (T := Z) flat σ (mf_Time x);
  fieldsV1 ← read_pointer read_FieldsV1 σ (mf_FieldsV1 x);
  Some (MkManagedFieldsEntry (K := values) (Manager x) (Operation x) (mf_APIVersion x) time (FieldsType x)
    fieldsV1 (Subresource x)).
Definition read_OwnerReference (σ : memory) (x : OwnerReference refs) : option (OwnerReference values) :=
  controller ← read_pointer (T := bool) flat σ (Controller x);
  blockOwnerDeletion ← read_pointer (T := bool) flat σ (BlockOwnerDeletion x);
  Some (MkOwnerReference (K := values) (or_APIVersion x) (or_Kind x) (or_Name x) (or_UID x) controller
    blockOwnerDeletion).
Definition read_ObjectMeta (σ : memory) (x : ObjectMeta refs) : option (ObjectMeta values) :=
  deletionTimestamp ← read_pointer (T := Z) flat σ (DeletionTimestamp x);
  deletionGracePeriodSeconds ← read_pointer (T := Z) flat σ (DeletionGracePeriodSeconds x);
  labels ← read_map (T := string) σ (Labels x);
  annotations ← read_map (T := string) σ (Annotations x);
  ownerReferences ← read_slice read_OwnerReference σ (OwnerReferences x);
  finalizers ← read_slice (T := string) flat σ (Finalizers x);
  managedFields ← read_slice read_ManagedFieldsEntry σ (ManagedFields x);
  Some (MkObjectMeta (K := values) (Name x) (GenerateName x) (Namespace x) (SelfLink x) (UID x)
    (ResourceVersion x) (Generation x) (CreationTimestamp x) deletionTimestamp deletionGracePeriodSeconds
    labels annotations ownerReferences finalizers managedFields).
Definition read_ListMeta (σ : memory) (x : ListMeta refs) : option (ListMeta values) :=
  remainingItemCount ← read_pointer (T := Z) flat σ (RemainingItemCount x);
  Some (MkListMeta (K := values) (lm_SelfLink x) (lm_ResourceVersion x) (Continue x) remainingItemCount).
Definition read_NodeSelectorRequirement (σ : memory) (x : NodeSelectorRequirement refs) : option (NodeSelectorRequirement values) :=
  vals ← read_slice (T := string) flat σ (Values x);
  Some (MkNodeSelectorRequirement (K := values) (Key x) (Operator x) vals).
Definition read_VSwitchSelectorTerm (σ : memory) (x : VSwitchSelectorTerm refs) : option (VSwitchSelectorTerm values) :=
  tags ← read_map (T := string) σ (vst_Tags x);
  Some (MkVSwitchSelectorTerm (K := values) tags (vst_ID x)).
Definition read_SecurityGroupSelectorTerm (σ : memory) (x : SecurityGroupSelectorTerm refs) : option (SecurityGroupSelectorTerm values) :=
  tags ← read_map (T := string) σ (sgt_Tags x);
  Some (MkSecurityGroupSelectorTerm (K := values) tags (sgt_ID x) (sgt_Name x)).
Definition read_KubeletConfiguration (σ : memory) (x : KubeletConfiguration refs) : option (KubeletConfiguration values) :=
  clusterDNS ← read_slice (T := string) flat σ (ClusterDNS x);
  maxPods ← read_pointer (T := Z) flat σ (MaxPods x);
  podsPerCore ← read_pointer (T := Z) flat σ (PodsPerCore x);
  systemReserved ← read_map (T := string) σ (SystemReserved x);
  kubeReserved ← read_map (T := string) σ (KubeReserved x);
  evictionHard ← read_map (T := string) σ (EvictionHard x);
  evictionSoft ← read_map (T := string) σ (EvictionSoft x);
  evictionSoftGracePeriod ← read_map (T := Z) σ (EvictionSoftGracePeriod x);
  evictionMaxPodGracePeriod ← read_pointer (T := Z) flat σ (EvictionMaxPodGracePeriod x);
  imageGCHighThresholdPercent ← read_pointer (T := Z) flat σ (ImageGCHighThresholdPercent x);
  imageGCLowThresholdPercent ← read_pointer (T := Z) flat σ (ImageGCLowThresholdPercent x);
  cPUCFSQuota ← read_pointer (T := bool) flat σ (CPUCFSQuota x);
  Some (MkKubeletConfiguration (K := values) clusterDNS maxPods podsPerCore systemReserved kubeReserved
    evictionHard evictionSoft evictionSoftGracePeriod evictionMaxPodGracePeriod imageGCHighThresholdPercent
    imageGCLowThresholdPercent cPUCFSQuota).
Definition read_SystemDisk (σ : memory) (x : SystemDisk refs) : option (SystemDisk values) :=
  categories ← read_slice (T := string) flat σ (Categories x);
  size ← read_pointer (T := Z) flat σ (Size x);
  performanceLevel ← read_pointer (T := string) flat σ (PerformanceLevel x);
  Some (MkSystemDisk (K := values) categories size performanceLevel).
Definition read_Image (σ : memory) (x : Image refs) : option (Image values) :=
  requirements ← read_slice read_NodeSelectorRequirement σ (Requirements x);
  Some (MkImage (K := values) (img_ID x) (img_Name x) requirements).
Definition read_ECSNodeClassSpec (σ : memory) (x : ECSNodeClassSpec refs) : option (ECSNodeClassSpec values) :=
  vSwitchSelectorTerms ← read_slice read_VSwitchSelectorTerm σ (VSwitchSelectorTerms x);
  securityGroupSelectorTerms ← read_slice read_SecurityGroupSelectorTerm σ (SecurityGroupSelectorTerms x);
  imageSelectorTerms ← read_slice (T := ImageSelectorTerm) flat σ (ImageSelectorTerms x);
  kubeletConfiguration ← read_pointer read_KubeletConfiguration σ (KubeletConfiguration_ x);
  systemDisk ← read_pointer read_SystemDisk σ (SystemDisk_ x);
  tags ← read_map (T := string) σ (Tags x);
  Some (MkECSNodeClassSpec (K := values) vSwitchSelectorTerms (VSwitchSelectionPolicy x)
    securityGroupSelectorTerms imageSelectorTerms kubeletConfiguration systemDisk tags (ResourceGroupID x)).
Definition read_ECSNodeClassStatus (σ : memory) (x : ECSNodeClassStatus refs) : option (ECSNodeClassStatus values) :=
  vSwitches ← read_slice (T := VSwitch) flat σ (VSwitches x);
  securityGroups ← read_slice (T := SecurityGroup) flat σ (SecurityGroups x);
  images ← read_slice read_Image σ (Images x);
  conditions ← read_slice flat σ (Conditions x);
  Some (MkECSNodeClassStatus (K := values) vSwitches securityGroups images conditions).
Definition read_ECSNodeClass (σ : memory) (x : ECSNodeClass refs) : option (ECSNodeClass values) :=
  objectMeta ← read_ObjectMeta σ (nc_ObjectMeta x);
  spec ← read_ECSNodeClassSpec σ (Spec x);
  status ← read_ECSNodeClassStatus σ (Status x);
  Some (MkECSNodeClass (K := values) (nc_TypeMeta x) objectMeta spec status).
Definition read_ECSNodeClassList (σ : memory) (x : ECSNodeClassList refs) : option (ECSNodeClassList values) :=
  listMeta ← read_ListMeta σ (ncl_ListMeta x);
  items ← read_slice read_ECSNodeClass σ (Items x);
  Some (MkECSNodeClassList (K := values) (ncl_TypeMeta x) listMeta items).

(** ** The generated functions

    [DeepCopyInto] starts from the struct as it is and then replaces each field
    that refers to other memory; here it returns the struct it leaves in [out].
    A time is copied by assignment, as its methods never change it. *)

Section copies.
Context {RT : GoRuntime}.

Definition FieldsV1_DeepCopyInto (i : FieldsV1 refs) : M heap (FieldsV1 refs) :=
  raw ← copy_slice (T := Z) assign (Raw i);
  mret (MkFieldsV1 (K := refs) raw).
Definition ManagedFieldsEntry_DeepCopyInto (i : ManagedFieldsEntry refs) : M heap (ManagedFieldsEntry refs) :=
  time ← copy_pointer (T := Z) assign (mf_Time i);
  fieldsV1 ← copy_pointer FieldsV1_DeepCopyInto (mf_FieldsV1 i);
  mret (MkManagedFieldsEntry (K := refs) (Manager i) (Operation i) (mf_APIVersion i) time (FieldsType i)
    fieldsV1 (Subresource i)).
Definition OwnerReference_DeepCopyInto (i : OwnerReference refs) : M heap (OwnerReference refs) :=
  controller ← copy_pointer (T := bool) assign (Controller i);
  blockOwnerDeletion ← copy_pointer (T := bool) assign (BlockOwnerDeletion i);
  mret (MkOwnerReference (K := refs) (or_APIVersion i) (or_Kind i) (or_Name i) (or_UID i) controller
    blockOwnerDeletion).
Definition ObjectMeta_DeepCopyInto (i : ObjectMeta refs) : M heap (ObjectMeta refs) :=
  deletionTimestamp ← copy_pointer (T := Z) assign (DeletionTimestamp i);
  deletionGracePeriodSeconds ← copy_pointer (T := Z) assign (DeletionGracePeriodSeconds i);
  labels ← copy_map (T := string) (Labels i);
  annotations ← copy_map (T := string) (Annotations i);
  ownerReferences ← copy_slice OwnerReference_DeepCopyInto (OwnerReferences i);
  finalizers ← copy_slice (T := string) assign (Finalizers i);
  managedFields ← copy_slice ManagedFieldsEntry_DeepCopyInto (ManagedFields i);
  mret (MkObjectMeta (K := refs) (Name i) (GenerateName i) (Namespace i) (SelfLink i) (UID i)
    (ResourceVersion i) (Generation i) (CreationTimestamp i) deletionTimestamp deletionGracePeriodSeconds
    labels annotations ownerReferences finalizers managedFields).
Definition ListMeta_DeepCopyInto (i : ListMeta refs) : M heap (ListMeta refs) :=
  remainingItemCount ← copy_pointer (T := Z) assign (RemainingItemCount i);
  mret (MkListMeta (K := refs) (lm_SelfLink i) (lm_ResourceVersion i) (Continue i) remainingItemCount).
Definition Condition_DeepCopyInto (i : Condition) : M heap Condition := assign i.
Definition NodeSelectorRequirement_DeepCopyInto (i : NodeSelectorRequirement refs) : M heap (NodeSelectorRequirement refs) :=
  vals ← copy_slice (T := string) assign (Values i);
  mret (MkNodeSelectorRequirement (K := refs) (Key i) (Operator i) vals).
Definition VSwitchSelectorTerm_DeepCopyInto (i : VSwitchSelectorTerm refs) : M heap (VSwitchSelectorTerm refs) :=
  tags ← copy_map (T := string) (vst_Tags i);
  mret (MkVSwitchSelectorTerm (K := refs) tags (vst_ID i)).
Definition SecurityGroupSelectorTerm_DeepCopyInto (i : SecurityGroupSelectorTerm refs) : M heap (SecurityGroupSelectorTerm refs) :=
  tags ← copy_map (T := string) (sgt_Tags i);
  mret (MkSecurityGroupSelectorTerm (K := refs) tags (sgt_ID i) (sgt_Name i)).
Definition ImageSelectorTerm_DeepCopyInto (i : ImageSelectorTerm) : M heap ImageSelectorTerm := assign i.
Definition KubeletConfiguration_DeepCopyInto (i : KubeletConfiguration refs) : M heap (KubeletConfiguration refs) :=
  clusterDNS ← copy_slice (T := string) assign (ClusterDNS i);
  maxPods ← copy_pointer (T := Z) assign (MaxPods i);
  podsPerCore ← copy_pointer (T := Z) assign (PodsPerCore i);
  systemReserved ← copy_map (T := string) (SystemReserved i);
  kubeReserved ← copy_map (T := string) (KubeReserved i);
  evictionHard ← copy_map (T := string) (EvictionHard i);
  evictionSoft ← copy_map (T := string) (EvictionSoft i);
  evictionSoftGracePeriod ← copy_map (T := Z) (EvictionSoftGracePeriod i);
  evictionMaxPodGracePeriod ← copy_pointer (T := Z) assign (EvictionMaxPodGracePeriod i);
  imageGCHighThresholdPercent ← copy_pointer (T := Z) assign (ImageGCHighThresholdPercent i);
  imageGCLowThresholdPercent ← copy_pointer (T := Z) assign (ImageGCLowThresholdPercent i);
  cPUCFSQuota ← copy_pointer (T := bool) assign (CPUCFSQuota i);
  mret (MkKubeletConfiguration (K := refs) clusterDNS maxPods podsPerCore systemReserved kubeReserved
    evictionHard evictionSoft evictionSoftGracePeriod evictionMaxPodGracePeriod imageGCHighThresholdPercent
    imageGCLowThresholdPercent cPUCFSQuota).
Definition SystemDisk_DeepCopyInto (i : SystemDisk refs) : M heap (SystemDisk refs) :=
  categories ← copy_slice (T := string) assign (Categories i);
  size ← copy_pointer (T := Z) assign (Size i);
  performanceLevel ← copy_pointer (T := string) assign (PerformanceLevel i);
  mret (MkSystemDisk (K := refs) categories size performanceLevel).
Definition VSwitch_DeepCopyInto (i : VSwitch) : M heap VSwitch := assign i.
Definition SecurityGroup_DeepCopyInto (i : SecurityGroup) : M heap SecurityGroup := assign i.
Definition Image_DeepCopyInto (i : Image refs) : M heap (Image refs) :=
  requirements ← copy_slice NodeSelectorRequirement_DeepCopyInto (Requirements i);
  mret (MkImage (K := refs) (img_ID i) (img_Name i) requirements).
Definition ECSNodeClassSpec_DeepCopyInto (i : ECSNodeClassSpec refs) : M heap (ECSNodeClassSpec refs) :=
  vSwitchSelectorTerms ← copy_slice VSwitchSelectorTerm_DeepCopyInto (VSwitchSelectorTerms i);
  securityGroupSelectorTerms ← copy_slice SecurityGroupSelectorTerm_DeepCopyInto (SecurityGroupSelectorTerms i);
  imageSelectorTerms ← copy_slice (T := ImageSelectorTerm) assign (ImageSelectorTerms i);
  kubeletConfiguration ← copy_pointer KubeletConfiguration_DeepCopyInto (KubeletConfiguration_ i);
  systemDisk ← copy_pointer SystemDisk_DeepCopyInto (SystemDisk_ i);
  tags ← copy_map (T := string) (Tags i);
  mret (MkECSNodeClassSpec (K := refs) vSwitchSelectorTerms (VSwitchSelectionPolicy i)
    securityGroupSelectorTerms imageSelectorTerms kubeletConfiguration systemDisk tags (ResourceGroupID i)).
Definition ECSNodeClassStatus_DeepCopyInto (i : ECSNodeClassStatus refs) : M heap (ECSNodeClassStatus refs) :=
  vSwitches ← copy_slice (T := VSwitch) assign (VSwitches i);
  securityGroups ← copy_slice (T := SecurityGroup) assign (SecurityGroups i);
  images ← copy_slice Image_DeepCopyInto (Images i);
  conditions ← copy_slice Condition_DeepCopyInto (Conditions i);
  mret (MkECSNodeClassStatus (K := refs) vSwitches securityGroups images conditions).
Definition ECSNodeClass_DeepCopyInto (i : ECSNodeClass refs) : M heap (ECSNodeClass refs) :=
  objectMeta ← ObjectMeta_DeepCopyInto (nc_ObjectMeta i);
  spec ← ECSNodeClassSpec_DeepCopyInto (Spec i);
  status ← ECSNodeClassStatus_DeepCopyInto (Status i);
  mret (MkECSNodeClass (K := refs) (nc_TypeMeta i) objectMeta spec status).
Definition ECSNodeClassList_DeepCopyInto (i : ECSNodeClassList refs) : M heap (ECSNodeClassList refs) :=
  listMeta ← ListMeta_DeepCopyInto (ncl_ListMeta i);
  items ← copy_slice ECSNodeClass_DeepCopyInto (Items i);
  mret (MkECSNodeClassList (K := refs) (ncl_TypeMeta i) listMeta items).

(** [DeepCopy] of nil is nil; else a new struct is allocated. *)
Definition VSwitchSelectorTerm_DeepCopy (p : option loc) : M heap (option loc) :=
  copy_pointer VSwitchSelectorTerm_DeepCopyInto p.
Definition SecurityGroupSelectorTerm_DeepCopy (p : option loc) : M heap (option loc) :=
  copy_pointer SecurityGroupSelectorTerm_DeepCopyInto p.
Definition ImageSelectorTerm_DeepCopy (p : option loc) : M heap (option loc) :=
  copy_pointer ImageSelectorTerm_DeepCopyInto p.
Definition KubeletConfiguration_DeepCopy (p : option loc) : M heap (option loc) :=
  copy_pointer KubeletConfiguration_DeepCopyInto p.
Definition SystemDisk_DeepCopy (p : option loc) : M heap (option loc) :=
  copy_pointer SystemDisk_DeepCopyInto p.
Definition VSwitch_DeepCopy (p : option loc) : M heap (option loc) :=
  copy_pointer VSwitch_DeepCopyInto p.
Definition SecurityGroup_DeepCopy (p : option loc) : M heap (option loc) :=
  copy_pointer SecurityGroup_DeepCopyInto p.
Definition Image_DeepCopy (p : option loc) : M heap (option loc) :=
  copy_pointer Image_DeepCopyInto p.
Definition ECSNodeClassSpec_DeepCopy (p : option loc) : M heap (option loc) :=
  copy_pointer ECSNodeClassSpec_DeepCopyInto p.
Definition ECSNodeClassStatus_DeepCopy (p : option loc) : M heap (option loc) :=
  copy_pointer ECSNodeClassStatus_DeepCopyInto p.
Definition ECSNodeClass_DeepCopy (p : option loc) : M heap (option loc) :=
  copy_pointer ECSNodeClass_DeepCopyInto p.
Definition ECSNodeClassList_DeepCopy (p : option loc) : M heap (option loc) :=
  copy_pointer ECSNodeClassList_DeepCopyInto p.

(** An interface value: nil, or a type with a pointer (that may itself be nil). *)
Inductive Object := NodeClassObject (p : option loc) | NodeClassListObject (p : option loc).
Definition ECSNodeClass_DeepCopyObject (p : option loc) : M heap (option Object) :=
  c ← ECSNodeClass_DeepCopy p;
  mret (match c with Some _ => Some (NodeClassObject c) | None => None end).
Definition ECSNodeClassList_DeepCopyObject (p : option loc) : M heap (option Object) :=
  c ← ECSNodeClassList_DeepCopy p;
  mret (match c with Some _ => Some (NodeClassListObject c) | None => None end).

(** ** Each copy is deep *)

#[export] Instance deep_FieldsV1 : deep read_FieldsV1 FieldsV1_DeepCopyInto.
Proof. solve_deep read_FieldsV1 FieldsV1_DeepCopyInto. Qed.
#[export] Instance deep_ManagedFieldsEntry : deep read_ManagedFieldsEntry ManagedFieldsEntry_DeepCopyInto.
Proof. solve_deep read_ManagedFieldsEntry ManagedFieldsEntry_DeepCopyInto. Qed.
#[export] Instance deep_OwnerReference : deep read_OwnerReference OwnerReference_DeepCopyInto.
Proof. solve_deep read_OwnerReference OwnerReference_DeepCopyInto. Qed.
#[export] Instance deep_ObjectMeta : deep read_ObjectMeta ObjectMeta_DeepCopyInto.
Proof. solve_deep read_ObjectMeta ObjectMeta_DeepCopyInto. Qed.
#[export] Instance deep_ListMeta : deep read_ListMeta ListMeta_DeepCopyInto.
Proof. solve_deep read_ListMeta ListMeta_DeepCopyInto. Qed.
#[export] Instance deep_Condition : deep (flat (T := Condition)) Condition_DeepCopyInto.
Proof. apply deep_assign. Qed.
#[export] Instance deep_NodeSelectorRequirement : deep read_NodeSelectorRequirement NodeSelectorRequirement_DeepCopyInto.
Proof. solve_deep read_NodeSelectorRequirement NodeSelectorRequirement_DeepCopyInto. Qed.
#[export] Instance deep_VSwitchSelectorTerm : deep read_VSwitchSelectorTerm VSwitchSelectorTerm_DeepCopyInto.
Proof. solve_deep read_VSwitchSelectorTerm VSwitchSelectorTerm_DeepCopyInto. Qed.
#[export] Instance deep_SecurityGroupSelectorTerm : deep read_SecurityGroupSelectorTerm SecurityGroupSelectorTerm_DeepCopyInto.
Proof. solve_deep read_SecurityGroupSelectorTerm SecurityGroupSelectorTerm_DeepCopyInto. Qed.
#[export] Instance deep_ImageSelectorTerm : deep (flat (T := ImageSelectorTerm)) ImageSelectorTerm_DeepCopyInto.
Proof. apply deep_assign. Qed.
#[export] Instance deep_KubeletConfiguration : deep read_KubeletConfiguration KubeletConfiguration_DeepCopyInto.
Proof. solve_deep read_KubeletConfiguration KubeletConfiguration_DeepCopyInto. Qed.
#[export] Instance deep_SystemDisk : deep read_SystemDisk SystemDisk_DeepCopyInto.
Proof. solve_deep read_SystemDisk SystemDisk_DeepCopyInto. Qed.
#[export] Instance deep_VSwitch : deep (flat (T := VSwitch)) VSwitch_DeepCopyInto.
Proof. apply deep_assign. Qed.
#[export] Instance deep_SecurityGroup : deep (flat (T := SecurityGroup)) SecurityGroup_DeepCopyInto.
Proof. apply deep_assign. Qed.
#[export] Instance deep_Image : deep read_Image Image_DeepCopyInto.
Proof. solve_deep read_Image Image_DeepCopyInto. Qed.
#[export] Instance deep_ECSNodeClassSpec : deep read_ECSNodeClassSpec ECSNodeClassSpec_DeepCopyInto.
Proof. solve_deep read_ECSNodeClassSpec ECSNodeClassSpec_DeepCopyInto. Qed.
#[export] Instance deep_ECSNodeClassStatus : deep read_ECSNodeClassStatus ECSNodeClassStatus_DeepCopyInto.
Proof. solve_deep read_ECSNodeClassStatus ECSNodeClassStatus_DeepCopyInto. Qed.
#[export] Instance deep_ECSNodeClass : deep read_ECSNodeClass ECSNodeClass_DeepCopyInto.
Proof. solve_deep read_ECSNodeClass ECSNodeClass_DeepCopyInto. Qed.
#[export] Instance deep_ECSNodeClassList : deep read_ECSNodeClassList ECSNodeClassList_DeepCopyInto.
Proof. solve_deep read_ECSNodeClassList ECSNodeClassList_DeepCopyInto. Qed.

(** ** Copies of objects *)

(** What an object stands for: nothing, a NodeClass or a list of them. *)
Definition read_Object (σ : memory) (o : Object) : option (option (ECSNodeClass values + ECSNodeClassList values)) :=
  match o with
  | NodeClassObject p => v ← read_pointer read_ECSNodeClass σ p; Some (option_map inl v)
  | NodeClassListObject p => v ← read_pointer read_ECSNodeClassList σ p; Some (option_map inr v)
  end.
Definition read_interface (σ : memory) (i : option Object) :=
  match i with Some o => read_Object σ o | None => Some None end.
Definition DeepCopyObject (o : Object) : M heap (option Object) :=
  match o with
  | NodeClassObject p => ECSNodeClass_DeepCopyObject p
  | NodeClassListObject p => ECSNodeClassList_DeepCopyObject p
  end.

#[local] Instance read_interface_mono i : Mono (λ σ, read_interface σ i).
Proof. destruct i as [[p|p]|]; cbn; apply _. Qed.

(** What is read from the cells below or from a bound on stays as long as they
    do. *)
Lemma below_mono (h h' h'' : heap) : h `prefix_of` h' → (∀ l, l < length h → h'' !! l = h' !! l) → within (view h) (view h'').
Proof.
  intros Hp Hl l c Hc. unfold view in *. rewrite Hl by by eapply lookup_lt_Some. by eapply prefix_lookup_Some.
Qed.
Lemma above_mono n (h' h'' : heap) :
  (∀ l, n ≤ l < length h' → h'' !! l = h' !! l) → within (since n h') (view h'').
Proof.
  intros Hl l c. unfold since, view. case_bool_decide; [|done]. intros Hc.
  rewrite Hl; [done|]. split; [done|]. by eapply lookup_lt_Some.
Qed.

Lemma deep_object {T V} `{ST : !Storable elem T} (r : memory → T → option V) f p h (v : option V) (mk : option loc → Object) :
  deep r f → read_pointer r (view h) p = Some v →
  ∃ c h', (c ← copy_pointer f p; mret (match c with Some _ => Some (mk c) | None => None end)) h = (Ok c, h') ∧
    h `prefix_of` h' ∧ (c = None ↔ v = None) ∧
    ∀ q, c = Some q → ∃ p', q = mk p' ∧ read_pointer r (since (length h) h') p' = Some v.
Proof.
  intros Hf Hv. destruct (@deep_copy _ _ _ _ _ (deep_pointer r f Hf) h p v Hv) as (y & h' & Hy & Hp & Hr).
  eexists _, h'. split; [rewrite (M_Ok_bind _ _ _ _ _ Hy); reflexivity|]. split; [done|]. destruct y as [l|].
  - split; [|intros q [= <-]; by eauto]. split; [done|]. intros ->. cbn in Hr.
    by apply bind_Some in Hr as (x & _ & (w & _ & Hw)%bind_Some).
  - injection Hr as <-. split; [done|]. by intros q.
Qed.

(** C34. The copy of an object shares no memory with it.  For any NodeClass or
    list of NodeClasses in a heap, whatever its parts share among themselves,
    DeepCopyObject returns an object that stands for the same, and then: as long
    as the memory from before the call is left alone, the original stands for
    what it did, whatever is written to the copy or allocated; and as long as
    the memory allocated by the call is left alone, the copy does, whatever is
    written to the original.  A nil pointer gives the nil interface, and not an
    interface that holds a nil pointer. *)
Theorem DeepCopyObject_independent h o v :
  read_Object (view h) o = Some v →
  ∃ c h', DeepCopyObject o h = (Ok c, h') ∧ h `prefix_of` h' ∧ (c = None ↔ v = None) ∧
    (∀ h'', (∀ l, l < length h → h'' !! l = h' !! l) → read_Object (view h'') o = Some v) ∧
    (∀ h'', (∀ l, length h ≤ l < length h' → h'' !! l = h' !! l) → read_interface (view h'') c = Some v).
Proof.
  intros Hv.
  assert (∃ c h', DeepCopyObject o h = (Ok c, h') ∧ h `prefix_of` h' ∧ (c = None ↔ v = None) ∧
    read_interface (since (length h) h') c = Some v) as (c & h' & Hc & Hp & Hnil & Hr).
  { destruct o as [p|p]; cbn in Hv; apply bind_Some in Hv as (w & Hw & [= <-]).
    - destruct (deep_object read_ECSNodeClass _ p h w NodeClassObject _ Hw) as (c & h' & Hc & Hp & Hnil & Hr).
      exists c, h'. split_and!; [exact Hc|done|rewrite Hnil; by destruct w|]. destruct c as [q|]; cbn.
      + destruct (Hr q eq_refl) as (p' & -> & Hp'). cbn. by rewrite Hp'.
      + by rewrite (proj1 Hnil eq_refl).
    - destruct (deep_object read_ECSNodeClassList _ p h w NodeClassListObject _ Hw) as (c & h' & Hc & Hp & Hnil & Hr).
      exists c, h'. split_and!; [exact Hc|done|rewrite Hnil; by destruct w|]. destruct c as [q|]; cbn.
      + destruct (Hr q eq_refl) as (p' & -> & Hp'). cbn. by rewrite Hp'.
      + by rewrite (proj1 Hnil eq_refl). }
  exists c, h'. split_and!; [done..| |]; intros h'' Hl.
  - apply (read_interface_mono (Some o) (view h)); [by eapply below_mono|exact Hv].
  - apply (read_interface_mono c (since (length h) h')); [by apply above_mono|exact Hr].
Qed.
End copies.

(** ** A NodeClass whose two selector terms share their map of tags *)
Module Example.
#[local] Existing Instance default_runtime.

Definition shared_tags : loc := 0.
Definition terms : loc := 1.
Definition original : loc := 2.
Definition meta : ObjectMeta refs :=
  MkObjectMeta (K := refs) "default" "" "" "" "uid" "7" 1 0 None None None (Some shared_tags) None None None.
Definition spec : ECSNodeClassSpec refs :=
  MkECSNodeClassSpec (K := refs) (Some (MkSlice terms 1 2)) "" None None None None None "".
Definition node_class : ECSNodeClass refs :=
  MkECSNodeClass (K := refs) (MkTypeMeta "ECSNodeClass" "v1alpha1") meta spec
    (MkECSNodeClassStatus (K := refs) None None None None).
Definition term (id : string) : VSwitchSelectorTerm refs := MkVSwitchSelectorTerm (K := refs) (Some shared_tags) id.
Definition memory0 : heap :=
  [Table {["env" := e_string "prod"]};
   Array (e_VSwitchSelectorTerm <$> [term "before"; term "a"; term "b"]);
   Pointee (e_ECSNodeClass node_class)].
Definition tags_of (h : heap) (p : option loc) : option (list (option (gmap string string))) :=
  match read_pointer read_ECSNodeClass (view h) p with
  | Some (Some n) => option_map (map vst_Tags) (VSwitchSelectorTerms (Spec n))
  | _ => None
  end.
Definition retagged (h : heap) (l : loc) : heap := <[l := Table {["env" := e_string "test"]}]> h.

(** A copy by assignment alone shares the map, so a write to it shows in both. *)
Example assignment_shares :
  ∃ c h', copy_pointer (T := ECSNodeClass refs) assign (Some original) memory0 = (Ok c, h') ∧
    tags_of (retagged h' shared_tags) c = Some [Some {["env" := "test"]}; Some {["env" := "test"]}].
Proof. eexists _, _. split; [vm_compute; reflexivity|]. vm_compute. reflexivity. Qed.

(** The deep copy keeps its tags, each term a map of its own. *)
Example copy_keeps_tags :
  ∃ c h', ECSNodeClass_DeepCopy (Some original) memory0 = (Ok c, h') ∧
    tags_of (retagged h' shared_tags) c = Some [Some {["env" := "prod"]}; Some {["env" := "prod"]}] ∧
    tags_of (retagged h' 4) c = Some [Some {["env" := "test"]}; Some {["env" := "prod"]}].
Proof. eexists _, _. split_and!; [vm_compute; reflexivity|vm_compute; reflexivity..]. Qed.

Lemma DeepCopyObject_independent_witness :
  ∃ v c h', read_Object (view memory0) (NodeClassObject (Some original)) = Some (Some v) ∧
    DeepCopyObject (NodeClassObject (Some original)) memory0 = (Ok c, h') ∧
    read_interface (view (retagged h' shared_tags)) c = Some (Some v).
Proof.
  assert (∃ v, read_Object (view memory0) (NodeClassObject (Some original)) = Some (Some v)) as [v Hv].
  { eexists. vm_compute. reflexivity. }
  destruct (DeepCopyObject_independent memory0 (NodeClassObject (Some original)) (Some v) Hv)
    as (c & h' & Hc & _ & _ & _ & Hr).
  exists v, c, h'. split; [exact Hv|]. split; [exact Hc|]. apply Hr. intros l Hl.
  apply list_lookup_insert_ne. intros <-. destruct Hl as [Hl _]. vm_compute in Hl. lia.
Defined.
End Example.
End deepcopy.
