(* ===== verification/GoText.v ===== *)
(** * Text processing ([regexp], [strings], [encoding/base64])

    The regular expressions of the program are concatenations of literals and
    repeated character classes in which a repeated class never overlaps with
    what follows it, so the greedy matcher below needs no backtracking
    ([match_here_longest]).  Replacement scans from left to right as
    [ReplaceAllString] does, and [fields] is the division of a command line into
    words that the replacements are specified against.  The base64 codec is the
    standard alphabet with padding. *)

From S2P Require Import Prelude.

(** ** Runs of a character class *)

Fixpoint span (p : ascii → bool) (s : string) : string * string :=
  match s with
  | EmptyString => ("", "")
  | String a s' => if p a then let '(x, y) := span p s' in (String a x, y) else ("", s)
  end.
Fixpoint all_chars (p : ascii → bool) (s : string) : bool :=
  match s with EmptyString => true | String a s' => p a && all_chars p s' end.
Definition starts_with (p : ascii → bool) (s : string) : bool :=
  match s with EmptyString => false | String a _ => p a end.

Lemma str_cons_app a s t : String a s +:+ t = String a (s +:+ t).
Proof. done. Qed.
Lemma str_nil_app s : "" +:+ s = s.
Proof. done. Qed.
Lemma str_app_nil s : s +:+ "" = s.
Proof. induction s as [|a s IH]; [done|]. by rewrite str_cons_app, IH. Qed.
#[export] Hint Rewrite str_app_assoc str_nil_app str_app_nil : gorw.

Lemma span_app p s t :
  all_chars p s = true → starts_with p t = false → span p (s +:+ t) = (s, t).
Proof.
  induction s as [|a s IH]; intros Hs Ht.
  - rewrite str_nil_app. destruct t as [|b t]; [done|]. simpl in *. by rewrite Ht.
  - simpl in Hs. apply andb_true_iff in Hs as [Ha Hs].
    rewrite str_cons_app. simpl. by rewrite Ha, IH.
Qed.

Lemma span_spec p s u r :
  span p s = (u, r) → s = u +:+ r ∧ all_chars p u = true ∧ starts_with p r = false.
Proof.
  revert u. induction s as [|a s IH]; intros u; simpl; [by intros [= <- <-]|].
  destruct (p a) eqn:Ha; [|by intros [= <- <-]].
  destruct (span p s) as [x y]. intros [= <- <-].
  destruct (IH x eq_refl) as (-> & Hx & Hy). rewrite str_cons_app. simpl. by rewrite Ha.
Qed.

Lemma all_chars_app p s t : all_chars p (s +:+ t) = all_chars p s && all_chars p t.
Proof. induction s as [|a s IH]; [done|]. rewrite str_cons_app. simpl. by rewrite IH, andb_assoc. Qed.

Lemma starts_with_app p s t :
  starts_with p (s +:+ t) = if bool_decide (s = "") then starts_with p t else starts_with p s.
Proof. by destruct s. Qed.

(** ** Patterns *)

Inductive atom :=
  | Lit (s : string)
  | Plus (p : ascii → bool).
Definition pattern : Type := list atom.

(** The words of a pattern. *)
Fixpoint denotes (pat : pattern) (s : string) : Prop :=
  match pat with
  | [] => s = ""
  | Lit l :: pat' => ∃ v, s = l +:+ v ∧ denotes pat' v
  | Plus p :: pat' => ∃ u v, u ≠ "" ∧ all_chars p u = true ∧ s = u +:+ v ∧ denotes pat' v
  end.

(** The greedy match at the start of [s]: the matched text and what follows. *)
Fixpoint match_here (pat : pattern) (s : string) : option (string * string) :=
  match pat with
  | [] => Some ("", s)
  | Lit l :: pat' =>
      match strip_prefix l s with
      | Some r => prod_map (String.append l) id <$> match_here pat' r
      | None => None
      end
  | Plus p :: pat' =>
      let '(u, r) := span p s in
      if bool_decide (u = "") then None
      else prod_map (String.append u) id <$> match_here pat' r
  end.

Lemma match_here_Lit l pat s :
  match_here (Lit l :: pat) (l +:+ s) = prod_map (String.append l) id <$> match_here pat s.
Proof. cbn [match_here]. by rewrite (proj2 (strip_prefix_Some l _ _) eq_refl). Qed.

Lemma match_here_Plus p pat u s :
  u ≠ "" → all_chars p u = true → starts_with p s = false →
  match_here (Plus p :: pat) (u +:+ s) = prod_map (String.append u) id <$> match_here pat s.
Proof. intros Hu Hall Hs. cbn [match_here]. by rewrite span_app, bool_decide_false. Qed.

(** No character of a repeated class can start what follows it. *)
Definition cannot_start (p : ascii → bool) (pat : pattern) : Prop :=
  match pat with
  | [] => True
  | Lit "" :: _ => False
  | Lit (String a _) :: _ => p a = false
  | Plus q :: _ => ∀ a, q a = true → p a = false
  end.
Fixpoint separated (pat : pattern) : Prop :=
  match pat with
  | [] => True
  | Lit l :: pat' => separated pat'
  | Plus p :: pat' => cannot_start p pat' ∧ separated pat'
  end.

Lemma match_here_sound pat s m r :
  match_here pat s = Some (m, r) → s = m +:+ r ∧ denotes pat m.
Proof.
  revert s m. induction pat as [|[l|p] pat IH]; intros s m; cbn [match_here denotes].
  - by intros [= <- <-].
  - destruct (strip_prefix l s) as [t|] eqn:Hl; [|done]. apply strip_prefix_Some in Hl as ->.
    intros ([m' r'] & Hm & [= -> ->])%fmap_Some.
    apply IH in Hm as [-> Hm]. split; [by rewrite str_app_assoc|by exists m'].
  - destruct (span p s) as [u t] eqn:Hs. apply span_spec in Hs as (-> & Hu & _).
    case_bool_decide as Hne; [done|]. intros ([m' r'] & Hm & [= -> ->])%fmap_Some.
    apply IH in Hm as [-> Hm]. split; [by rewrite str_app_assoc|by exists u, m'].
Qed.

Lemma cannot_start_denotes p pat v r :
  pat ≠ [] → cannot_start p pat → denotes pat v → starts_with p (v +:+ r) = false.
Proof.
  destruct pat as [|[[|a l]|q] pat]; [done|done|..]; intros _ Hp; cbn [denotes].
  - intros (w & -> & _). exact Hp.
  - intros ([|b u] & w & Hu & Ha & -> & _); [done|]. cbn [all_chars] in Ha.
    apply andb_true_iff in Ha as [Hb _]. exact (Hp b Hb).
Qed.

(** The greedy match is the longest word of the pattern at this position: when
    some word matches, the matcher answers, and with an extension of it. *)
Lemma match_here_longest pat s m r :
  separated pat → denotes pat m → s = m +:+ r →
  ∃ x r', match_here pat s = Some (m +:+ x, r') ∧ r = x +:+ r'.
Proof.
  revert s m. induction pat as [|[l|p] pat IH]; intros s m; cbn [match_here denotes separated].
  - intros _ -> ->. by exists "", r.
  - intros Hsep (v & -> & Hv) ->. rewrite str_app_assoc, (proj2 (strip_prefix_Some l _ _) eq_refl).
    destruct (IH (v +:+ r) v Hsep Hv eq_refl) as (x & r' & Hm & ->). exists x, r'. rewrite Hm.
    cbn. by rewrite str_app_assoc.
  - intros [Hc Hsep] (u & v & Hu & Hall & -> & Hv) ->.
    destruct (decide (pat = [])) as [->|Hne].
    + cbn in Hv. subst v. rewrite str_app_nil. destruct (span p r) as [x r'] eqn:Hs.
      apply span_spec in Hs as (-> & Hx & Hr). exists x, r'.
      rewrite <- str_app_assoc, span_app; [|by rewrite all_chars_app, Hall, Hx|done].
      rewrite bool_decide_false by (by destruct u). cbn. by rewrite str_app_nil.
    + rewrite str_app_assoc, span_app; [|done|by eapply cannot_start_denotes].
      rewrite bool_decide_false by done.
      destruct (IH (v +:+ r) v Hsep Hv eq_refl) as (x & r' & Hm & ->). exists x, r'. rewrite Hm.
      cbn. by rewrite str_app_assoc.
Qed.

(** ** Replacement

    [replace pat f s] replaces the leftmost, non-overlapping matches; [k]
    counts the characters of the current match still to be skipped.  The
    patterns of the program match no empty string. *)
Fixpoint replace_skip (pat : pattern) (f : string → string) (k : nat) (s : string) : string :=
  match s with
  | EmptyString => ""
  | String a s' =>
      match k with
      | S k' => replace_skip pat f k' s'
      | O => match match_here pat s with
             | Some (m, _) => f m +:+ replace_skip pat f (String.length m - 1) s'
             | None => String a (replace_skip pat f 0 s')
             end
      end
  end.
Definition replace (pat : pattern) (f : string → string) (s : string) : string :=
  replace_skip pat f 0 s.

Lemma replace_skip_app pat f u r : replace_skip pat f (String.length u) (u +:+ r) = replace pat f r.
Proof.
  induction u as [|a u IH]; [|exact IH]. rewrite str_nil_app. by destruct r.
Qed.

Lemma replace_match pat f s m r :
  match_here pat s = Some (m, r) → m ≠ "" → replace pat f s = f m +:+ replace pat f r.
Proof.
  intros Hm Hne. destruct (match_here_sound _ _ _ _ Hm) as [-> _].
  destruct m as [|a m]; [done|]. unfold replace at 1. rewrite str_cons_app in *.
  cbn [replace_skip]. rewrite Hm. cbn [String.length Nat.sub]. by rewrite Nat.sub_0_r, replace_skip_app.
Qed.

Lemma replace_no_match pat f a s :
  match_here pat (String a s) = None → replace pat f (String a s) = String a (replace pat f s).
Proof. intros Hm. unfold replace. cbn [replace_skip]. by rewrite Hm. Qed.

Lemma replace_ext pat f g s : (∀ m, f m = g m) → replace pat f s = replace pat g s.
Proof.
  intros H. unfold replace. generalize 0 as k. induction s as [|a s IH]; intros k; [done|].
  cbn [replace_skip]. destruct k; [|apply IH]. destruct (match_here _ _) as [[m r]|]; by rewrite IH, ?H.
Qed.

(** [strings.ReplaceAll] of a non-empty text. *)
Definition ReplaceAll (s old new : string) : string := replace [Lit old] (λ _, new) s.

(** ** Templates

    [Regexp.ReplaceAllString] expands "$name" and "${name}" in the replacement.
    The expressions of the program have no group, so "0" names the match and
    every other name is empty; "$$" is a dollar sign and a "$" that starts no
    name stands for itself.  Names are ASCII, as labels are. *)
Definition name_char (a : ascii) : bool :=
  let n := N_of_ascii a in
  ((48 <=? n)%N && (n <=? 57)%N) || ((65 <=? n)%N && (n <=? 90)%N)
  || ((97 <=? n)%N && (n <=? 122)%N) || (n =? 95)%N.
Definition extract_name (s : string) : option (string * string) :=
  let '(brace, t) := match s with String "{" s' => (true, s') | _ => (false, s) end in
  let '(name, r) := span name_char t in
  if bool_decide (name = "") then None
  else if brace then match r with String "}" r' => Some (name, r') | _ => None end
  else Some (name, r).
Fixpoint expand_from (k : nat) (m : string) (tmpl : string) : string :=
  match tmpl with
  | EmptyString => ""
  | String a t =>
      match k with
      | S k' => expand_from k' m t
      | O =>
          if bool_decide (a = "$"%char) then
            match t with
            | String "$" _ => String "$" (expand_from 1 m t)
            | _ => match extract_name t with
                   | Some (name, r) =>
                       (if bool_decide (name = "0") then m else "")
                       +:+ expand_from (String.length t - String.length r) m t
                   | None => String "$" (expand_from 0 m t)
                   end
            end
          else String a (expand_from 0 m t)
      end
  end.
Definition expand (m tmpl : string) : string := expand_from 0 m tmpl.

(** [Regexp.ReplaceAllString]. *)
Definition ReplaceAllString (pat : pattern) (s repl : string) : string :=
  replace pat (λ m, expand m repl) s.

Lemma expand_plain m tmpl : str_has_char "$" tmpl = false → expand m tmpl = tmpl.
Proof.
  unfold expand. induction tmpl as [|a t IH]; [done|]. cbn [str_has_char expand_from].
  rewrite orb_false_iff. intros [-> Ht]. by rewrite IH.
Qed.

(** ** Words of a command line

    The class [\s] of the regular expressions, and the division into the
    maximal runs of other characters. *)
Definition is_space (a : ascii) : bool :=
  bool_decide (a ∈ ["009"; "010"; "012"; "013"; " "])%char.
Definition non_space (a : ascii) : bool := negb (is_space a).
Definition is_word (s : string) : bool := negb (bool_decide (s = "")) && all_chars non_space s.

Fixpoint fields (s : string) : list string :=
  match s with
  | EmptyString => []
  | String a s' =>
      if is_space a then fields s'
      else if starts_with non_space s'
           then match fields s' with w :: ws => String a w :: ws | [] => [String a ""] end
           else String a "" :: fields s'
  end.

Lemma is_word_spec w : is_word w = true ↔ w ≠ "" ∧ all_chars non_space w = true.
Proof. unfold is_word. rewrite andb_true_iff, negb_true_iff, bool_decide_eq_false. done. Qed.

Lemma fields_spaces u r : all_chars is_space u = true → fields (u +:+ r) = fields r.
Proof.
  induction u as [|a u IH]; [done|]. rewrite str_cons_app. cbn [all_chars fields].
  rewrite andb_true_iff. intros [-> Hu]. by apply IH.
Qed.

Lemma fields_word w r :
  is_word w = true → starts_with non_space r = false → fields (w +:+ r) = w :: fields r.
Proof.
  rewrite is_word_spec. intros [Hne Hall] Hr.
  induction w as [|a w IH]; [done|]. rewrite str_cons_app. cbn [all_chars fields] in *.
  apply andb_true_iff in Hall as [Ha Hall]. unfold non_space in Ha. apply negb_true_iff in Ha as ->.
  destruct w as [|b w]; [rewrite str_nil_app; by rewrite Hr|].
  rewrite IH by done. rewrite str_cons_app. cbn [starts_with].
  cbn [all_chars] in Hall. by apply andb_true_iff in Hall as [-> _].
Qed.

Lemma fields_app s t :
  starts_with non_space t = false → fields (s +:+ t) = fields s ++ fields t.
Proof.
  intros Ht. induction s as [|a s IH]; [done|]. rewrite str_cons_app. cbn [fields].
  rewrite IH. destruct (is_space a); [done|]. rewrite starts_with_app.
  destruct s as [|b s]; [rewrite bool_decide_true by done; by rewrite Ht|].
  rewrite bool_decide_false by done. destruct (starts_with non_space (String b s)) eqn:Hb; [|done].
  destruct (fields (String b s)) as [|w ws] eqn:Hf; [|done]. exfalso. revert Hf Hb.
  cbn [fields starts_with]. unfold non_space at 2. destruct (is_space b); [done|].
  destruct (starts_with non_space s); [|done]. by destruct (fields s).
Qed.

(** An option and its value, appended to a command line. *)
Lemma fields_option name v t :
  is_word name = true → is_word v = true → starts_with non_space t = false →
  fields (" " +:+ name +:+ " " +:+ v +:+ t) = name :: v :: fields t.
Proof.
  intros Hn Hv Ht. rewrite fields_spaces, (fields_word name), (fields_spaces " "), fields_word by done. done.
Qed.

(** A text is a run of spaces, a run of other characters and a rest that
    starts with a space or is empty. *)
Lemma split_word s :
  ∃ sp w r, s = sp +:+ w +:+ r ∧ all_chars is_space sp = true ∧ all_chars non_space w = true ∧
    starts_with non_space r = false ∧ (w = "" → r = "") ∧ (sp = "" → s = w +:+ r).
Proof.
  destruct (span is_space s) as [sp t] eqn:Hs. apply span_spec in Hs as (-> & Hsp & Ht).
  destruct (span non_space t) as [w r] eqn:Hw. apply span_spec in Hw as (-> & Hw & Hr).
  exists sp, w, r. split_and!; try done.
  - intros ->. rewrite str_nil_app in Ht. destruct r as [|a r]; [done|]. cbn in Ht, Hr.
    unfold non_space in Hr. by rewrite Ht in Hr.
  - by intros ->.
Qed.

Lemma starts_non_space s : starts_with non_space s = false ↔ s = "" ∨ starts_with is_space s = true.
Proof.
  destruct s as [|a s]; cbn [starts_with]; [naive_solver|]. unfold non_space.
  rewrite negb_false_iff. naive_solver.
Qed.

Lemma starts_space_not s : starts_with is_space s = true → starts_with non_space s = false.
Proof. intros. apply starts_non_space. by right. Qed.

(** The division into words, read backwards. *)
Lemma fields_nil_inv s : fields s = [] → all_chars is_space s = true.
Proof.
  destruct (split_word s) as (sp & w & r & -> & Hsp & Hw & Hr & Hwr & _).
  rewrite fields_spaces by done. destruct (decide (w = "")) as [->|Hne].
  - rewrite (Hwr eq_refl). intros _. by rewrite !str_app_nil.
  - by rewrite fields_word by (by try apply is_word_spec).
Qed.

Lemma fields_cons_inv s w ws :
  fields s = w :: ws →
  ∃ u r, s = u +:+ w +:+ r ∧ all_chars is_space u = true ∧ is_word w = true ∧
    starts_with non_space r = false ∧ fields r = ws.
Proof.
  destruct (split_word s) as (u & w' & r & -> & Hu & Hw & Hr & Hwr & _).
  rewrite fields_spaces by done. destruct (decide (w' = "")) as [->|Hne]; [by rewrite (Hwr eq_refl)|].
  rewrite fields_word by (by try apply is_word_spec). intros [= <- <-]. exists u, r.
  by rewrite is_word_spec.
Qed.

(** The word a text starts with is determined by the text. *)
Lemma word_inj w w' r r' :
  all_chars non_space w = true → starts_with non_space r = false →
  all_chars non_space w' = true → starts_with non_space r' = false →
  w +:+ r = w' +:+ r' → w = w' ∧ r = r'.
Proof.
  intros Hw Hr Hw' Hr' Heq. pose proof (span_app _ _ _ Hw Hr) as H1.
  pose proof (span_app _ _ _ Hw' Hr') as H2. rewrite Heq in H1. split; congruence.
Qed.

Lemma spaces_start u r : u ≠ "" → all_chars is_space u = true → starts_with is_space (u +:+ r) = true.
Proof. destruct u as [|a u]; [done|]. rewrite str_cons_app. cbn [all_chars starts_with]. rewrite andb_true_iff. by intros _ [-> _]. Qed.

Lemma word_start w r : is_word w = true → starts_with non_space (w +:+ r) = true.
Proof.
  rewrite is_word_spec. destruct w as [|a w]; [by intros []|].
  rewrite str_cons_app. cbn [all_chars starts_with]. rewrite andb_true_iff. by intros [_ [-> _]].
Qed.

Lemma word_not_space w r : is_word w = true → starts_with is_space (w +:+ r) = false.
Proof.
  intros Hw. apply (word_start w r) in Hw. destruct (w +:+ r) as [|a s]; [done|]. cbn in *.
  by apply negb_true_iff.
Qed.

(** What follows a match that ends in a repeated class does not extend it. *)
Lemma match_here_rest pat p s m r :
  match_here (pat ++ [Plus p]) s = Some (m, r) → starts_with p r = false.
Proof.
  revert s m. induction pat as [|[l|q] pat IH]; intros s m; cbn [app match_here].
  - destruct (span p s) as [u t] eqn:Hs. apply span_spec in Hs as (_ & _ & Ht).
    case_bool_decide; [done|]. by intros [= _ <-].
  - destruct (strip_prefix l s); [|done]. intros ([m' r'] & Hm & [= _ ->])%fmap_Some. eauto.
  - destruct (span q s) as [u t]. case_bool_decide; [done|].
    intros ([m' r'] & Hm & [= _ ->])%fmap_Some. eauto.
Qed.

(** A word is kept as one piece by a pattern none of whose matches starts in it. *)
Lemma replace_skips pat f u r :
  (∀ x y, u = x +:+ y → y ≠ "" → match_here pat (y +:+ r) = None) →
  replace pat f (u +:+ r) = u +:+ replace pat f r.
Proof.
  induction u as [|a u IH]; intros H; [done|].
  rewrite !str_cons_app, replace_no_match; [|by apply (H "" (String a u))].
  f_equal. apply IH. intros x y -> Hy. by apply (H (String a x) y).
Qed.

(** ** base64 *)

Definition alphabet : string :=
  "ABCDEFGHIJKLMNOPQRSTUVWXYZabcdefghijklmnopqrstuvwxyz0123456789+/".
Definition b64_char (v : N) : ascii := default "A"%char (String.get (N.to_nat v) alphabet).
Fixpoint index_of (a : ascii) (s : string) : option N :=
  match s with
  | EmptyString => None
  | String b s' => if bool_decide (a = b) then Some 0%N else N.succ <$> index_of a s'
  end.
Definition b64_value (a : ascii) : option N := index_of a alphabet.

(** [base64.StdEncoding.EncodeToString]. *)
Fixpoint EncodeToString (s : string) : string :=
  match s with
  | EmptyString => ""
  | String a EmptyString =>
      let a := N_of_ascii a in
      String (b64_char (a / 4)) (String (b64_char (a mod 4 * 16)) "==")
  | String a (String b EmptyString) =>
      let a := N_of_ascii a in let b := N_of_ascii b in
      String (b64_char (a / 4)) (String (b64_char (a mod 4 * 16 + b / 16))
        (String (b64_char (b mod 16 * 4)) "="))
  | String a (String b (String c s')) =>
      let a := N_of_ascii a in let b := N_of_ascii b in let c := N_of_ascii c in
      String (b64_char (a / 4)) (String (b64_char (a mod 4 * 16 + b / 16))
        (String (b64_char (b mod 16 * 4 + c / 64)) (String (b64_char (c mod 64))
          (EncodeToString s'))))
  end%N.

(** The decoder the cloud service applies to user data. *)
Fixpoint DecodeString (s : string) : option string :=
  match s with
  | EmptyString => Some ""
  | String x (String y (String z (String t s'))) =>
      vx ← b64_value x; vy ← b64_value y;
      let a := ascii_of_N (vx * 4 + vy / 16) in
      if bool_decide (z = "="%char ∧ t = "="%char ∧ s' = "") then Some (String a "")
      else
        vz ← b64_value z;
        let b := ascii_of_N (vy mod 16 * 16 + vz / 4) in
        if bool_decide (t = "="%char ∧ s' = "") then Some (String a (String b ""))
        else
          vt ← b64_value t; r ← DecodeString s';
          Some (String a (String b (String (ascii_of_N (vz mod 4 * 64 + vt)) r)))
  | _ => None
  end%N.

Lemma b64_value_char v : (v < 64)%N → b64_value (b64_char v) = Some v ∧ b64_char v ≠ "="%char.
Proof.
  intros Hv.
  assert (check_upto (λ z, bool_decide (b64_value (b64_char (Z.to_N z)) = Some (Z.to_N z)
    ∧ b64_char (Z.to_N z) ≠ "="%char)) 63 = true) as H by (vm_compute; reflexivity).
  assert (0 ≤ Z.of_N v ≤ Z.of_nat 63)%Z as Hz by lia.
  pose proof (forall_upto _ _ H (Z.of_N v) Hz) as Hb.
  apply bool_decide_eq_true in Hb. by rewrite N2Z.id in Hb.
Qed.

(** [lia] on quotients and remainders. *)
Local Ltac Zify.zify_post_hook ::= Z.to_euclidean_division_equations.

Lemma ascii_lt a : (N_of_ascii a < 256)%N.
Proof. apply N_ascii_bounded. Qed.

Lemma ascii_of_N_eq n a : n = N_of_ascii a → ascii_of_N n = a.
Proof. intros ->. apply ascii_N_embedding. Qed.

Lemma decode_encode_triple a b c s r :
  DecodeString (EncodeToString s) = Some r →
  DecodeString (EncodeToString (String a (String b (String c s)))) =
  Some (String a (String b (String c r))).
Proof.
  intros Hs. pose proof (ascii_lt a). pose proof (ascii_lt b). pose proof (ascii_lt c).
  cbn [EncodeToString DecodeString].
  set (na := N_of_ascii a) in *. set (nb := N_of_ascii b) in *. set (nc := N_of_ascii c) in *.
  destruct (b64_value_char (na / 4)) as [E1 _]; [lia|].
  destruct (b64_value_char (na mod 4 * 16 + nb / 16)) as [E2 _]; [lia|].
  destruct (b64_value_char (nb mod 16 * 4 + nc / 64)) as [E3 P3]; [lia|].
  destruct (b64_value_char (nc mod 64)) as [E4 P4]; [lia|].
  rewrite E1, E2, E3, E4, Hs. cbn [mbind option_bind].
  rewrite !bool_decide_false by tauto.
  do 2 f_equal; [|f_equal; [|f_equal]]; apply ascii_of_N_eq; lia.
Qed.

(** Decoding gives back the encoded text. *)
Lemma Decode_Encode s : DecodeString (EncodeToString s) = Some s.
Proof.
  revert s. fix IH 1. intros [|a [|b [|c s]]]; [done|..].
  - pose proof (ascii_lt a). cbn [EncodeToString DecodeString].
    set (na := N_of_ascii a) in *.
    destruct (b64_value_char (na / 4)) as [E1 _]; [lia|].
    destruct (b64_value_char (na mod 4 * 16)) as [E2 _]; [lia|].
    rewrite E1, E2. cbn [mbind option_bind]. rewrite bool_decide_true by done.
    do 2 f_equal. apply ascii_of_N_eq. lia.
  - pose proof (ascii_lt a). pose proof (ascii_lt b). cbn [EncodeToString DecodeString].
    set (na := N_of_ascii a) in *. set (nb := N_of_ascii b) in *.
    destruct (b64_value_char (na / 4)) as [E1 _]; [lia|].
    destruct (b64_value_char (na mod 4 * 16 + nb / 16)) as [E2 _]; [lia|].
    destruct (b64_value_char (nb mod 16 * 4)) as [E3 P3]; [lia|].
    rewrite E1, E2, E3. cbn [mbind option_bind].
    rewrite bool_decide_false, bool_decide_true by tauto.
    do 2 f_equal; [|f_equal]; apply ascii_of_N_eq; lia.
  - apply decode_encode_triple, IH.
Qed.

(** The encoded text is one word. *)
Lemma b64_char_non_space v : (v < 64)%N → non_space (b64_char v) = true.
Proof.
  intros Hv.
  assert (check_upto (λ z, non_space (b64_char (Z.to_N z))) 63 = true) as H by (vm_compute; reflexivity).
  assert (0 ≤ Z.of_N v ≤ Z.of_nat 63)%Z as Hz by lia.
  pose proof (forall_upto _ _ H (Z.of_N v) Hz) as Hb. cbv beta in Hb. by rewrite N2Z.id in Hb.
Qed.

Lemma Encode_non_space s : all_chars non_space (EncodeToString s) = true.
Proof.
  revert s. fix IH 1. intros [|a [|b [|c s]]]; [done|..]; cbn [EncodeToString all_chars].
  - pose proof (ascii_lt a). by rewrite !b64_char_non_space by lia.
  - pose proof (ascii_lt a). pose proof (ascii_lt b). by rewrite !b64_char_non_space by lia.
  - pose proof (ascii_lt a). pose proof (ascii_lt b). pose proof (ascii_lt c).
    rewrite !b64_char_non_space by lia. apply IH.
Qed.

Lemma Encode_is_word s : s ≠ "" → is_word (EncodeToString s) = true.
Proof.
  intros Hs. apply is_word_spec. split; [|apply Encode_non_space].
  by destruct s as [|a [|b [|c s]]].
Qed.
