(* ===== verification/Concurrency.v ===== *)
(** * Locks, threads and races

    The semantics of Go's [sync.Mutex] and [sync.RWMutex] for any number of
    threads, and a discipline that a method can be checked against: locks are
    taken in the order of their ranks, every lock taken is released, and a
    guarded field is only touched under its lock (exclusively, to write it).
    Threads that follow the discipline never deadlock, always finish, and never
    race on a guarded field.  A writer that waits for a lock is announced and
    keeps new readers out, as [RWMutex.Lock] does; a [Mutex] is an [RWMutex]
    without readers. *)

From S2P Require Import Prelude.
From stdpp Require Import relations.

(** ** Operations and code *)

Inductive mode := Shared | Exclusive.
#[export] Instance mode_eq_dec : EqDecision mode.
Proof. solve_decision. Defined.

Section concurrency.
Context {L F : Type} `{HL : !EqDecision L} `{HC : !Countable L} `{HF : !EqDecision F}.

(** [Lock]/[RLock], [Unlock]/[RUnlock], plain accesses and [atomic.Add]. *)
Inductive op :=
  | Acquire (m : mode) (l : L)
  | Release (m : mode) (l : L)
  | Read (f : F)
  | Write (f : F)
  | AtomicAdd (f : F).

(** The operations a method may perform: [Return a b] is [a] followed by
    either an early return or [b]. *)
Inductive code :=
  | Skip
  | Do (o : op)
  | Seq (a b : code)
  | Branch (a b : code)
  | Return (a b : code)
  | Repeat (a : code).

Inductive runs : code → list op → Prop :=
  | runs_Skip : runs Skip []
  | runs_Do o : runs (Do o) [o]
  | runs_Seq a b s t : runs a s → runs b t → runs (Seq a b) (s ++ t)
  | runs_left a b s : runs a s → runs (Branch a b) s
  | runs_right a b s : runs b s → runs (Branch a b) s
  | runs_early a b s : runs a s → runs (Return a b) s
  | runs_on a b s t : runs a s → runs b t → runs (Return a b) (s ++ t)
  | runs_stop a : runs (Repeat a) []
  | runs_again a s t : runs a s → runs (Repeat a) t → runs (Repeat a) (s ++ t).

Fixpoint iterate (body : list bool → list op * list bool) (n : nat) (ch : list bool) : list op * list bool :=
  match n, ch with
  | S n', true :: ch' =>
      let '(s, ch1) := body ch' in
      let '(t, ch2) := iterate body n' ch1 in (s ++ t, ch2)
  | _, _ => ([], tail ch)
  end.
(** The run of the code that a list of choices selects: [true] takes the second
    branch, goes on, and repeats. *)
Fixpoint perform (c : code) (ch : list bool) : list op * list bool :=
  match c with
  | Skip => ([], ch)
  | Do o => ([o], ch)
  | Seq a b =>
      let '(s, ch1) := perform a ch in
      let '(t, ch2) := perform b ch1 in (s ++ t, ch2)
  | Branch a b =>
      match ch with
      | true :: ch' => perform b ch'
      | false :: ch' => perform a ch'
      | [] => perform a []
      end
  | Return a b =>
      let '(s, ch1) := perform a ch in
      match ch1 with
      | true :: ch2 => let '(t, ch3) := perform b ch2 in (s ++ t, ch3)
      | false :: ch2 => (s, ch2)
      | [] => (s, [])
      end
  | Repeat a =>
      iterate (perform a) (length ch) ch
  end.

Lemma perform_runs c ch : runs c (perform c ch).1.
Proof.
  revert ch. induction c as [|o|a IHa b IHb|a IHa b IHb|a IHa b IHb|a IHa]; intros ch; cbn [perform].
  - constructor.
  - constructor.
  - specialize (IHa ch). destruct (perform a ch) as [s ch1].
    specialize (IHb ch1). destruct (perform b ch1). by constructor.
  - destruct ch as [|[] ch]; [by apply runs_left|by apply runs_right|by apply runs_left].
  - specialize (IHa ch). destruct (perform a ch) as [s [|[] ch1]]; [by apply runs_early| |by apply runs_early].
    specialize (IHb ch1). destruct (perform b ch1). by apply runs_on.
  - generalize (length ch) as n. intros n. revert ch. induction n as [|n IH]; intros ch; [constructor|].
    destruct ch as [|[] ch]; [constructor| |constructor].
    cbn [iterate]. specialize (IHa ch). destruct (perform a ch) as [s ch1].
    specialize (IH ch1). destruct (iterate (perform a) n ch1). by constructor.
Qed.

(** [mu.Lock(); defer mu.Unlock(); body] and its readers' form. *)
Definition locked (m : mode) (l : L) (body : code) : code :=
  Seq (Do (Acquire m l)) (Seq body (Do (Release m l))).

(** ** Threads *)

(** What is left to do, the locks held, and whether the thread waits for the
    lock it is about to take as an announced writer. *)
Record thread := MkThread { todo : list op; held : gmap L mode; pending : bool }.
Definition fresh_thread (ops : list op) : thread := MkThread ops ∅ false.

Definition announced (t : thread) (l : L) : Prop :=
  pending t = true ∧ head (todo t) = Some (Acquire Exclusive l).
Definition others (ts : list thread) (i : nat) (P : thread → Prop) : Prop :=
  ∀ j u, ts !! j = Some u → j ≠ i → P u.

(** One step of thread [i]. *)
Inductive thread_step (ts : list thread) (i : nat) : thread → thread → Prop :=
  | Announce l k h :
      others ts i (λ u, ¬ announced u l ∧ held u !! l ≠ Some Exclusive) →
      thread_step ts i (MkThread (Acquire Exclusive l :: k) h false)
        (MkThread (Acquire Exclusive l :: k) h true)
  | TakeExclusive l k h :
      others ts i (λ u, held u !! l = None) →
      thread_step ts i (MkThread (Acquire Exclusive l :: k) h true)
        (MkThread k (<[l := Exclusive]> h) false)
  | TakeShared l k h b :
      others ts i (λ u, ¬ announced u l ∧ held u !! l ≠ Some Exclusive) →
      thread_step ts i (MkThread (Acquire Shared l :: k) h b) (MkThread k (<[l := Shared]> h) false)
  | GiveBack m l k h b :
      h !! l = Some m →
      thread_step ts i (MkThread (Release m l :: k) h b) (MkThread k (delete l h) false)
  | Access o k h b :
      (∃ f, o = Read f ∨ o = Write f ∨ o = AtomicAdd f) →
      thread_step ts i (MkThread (o :: k) h b) (MkThread k h false).

Inductive step : list thread → list thread → Prop :=
  | Step i t t' ts : ts !! i = Some t → thread_step ts i t t' → step ts (<[i := t']> ts).

Definition finished (ts : list thread) : Prop := ∀ t, t ∈ ts → todo t = [] ∧ held t = ∅.

(** Two threads about to touch the same field, one of them to write it, and not
    both atomically. *)
Definition touches_field (o : op) (f : F) : Prop := o = Read f ∨ o = Write f ∨ o = AtomicAdd f.
Definition conflict (o1 o2 : op) (f : F) : Prop :=
  touches_field o1 f ∧ touches_field o2 f ∧
  ¬ (o1 = Read f ∧ o2 = Read f) ∧ ¬ (o1 = AtomicAdd f ∧ o2 = AtomicAdd f).
Definition race (ts : list thread) (f : F) : Prop :=
  ∃ i j t u o1 o2, i ≠ j ∧ ts !! i = Some t ∧ ts !! j = Some u ∧
    head (todo t) = Some o1 ∧ head (todo u) = Some o2 ∧ conflict o1 o2 f.

(** ** The discipline *)

Context (rank : L → nat) (guard : F → option L).

Definition below (h : gmap L mode) (l : L) : bool :=
  bool_decide (map_Forall (λ l' _, rank l' < rank l) h).

Definition check_op (h : gmap L mode) (o : op) : option (gmap L mode) :=
  match o with
  | Acquire m l => if below h l then Some (<[l := m]> h) else None
  | Release m l => if bool_decide (h !! l = Some m) then Some (delete l h) else None
  | Read f => match guard f with
              | Some l => if bool_decide (is_Some (h !! l)) then Some h else None
              | None => Some h
              end
  | Write f | AtomicAdd f =>
      match guard f with
      | Some l => if bool_decide (h !! l = Some Exclusive) then Some h else None
      | None => Some h
      end
  end.

Fixpoint check_trace (h : gmap L mode) (s : list op) : option (gmap L mode) :=
  match s with
  | [] => Some h
  | o :: s' => h' ← check_op h o; check_trace h' s'
  end.

(** The static check: the locks held after the code, if it follows the
    discipline from those held before. *)
Fixpoint check (h : gmap L mode) (c : code) : option (gmap L mode) :=
  match c with
  | Skip => Some h
  | Do o => check_op h o
  | Seq a b => h' ← check h a; check h' b
  | Branch a b =>
      ha ← check h a; hb ← check h b; if bool_decide (ha = hb) then Some ha else None
  | Return a b =>
      ha ← check h a; hb ← check ha b; if bool_decide (ha = hb) then Some ha else None
  | Repeat a => ha ← check h a; if bool_decide (ha = h) then Some h else None
  end.

Definition disciplined (c : code) : bool := bool_decide (check ∅ c = Some ∅).

Lemma check_trace_app h s t : check_trace h (s ++ t) = h' ← check_trace h s; check_trace h' t.
Proof.
  revert h. induction s as [|o s IH]; intros h; [done|]. cbn [app check_trace].
  destruct (check_op h o) as [h'|]; [|done]. exact (IH h').
Qed.

(** The static check is sound for every run of the code. *)
Lemma check_sound c s : runs c s → ∀ h h', check h c = Some h' → check_trace h s = Some h'.
Proof.
  induction 1 as [|o|a b s t _ IHa _ IHb|a b s _ IH|a b s _ IH|a b s _ IH|a b s t _ IHa _ IHb|a|a s t _ IHa _ IHt];
    intros h h'; cbn [check].
  - done.
  - cbn [check_trace]. by intros ->.
  - intros (ha & Ha & Hb)%bind_Some. rewrite check_trace_app, (IHa _ _ Ha). by apply IHb.
  - intros (ha & Ha & Hb)%bind_Some. apply bind_Some in Hb as (hb & Hb & He).
    case_bool_decide; [|done]. simplify_eq. by apply IH.
  - intros (ha & Ha & Hb)%bind_Some. apply bind_Some in Hb as (hb & Hb & He).
    case_bool_decide; [|done]. simplify_eq. by apply IH.
  - intros (ha & Ha & Hb)%bind_Some. apply bind_Some in Hb as (hb & Hb & He).
    case_bool_decide; [|done]. simplify_eq. by apply IH.
  - intros (ha & Ha & Hb)%bind_Some. apply bind_Some in Hb as (hb & Hb & He).
    case_bool_decide; [|done]. simplify_eq. rewrite check_trace_app, (IHa _ _ Ha). by apply IHb.
  - intros (ha & Ha & He)%bind_Some. by case_bool_decide; simplify_eq.
  - intros Hr. pose proof Hr as (ha & Ha & He)%bind_Some.
    case_bool_decide; [|done]. simplify_eq. rewrite check_trace_app, (IHa _ _ Ha). by apply IHt.
Qed.

(** ** The invariant of disciplined threads *)

Record well_locked (ts : list thread) : Prop := {
  wl_typed i t : ts !! i = Some t → check_trace (held t) (todo t) = Some ∅;
  wl_exclusive i j t u l : ts !! i = Some t → ts !! j = Some u → i ≠ j →
    held t !! l = Some Exclusive → held u !! l = None;
}.

Lemma fresh_well_locked (ops : list (list op)) :
  (∀ s, s ∈ ops → check_trace ∅ s = Some ∅) → well_locked (fresh_thread <$> ops).
Proof.
  intros Hops. split.
  - intros i t Ht. apply list_lookup_fmap_Some in Ht as (s & -> & Hs). cbn.
    by apply Hops, list_elem_of_lookup_2 with i.
  - intros i j t u l Ht _ _. apply list_lookup_fmap_Some in Ht as (s & -> & Hs). cbn. by rewrite lookup_empty.
Qed.

(** A step of one thread as seen by the others. *)
Lemma thread_step_typed ts i t t' :
  thread_step ts i t t' → check_trace (held t) (todo t) = Some ∅ → check_trace (held t') (todo t') = Some ∅.
Proof.
  destruct 1 as [l k h Ho|l k h Ho|l k h b Ho|m l k h b Hl|o k h b (f & Hf)]; cbn [held todo]; [done|..];
    cbn [check_trace check_op]; intros (h' & He & Ht)%bind_Some.
  - by destruct (below h l); simplify_eq.
  - by destruct (below h l); simplify_eq.
  - by case_bool_decide; simplify_eq.
  - assert (h' = h) as ->; [|done]. destruct Hf as [->|[->| ->]]; cbn [check_op] in He;
      destruct (guard f); repeat case_bool_decide; by simplify_eq.
Qed.

Lemma step_well_locked ts ts' : well_locked ts → step ts ts' → well_locked ts'.
Proof.
  intros [Ht He] Hstep. destruct Hstep as [i t t' ts Hi Hts].
  assert (i < length ts) as Hlen by (by eapply lookup_lt_Some). split.
  - intros j u Hj. apply list_lookup_insert_Some in Hj as [(<- & <- & _)|[_ Hj]]; [|by eapply Ht].
    eapply thread_step_typed; [done|]. by eapply Ht.
  - assert (∀ j u l, ts !! j = Some u → j ≠ i →
      (held t' !! l = Some Exclusive → held u !! l = None) ∧
      (held u !! l = Some Exclusive → held t' !! l = None)) as Hnew.
    { intros j u l Hj Hne.
      pose proof (λ E, He i j t u l Hi Hj (not_eq_sym Hne) E) as H1.
      pose proof (λ E, He j i u t l Hj Hi Hne E) as H2.
      destruct Hts as [l' k h Ho|l' k h Ho|l' k h b Ho|m l' k h b Hl|o k h b _]; cbn [held] in *; [done|..|done].
      - specialize (Ho j u Hj Hne). cbn in Ho. destruct (decide (l' = l)) as [->|Hl].
        + rewrite lookup_insert_eq, Ho. done.
        + by rewrite lookup_insert_ne.
      - specialize (Ho j u Hj Hne) as [_ Ho]. destruct (decide (l' = l)) as [->|Hl'].
        + by rewrite lookup_insert_eq.
        + by rewrite lookup_insert_ne.
      - destruct (decide (l' = l)) as [->|Hl']; [by rewrite lookup_delete_eq|by rewrite lookup_delete_ne]. }
    intros a b u v l Ha Hb Hab.
    apply list_lookup_insert_Some in Ha as [(<- & <- & _)|[Hia Ha]];
      apply list_lookup_insert_Some in Hb as [(<- & <- & _)|[Hib Hb]]; [done|..].
    + by apply (Hnew b v l).
    + by apply (Hnew a u l).
    + by apply (He a b).
Qed.

Lemma reachable_well_locked ts ts' : well_locked ts → rtc step ts ts' → well_locked ts'.
Proof. intros Hw. induction 1 as [|ts ts1 ts' Hs _ IH]; [done|]. apply IH. by eapply step_well_locked. Qed.

(** ** Progress *)

#[local] Instance op_eq_dec : EqDecision op.
Proof. solve_decision. Defined.
#[local] Instance conflict_dec o1 o2 f : Decision (conflict o1 o2 f).
Proof. unfold conflict, touches_field. apply _. Defined.
#[local] Instance announced_dec t l : Decision (announced t l).
Proof. unfold announced. apply _. Defined.

(** The lock a thread is about to take. *)
Definition wants (t : thread) : option L :=
  match todo t with Acquire _ l :: _ => Some l | _ => None end.
Definition wanted_rank (t : thread) : nat := from_option rank 0 (wants t).

Lemma wants_above t l l' :
  check_trace (held t) (todo t) = Some ∅ → wants t = Some l' → is_Some (held t !! l) → rank l < rank l'.
Proof.
  unfold wants. destruct (todo t) as [|[m k| | | |] s]; try done. cbn [check_trace check_op].
  intros (h & Hb & _)%bind_Some [= <-] [m' Hl]. unfold below in Hb. case_bool_decide as Hf; [|done].
  exact (Hf l m' Hl).
Qed.

Lemma holder_unfinished t l :
  check_trace (held t) (todo t) = Some ∅ → is_Some (held t !! l) → todo t ≠ [].
Proof. intros Ht [m Hl] Hn. rewrite Hn in Ht. injection Ht as Ht. by rewrite Ht, lookup_empty in Hl. Qed.

Lemma can_step ts i t t' : ts !! i = Some t → thread_step ts i t t' → ∃ ts', step ts ts'.
Proof. intros. eexists. by eapply Step. Qed.

(** A thread that is not about to take a lock can go on. *)
Lemma not_waiting_steps ts i t :
  ts !! i = Some t → check_trace (held t) (todo t) = Some ∅ → todo t ≠ [] → wants t = None →
  ∃ ts', step ts ts'.
Proof.
  intros Hi Ht Hne Hw. destruct t as [s h b]. unfold wants in Hw. cbn [held todo] in *.
  destruct s as [|o s]; [done|]. destruct o as [m l|m l|f|f|f]; [done| |..].
  - apply bind_Some in Ht as (h' & Hr & _). cbn in Hr. case_bool_decide; [|done].
    eapply can_step; [done|]. by apply GiveBack.
  - eapply can_step; [done|]. apply Access. by exists f; auto.
  - eapply can_step; [done|]. apply Access. by exists f; auto.
  - eapply can_step; [done|]. apply Access. by exists f; auto.
Qed.

(** When no one holds the lock a thread wants, a thread goes on. *)
Lemma free_lock_steps ts i t l :
  ts !! i = Some t → wants t = Some l → Forall (λ u, held u !! l = None) ts → ∃ ts', step ts ts'.
Proof.
  intros Hi Hw Hfree. rewrite Forall_lookup in Hfree.
  destruct (decide (Exists (λ u, announced u l) ts)) as [Ha|Ha].
  - apply Exists_exists in Ha as (u & [j Hj]%list_elem_of_lookup & Hp & Hh).
    destruct u as [s h b]. cbn [pending todo] in *. subst b. destruct s as [|o s]; [done|].
    injection Hh as ->. eapply can_step; [exact Hj|]. apply TakeExclusive. intros k v Hk _. by apply (Hfree k).
  - assert (∀ j u, ts !! j = Some u → ¬ announced u l) as Hna.
    { intros j u Hj Hu. apply Ha, Exists_exists. exists u. split; [|done]. by eapply list_elem_of_lookup_2. }
    assert (others ts i (λ u, ¬ announced u l ∧ held u !! l ≠ Some Exclusive)) as Ho.
    { intros j u Hj _. split; [by apply (Hna j)|]. by rewrite (Hfree j u Hj). }
    destruct t as [s h b]. unfold wants in Hw. cbn [todo] in Hw. destruct s as [|[m l'| | | |] s]; try done.
    injection Hw as ->. destruct m; [eapply can_step; [done|]; by apply TakeShared|].
    destruct b; [exfalso; by apply (Hna i _ Hi)|]. eapply can_step; [done|]. by apply Announce.
Qed.

Lemma exists_max {A} (f : A → nat) (l : list A) : l ≠ [] → ∃ x, x ∈ l ∧ ∀ y, y ∈ l → f y ≤ f x.
Proof.
  induction l as [|x l IH]; [done|]. intros _. destruct (decide (l = [])) as [->|Hne].
  - exists x. split; [left|]. by intros y ->%list_elem_of_singleton.
  - destruct (IH Hne) as (m & Hm & Hmax). destruct (decide (f m ≤ f x)) as [Hle|Hle].
    + exists x. split; [left|]. intros y [->|Hy]%elem_of_cons; [done|]. specialize (Hmax y Hy). lia.
    + exists m. split; [by right|]. intros y [->|Hy]%elem_of_cons; [lia|by apply Hmax].
Qed.

(** Disciplined threads are never stuck: the one that wants the lock of the
    highest rank, or one that keeps it from doing so, can go on. *)
Lemma well_locked_progress ts : well_locked ts → finished ts ∨ ∃ ts', step ts ts'.
Proof.
  intros [Ht _]. destruct (decide (Exists (λ t, todo t ≠ []) ts)) as [Hun|Hun].
  2:{ left. intros t [i Hi]%list_elem_of_lookup.
      assert (todo t = []) as Hn.
      { destruct (todo t) eqn:E; [done|]. exfalso. apply Hun, Exists_exists. exists t.
        split; [by eapply list_elem_of_lookup_2|by rewrite E]. }
      split; [done|]. specialize (Ht i t Hi). rewrite Hn in Ht. by injection Ht. }
  right. destruct (decide (Exists (λ t, todo t ≠ [] ∧ wants t = None) ts)) as [Hgo|Hgo].
  { apply Exists_exists in Hgo as (t & [i Hi]%list_elem_of_lookup & Hne & Hw). by eapply not_waiting_steps; eauto. }
  assert (∀ i t, ts !! i = Some t → todo t ≠ [] → is_Some (wants t)) as Hall.
  { intros i t Hi Hne. apply not_eq_None_Some. intros Hw. apply Hgo, Exists_exists. exists t.
    split; [by eapply list_elem_of_lookup_2|done]. }
  destruct (exists_max wanted_rank (filter (λ t, todo t ≠ []) ts)) as (t & Htin & Hmax).
  { apply Exists_exists in Hun as (t & Hin & Hne). intros Hnil.
    assert (t ∈ filter (λ t, todo t ≠ []) ts) as Hf by (by apply list_elem_of_filter).
    rewrite Hnil in Hf. by apply elem_of_nil in Hf. }
  apply list_elem_of_filter in Htin as [Hne [i Hi]%list_elem_of_lookup].
  destruct (Hall i t Hi Hne) as [l Hl]. apply (free_lock_steps ts i t l); [done|done|].
  apply Forall_lookup. intros j u Hj. apply eq_None_not_Some. intros Hheld.
  pose proof (holder_unfinished u l (Ht j u Hj) Hheld) as Hu. destruct (Hall j u Hj Hu) as [l' Hl'].
  pose proof (wants_above u l l' (Ht j u Hj) Hl' Hheld) as Hlt.
  assert (wanted_rank u ≤ wanted_rank t) as Hle.
  { apply Hmax, list_elem_of_filter. split; [done|]. by eapply list_elem_of_lookup_2. }
  unfold wanted_rank in Hle. rewrite Hl, Hl' in Hle. cbn in Hle. lia.
Qed.

(** ** Termination *)

Definition weight (t : thread) : nat := 2 * length (todo t) - (if pending t then 1 else 0).
Definition total_weight (ts : list thread) : nat := sum_list_with weight ts.

Lemma thread_step_weight ts i t t' : thread_step ts i t t' → weight t' < weight t.
Proof.
  destruct 1 as [l k h Ho|l k h Ho|l k h b Ho|m l k h b Hl|o k h b Ho]; unfold weight; cbn [todo pending length];
    try destruct b; lia.
Qed.

Lemma total_weight_insert ts i t t' :
  ts !! i = Some t → total_weight (<[i := t']> ts) + weight t = total_weight ts + weight t'.
Proof.
  revert i. induction ts as [|u ts IH]; intros [|i]; [done|done|..].
  - intros [= ->]. change (weight t' + total_weight ts + weight t = weight t + total_weight ts + weight t'). lia.
  - intros Hi. specialize (IH i Hi).
    change (weight u + total_weight (<[i := t']> ts) + weight t = weight u + total_weight ts + weight t'). lia.
Qed.

Lemma step_weight ts ts' : step ts ts' → total_weight ts' < total_weight ts.
Proof.
  destruct 1 as [i t t' ts Hi Hs]. apply thread_step_weight in Hs.
  pose proof (total_weight_insert ts i t t' Hi). lia.
Qed.

(** A run is no longer than the work there is. *)
Lemma run_bounded n ts ts' : nsteps step n ts ts' → n + total_weight ts' ≤ total_weight ts.
Proof. induction 1 as [|n x y z Hs _ IH]; [lia|]. apply step_weight in Hs. lia. Qed.

(** Every run can be completed, and the completion frees all locks. *)
Lemma well_locked_finishes ts : well_locked ts → ∃ ts', rtc step ts ts' ∧ finished ts'.
Proof.
  intros Hw. remember (total_weight ts) as n eqn:Hn. revert ts Hn Hw.
  induction n as [n IH] using lt_wf_ind. intros ts -> Hw.
  destruct (well_locked_progress ts Hw) as [Hf|[ts1 Hs]]; [by exists ts|].
  destruct (IH (total_weight ts1)) with ts1 as (ts' & Hr & Hf);
    [by apply step_weight|done|by eapply step_well_locked|].
  exists ts'. split; [by eapply rtc_l|done].
Qed.

(** ** Races *)

Lemma access_guarded t o f l :
  check_trace (held t) (todo t) = Some ∅ → head (todo t) = Some o → touches_field o f → guard f = Some l →
  is_Some (held t !! l) ∧ (o ≠ Read f → held t !! l = Some Exclusive).
Proof.
  destruct (todo t) as [|o' s]; [done|]. cbn [head check_trace]. intros (h & Ho & _)%bind_Some [= ->] Hf Hg.
  destruct Hf as [->|[->| ->]]; cbn [check_op] in Ho; rewrite Hg in Ho; case_bool_decide as H; try done.
Qed.

Lemma well_locked_no_race ts f l : well_locked ts → guard f = Some l → ¬ race ts f.
Proof.
  intros [Ht He] Hg (i & j & t & u & o1 & o2 & Hij & Hi & Hj & H1 & H2 & T1 & T2 & Hrr & Haa).
  destruct (access_guarded t o1 f l (Ht i t Hi) H1 T1 Hg) as [[m1 E1] X1].
  destruct (access_guarded u o2 f l (Ht j u Hj) H2 T2 Hg) as [[m2 E2] X2].
  destruct (decide (o1 = Read f)) as [->|N1].
  - assert (held u !! l = Some Exclusive) as E by (apply X2; naive_solver).
    by rewrite (He j i u t l Hj Hi (not_eq_sym Hij) E) in E1.
  - by rewrite (He i j t u l Hi Hj Hij (X1 N1)) in E2.
Qed.

(** ** Running a schedule *)

Definition others_b (ts : list thread) (i : nat) (p : thread → bool) : bool :=
  forallb (λ ju, (ju.1 =? i) || p ju.2) (imap pair ts).
Definition admits (l : L) (u : thread) : bool :=
  negb (bool_decide (announced u l)) && negb (bool_decide (held u !! l = Some Exclusive)).

(** The step of thread [i], if it can take one. *)
Definition advance (ts : list thread) (i : nat) : option (list thread) :=
  match ts !! i with
  | Some (MkThread (o :: k) h b) =>
      match o with
      | Acquire Exclusive l =>
          if b then
            if others_b ts i (λ u, bool_decide (held u !! l = None))
            then Some (<[i := MkThread k (<[l := Exclusive]> h) false]> ts) else None
          else
            if others_b ts i (admits l) then Some (<[i := MkThread (o :: k) h true]> ts) else None
      | Acquire Shared l =>
          if others_b ts i (admits l)
          then Some (<[i := MkThread k (<[l := Shared]> h) false]> ts) else None
      | Release m l =>
          if bool_decide (h !! l = Some m) then Some (<[i := MkThread k (delete l h) false]> ts) else None
      | _ => Some (<[i := MkThread k h false]> ts)
      end
  | _ => None
  end.
Fixpoint schedule (order : list nat) (ts : list thread) : option (list thread) :=
  match order with
  | [] => Some ts
  | i :: order' => ts' ← advance ts i; schedule order' ts'
  end.

Lemma others_b_spec ts i (p : thread → bool) (P : thread → Prop) :
  (∀ u, p u = true → P u) → others_b ts i p = true → others ts i P.
Proof.
  unfold others_b. rewrite forallb_forall. intros Hp Hall j u Hj Hne. apply Hp.
  assert ((j, u) ∈ imap pair ts) as Hin.
  { apply list_elem_of_lookup. exists j. by rewrite list_lookup_imap, Hj. }
  apply list_elem_of_In, Hall in Hin. cbn in Hin.
  by rewrite (proj2 (Nat.eqb_neq j i)) in Hin.
Qed.

Lemma admits_spec l u : admits l u = true → ¬ announced u l ∧ held u !! l ≠ Some Exclusive.
Proof. unfold admits. intros. by go_bool. Qed.

Lemma advance_step ts i ts' : advance ts i = Some ts' → step ts ts'.
Proof.
  unfold advance. destruct (ts !! i) as [[[|o k] h b]|] eqn:Hi; try done.
  destruct o as [[] l|m l|f|f|f].
  - destruct (others_b _ _ _) eqn:Ho; [|done]. intros [= <-]. eapply Step; [done|].
    apply TakeShared. by eapply others_b_spec; [apply admits_spec|].
  - destruct b; destruct (others_b _ _ _) eqn:Ho; try done; intros [= <-]; (eapply Step; [done|]).
    + apply TakeExclusive. eapply others_b_spec; [|done]. intros u Hu. by apply bool_decide_eq_true in Hu.
    + apply Announce. by eapply others_b_spec; [apply admits_spec|].
  - case_bool_decide; [|done]. intros [= <-]. eapply Step; [done|]. by apply GiveBack.
  - intros [= <-]. eapply Step; [done|]. apply Access. by exists f; auto.
  - intros [= <-]. eapply Step; [done|]. apply Access. by exists f; auto.
  - intros [= <-]. eapply Step; [done|]. apply Access. by exists f; auto.
Qed.

Lemma schedule_steps order ts ts' : schedule order ts = Some ts' → rtc step ts ts'.
Proof.
  revert ts. induction order as [|i order IH]; intros ts; cbn [schedule]; [by intros [= ->]|].
  intros (ts1 & Ha & Hs)%bind_Some. eapply rtc_l; [by eapply advance_step|by apply IH].
Qed.

(** Whether threads [i] and [j] are about to conflict on a field. *)
Definition race_between (ts : list thread) (i j : nat) (f : F) : bool :=
  match ts !! i, ts !! j with
  | Some (MkThread (o1 :: _) _ _), Some (MkThread (o2 :: _) _ _) =>
      negb (i =? j) && bool_decide (conflict o1 o2 f)
  | _, _ => false
  end.

Lemma race_between_spec ts i j f : race_between ts i j f = true → race ts f.
Proof.
  unfold race_between. destruct (ts !! i) as [[[|o1 k1] h1 b1]|] eqn:Hi; try done.
  destruct (ts !! j) as [[[|o2 k2] h2 b2]|] eqn:Hj; try done.
  intros [Hij Hc]%andb_true_iff. apply negb_true_iff, Nat.eqb_neq in Hij. apply bool_decide_eq_true in Hc.
  do 6 eexists. split_and!; [exact Hij|exact Hi|exact Hj|done|done|exact Hc].
Qed.
End concurrency.
Arguments op : clear implicits.
Arguments code : clear implicits.
Arguments thread L F {_ _}.
