(* ===== verification/ProviderLocks.v ===== *)
(** * The locks of the providers

    What every method of the providers locks, releases, reads and writes of the
    fields that several goroutines share: the reconcilers run concurrently with
    each other, with karpenter's own controllers and with the liveness probe.
    The methods follow the discipline of [Concurrency] for the fields [guard]
    names; four fields are touched outside their lock.  The expiring caches and
    the change monitors lock inside their own methods and take no other lock
    meanwhile. *)

From S2P Require Import Prelude Concurrency.
From stdpp Require Import relations.

Module locks.

Inductive lock :=
  | muInstanceTypeInfo | muInstanceTypesOfferings | muClusterCNI
  | muOnDemand | muSpot | muPriceLastUpdatedTimestamp
  | muVSwitch | muSecurityGroup | muImage | muResolver | resultMutex.
Inductive field :=
  | instanceTypesInfo | instanceTypesOfferings | spotInstanceTypesOfferings
  | instanceTypesSeqNum | instanceTypesOfferingsSeqNum
  | spotPrices | spotPricingUpdated | priceLastUpdatedTimestamp | inflightIPs | result
  | onDemandPrices | clusterCNI | SeqNum | lastUpdateTime.
#[export] Instance lock_eq_dec : EqDecision lock.
Proof. solve_decision. Defined.
#[export] Instance field_eq_dec : EqDecision field.
Proof. solve_decision. Defined.

(** The order in which the locks nest. *)
Definition rank (l : lock) : nat :=
  match l with
  | muInstanceTypeInfo => 0 | muInstanceTypesOfferings => 1 | muClusterCNI => 2
  | muOnDemand => 3 | muSpot => 4 | muPriceLastUpdatedTimestamp => 5
  | muVSwitch => 6 | muSecurityGroup => 7 | muImage => 8 | muResolver => 9
  | resultMutex => 10
  end.
Definition unrank (n : nat) : lock :=
  match n with
  | 0 => muInstanceTypeInfo | 1 => muInstanceTypesOfferings | 2 => muClusterCNI
  | 3 => muOnDemand | 4 => muSpot | 5 => muPriceLastUpdatedTimestamp
  | 6 => muVSwitch | 7 => muSecurityGroup | 8 => muImage | 9 => muResolver
  | _ => resultMutex
  end.
#[export] Program Instance lock_countable : Countable lock :=
  inj_countable' rank unrank _.
Next Obligation. by intros []. Qed.

(** The lock under which a field is touched, if every method keeps to it. *)
Definition guard (f : field) : option lock :=
  match f with
  | instanceTypesInfo | instanceTypesSeqNum => Some muInstanceTypeInfo
  | instanceTypesOfferings | spotInstanceTypesOfferings | instanceTypesOfferingsSeqNum =>
      Some muInstanceTypesOfferings
  | spotPrices | spotPricingUpdated => Some muSpot
  | priceLastUpdatedTimestamp => Some muPriceLastUpdatedTimestamp
  | inflightIPs => Some muVSwitch
  | result => Some resultMutex
  | onDemandPrices | clusterCNI | SeqNum | lastUpdateTime => None
  end.

Notation C := (code lock field).
Declare Scope code_scope.
Delimit Scope code_scope with code.
Bind Scope code_scope with code.
#[local] Notation "a ;; b" := (Seq a b) (at level 100, b at level 200, right associativity) : code_scope.
#[local] Open Scope code_scope.
Definition read (f : field) : C := Do (Read f).
Definition write (f : field) : C := Do (Write f).
Definition add (f : field) : C := Do (AtomicAdd f).
Definition lock_ (l : lock) : C := Do (Acquire Exclusive l).
Definition unlock (l : lock) : C := Do (Release Exclusive l).
Definition maybe (a : C) : C := Branch Skip a.

(** ** pkg/providers/pricing *)

Definition pricing_InstanceTypes : C :=
  locked Shared muOnDemand (locked Shared muSpot (read onDemandPrices ;; read spotPrices)).
Definition OnDemandPrice : C := locked Shared muOnDemand (read onDemandPrices).
Definition SpotPrice : C :=
  locked Shared muSpot (Return (read spotPrices) (Return (read spotPricingUpdated) (read spotPrices))).
Definition pricing_LivenessProbe : C :=
  lock_ muOnDemand ;; lock_ muSpot ;; lock_ muPriceLastUpdatedTimestamp ;;
  unlock muOnDemand ;; unlock muSpot ;; unlock muPriceLastUpdatedTimestamp.
Definition syncPricingData : C :=
  Return (lock_ muPriceLastUpdatedTimestamp ;; read priceLastUpdatedTimestamp ;;
          unlock muPriceLastUpdatedTimestamp)
    (lock_ muPriceLastUpdatedTimestamp ;; write priceLastUpdatedTimestamp ;;
     unlock muPriceLastUpdatedTimestamp).
Definition UpdateOnDemandPricing : C :=
  Return syncPricingData (locked Exclusive muOnDemand (write onDemandPrices)).
(** The log line at the end reads the on-demand prices for their number. *)
Definition UpdateSpotPricing : C :=
  Return syncPricingData (locked Exclusive muSpot
    (Repeat (read spotPrices ;; maybe (write spotPrices) ;; Repeat (write spotPrices)) ;;
     write spotPricingUpdated ;; read spotPrices ;; maybe (read onDemandPrices))).

(** ** pkg/providers/ack *)

Definition ack_LivenessProbe : C := lock_ muClusterCNI ;; unlock muClusterCNI.
(** The value returned after an update is read again, without the lock. *)
Definition GetClusterCNI : C :=
  Return (locked Shared muClusterCNI (read clusterCNI))
    (lock_ muClusterCNI ;; write clusterCNI ;; unlock muClusterCNI ;; read clusterCNI).

(** ** pkg/providers/instancetype *)

Definition instancetype_LivenessProbe : C := Return ack_LivenessProbe pricing_LivenessProbe.
(** The health check of the process. *)
Definition cloudprovider_LivenessProbe : C := instancetype_LivenessProbe.
Definition validateState : C :=
  Return (read instanceTypesInfo) (Return (read instanceTypesOfferings) (read spotInstanceTypesOfferings)).
Definition createOfferings : C := Repeat (OnDemandPrice ;; SpotPrice).
(** The counter of the unavailable offerings is read without an atomic load. *)
Definition instancetype_List : C :=
  locked Shared muInstanceTypeInfo (locked Shared muInstanceTypesOfferings
    (Return validateState
      (Return (read instanceTypesSeqNum ;; read instanceTypesOfferingsSeqNum ;; read SeqNum)
        (Repeat (read instanceTypesOfferings) ;;
         Return GetClusterCNI
           (Repeat (read instanceTypesInfo ;;
                    Repeat (read instanceTypesOfferings ;; read spotInstanceTypesOfferings) ;;
                    createOfferings)))))).
Definition UpdateInstanceTypes : C :=
  locked Exclusive muInstanceTypeInfo
    (Return Skip (Return GetClusterCNI (maybe (add instanceTypesSeqNum) ;; write instanceTypesInfo))).
Definition UpdateInstanceTypeOfferings : C :=
  locked Exclusive muInstanceTypesOfferings
    (Return Skip (maybe (add instanceTypesOfferingsSeqNum) ;; write instanceTypesOfferings ;;
                  Return Skip (write spotInstanceTypesOfferings))).

(** ** pkg/providers/vswitch, securitygroup and imagefamily *)

Definition vswitch_List : C := locked Exclusive muVSwitch (Repeat (write inflightIPs)).
Definition ZonalVSwitchesForLaunch : C :=
  Return Skip (locked Exclusive muVSwitch
    (Repeat (read inflightIPs) ;; Repeat (read inflightIPs ;; write inflightIPs))).
Definition UpdateInflightIPs : C :=
  locked Exclusive muVSwitch (Repeat (Return (read inflightIPs) (write inflightIPs))).
Definition vswitch_LivenessProbe : C := lock_ muVSwitch ;; unlock muVSwitch.
Definition securitygroup_List : C := locked Exclusive muSecurityGroup Skip.
Definition image_List : C := locked Exclusive muImage Skip.
(** The filter holds its lock while its workers, one per instance type, add to
    the shared result; it reads the result after they are all done. *)
Definition FilterInstanceTypesBySystemDisk : C := locked Exclusive muResolver Skip.
Definition systemDiskWorker : C := maybe (lock_ resultMutex ;; read result ;; write result ;; unlock resultMutex).

(** ** pkg/cache and pkg/providers/instance *)

(** Marking an offering, flushing and evicting count in [SeqNum]. *)
Definition MarkUnavailable : C := add SeqNum.
(** [List] decides by the time of the last listing whether to list again. *)
Definition instance_List : C := Return (read lastUpdateTime) (write lastUpdateTime).

Definition methods : list C :=
  [pricing_InstanceTypes; OnDemandPrice; SpotPrice; pricing_LivenessProbe; UpdateOnDemandPricing;
   UpdateSpotPricing; ack_LivenessProbe; GetClusterCNI; cloudprovider_LivenessProbe; instancetype_List;
   UpdateInstanceTypes; UpdateInstanceTypeOfferings; vswitch_List; ZonalVSwitchesForLaunch;
   UpdateInflightIPs; vswitch_LivenessProbe; securitygroup_List; image_List;
   FilterInstanceTypesBySystemDisk; systemDiskWorker; MarkUnavailable; instance_List].

(** A goroutine of the program: any methods, one after the other. *)
Definition goroutine : C := Repeat (foldr Branch Skip methods).
Definition started (ops : list (list (op lock field))) : list (thread lock field) := fresh_thread <$> ops.
Definition reachable (ops : list (list (op lock field))) (ts : list (thread lock field)) : Prop :=
  Forall (runs goroutine) ops ∧ rtc step (started ops) ts.

(** The choices by which a goroutine runs the [i]-th method, with choices [ch]. *)
Definition calling (i : nat) (ch : list bool) : list bool := true :: replicate i true ++ false :: ch.
Definition performing (calls : list (list bool)) : list (list (op lock field)) :=
  (λ ch, (perform goroutine ch).1) <$> calls.

Lemma performing_run calls : Forall (runs goroutine) (performing calls).
Proof. apply Forall_fmap, Forall_true. intros ch. apply perform_runs. Qed.

Lemma goroutine_disciplined : check rank guard ∅ goroutine = Some ∅.
Proof. vm_compute. reflexivity. Qed.

Lemma reachable_locked ops ts : reachable ops ts → well_locked rank guard ts.
Proof.
  intros [Hops Hr]. eapply reachable_well_locked; [|exact Hr]. apply fresh_well_locked.
  intros s Hs. rewrite Forall_forall in Hops. eapply check_sound; [by apply Hops|apply goroutine_disciplined].
Qed.

(** C13. However the methods of the providers are interleaved, each call
    passes the lock discipline: locks are taken in the order of their ranks, each
    one is released, and the guarded fields are touched under their lock, by a
    writer alone. *)
Theorem methods_disciplined c s :
  c ∈ methods → runs c s → check_trace rank guard ∅ s = Some ∅.
Proof.
  intros Hc Hs. eapply check_sound; [exact Hs|].
  assert (Forall (λ c, check rank guard ∅ c = Some ∅) methods) as Hall by (repeat constructor).
  by rewrite Forall_forall in Hall; apply Hall.
Qed.

(** C11. Any number of goroutines running the providers' methods, in any
    interleaving, end: a state that is not finished has a next step (there is no
    deadlock, a waiting writer that keeps readers out included), no run is longer
    than the work left, and when all is done every lock is free. *)
Theorem goroutines_finish ops ts :
  reachable ops ts →
  (finished ts ∨ ∃ ts', step ts ts') ∧
  (∀ n ts', nsteps step n ts ts' → n ≤ total_weight ts) ∧
  (∃ ts', rtc step ts ts' ∧ finished ts').
Proof.
  intros Hw%reachable_locked. split_and!.
  - by eapply well_locked_progress.
  - intros n ts' Hn%run_bounded. lia.
  - by eapply well_locked_finishes.
Qed.

(** No two goroutines are ever about to touch the same guarded field, one of
    them to write it. *)
Lemma guarded_race_free ops ts f l : reachable ops ts → guard f = Some l → ¬ race ts f.
Proof. intros Hw%reachable_locked. by apply well_locked_no_race with (rank := rank). Qed.

(** Two calls and an order of their steps after which both are about to touch
    the field. *)
Definition racing (f : field) : list (list bool) * list nat :=
  match f with
  | onDemandPrices =>
      ([calling 4 [false; true]; calling 5 [false; true; false; true]],
       [0; 0; 0; 0; 0; 0; 1; 1; 1; 1; 1; 1; 1; 1])
  | clusterCNI => ([calling 7 [true]; calling 7 [true]], [0; 0; 0; 1; 1; 1; 0; 0; 0; 0; 1; 1])
  | SeqNum => ([calling 9 [true; true; true; true]; calling 20 []], [0; 0; 0; 0; 0; 0; 0])
  | _ => ([calling 21 [true]; calling 21 [true]], [0; 1])
  end.

Lemma unguarded_races f : guard f = None → ∃ ops ts, reachable ops ts ∧ race ts f.
Proof.
  intros Hf. exists (performing (racing f).1).
  assert (∃ ts, schedule (racing f).2 (started (performing (racing f).1)) = Some ts ∧
                race_between ts 0 1 f = true) as (ts & Hs & Hr).
  { destruct f; try done; eexists; split; vm_compute; reflexivity. }
  exists ts. split; [split; [apply performing_run|by eapply schedule_steps]|by eapply race_between_spec].
Qed.

(** C12. The fields that two goroutines can be about to touch at once, one of
    them to write it, are exactly the four without a lock: the on-demand prices
    (counted for a log line), the cluster's network type (returned after the
    lock is given back), the unavailable offerings' counter (read plainly) and
    the time of the last listing. *)
Theorem races_exactly f : (∃ ops ts, reachable ops ts ∧ race ts f) ↔ guard f = None.
Proof.
  split; [|apply unguarded_races]. intros (ops & ts & Hr & Hrace).
  destruct (guard f) as [l|] eqn:Hg; [|done]. by destruct (guarded_race_free ops ts f l Hr Hg).
Qed.

(** ** The launch path, the price updates and the liveness probe at once *)
Module Example.

Definition probes_and_updates : list (list (op lock field)) :=
  performing [calling 8 [true]; calling 9 [true; true; true; true; true]; calling 10 [true; true; true];
              calling 4 [true; true]].
Definition after (order : list nat) : list (thread lock field) :=
  default [] (schedule order (started probes_and_updates)).

Lemma probes_and_updates_reachable order :
  schedule order (started probes_and_updates) = Some (after order) →
  reachable probes_and_updates (after order).
Proof. intros Hs. split; [apply performing_run|by eapply schedule_steps]. Qed.

Lemma methods_disciplined_witness :
  UpdateInstanceTypes ∈ methods ∧
  check_trace rank guard ∅ (perform UpdateInstanceTypes [true; true; true]).1 = Some ∅.
Proof.
  assert (UpdateInstanceTypes ∈ methods) as Hin by (by repeat constructor).
  split; [exact Hin|]. exact (methods_disciplined _ _ Hin (perform_runs UpdateInstanceTypes [true; true; true])).
Defined.

(** The updater is announced and waits for the lock that the lister shares. *)
Lemma goroutines_finish_witness :
  advance (after [1; 2]) 2 = None ∧ ∃ ts', rtc step (after [1; 2]) ts' ∧ finished ts'.
Proof.
  split; [vm_compute; reflexivity|].
  assert (reachable probes_and_updates (after [1; 2])) as Hr.
  { apply probes_and_updates_reachable. vm_compute. reflexivity. }
  exact (proj2 (proj2 (goroutines_finish _ _ Hr))).
Defined.
End Example.
End locks.
