(* ===== verification/Floats.v ===== *)
(** * IEEE-754 doubles

    [float64] as the Standard Library's [spec_float], an executable and
    axiom-free specification of IEEE arithmetic: the operations below are the
    exact ones of Go's [float64] (round to nearest even).  Prices are doubles
    that are not NaN (they are decoded from JSON, which has no NaN); on them
    Go's [<] is a strict weak order, which is what the selection of the
    cheapest offering needs. *)

From S2P Require Import Prelude.
From Stdlib Require Import Floats.SpecFloat.

Definition float64 : Type := spec_float.

Definition prec64 : Z := 53.
Definition emax64 : Z := 1024.

Definition fmul (x y : float64) : float64 := SFmul prec64 emax64 x y.
Definition fdiv (x y : float64) : float64 := SFdiv prec64 emax64 x y.
Definition flt (x y : float64) : bool := SFltb x y.
Definition fle (x y : float64) : bool := SFleb x y.
Definition feq (x y : float64) : bool := SFeqb x y.

(** [float64(n)] for an integer [n]. *)
Definition float64_of_Z (n : Z) : float64 := binary_normalize prec64 emax64 n 0 false.

(** The double nearest to the decimal literal [num / 10^k]: the correctly
    rounded quotient of two exactly representable integers. *)
Definition decimal (num den : Z) : float64 := fdiv (float64_of_Z num) (float64_of_Z den).

Definition MaxFloat64 : float64 := SFmax_float prec64 emax64.

(** [int64(f)]: truncation towards zero (in range; Go leaves the other cases to
    the implementation, which returns the smallest integer on amd64). *)
Definition float_trunc (f : float64) : Z :=
  match f with
  | S754_zero _ => 0
  | S754_finite s m e =>
      let a := if (0 <=? e)%Z then (Z.pos m * 2 ^ e)%Z else (Z.pos m / 2 ^ (- e))%Z in
      if s then (- a)%Z else a
  | _ => MinInt64
  end.
Definition int64_of_float (f : float64) : Z :=
  let n := float_trunc f in
  if (MinInt64 <=? n)%Z && (n <=? MaxInt64)%Z then n else MinInt64.

(** [int64(math.Ceil(f))]. *)
Definition float_ceil (f : float64) : Z :=
  match f with
  | S754_zero _ => 0
  | S754_finite s m e =>
      let num := if s then (- Z.pos m)%Z else Z.pos m in
      if (0 <=? e)%Z then (num * 2 ^ e)%Z else (- ((- num) / 2 ^ (- e)))%Z
  | _ => MinInt64
  end.
Definition int64_of_ceil (f : float64) : Z :=
  let n := float_ceil f in
  if (MinInt64 <=? n)%Z && (n <=? MaxInt64)%Z then n else MinInt64.

(** [math.Min]. *)
Definition fmin (x y : float64) : float64 :=
  match x, y with
  | S754_infinity true, _ | _, S754_infinity true => S754_infinity true
  | S754_nan, _ | _, S754_nan => S754_nan
  | S754_zero s, S754_zero s' => if s then x else y
  | _, _ => if flt x y then x else y
  end.

(** ** Prices *)

Definition is_nan (f : float64) : bool := match f with S754_nan => true | _ => false end.

Record price := Price { pval : float64; pval_num : is_nan pval = false }.
Coercion pval : price >-> float64.

Definition price_lt (p q : price) : bool := flt p q.

Lemma price_eq (p q : price) : pval p = pval q → p = q.
Proof.
  destruct p as [x Hx], q as [y Hy]. simpl. intros ->. f_equal.
  apply Eqdep_dec.UIP_dec, bool_dec.
Qed.

(** The double comparison is the lexicographic order of this key. *)
Definition fkey (f : float64) : Z * Z * Z :=
  match f with
  | S754_infinity true => (-2, 0, 0)
  | S754_finite true m e => (-1, - e, - Z.pos m)
  | S754_zero _ => (0, 0, 0)
  | S754_finite false m e => (1, e, Z.pos m)
  | S754_infinity false => (2, 0, 0)
  | S754_nan => (3, 0, 0)
  end%Z.

Definition key_lt (k l : Z * Z * Z) : Prop :=
  let '(a, b, c) := k in let '(a', b', c') := l in
  (a < a' ∨ (a = a' ∧ (b < b' ∨ (b = b' ∧ c < c'))))%Z.

Lemma flt_key x y :
  is_nan x = false → is_nan y = false → flt x y = true ↔ key_lt (fkey x) (fkey y).
Proof.
  unfold flt, SFltb, SFcompare, key_lt, fkey.
  destruct x as [[]|[]| |[] m e], y as [[]|[]| |[] m' e']; intros Hx Hy;
    try discriminate; try (split; [done|lia]); try (split; [intros _; lia|done]);
    change (Pos.compare_cont Eq m m') with (m ?= m')%positive;
    destruct (Z.compare_spec e e'); try (split; [done|lia]); try (split; [intros _; lia|done]);
    destruct (Pos.compare_spec m m'); simpl;
    try (split; [done|lia]); (split; [intros _; lia|done]).
Qed.

Lemma fle_key x y :
  is_nan x = false → is_nan y = false → fle x y = true ↔ ¬ key_lt (fkey y) (fkey x).
Proof.
  intros Hx Hy. rewrite <- (flt_key y x Hy Hx).
  unfold flt, fle, SFltb, SFleb, SFcompare.
  destruct x as [[]|[]| |[] m e], y as [[]|[]| |[] m' e']; try discriminate; try naive_solver;
    change (Pos.compare_cont Eq m m') with (m ?= m')%positive;
    change (Pos.compare_cont Eq m' m) with (m' ?= m)%positive;
    rewrite (Z.compare_antisym e e'), (Pos.compare_antisym m m');
    destruct (Z.compare_spec e e'); destruct (Pos.compare_spec m m'); simpl; naive_solver.
Qed.

Lemma key_lt_irrefl k : ¬ key_lt k k.
Proof. destruct k as [[??]?]. simpl. lia. Qed.
Lemma key_lt_trans k l m : key_lt k l → key_lt l m → key_lt k m.
Proof. destruct k as [[??]?], l as [[??]?], m as [[??]?]. simpl. lia. Qed.
Lemma key_lt_neg_trans k l m : ¬ key_lt k l → ¬ key_lt l m → ¬ key_lt k m.
Proof. destruct k as [[??]?], l as [[??]?], m as [[??]?]. simpl. lia. Qed.

Lemma price_lt_key (p q : price) : price_lt p q = true ↔ key_lt (fkey p) (fkey q).
Proof. apply flt_key; apply pval_num. Qed.
Lemma price_lt_key_false (p q : price) : price_lt p q = false ↔ ¬ key_lt (fkey p) (fkey q).
Proof. rewrite <- price_lt_key. destruct (price_lt p q); naive_solver. Qed.
Lemma price_le_key (p q : price) : fle p q = true ↔ ¬ key_lt (fkey q) (fkey p).
Proof. apply fle_key; apply pval_num. Qed.

#[export] Instance price_lt_swo : StrictWeakOrder price_lt.
Proof.
  constructor.
  - intros x y. rewrite price_lt_key, price_lt_key_false.
    intros H1 H2. eapply key_lt_irrefl, key_lt_trans; eauto.
  - intros x y z. rewrite !price_lt_key_false. apply key_lt_neg_trans.
Qed.

Lemma price_le_not_lt (p q : price) : fle p q = true ↔ price_lt q p = false.
Proof. rewrite price_le_key, price_lt_key_false. done. Qed.

Lemma price_lt_trans (p q r : price) :
  price_lt p q = true → price_lt q r = true → price_lt p r = true.
Proof. rewrite !price_lt_key. apply key_lt_trans. Qed.

Lemma price_le_trans (p q r : price) : fle p q = true → fle q r = true → fle p r = true.
Proof. rewrite !price_le_key. intros H1 H2. by eapply key_lt_neg_trans. Qed.

Lemma feq_price (p q : price) : feq p q = true ↔ price_lt p q = false ∧ price_lt q p = false.
Proof.
  rewrite !price_lt_key_false. destruct p as [x Hx], q as [y Hy]; simpl.
  rewrite <- (flt_key x y), <- (flt_key y x) by done.
  unfold feq, flt, SFeqb, SFltb, SFcompare.
  destruct x as [[]|[]| |[] m e], y as [[]|[]| |[] m' e']; try discriminate; try naive_solver;
    change (Pos.compare_cont Eq m m') with (m ?= m')%positive;
    change (Pos.compare_cont Eq m' m) with (m' ?= m)%positive;
    rewrite (Z.compare_antisym e e'), (Pos.compare_antisym m m');
    destruct (Z.compare_spec e e'); destruct (Pos.compare_spec m m'); simpl; naive_solver.
Qed.

(** [math.MaxFloat64] as a price: the initial bound of the minimum searches. *)
Definition MaxPrice : price := Price MaxFloat64 eq_refl.

#[export] Hint Resolve price_lt_trans price_le_trans : go.
