(* ===== verification/GoFormat.v ===== *)
(** * Formatting of [float32] values ([fmt] and [strconv])

    The instance type labels and quantities print [float32] fields of the ECS
    API with [fmt.Sprint] (verb [%v], that is [%g] with the shortest digits that
    read back as the same [float32]) and [fmt.Sprintf] with verb [%f] (six
    decimals).  Both are executable here, on [spec_float]. *)

From S2P Require Import Prelude Floats.
From Stdlib Require Import Floats.SpecFloat.

Definition float32 : Type := spec_float.
Definition prec32 : Z := 24.
Definition emax32 : Z := 128.

Definition fmul32 (x y : float32) : float32 := SFmul prec32 emax32 x y.
Definition float32_of_Z (n : Z) : float32 := binary_normalize prec32 emax32 n 0 false.

(** The [float32] nearest to [num / den]. *)
Definition float32_of_ratio (num den : positive) : float32 :=
  SFdiv prec32 emax32 (S754_finite false num 0) (S754_finite false den 0).

(** A finite magnitude [m * 2^e] as a fraction. *)
Definition fraction (m : positive) (e : Z) : positive * positive :=
  if (0 <=? e)%Z then (Z.to_pos (Z.pos m * 2 ^ e), 1%positive) else (m, Z.to_pos (2 ^ (- e))).

Definition same_magnitude (f : float32) (num den : positive) : bool :=
  match f with
  | S754_finite _ m e => let '(n, d) := fraction m e in (n * den =? num * d)%positive
  | _ => false
  end.

(** ** [%f]: six decimals, ties to even *)

Definition round_half_even (num den : Z) : Z :=
  let q := (num / den)%Z in
  match (2 * (num mod den) ?= den)%Z with
  | Lt => q
  | Gt => (q + 1)%Z
  | Eq => if Z.even q then q else (q + 1)%Z
  end.

(** The number printed by [%f], in millionths; a non-finite value prints no
    number. *)
Definition micros (f : float32) : option Z :=
  match f with
  | S754_zero _ => Some 0%Z
  | S754_finite s m e =>
      let '(n, d) := fraction m e in
      let a := round_half_even (Z.pos n * 1000000) (Z.pos d) in
      Some (if s then (- a)%Z else a)
  | _ => None
  end.

(** ** [%v]: shortest digits *)

Definition pow10 (k : Z) : Z := (10 ^ k)%Z.

(** [num/den < 10^k]. *)
Definition below_pow10 (num den : positive) (k : Z) : bool :=
  if (0 <=? k)%Z then (Z.pos num <? pow10 k * Z.pos den)%Z
  else (Z.pos num * pow10 (- k) <? Z.pos den)%Z.

(** The decimal point position: the least [dp] with [num/den < 10^dp]. *)
Fixpoint decimal_point (fuel : nat) (k : Z) (num den : positive) : Z :=
  match fuel with
  | O => k
  | S fuel' => if below_pow10 num den k then k else decimal_point fuel' (k + 1) num den
  end.

(** The decimal [d * 10^q] as a fraction. *)
Definition decimal_fraction (d q : Z) : positive * positive :=
  if (0 <=? q)%Z then (Z.to_pos (d * pow10 q), 1%positive)
  else (Z.to_pos d, Z.to_pos (pow10 (- q))).

Definition reads_back (d q : Z) (num den : positive) : bool :=
  (0 <? d)%Z &&
  let '(n, m) := decimal_fraction d q in
  same_magnitude (float32_of_ratio n m) num den.

(** The digits of length [n] closest to the value among those that read back. *)
Definition digits_of_length (n dp : Z) (num den : positive) : option Z :=
  let q := (dp - n)%Z in
  let '(a, b) := if (0 <=? q)%Z then (Z.pos num, Z.pos den * pow10 q)%Z
                 else (Z.pos num * pow10 (- q), Z.pos den)%Z in
  let lo := (a / b)%Z in
  let hi := (lo + 1)%Z in
  let lo_ok := reads_back lo q num den in
  let hi_ok := reads_back hi q num den in
  if lo_ok && (negb hi_ok || (2 * (a mod b) <=? b)%Z) then Some lo
  else if hi_ok then Some hi else None.

Fixpoint shortest_digits (fuel : nat) (n dp : Z) (num den : positive) : Z * Z :=
  match fuel with
  | O => (0, n)%Z
  | S fuel' =>
      match digits_of_length n dp num den with
      | Some d => (d, n)
      | None => shortest_digits fuel' (n + 1) dp num den
      end
  end.

Fixpoint zeros (n : nat) : string := match n with O => "" | S n' => "0" +:+ zeros n' end.
Definition str_take (n : nat) (s : string) : string := String.substring 0 n s.
Definition str_drop (n : nat) (s : string) : string := String.substring n (String.length s - n) s.

(** Scientific notation, with at least two exponent digits. *)
Definition format_e (ds : string) (exp : Z) : string :=
  let frac := str_drop 1 ds in
  let e := pretty (Z.abs exp) in
  str_take 1 ds +:+ (if bool_decide (frac = "") then "" else "." +:+ frac)
  +:+ "e" +:+ (if (exp <? 0)%Z then "-" else "+")
  +:+ (if (Z.abs exp <? 10)%Z then "0" +:+ e else e).

Definition format_f (ds : string) (dp : Z) : string :=
  let nd := String.length ds in
  if (dp <=? 0)%Z then "0." +:+ zeros (Z.to_nat (- dp)) +:+ ds
  else if (Z.of_nat nd <=? dp)%Z then ds +:+ zeros (Z.to_nat dp - nd)
  else str_take (Z.to_nat dp) ds +:+ "." +:+ str_drop (Z.to_nat dp) ds.

(** [%g] with the shortest digits: exponent form below 1e-4 and from 1e6 on. *)
Definition format_g (num den : positive) : string :=
  let dp := decimal_point 90 (-45) num den in
  let '(d, n) := shortest_digits 9 1 dp num den in
  let '(d, dp) := if (d =? pow10 n)%Z then (1, dp + 1)%Z else (d, dp) in
  let ds := pretty d in
  let exp := (dp - 1)%Z in
  if (exp <? -4)%Z || (6 <=? exp)%Z then format_e ds exp else format_f ds dp.

Definition sprint_float32 (f : float32) : string :=
  match f with
  | S754_zero s => if s then "-0" else "0"
  | S754_infinity s => if s then "-Inf" else "+Inf"
  | S754_nan => "NaN"
  | S754_finite s m e =>
      let '(n, d) := fraction m e in (if s then "-" else "") +:+ format_g n d
  end.

(** ** Samples *)

Example sprint_samples :
  sprint_float32 (float32_of_Z 8192) = "8192" ∧
  sprint_float32 (float32_of_ratio 15 4) = "3.75" ∧
  sprint_float32 (float32_of_ratio 1 10) = "0.1" ∧
  sprint_float32 (float32_of_ratio 1 3) = "0.33333334" ∧
  sprint_float32 (float32_of_Z 999424) = "999424" ∧
  sprint_float32 (float32_of_Z 1048576) = "1.048576e+06" ∧
  sprint_float32 (float32_of_ratio 1 100000) = "1e-05" ∧
  sprint_float32 (float32_of_Z 16777216) = "1.6777216e+07".
Proof. vm_compute. repeat split; reflexivity. Qed.

Example micros_samples :
  micros (float32_of_ratio 1 2) = Some 500000%Z ∧ micros (float32_of_Z 4) = Some 4000000%Z ∧
  micros (float32_of_ratio 1 3) = Some 333333%Z.
Proof. vm_compute. repeat split; reflexivity. Qed.
