(* ===== verification/GoCache.v ===== *)
(** * The expiring cache ([github.com/patrickmn/go-cache], vendored)

    Every provider keeps its remote data in one of these.  An entry carries the
    instant after which it is expired; reading ignores expired entries, and a
    janitor goroutine removes them from time to time.  The equivalence
    [cache_equiv] identifies caches that no reader can tell apart from a given
    instant on; the janitor acts as the identity for it. *)

From S2P Require Import Prelude.

Record Item (V : Type) := MkItem { Object : V; Expiration : Z }.
Arguments MkItem {V} _ _.
Arguments Object {V} _.
Arguments Expiration {V} _.

Record cache (V : Type) := MkCache {
  defaultExpiration : Z;
  items : gmap string (Item V);
}.
Arguments MkCache {V} _ _.
Arguments defaultExpiration {V} _.
Arguments items {V} _.

Definition NoExpiration : Z := -1.
Definition DefaultExpiration : Z := 0.

Section cache.
Context {V : Type}.
Implicit Types (c : cache V) (k : string) (now d : Z).

(** [New]: a zero default expiration means "never". *)
Definition cache_new (d : Z) : cache V :=
  MkCache (if (d =? 0)%Z then NoExpiration else d) ∅.

Definition expired (now : Z) (it : Item V) : bool :=
  (0 <? Expiration it)%Z && (Expiration it <? now)%Z.

Definition cache_get (now : Z) (k : string) (c : cache V) : option V :=
  match items c !! k with
  | None => None
  | Some it => if expired now it then None else Some (Object it)
  end.

Definition cache_set (now : Z) (k : string) (x : V) (d : Z) (c : cache V) : cache V :=
  let d := if (d =? DefaultExpiration)%Z then defaultExpiration c else d in
  let e := if (0 <? d)%Z then (now + d)%Z else 0%Z in
  MkCache (defaultExpiration c) (<[k := MkItem x e]> (items c)).

Definition cache_set_default (now : Z) (k : string) (x : V) (c : cache V) : cache V :=
  cache_set now k x DefaultExpiration c.

Definition cache_delete (k : string) (c : cache V) : cache V :=
  MkCache (defaultExpiration c) (delete k (items c)).

Definition expired_items (now : Z) (c : cache V) : gmap string (Item V) :=
  filter (λ kv, expired now kv.2 = true) (items c).

(** [DeleteExpired]; the evicted items are handed to the eviction callback. *)
Definition cache_delete_expired (now : Z) (c : cache V) : cache V :=
  MkCache (defaultExpiration c) (filter (λ kv, expired now kv.2 = false) (items c)).

(** [Items]: the entries that have not expired. *)
Definition cache_items (now : Z) (c : cache V) : gmap string (Item V) :=
  filter (λ kv, expired now kv.2 = false) (items c).

Definition cache_flush (c : cache V) : cache V := MkCache (defaultExpiration c) ∅.

(** ** What a reader sees *)

Lemma cache_get_items now k c : cache_get now k c = Object <$> cache_items now c !! k.
Proof.
  unfold cache_get, cache_items. destruct (items c !! k) as [it|] eqn:H.
  - destruct (expired now it) eqn:He.
    + rewrite (map_lookup_filter_None_2 _ _ k); [done|]. right. intros it' Hi. simpl. congruence.
    + by rewrite (map_lookup_filter_Some_2 _ _ k it).
  - rewrite (map_lookup_filter_None_2 _ _ k); [done|]. by left.
Qed.

Lemma cache_get_set_eq now now' k x d c :
  (0 < d)%Z → (0 < now + d)%Z →
  cache_get now' k (cache_set now k x d c) = if (now + d <? now')%Z then None else Some x.
Proof.
  intros Hd Hp. unfold cache_get, cache_set, expired, DefaultExpiration; simpl.
  rewrite lookup_insert_eq, (proj2 (Z.eqb_neq d 0)) by lia. simpl.
  rewrite (proj2 (Z.ltb_lt 0 d)), (proj2 (Z.ltb_lt 0 (now + d))) by lia. simpl.
  by destruct (now + d <? now')%Z.
Qed.

Lemma cache_get_set_ne now now' k k' x d c :
  k ≠ k' → cache_get now' k' (cache_set now k x d c) = cache_get now' k' c.
Proof. intros H. unfold cache_get, cache_set; simpl. by rewrite lookup_insert_ne. Qed.

Lemma cache_get_set_default_eq now now' k x c :
  (0 < defaultExpiration c)%Z → (0 ≤ now)%Z →
  cache_get now' k (cache_set_default now k x c) =
  if (now + defaultExpiration c <? now')%Z then None else Some x.
Proof.
  intros Hd Hn. rewrite <- (cache_get_set_eq now now' k x (defaultExpiration c) c) by lia.
  unfold cache_set_default, cache_set, DefaultExpiration. simpl.
  by rewrite (proj2 (Z.eqb_neq (defaultExpiration c) 0)) by lia.
Qed.

Lemma cache_get_delete_eq now k c : cache_get now k (cache_delete k c) = None.
Proof. unfold cache_get; simpl. by rewrite lookup_delete_eq. Qed.
Lemma cache_get_delete_ne now k k' c :
  k ≠ k' → cache_get now k' (cache_delete k c) = cache_get now k' c.
Proof. intros. unfold cache_get; simpl. by rewrite lookup_delete_ne. Qed.
Lemma cache_get_flush now k c : cache_get now k (cache_flush c) = None.
Proof. done. Qed.
Lemma cache_get_new now k d : cache_get now k (cache_new d) = None.
Proof. done. Qed.

Lemma expired_mono now now' it : (now ≤ now')%Z → expired now it = true → expired now' it = true.
Proof. unfold expired. rewrite !andb_true_iff, !Z.ltb_lt. lia. Qed.

Lemma cache_delete_expired_lookup now c k :
  items (cache_delete_expired now c) !! k =
  match items c !! k with
  | Some it => if expired now it then None else Some it
  | None => None
  end.
Proof.
  unfold cache_delete_expired; simpl. rewrite map_lookup_filter.
  destruct (items c !! k) as [it|]; [|done]. simpl.
  destruct (expired now it); by case_guard.
Qed.

(** The janitor removes exactly what no later reader can see. *)
Lemma cache_get_delete_expired now now' k c :
  (now ≤ now')%Z → cache_get now' k (cache_delete_expired now c) = cache_get now' k c.
Proof.
  intros Hle. unfold cache_get. rewrite cache_delete_expired_lookup.
  destruct (items c !! k) as [it|]; [|done].
  destruct (expired now it) eqn:He; [|done]. by rewrite (expired_mono now now').
Qed.

Lemma cache_delete_expired_id now c :
  expired_items now c = ∅ → items (cache_delete_expired now c) = items c.
Proof.
  intros He. apply map_eq. intros k. rewrite cache_delete_expired_lookup.
  destruct (items c !! k) as [it|] eqn:Hi; [|done].
  destruct (expired now it) eqn:Hx; [|done].
  assert (expired_items now c !! k = Some it) as H; [|by rewrite He in H].
  unfold expired_items. by apply map_lookup_filter_Some_2.
Qed.

(** ** Observational equivalence from an instant on *)

Definition cache_equiv (now : Z) (c1 c2 : cache V) : Prop :=
  defaultExpiration c1 = defaultExpiration c2 ∧
  ∀ now' k, (now ≤ now')%Z → cache_get now' k c1 = cache_get now' k c2.

#[export] Instance cache_equiv_equivalence now : Equivalence (cache_equiv now).
Proof.
  split.
  - by intros c.
  - intros c1 c2 [Hd Hg]. split; [done|]. intros. symmetry. by apply Hg.
  - intros c1 c2 c3 [Hd Hg] [Hd' Hg']. split; [congruence|].
    intros. rewrite Hg by done. by apply Hg'.
Qed.

#[export] Instance cache_get_proper now k : Proper (cache_equiv now ==> eq) (cache_get now k).
Proof. intros c1 c2 [_ Hg]. apply Hg. lia. Qed.

#[export] Instance cache_set_proper now k x d :
  Proper (cache_equiv now ==> cache_equiv now) (cache_set now k x d).
Proof.
  intros c1 c2 [Hd Hg]. split; [done|]. intros now' k' Hle.
  destruct (decide (k = k')) as [<-|Hne].
  - unfold cache_get, cache_set; simpl. by rewrite !lookup_insert_eq, Hd.
  - rewrite !cache_get_set_ne by done. by apply Hg.
Qed.

#[export] Instance cache_delete_proper now k :
  Proper (cache_equiv now ==> cache_equiv now) (cache_delete k).
Proof.
  intros c1 c2 [Hd Hg]. split; [done|]. intros now' k' Hle.
  destruct (decide (k = k')) as [<-|Hne].
  - by rewrite !cache_get_delete_eq.
  - rewrite !cache_get_delete_ne by done. by apply Hg.
Qed.

Lemma cache_delete_expired_equiv now c : cache_equiv now (cache_delete_expired now c) c.
Proof. split; [done|]. intros. by apply cache_get_delete_expired. Qed.
End cache.

#[export] Hint Rewrite @cache_get_delete_eq @cache_get_flush @cache_get_new : gorw.
#[export] Hint Resolve cache_delete_expired_equiv : go.

(** ** The change monitor *)

(** [pretty.ChangeMonitor.HasChanged] (karpenter, vendored): the hash last seen
    under the key, remembered for a day. *)
Definition HasChanged (now : Z) (key hv : string) (cm : cache string) : bool * cache string :=
  match cache_get now key cm with
  | Some h => if bool_decide (h = hv) then (false, cm) else (true, cache_set_default now key hv cm)
  | None => (true, cache_set_default now key hv cm)
  end.

(** A value is reported once and then again only when it changes or after a day. *)
Lemma HasChanged_repeat now now' key hv cm :
  (0 < defaultExpiration cm)%Z → (0 ≤ now)%Z → (now ≤ now' ≤ now + defaultExpiration cm)%Z →
  (HasChanged now key hv cm).1 = true →
  (HasChanged now' key hv (HasChanged now key hv cm).2).1 = false.
Proof.
  intros Hd Hn Hw. unfold HasChanged at 1 3.
  destruct (cache_get now key cm) as [h|].
  - case_bool_decide; [done|]. intros _. cbn [snd]. unfold HasChanged.
    by rewrite cache_get_set_default_eq, (proj2 (Z.ltb_ge _ _)), bool_decide_true by (done || lia).
  - intros _. cbn [snd]. unfold HasChanged.
    by rewrite cache_get_set_default_eq, (proj2 (Z.ltb_ge _ _)), bool_decide_true by (done || lia).
Qed.
