(* ===== verification/UnavailableOfferings.v ===== *)
(** * The insufficient-capacity cache (pkg/cache)

    [UnavailableOfferings] remembers the offerings whose launch failed for lack
    of stock, for three minutes each, and counts its changes in [SeqNum], which
    the instance-type provider puts in the key of its own cache.  The janitor
    of the underlying cache is a step of its own: the eviction callback
    increments the counter once per removed entry. *)

From S2P Require Import Prelude GoCache.

(** ** pkg/cache/cache.go: lifetimes *)

Definition DefaultTTL : Z := Minute.
Definition KubernetesVersionTTL : Z := 15 * Minute.
Definition UnavailableOfferingsTTL : Z := 3 * Minute.
Definition AvailableIPAddressTTL : Z := 5 * Minute.
Definition InstanceTypeAvailableDiskTTL : Z := 30 * Minute.
Definition ClusterAttachScriptTTL : Z := 6 * Hour.
Definition DefaultCleanupInterval : Z := 1 * Minute.
Definition UnavailableOfferingsCleanupInterval : Z := 10 * Second.
Definition InstanceTypesAndZonesTTL : Z := 5 * Minute.

(** ** pkg/cache/unavailableofferings.go *)

Record UnavailableOfferings := MkUO {
  uo_cache : cache ();
  SeqNum : Z;
}.

Definition NewUnavailableOfferings : UnavailableOfferings :=
  MkUO (cache_new UnavailableOfferingsTTL) 0.

(** [fmt.Sprintf("%s:%s:%s", capacityType, instanceType, zone)]. *)
Definition key (instanceType zone capacityType : string) : string :=
  capacityType +:+ ":" +:+ instanceType +:+ ":" +:+ zone.

Definition IsUnavailable (now : Z) (instanceType zone capacityType : string)
    (u : UnavailableOfferings) : bool :=
  bool_decide (is_Some (cache_get now (key instanceType zone capacityType) (uo_cache u))).

Definition bump (u : UnavailableOfferings) : UnavailableOfferings :=
  MkUO (uo_cache u) (uint64 (SeqNum u + 1)).

Definition MarkUnavailableWithTTL (now : Z) (instanceType zone capacityType : string) (ttl : Z)
    (u : UnavailableOfferings) : UnavailableOfferings :=
  bump (MkUO (cache_set now (key instanceType zone capacityType) () ttl (uo_cache u)) (SeqNum u)).

Definition MarkUnavailable (now : Z) (instanceType zone capacityType : string)
    (u : UnavailableOfferings) : UnavailableOfferings :=
  MarkUnavailableWithTTL now instanceType zone capacityType UnavailableOfferingsTTL u.

Definition Flush (u : UnavailableOfferings) : UnavailableOfferings :=
  bump (MkUO (cache_flush (uo_cache u)) (SeqNum u)).

(** The janitor's [DeleteExpired] with the [OnEvicted] callback installed by
    [NewUnavailableOfferingsWithCache]: one increment per evicted item. *)
Definition OnEvicted (u : UnavailableOfferings) : UnavailableOfferings := bump u.
Definition Janitor (now : Z) (u : UnavailableOfferings) : UnavailableOfferings :=
  Nat.iter (size (expired_items now (uo_cache u))) OnEvicted
    (MkUO (cache_delete_expired now (uo_cache u)) (SeqNum u)).

(** ** Steps *)

Inductive uo_op :=
  | OpMark (instanceType zone capacityType : string) (ttl : Z)
  | OpFlush
  | OpJanitor.

Definition uo_apply (now : Z) (op : uo_op) (u : UnavailableOfferings) : UnavailableOfferings :=
  match op with
  | OpMark i z c ttl => MarkUnavailableWithTTL now i z c ttl u
  | OpFlush => Flush u
  | OpJanitor => Janitor now u
  end.

Inductive uo_step : UnavailableOfferings → UnavailableOfferings → Prop :=
  | Uo_step now op u : uo_step u (uo_apply now op u).

(** How many increments a step performs. *)
Definition uo_bumps (now : Z) (op : uo_op) (u : UnavailableOfferings) : nat :=
  match op with
  | OpMark _ _ _ _ | OpFlush => 1
  | OpJanitor => size (expired_items now (uo_cache u))
  end.

Fixpoint uo_run (ops : list (Z * uo_op)) (u : UnavailableOfferings) : UnavailableOfferings :=
  match ops with
  | [] => u
  | (now, op) :: ops' => uo_run ops' (uo_apply now op u)
  end.
Fixpoint uo_total_bumps (ops : list (Z * uo_op)) (u : UnavailableOfferings) : nat :=
  match ops with
  | [] => 0
  | (now, op) :: ops' => uo_bumps now op u + uo_total_bumps ops' (uo_apply now op u)
  end.

(** ** Lemmas *)

Lemma uint64_add_1 n k : uint64 (uint64 (n + k) + 1) = uint64 (n + (k + 1)).
Proof. unfold uint64. rewrite Z.add_mod_idemp_l by lia. f_equal. lia. Qed.

Lemma bump_iter n u :
  (0 ≤ SeqNum u < 2 ^ 64)%Z →
  uo_cache (Nat.iter n bump u) = uo_cache u ∧
  SeqNum (Nat.iter n bump u) = uint64 (SeqNum u + Z.of_nat n).
Proof.
  intros Hs. induction n as [|n [IHc IHs]]; simpl.
  - split; [done|]. unfold uint64. rewrite Z.add_0_r. by rewrite Z.mod_small.
  - split; [done|]. rewrite IHs, uint64_add_1. f_equal. lia.
Qed.

Lemma uint64_range n : (0 ≤ uint64 n < 2 ^ 64)%Z.
Proof. apply Z.mod_pos_bound. lia. Qed.

Lemma uo_apply_seq now op u :
  (0 ≤ SeqNum u < 2 ^ 64)%Z →
  SeqNum (uo_apply now op u) = uint64 (SeqNum u + Z.of_nat (uo_bumps now op u)).
Proof.
  intros Hs. destruct op; simpl; [done..|].
  unfold Janitor. change OnEvicted with bump.
  by destruct (bump_iter (size (expired_items now (uo_cache u)))
    (MkUO (cache_delete_expired now (uo_cache u)) (SeqNum u)) Hs) as [_ ->].
Qed.

Lemma uo_apply_seq_range now op u :
  (0 ≤ SeqNum u < 2 ^ 64)%Z → (0 ≤ SeqNum (uo_apply now op u) < 2 ^ 64)%Z.
Proof. intros Hs. rewrite uo_apply_seq by done. apply uint64_range. Qed.

(** A step without increments leaves the entries as they are. *)
Lemma uo_apply_quiet now op u :
  (0 ≤ SeqNum u < 2 ^ 64)%Z → uo_bumps now op u = 0 →
  items (uo_cache (uo_apply now op u)) = items (uo_cache u).
Proof.
  intros Hs. destruct op; simpl; [done..|]. intros He.
  unfold Janitor. rewrite He. simpl.
  by apply cache_delete_expired_id, map_size_empty_inv.
Qed.

Lemma uo_run_seq ops u :
  (0 ≤ SeqNum u < 2 ^ 64)%Z →
  SeqNum (uo_run ops u) = uint64 (SeqNum u + Z.of_nat (uo_total_bumps ops u)).
Proof.
  revert u. induction ops as [|[now op] ops IH]; intros u Hs; simpl.
  - unfold uint64. rewrite Z.add_0_r. by rewrite Z.mod_small.
  - rewrite IH by by apply uo_apply_seq_range.
    rewrite uo_apply_seq by done. unfold uint64.
    rewrite Z.add_mod_idemp_l by lia. f_equal. lia.
Qed.

Lemma uo_run_quiet ops u :
  (0 ≤ SeqNum u < 2 ^ 64)%Z → uo_total_bumps ops u = 0 →
  items (uo_cache (uo_run ops u)) = items (uo_cache u).
Proof.
  revert u. induction ops as [|[now op] ops IH]; intros u Hs; simpl; [done|].
  intros Hb. rewrite IH; [|by apply uo_apply_seq_range|lia].
  apply uo_apply_quiet; [done|lia].
Qed.

Lemma key_inj i z c i' z' c' :
  str_has_char ":"%char c = false → str_has_char ":"%char c' = false →
  str_has_char ":"%char i = false → str_has_char ":"%char i' = false →
  key i z c = key i' z' c' → i = i' ∧ z = z' ∧ c = c'.
Proof.
  intros Hc Hc' Hi Hi' Hk.
  assert (str_split ":"%char (key i z c) = str_split ":"%char (key i' z' c')) as Hs by congruence.
  unfold key in Hs, Hk.
  change (":" +:+ i +:+ ":" +:+ z) with (String ":"%char (i +:+ String ":"%char z)) in Hs, Hk.
  change (":" +:+ i' +:+ ":" +:+ z') with (String ":"%char (i' +:+ String ":"%char z')) in Hs, Hk.
  rewrite !str_split_app in Hs by done. injection Hs as -> -> _.
  apply (inj (String.app c')) in Hk. injection Hk as Hk.
  apply (inj (String.app i')) in Hk. by injection Hk as ->.
Qed.

Lemma mark_unavailable_for (u : UnavailableOfferings) (i z c : string) (now now' : Z) :
  (0 ≤ now)%Z → (now' ≤ now + UnavailableOfferingsTTL)%Z →
  IsUnavailable now' i z c (MarkUnavailable now i z c u) = true.
Proof.
  intros Hn Hn'. unfold IsUnavailable, MarkUnavailable, MarkUnavailableWithTTL. cbn [bump uo_cache].
  rewrite cache_get_set_eq by (unfold UnavailableOfferingsTTL, Minute, Second in *; lia).
  by rewrite (proj2 (Z.ltb_ge _ _)) by lia.
Qed.

(** ** Properties *)

(** an offering marked unavailable is reported unavailable for
    exactly three minutes after the mark, whatever was recorded before. *)
Theorem mark_unavailable_lifetime (u : UnavailableOfferings) (i z c : string) (now now' : Z)
    (Hnow : (0 ≤ now)%Z) :
  IsUnavailable now' i z c (MarkUnavailable now i z c u) =
  bool_decide (now' ≤ now + UnavailableOfferingsTTL)%Z.
Proof.
  unfold IsUnavailable, MarkUnavailable, MarkUnavailableWithTTL; simpl.
  rewrite cache_get_set_eq by (unfold UnavailableOfferingsTTL, Minute, Second; lia).
  apply bool_decide_ext.
  destruct (Z.ltb_spec (now + UnavailableOfferingsTTL) now'); split; intros ?.
  - by destruct (is_Some_None (A := ())).
  - lia.
  - lia.
  - by eexists.
Qed.

Lemma mark_unavailable_lifetime_witness :
  IsUnavailable (100 * Second) "ecs.g6.large" "cn-beijing-a" "spot"
    (MarkUnavailable 5 "ecs.g6.large" "cn-beijing-a" "spot" NewUnavailableOfferings) = true.
Proof. rewrite (mark_unavailable_lifetime _ _ _ _ 5); [reflexivity | lia]. Defined.

(** marking one offering changes the answer for no other offering,
    provided the identifiers contain no colon (the separator of the key). *)
Theorem mark_unavailable_frame (u : UnavailableOfferings) (i z c i' z' c' : string) (now now' ttl : Z)
    (Hc : str_has_char ":"%char c = false) (Hc' : str_has_char ":"%char c' = false)
    (Hi : str_has_char ":"%char i = false) (Hi' : str_has_char ":"%char i' = false)
    (Hne : (i, z, c) ≠ (i', z', c')) :
  IsUnavailable now' i' z' c' (MarkUnavailableWithTTL now i z c ttl u) =
  IsUnavailable now' i' z' c' u.
Proof.
  unfold IsUnavailable, MarkUnavailableWithTTL; simpl.
  rewrite cache_get_set_ne; [done|].
  intros Hk. apply key_inj in Hk as (-> & -> & ->); done.
Qed.

Lemma mark_unavailable_frame_witness :
  IsUnavailable 7 "ecs.g6.large" "cn-beijing-b" "spot"
    (MarkUnavailableWithTTL 5 "ecs.g6.large" "cn-beijing-a" "spot" 60 NewUnavailableOfferings) = false.
Proof. rewrite mark_unavailable_frame; [reflexivity | reflexivity.. | discriminate]. Defined.

(** C37. The change counter is sound: if it reads the same after a
    sequence of marks, flushes and janitor runs (with fewer than 2^64
    increments, so that the counter cannot have wrapped around), then the
    recorded entries, hence the answers at every instant, are the same. *)
Theorem seqnum_unchanged_sound (ops : list (Z * uo_op)) (u : UnavailableOfferings) (now : Z)
    (i z c : string)
    (Hrange : (0 ≤ SeqNum u < 2 ^ 64)%Z)
    (Hnowrap : (Z.of_nat (uo_total_bumps ops u) < 2 ^ 64)%Z)
    (Hsame : SeqNum (uo_run ops u) = SeqNum u) :
  IsUnavailable now i z c (uo_run ops u) = IsUnavailable now i z c u.
Proof.
  rewrite uo_run_seq in Hsame by done. unfold uint64 in Hsame.
  assert (uo_total_bumps ops u = 0) as Hb.
  { destruct (decide (SeqNum u + Z.of_nat (uo_total_bumps ops u) < 2 ^ 64)%Z).
    - rewrite Z.mod_small in Hsame by lia. lia.
    - rewrite <- (Z.mod_unique (SeqNum u + Z.of_nat (uo_total_bumps ops u)) (2 ^ 64) 1
        (SeqNum u + Z.of_nat (uo_total_bumps ops u) - 2 ^ 64)) in Hsame; lia. }
  unfold IsUnavailable, cache_get. by rewrite uo_run_quiet.
Qed.

Lemma seqnum_unchanged_sound_witness :
  IsUnavailable 9 "ecs.g6.large" "cn-beijing-a" "spot"
    (uo_run [(6%Z, OpJanitor); (8%Z, OpJanitor)]
       (MarkUnavailable 5 "ecs.g6.large" "cn-beijing-a" "spot" NewUnavailableOfferings)) = true.
Proof.
  rewrite seqnum_unchanged_sound; [reflexivity | | |].
  - vm_compute. split; [discriminate | reflexivity].
  - vm_compute. reflexivity.
  - vm_compute. reflexivity.
Defined.
