(* ===== verification/Labels.v ===== *)
(** * Label, annotation and tag keys

    The constants of pkg/apis/apis.go and pkg/apis/v1alpha1/labels.go, with the
    upstream ones (k8s.io/api and karpenter) they are used with, and the label
    tables the [init] functions extend. *)

From S2P Require Import Prelude.

(** ** Upstream *)
Definition LabelTopologyZone : string := "topology.kubernetes.io/zone".
Definition LabelTopologyRegion : string := "topology.kubernetes.io/region".
Definition LabelInstanceTypeStable : string := "node.kubernetes.io/instance-type".
Definition LabelArchStable : string := "kubernetes.io/arch".
Definition LabelOSStable : string := "kubernetes.io/os".
Definition LabelWindowsBuild : string := "node.kubernetes.io/windows-build".
Definition LabelFailureDomainBetaZone : string := "failure-domain.beta.kubernetes.io/zone".
Definition LabelFailureDomainBetaRegion : string := "failure-domain.beta.kubernetes.io/region".
Definition LabelInstanceType : string := "beta.kubernetes.io/instance-type".

Definition CoreGroup : string := "karpenter.sh".
Definition ArchitectureAmd64 : string := "amd64".
Definition ArchitectureArm64 : string := "arm64".
Definition CapacityTypeSpot : string := "spot".
Definition CapacityTypeOnDemand : string := "on-demand".
Definition NodePoolLabelKey : string := "karpenter.sh/nodepool".
Definition NodeRegisteredLabelKey : string := "karpenter.sh/registered".
Definition CapacityTypeLabelKey : string := "karpenter.sh/capacity-type".
Definition UnregisteredTaintKey : string := "karpenter.sh/unregistered".

(** ** pkg/apis/apis.go *)
Definition Group : string := "karpenter.k8s.alibabacloud".
Definition CompatibilityGroup : string := "compatibility." +:+ Group.

(** ** pkg/apis/v1alpha1/labels.go *)
Definition TerminationFinalizer : string := Group +:+ "/termination".
Definition AlibabaCloudToKubeArchitectures : gmap string string :=
  {["x86_64" := ArchitectureAmd64; "arm64" := ArchitectureArm64]}.
Definition ImageFamilyAlibabaCloudLinux3 : string := "AlibabaCloudLinux3".
Definition ImageFamilyContainerOS : string := "ContainerOS".
Definition ECSAMDCPUModelValue : string := "AMD".
Definition ECSIntelCPUModelValue : string := "Intel".
Definition ResourceNVIDIAGPU : string := "nvidia.com/gpu".
Definition ResourceAMDGPU : string := "amd.com/gpu".
Definition ResourcePrivateIPv4Address : string := "vpc.alibabacloud.com/PrivateIPv4Address".
Definition ECSClusterIDTagKey : string := "ecs:ecs-cluster-id".
Definition LabelNodeClass : string := Group +:+ "/ecsnodeclass".
Definition LabelTopologyZoneID : string := "topology.k8s.alibabacloud/zone-id".
Definition LabelInstanceCategory : string := Group +:+ "/instance-category".
Definition LabelInstanceFamily : string := Group +:+ "/instance-family".
Definition LabelInstanceGeneration : string := Group +:+ "/instance-generation".
Definition LabelInstanceSize : string := Group +:+ "/instance-size".
Definition LabelInstanceCPU : string := Group +:+ "/instance-cpu".
Definition LabelInstanceCPUModel : string := Group +:+ "/instance-cpu-model".
Definition LabelInstanceMemory : string := Group +:+ "/instance-memory".
Definition LabelInstanceGPUName : string := Group +:+ "/instance-gpu-name".
Definition LabelInstanceGPUManufacturer : string := Group +:+ "/instance-gpu-manufacturer".
Definition LabelInstanceGPUCount : string := Group +:+ "/instance-gpu-count".
Definition LabelInstanceGPUMemory : string := Group +:+ "/instance-gpu-memory".
Definition AnnotationECSNodeClassHash : string := Group +:+ "/ecsnodeclass-hash".
Definition AnnotationClusterNameTaggedCompatability : string :=
  CompatibilityGroup +:+ "/cluster-name-tagged".
Definition AnnotationECSNodeClassHashVersion : string := Group +:+ "/ecsnodeclass-hash-version".
Definition AnnotationInstanceTagged : string := Group +:+ "/tagged".
Definition TagNodeClaim : string := CoreGroup +:+ "/nodeclaim".
Definition TagName : string := "Name".

(** [karpv1.WellKnownLabels] after the [init] of labels.go. *)
Definition UpstreamWellKnownLabels : gset string :=
  {[NodePoolLabelKey; LabelTopologyZone; LabelTopologyRegion; LabelInstanceTypeStable;
    LabelArchStable; LabelOSStable; CapacityTypeLabelKey; LabelWindowsBuild]}.
Definition WellKnownLabels : gset string :=
  {[LabelInstanceCategory; LabelInstanceFamily; LabelInstanceGeneration; LabelInstanceSize;
    LabelInstanceCPU; LabelInstanceCPUModel; LabelInstanceMemory; LabelInstanceGPUName;
    LabelInstanceGPUManufacturer; LabelInstanceGPUCount; LabelInstanceGPUMemory;
    LabelTopologyZoneID; LabelWindowsBuild]} ∪ UpstreamWellKnownLabels.

(** [karpv1.NormalizedLabels] after the [init] of pkg/operator/operator.go. *)
Definition UpstreamNormalizedLabels : gmap string string :=
  {[LabelFailureDomainBetaZone := LabelTopologyZone;
    "beta.kubernetes.io/arch" := LabelArchStable;
    "beta.kubernetes.io/os" := LabelOSStable;
    LabelInstanceType := LabelInstanceTypeStable;
    LabelFailureDomainBetaRegion := LabelTopologyRegion]}.
Definition NormalizedLabels : gmap string string :=
  lo_assign UpstreamNormalizedLabels
    {["topology.diskplugin.csi.alibabacloud.com/zone" := LabelTopologyZone]}.

Lemma zone_well_known : LabelTopologyZone ∈ WellKnownLabels.
Proof. vm_compute. reflexivity. Qed.
Lemma zone_id_well_known : LabelTopologyZoneID ∈ WellKnownLabels.
Proof. vm_compute. reflexivity. Qed.
Lemma capacity_type_well_known : CapacityTypeLabelKey ∈ WellKnownLabels.
Proof. vm_compute. reflexivity. Qed.
#[export] Hint Resolve zone_well_known zone_id_well_known capacity_type_well_known : go.
