(* ===== verification/Scheduling.v ===== *)
(** * Scheduling requirements (karpenter's [pkg/scheduling], vendored)

    A [Requirement] is a possibly complemented set of label values with
    optional integer bounds; [Requirements] is a map of them.  The providers
    decide with [Compatible] which offering, instance type or image fits a
    NodeClaim, so its meaning is pinned down here. *)

From S2P Require Import Prelude Effects Labels.

(** ** [strconv.Atoi] *)

Definition digit_of (a : ascii) : option Z :=
  let n := N_of_ascii a in
  if (48 <=? n)%N && (n <=? 57)%N then Some (Z.of_N n - 48)%Z else None.

Fixpoint parse_digits (acc : Z) (s : string) : option Z :=
  match s with
  | EmptyString => Some acc
  | String a s' => match digit_of a with
                   | Some d => parse_digits (10 * acc + d) s'
                   | None => None
                   end
  end.

Definition parse_unsigned (s : string) : option Z :=
  match s with EmptyString => None | _ => parse_digits 0 s end.

Definition parse_signed (s : string) : option Z :=
  match s with
  | String a s' =>
      if bool_decide (a = "-"%char) then Z.opp <$> parse_unsigned s'
      else if bool_decide (a = "+"%char) then parse_unsigned s'
      else parse_unsigned s
  | EmptyString => None
  end.

Definition in_int64 (z : Z) : bool := (MinInt64 <=? z)%Z && (z <=? MaxInt64)%Z.

(** The value when the error is checked, and the value when it is ignored (0 on
    a syntax error, the nearest bound on a range error). *)
Definition Atoi (s : string) : option Z :=
  match parse_signed s with
  | Some z => if in_int64 z then Some z else None
  | None => None
  end.
Definition Atoi_ignoring_error (s : string) : Z :=
  match parse_signed s with
  | Some z => Z.max MinInt64 (Z.min MaxInt64 z)
  | None => 0
  end.

(** ** Requirements of the API objects

    [corev1.NodeSelectorRequirement]: the operator with its values; the CRD
    validation guarantees that [Gt] and [Lt] carry a value. *)

Inductive Selector :=
  | SelIn (vs : list string)
  | SelNotIn (vs : list string)
  | SelExists
  | SelDoesNotExist
  | SelGt (v : string)
  | SelLt (v : string).

Record NodeSelectorRequirement := MkNSR {
  nsr_Key : string;
  nsr_Sel : Selector;
  nsr_MinValues : option Z;
}.

Inductive Operator := OpIn | OpNotIn | OpExists | OpDoesNotExist.
#[export] Instance Operator_eq_dec : EqDecision Operator.
Proof. solve_decision. Defined.

(** ** requirement.go *)

Record Requirement := MkRequirement {
  Key : string;
  complement : bool;
  values : gset string;
  greaterThan : option Z;
  lessThan : option Z;
  MinValues : option Z;
}.

Definition normalize_key (key : string) : string := default key (NormalizedLabels !! key).

Definition NewRequirementWithFlexibility (key : string) (op : Selector) (minValues : option Z)
    : Requirement :=
  let key := normalize_key key in
  match op with
  | SelIn vs => MkRequirement key false (list_to_set vs) None None minValues
  | SelNotIn vs => MkRequirement key true (list_to_set vs) None None minValues
  | SelExists => MkRequirement key true ∅ None None minValues
  | SelDoesNotExist => MkRequirement key false ∅ None None minValues
  | SelGt v => MkRequirement key true ∅ (Some (Atoi_ignoring_error v)) None minValues
  | SelLt v => MkRequirement key true ∅ None (Some (Atoi_ignoring_error v)) minValues
  end.

Definition NewRequirement (key : string) (op : Selector) : Requirement :=
  NewRequirementWithFlexibility key op None.

Definition minIntPtr (a b : option Z) : option Z :=
  match a, b with
  | None, _ => b
  | _, None => a
  | Some x, Some y => if (x <? y)%Z then a else b
  end.
Definition maxIntPtr (a b : option Z) : option Z :=
  match a, b with
  | None, _ => b
  | _, None => a
  | Some x, Some y => if (y <? x)%Z then a else b
  end.

Definition withinIntPtrs (v : string) (gt lt : option Z) : bool :=
  match gt, lt with
  | None, None => true
  | _, _ =>
      match Atoi v with
      | None => false
      | Some n =>
          match gt with Some g => negb (n <=? g)%Z | None => true end &&
          match lt with Some l => negb (l <=? n)%Z | None => true end
      end
  end.

Definition bounds_empty (gt lt : option Z) : bool :=
  match gt, lt with Some g, Some l => (l <=? g)%Z | _, _ => false end.

Definition Intersection (r q : Requirement) : Requirement :=
  let compl := complement r && complement q in
  let gt := maxIntPtr (greaterThan r) (greaterThan q) in
  let lt := minIntPtr (lessThan r) (lessThan q) in
  let mv := maxIntPtr (MinValues r) (MinValues q) in
  if bounds_empty gt lt then NewRequirementWithFlexibility (Key r) SelDoesNotExist mv
  else
    let vs := match complement r, complement q with
              | true, true => values r ∪ values q
              | true, false => values q ∖ values r
              | false, true => values r ∖ values q
              | false, false => values r ∩ values q
              end in
    let vs := filter (λ v, withinIntPtrs v gt lt = true) vs in
    MkRequirement (Key r) compl vs
      (if compl then gt else None) (if compl then lt else None) mv.

Definition Has (r : Requirement) (v : string) : bool :=
  (if complement r then negb (bool_decide (v ∈ values r)) else bool_decide (v ∈ values r))
  && withinIntPtrs v (greaterThan r) (lessThan r).

Definition Len (r : Requirement) : Z :=
  if complement r then (MaxInt64 - Z.of_nat (size (values r)))%Z else Z.of_nat (size (values r)).

Definition OperatorOf (r : Requirement) : Operator :=
  if complement r then (if (Len r <? MaxInt64)%Z then OpNotIn else OpExists)
  else (if (0 <? Len r)%Z then OpIn else OpDoesNotExist).

Definition Insert (r : Requirement) (items : list string) : Requirement :=
  MkRequirement (Key r) (complement r) (list_to_set items ∪ values r)
    (greaterThan r) (lessThan r) (MinValues r).

Section any.
Context {RT : GoRuntime}.

Definition Values (r : Requirement) : list string := unsorted_list 0 (values r).

(** [Any]: some allowed value; a random integer within the bounds for a
    complemented set, where [rand.Intn] panics on an empty range. *)
Definition Any (r : Requirement) : result string :=
  match OperatorOf r with
  | OpIn => match Values r with v :: _ => Ok v | [] => Panic end
  | OpNotIn | OpExists =>
      let mn := match greaterThan r with Some g => int64 (g + 1) | None => 0%Z end in
      let mx := match lessThan r with Some l => l | None => MaxInt64 end in
      let range := int64 (mx - mn) in
      if (range <=? 0)%Z then Panic
      else Ok (pretty (int64 (rand_intn 1 range + mn)))
  | OpDoesNotExist => Ok ""
  end.
End any.

(** ** requirements.go *)

Notation Requirements := (gmap string Requirement).

Definition Add1 (r : Requirements) (q : Requirement) : Requirements :=
  match r !! Key q with
  | Some existing => let q' := Intersection q existing in <[Key q' := q']> r
  | None => <[Key q := q]> r
  end.
Definition AddAll (r : Requirements) (qs : list Requirement) : Requirements := foldl Add1 r qs.
Definition NewRequirements (qs : list Requirement) : Requirements := AddAll ∅ qs.

Definition NewNodeSelectorRequirementsWithMinValues (qs : list NodeSelectorRequirement)
    : Requirements :=
  foldl (λ r q, Add1 r (NewRequirementWithFlexibility (nsr_Key q) (nsr_Sel q) (nsr_MinValues q))) ∅ qs.
Definition NewNodeSelectorRequirements (qs : list NodeSelectorRequirement) : Requirements :=
  foldl (λ r q, Add1 r (NewRequirementWithFlexibility (nsr_Key q) (nsr_Sel q) None)) ∅ qs.

Definition Get (r : Requirements) (key : string) : Requirement :=
  match r !! key with
  | Some q => q
  | None => NewRequirement key SelExists
  end.

Definition exempt (op : Operator) : bool :=
  match op with OpNotIn | OpDoesNotExist => true | _ => false end.

(** [Intersects] returns nil: every common key has a common value, unless both
    sides merely exclude values. *)
Definition Intersects_at (existing incoming : Requirement) : bool :=
  negb (Len (Intersection existing incoming) =? 0)%Z
  || (exempt (OperatorOf incoming) && exempt (OperatorOf existing)).
Definition Intersects (r q : Requirements) : bool :=
  bool_decide (map_Forall (λ k incoming,
    match r !! k with
    | Some existing => Intersects_at existing incoming
    | None => true
    end = true) q).

(** [Compatible] returns nil. *)
Definition undefined_ok (r : Requirements) (allow : gset string) (k : string)
    (incoming : Requirement) : bool :=
  bool_decide (k ∈ allow) || bool_decide (is_Some (r !! k)) || exempt (OperatorOf incoming).
Definition Compatible (r q : Requirements) (allow : gset string) : bool :=
  bool_decide (map_Forall (λ k incoming, undefined_ok r allow k incoming = true) q)
  && Intersects r q.

Definition HasMinValues (r : Requirements) : bool :=
  negb (bool_decide (map_Forall (λ _ q, MinValues q = None) r)).

(** ** The meaning of a requirement *)

Lemma within_max_min v a b c d :
  withinIntPtrs v (maxIntPtr a b) (minIntPtr c d) = withinIntPtrs v a c && withinIntPtrs v b d.
Proof.
  destruct a as [a|], b as [b|], c as [c|], d as [d|]; simpl;
    try destruct (Z.ltb_spec b a); try destruct (Z.ltb_spec c d); simpl;
    destruct (Atoi v) as [n|]; simpl; try done; rewrite ?andb_true_r; try done;
    repeat match goal with |- context [(?x <=? ?y)%Z] => destruct (Z.leb_spec x y) end;
    simpl; try done; lia.
Qed.

Lemma bounds_empty_within v gt lt : bounds_empty gt lt = true → withinIntPtrs v gt lt = false.
Proof.
  destruct gt as [g|], lt as [l|]; simpl; try done. intros Hle%Z.leb_le.
  destruct (Atoi v) as [n|]; [|done].
  destruct (Z.leb_spec n g), (Z.leb_spec l n); simpl; try done; lia.
Qed.

Lemma Has_Intersection_spec r q v : Has (Intersection r q) v = Has r v && Has q v.
Proof.
  unfold Intersection.
  set (gt := maxIntPtr (greaterThan r) (greaterThan q)).
  set (lt := minIntPtr (lessThan r) (lessThan q)).
  assert (withinIntPtrs v gt lt =
    withinIntPtrs v (greaterThan r) (lessThan r) && withinIntPtrs v (greaterThan q) (lessThan q))
    as Hw by apply within_max_min.
  destruct (bounds_empty gt lt) eqn:Hb.
  - apply (bounds_empty_within v) in Hb. rewrite Hb in Hw.
    unfold Has at 1. simpl. rewrite bool_decide_false by set_solver. simpl.
    unfold Has. destruct (withinIntPtrs v (greaterThan r) (lessThan r)); simpl in Hw;
      rewrite ?andb_true_r, ?andb_false_r; [|done]. rewrite <- Hw. by rewrite !andb_false_r.
  - unfold Has; simpl. destruct (complement r), (complement q); simpl; rewrite ?Hw;
      destruct (withinIntPtrs v (greaterThan r) (lessThan r)) eqn:Hr,
        (withinIntPtrs v (greaterThan q) (lessThan q)) eqn:Hq; simpl in *;
      rewrite ?andb_true_r, ?andb_false_r; try done;
      repeat case_bool_decide; simpl; try done; exfalso;
      repeat match goal with H : _ ∈ filter _ _ |- _ => apply elem_of_filter in H as [??] end;
      first [congruence | set_solver].
Qed.

Lemma Intersection_Key r q :
  NormalizedLabels !! Key r = None → Key (Intersection r q) = Key r.
Proof.
  intros Hn. unfold Intersection. destruct (bounds_empty _ _); [|done].
  simpl. unfold normalize_key. by rewrite Hn.
Qed.

(** A requirement that allows exactly one value. *)
Definition single (q : Requirement) (v : string) : Prop :=
  complement q = false ∧ values q = {[v]} ∧ greaterThan q = None ∧ lessThan q = None.

Lemma single_operator q v : single q v → OperatorOf q = OpIn.
Proof.
  intros (Hc & Hv & _). unfold OperatorOf, Len. by rewrite Hc, Hv, size_singleton.
Qed.

Lemma single_Any {RT : GoRuntime} q v : single q v → Any q = Ok v.
Proof.
  intros Hs. unfold Any. rewrite (single_operator q v Hs).
  destruct Hs as (_ & Hv & _). unfold Values. by rewrite Hv, unsorted_list_singleton.
Qed.

Lemma single_NewRequirement k v : single (NewRequirement k (SelIn [v])) v.
Proof. repeat split. simpl. set_solver. Qed.

Lemma size_zero_iff (s : gset string) : (Z.of_nat (size s) =? 0)%Z = bool_decide (s = ∅).
Proof.
  case_bool_decide as H.
  - subst. by rewrite size_empty.
  - apply Z.eqb_neq. intros Hz. apply H, leibniz_equiv, size_empty_inv. lia.
Qed.

Lemma Intersects_at_single r q v : single q v → Intersects_at r q = Has r v.
Proof.
  intros Hs. unfold Intersects_at. rewrite (single_operator q v Hs). simpl. rewrite orb_false_r.
  pose proof (Has_Intersection_spec r q v) as Hspec.
  destruct Hs as (Hc & Hv & Hg & Hl).
  assert (Has q v = true) as Hq.
  { unfold Has. rewrite Hc, Hg, Hl, Hv. simpl. rewrite andb_true_r.
    apply bool_decide_true. set_solver. }
  rewrite Hq, andb_true_r in Hspec. rewrite <- Hspec. clear Hspec Hq.
  unfold Intersection. rewrite Hc, Hv, andb_false_r.
  destruct (bounds_empty _ _); simpl.
  { unfold Len, Has. simpl. rewrite bool_decide_false by set_solver. done. }
  unfold Len, Has. simpl. rewrite size_zero_iff, andb_true_r.
  set (vs := filter _ _). assert (∀ x, x ∈ vs → x = v) as Honly.
  { unfold vs. destruct (complement r); set_solver. }
  case_bool_decide as H1; case_bool_decide as H2; simpl; try done.
  - set_solver.
  - exfalso. apply H1. apply set_eq. intros x. split; [|set_solver].
    intros Hx. pose proof (Honly x Hx). subst. done.
Qed.

(** Every requirement of the map allows exactly one value. *)
Definition single_valued (q : Requirements) : Prop := ∀ k x, q !! k = Some x → ∃ v, single x v.

(** [Compatible] against a single-valued map is a membership test per key. *)
Lemma Compatible_single_valued r q allow :
  single_valued q →
  Compatible r q allow = true ↔
  ∀ k x v, q !! k = Some x → single x v →
    (k ∈ allow ∨ is_Some (r !! k)) ∧ ∀ e, r !! k = Some e → Has e v = true.
Proof.
  intros Hsv. unfold Compatible, Intersects. rewrite andb_true_iff, !bool_decide_eq_true.
  unfold map_Forall. split.
  - intros [Hu Hi] k x v Hk Hx. specialize (Hu k x Hk). specialize (Hi k x Hk). simpl in *.
    unfold undefined_ok in Hu. rewrite (single_operator x v Hx) in Hu. simpl in Hu.
    rewrite orb_false_r, orb_true_iff, !bool_decide_eq_true in Hu. split; [done|].
    intros e He. rewrite He in Hi. by rewrite <- (Intersects_at_single e x v).
  - intros H. split; intros k x Hk; destruct (Hsv k x Hk) as [v Hv];
      destruct (H k x v Hk Hv) as [Hd He].
    + unfold undefined_ok. rewrite !orb_true_iff, !bool_decide_eq_true. tauto.
    + destruct (r !! k) as [e|] eqn:Hr; [|done].
      rewrite (Intersects_at_single e x v) by done. by apply He.
Qed.

(** Requirements built from distinct keys are looked up as given. *)
Lemma AddAll_fresh r qs k :
  NoDup (Key <$> qs) → (∀ q, q ∈ qs → r !! Key q = None) →
  AddAll r qs !! k = match lo_find (λ q, bool_decide (Key q = k)) qs with
                     | Some q => Some q
                     | None => r !! k
                     end.
Proof.
  revert r. induction qs as [|q qs IH]; intros r Hnd Hr; [done|].
  rewrite fmap_cons in Hnd. apply NoDup_cons in Hnd as [Hnot Hnd].
  unfold AddAll in *. simpl. unfold Add1 at 2. rewrite (Hr q) by left.
  rewrite IH; [|done|].
  - case_bool_decide as Hk.
    + subst. destruct (lo_find _ qs) as [q'|] eqn:Hf; [|by rewrite lookup_insert_eq].
      apply lo_find_Some in Hf as [Hin Heq%bool_decide_eq_true].
      exfalso. apply Hnot. rewrite <- Heq. by apply list_elem_of_fmap_2.
    + by rewrite lookup_insert_ne.
  - intros q' Hq'. rewrite lookup_insert_ne; [apply Hr; by right|].
    intros Heq. apply Hnot. rewrite Heq. by apply list_elem_of_fmap_2.
Qed.

Lemma NewRequirements_lookup qs q :
  NoDup (Key <$> qs) → q ∈ qs → NewRequirements qs !! Key q = Some q.
Proof.
  intros Hnd Hin. unfold NewRequirements. rewrite AddAll_fresh by done.
  destruct (lo_find _ qs) as [q'|] eqn:Hf.
  - apply lo_find_Some in Hf as [Hin' Heq%bool_decide_eq_true]. f_equal.
    apply list_elem_of_lookup in Hin as [i Hi]. apply list_elem_of_lookup in Hin' as [j Hj].
    assert (i = j) as ->; [|congruence].
    eapply (NoDup_lookup _ i j (Key q) Hnd); rewrite list_lookup_fmap;
      [by rewrite Hi | by rewrite Hj, <- Heq].
  - rewrite lo_find_None in Hf. specialize (Hf q Hin). by rewrite bool_decide_true in Hf.
Qed.

Lemma NewRequirements_lookup_None qs k :
  NoDup (Key <$> qs) → k ∉ (Key <$> qs) → NewRequirements qs !! k = None.
Proof.
  intros Hnd Hk. unfold NewRequirements. rewrite AddAll_fresh by done.
  destruct (lo_find _ qs) as [q'|] eqn:Hf; [|done].
  apply lo_find_Some in Hf as [Hin' <-%bool_decide_eq_true].
  exfalso. by apply Hk, list_elem_of_fmap_2.
Qed.

Lemma Has_In k vs v : Has (NewRequirement k (SelIn vs)) v = bool_decide (v ∈ vs).
Proof.
  unfold Has. simpl. rewrite andb_true_r. apply bool_decide_ext. by rewrite elem_of_list_to_set.
Qed.

#[export] Hint Resolve single_NewRequirement single_Any : go.

(** ** Back to selectors

    [Requirement.NodeSelectorRequirement]: a requirement as the API writes it. *)

Definition sorted_list {RT : GoRuntime} (s : gset string) : list string := sort_slice str_ltb (elements s).

Definition NodeSelectorRequirement_of {RT : GoRuntime} (r : Requirement) : NodeSelectorRequirement :=
  MkNSR (Key r)
    match greaterThan r, lessThan r with
    | Some g, _ => SelGt (pretty g)
    | None, Some l => SelLt (pretty l)
    | None, None =>
        if complement r
        then if bool_decide (values r = ∅) then SelExists else SelNotIn (sorted_list (values r))
        else if bool_decide (values r = ∅) then SelDoesNotExist else SelIn (sorted_list (values r))
    end (MinValues r).

Definition NodeSelectorRequirements {RT : GoRuntime} (site : nat) (r : Requirements)
    : list NodeSelectorRequirement := NodeSelectorRequirement_of <$> map_values site r.

(** A requirement without bounds is recovered from its selector. *)
Lemma NodeSelectorRequirement_back {RT : GoRuntime} r (q := NodeSelectorRequirement_of r) :
  greaterThan r = None → lessThan r = None → normalize_key (Key r) = Key r →
  NewRequirementWithFlexibility (nsr_Key q) (nsr_Sel q) (nsr_MinValues q) = r.
Proof.
  intros Hg Hl Hk. unfold q, NodeSelectorRequirement_of. destruct r as [k compl vs gt lt mv].
  simpl in *. subst gt lt.
  assert (list_to_set (sorted_list vs) = vs) as Hvs.
  { apply set_eq. intros x. unfold sorted_list.
    by rewrite elem_of_list_to_set, elem_of_sort_slice, elem_of_elements. }
  unfold NewRequirementWithFlexibility.
  destruct compl; case_bool_decide; subst; rewrite ?Hvs, ?Hk; done.
Qed.
