(* ===== verification/Options.v ===== *)
(** * The operator's options (pkg/operator/options)

    Five options: each has a default, which an environment variable overrides,
    which the command line overrides.  The command line is read by Go's [flag]
    package, which also knows the flags of karpenter itself (a parameter); the
    text of a floating-point number is read by [strconv.ParseFloat], a
    parameter too. *)

From S2P Require Import Prelude Effects Floats Labels Scheduling.

Module options.

Record Options := MkOptions {
  ClusterID : string;
  VMMemoryOverheadPercent : float64;
  Interruption : bool;
  TelemetryShare : bool;
  APGCreationQPS : Z;
}.

(** ** strconv *)

Class FloatParser := ParseFloat : string → option float64.

Definition ParseBool (s : string) : option bool :=
  if bool_decide (s ∈ ["1"; "t"; "T"; "TRUE"; "true"; "True"]) then Some true
  else if bool_decide (s ∈ ["0"; "f"; "F"; "FALSE"; "false"; "False"]) then Some false
  else None.

(** [ParseInt] with base 0 and 64 bits: the base is given by a prefix, and
    single underscores may separate digits. *)
Definition digit_in (base : Z) (a : ascii) : option Z :=
  let n := Z.of_N (N_of_ascii (ascii_lower a)) in
  let d := if (48 <=? n)%Z && (n <=? 57)%Z then (n - 48)%Z
           else if (97 <=? n)%Z && (n <=? 122)%Z then (n - 87)%Z else base in
  if (d <? base)%Z then Some d else None.
Fixpoint digits_in (base acc : Z) (s : string) : option Z :=
  match s with
  | EmptyString => Some acc
  | String a s' =>
      if bool_decide (a = "_"%char) then digits_in base acc s'
      else d ← digit_in base a; digits_in base (base * acc + d) s'
  end.
Definition base_prefix (s : string) : option Z :=
  match s with
  | String "0" (String b _) =>
      let b := ascii_lower b in
      if bool_decide (b = "b"%char) then Some 2%Z
      else if bool_decide (b = "o"%char) then Some 8%Z
      else if bool_decide (b = "x"%char) then Some 16%Z else None
  | _ => None
  end.
(** What was seen last: the beginning, a digit, an underscore, something else. *)
Inductive seen := Nothing | Digit | Underscore | Other.
#[export] Instance seen_eq_dec : EqDecision seen.
Proof. solve_decision. Defined.
Fixpoint underscores_ok (hex : bool) (last : seen) (s : string) : bool :=
  match s with
  | EmptyString => negb (bool_decide (last = Underscore))
  | String a s' =>
      if bool_decide (is_Some (digit_in (if hex then 16 else 10) a)) then underscores_ok hex Digit s'
      else if bool_decide (a = "_"%char) then bool_decide (last = Digit) && underscores_ok hex Underscore s'
      else negb (bool_decide (last = Underscore)) && underscores_ok hex Other s'
  end.
Definition parse_magnitude (s : string) : option Z :=
  let body := String.substring 2 (String.length s) s in
  match s with
  | EmptyString => None
  | String a s' =>
      if negb (bool_decide (a = "0"%char)) then
        if underscores_ok false Nothing s then digits_in 10 0 s else None
      else
        match base_prefix s with
        | Some base =>
            if negb (underscores_ok (base =? 16)%Z Digit body) then None
            else if bool_decide (body = "") then None else digits_in base 0 body
        | None => if underscores_ok false Nothing s then digits_in 8 0 s' else None
        end
  end.
Definition ParseInt0 (s : string) : option Z :=
  z ← match s with
      | String "-" s' => Z.opp <$> parse_magnitude s'
      | String "+" s' => parse_magnitude s'
      | _ => parse_magnitude s
      end;
  if in_int64 z then Some z else None.

(** ** Defaults from the environment (karpenter's [env], [utils.WithDefaultFloat64]) *)

Section options.
Context `{FP : !FloatParser}.
(** The environment of the process. *)
Context (LookupEnv : gmap string string).

Definition WithDefault {A} (parse : string → option A) (key : string) (def : A) : A :=
  match LookupEnv !! key with
  | None => def
  | Some val => default def (parse val)
  end.
Definition WithDefaultString : string → string → string := WithDefault Some.
Definition WithDefaultFloat64 : string → float64 → float64 := WithDefault ParseFloat.
Definition WithDefaultBool : string → bool → bool := WithDefault ParseBool.
Definition WithDefaultInt64 : string → Z → Z := WithDefault Atoi.

(** ** Flags *)

(** A flag: whether it may stand without a value, and what a value does. *)
Record Flag := MkFlag { fl_bool : bool; fl_Set : string → Options → option Options }.

Definition set_ClusterID (v : string) (o : Options) : Options :=
  MkOptions v (VMMemoryOverheadPercent o) (Interruption o) (TelemetryShare o) (APGCreationQPS o).
Definition set_VMMemoryOverheadPercent (v : float64) (o : Options) : Options :=
  MkOptions (ClusterID o) v (Interruption o) (TelemetryShare o) (APGCreationQPS o).
Definition set_Interruption (v : bool) (o : Options) : Options :=
  MkOptions (ClusterID o) (VMMemoryOverheadPercent o) v (TelemetryShare o) (APGCreationQPS o).
Definition set_TelemetryShare (v : bool) (o : Options) : Options :=
  MkOptions (ClusterID o) (VMMemoryOverheadPercent o) (Interruption o) v (APGCreationQPS o).
Definition set_APGCreationQPS (v : Z) (o : Options) : Options :=
  MkOptions (ClusterID o) (VMMemoryOverheadPercent o) (Interruption o) (TelemetryShare o) v.

(** [AddFlags]: the options before the command line is read, and the flags. *)
Definition initial : Options :=
  MkOptions (WithDefaultString "CLUSTER_ID" "")
    (WithDefaultFloat64 "VM_MEMORY_OVERHEAD_PERCENT" (decimal 65 1000))
    (WithDefaultBool "INTERRUPTION" true) (WithDefaultBool "TELEMETRY_SHARE" true)
    (WithDefaultInt64 "APG_CREATION_QPS" 100).
Definition flags : gmap string Flag :=
  {["cluster-id" := MkFlag false (λ v o, Some (set_ClusterID v o));
    "vm-memory-overhead-percent" :=
      MkFlag false (λ v o, f ← ParseFloat v; Some (set_VMMemoryOverheadPercent f o));
    "interruption" := MkFlag true (λ v o, b ← ParseBool v; Some (set_Interruption b o));
    "telemetry-share" := MkFlag true (λ v o, b ← ParseBool v; Some (set_TelemetryShare b o));
    "apg-qps" := MkFlag false (λ v o, n ← ParseInt0 v; Some (set_APGCreationQPS n o))]}.

(** ** [flag.FlagSet.Parse] *)

Inductive outcome :=
  | Parsed (o : Options)
  | Exit
  | Failed (e : error).

Inductive argument :=
  | NotAFlag
  | BadSyntax
  | Named (name : string) (value : option string).
Definition classify_name (name : string) : argument :=
  match name with
  | EmptyString | String "-" _ | String "=" _ => BadSyntax
  | _ => match str_split "=" name with
         | [] => Named name None
         | n :: [] => Named n None
         | n :: _ => Named n (after_first "=" name)
         end
  end.
(** An argument that is no flag ends the flags, as does "--". *)
Definition classify (arg : string) : argument :=
  match arg with
  | String "-" (String "-" EmptyString) => NotAFlag
  | String "-" (String "-" name) => classify_name name
  | String "-" (String a name) => classify_name (String a name)
  | _ => NotAFlag
  end.

Definition invalid_value (name value : string) : error :=
  ErrorString ("invalid value " +:+ value +:+ " for flag -" +:+ name).

Fixpoint flags_Parse (fs : gmap string Flag) (args : list string) (o : Options) : outcome :=
  match args with
  | [] => Parsed o
  | arg :: rest =>
      match classify arg with
      | NotAFlag => Parsed o
      | BadSyntax => Failed (ErrorString ("bad flag syntax: " +:+ arg))
      | Named name value =>
          match fs !! name with
          | None =>
              if bool_decide (name = "help") || bool_decide (name = "h") then Exit
              else Failed (ErrorString ("flag provided but not defined: -" +:+ name))
          | Some f =>
              match value with
              | Some v =>
                  match fl_Set f v o with
                  | Some o' => flags_Parse fs rest o'
                  | None => Failed (invalid_value name v)
                  end
              | None =>
                  if fl_bool f then
                    match fl_Set f "true" o with
                    | Some o' => flags_Parse fs rest o'
                    | None => Failed (invalid_value name "true")
                    end
                  else
                    match rest with
                    | [] => Failed (ErrorString ("flag needs an argument: -" +:+ name))
                    | v :: rest' =>
                        match fl_Set f v o with
                        | Some o' => flags_Parse fs rest' o'
                        | None => Failed (invalid_value name v)
                        end
                    end
              end
          end
      end
  end.

(** ** options_validation.go and [Options.Parse] *)

Definition validateRequiredFields (o : Options) : option error :=
  if bool_decide (ClusterID o = "") then Some (ErrorString "missing field, cluster-id") else None.
Definition Validate (o : Options) : option error := multierr_combine [validateRequiredFields o].

(** [core] are karpenter's own flags, none of which has the name of one of
    these (defining a flag twice panics). *)
Definition Parse (core : gmap string Flag) (args : list string) : outcome :=
  match flags_Parse (flags ∪ core) args initial with
  | Exit => Exit
  | Failed e => Failed (WrapError "parsing flags" e)
  | Parsed o =>
      match Validate o with
      | Some e => Failed (WrapError "validating options" e)
      | None => Parsed o
      end
  end.
End options.

(** ** Lemmas *)

Lemma str_split_cons c s : ∃ h t, str_split c s = h :: t.
Proof.
  destruct s as [|a s]; cbn [str_split]; [by eexists _, _|]. case_bool_decide; [by eexists _, _|].
  destruct (str_split c s); by eexists _, _.
Qed.
Lemma after_equals n v : str_has_char "=" n = false → after_first "=" (n +:+ "=" +:+ v) = Some v.
Proof.
  induction n as [|a n IH]; [by destruct v|]. cbn [str_has_char]. intros [Ha Hn]%orb_false_iff.
  apply bool_decide_eq_false in Ha. change (String a n +:+ "=" +:+ v) with (String a (n +:+ "=" +:+ v)).
  cbn [after_first strip_prefix]. rewrite bool_decide_false by congruence. by apply IH.
Qed.
Lemma classify_name_joined a n v (name := String a n) :
  a ≠ "-"%char → str_has_char "=" name = false → classify_name (name +:+ "=" +:+ v) = Named name (Some v).
Proof.
  intros Ha Hn. destruct (str_split_cons "=" v) as (h & t & Hv).
  assert (str_split "=" (name +:+ "=" +:+ v) = name :: h :: t) as Hs by (rewrite <- Hv; by apply str_split_app).
  pose proof (after_equals name v Hn) as Hafter. unfold classify_name. unfold name in *.
  change (String a n +:+ "=" +:+ v) with (String a (n +:+ "=" +:+ v)) in *.
  rewrite Hs, Hafter. cbn [str_has_char] in Hn. apply orb_false_iff in Hn as [He _].
  apply bool_decide_eq_false in He. revert Ha He. clear.
  by destruct a as [[] [] [] [] [] [] [] []].
Qed.

Definition own_names : list string :=
  ["cluster-id"; "vm-memory-overhead-percent"; "interruption"; "telemetry-share"; "apg-qps"].

Definition switches : list string := ["interruption"; "telemetry-share"].

(** A setting as it is written on the command line: with one dash or two, and
    the value after an equals sign or as the next argument; a switch stands
    alone for "true" and does not take the next argument. *)
Inductive spelled (switch : bool) (name value : string) : list string → Prop :=
  | Joined d : d = "-" ∨ d = "--" → spelled switch name value [d +:+ name +:+ "=" +:+ value]
  | Separate d : d = "-" ∨ d = "--" → switch = false → spelled switch name value [d +:+ name; value]
  | Bare d : d = "-" ∨ d = "--" → switch = true → value = "true" → spelled switch name value [d +:+ name].
(** A name that a flag can have. *)
Definition proper (name : string) : Prop :=
  str_has_char "=" name = false ∧ ∃ a n, name = String a n ∧ a ≠ "-"%char.
(** An argument that ends the flags. *)
Definition ends_flags (arg : string) : Prop :=
  arg = "" ∨ arg = "-" ∨ arg = "--" ∨ ∃ a s, arg = String a s ∧ a ≠ "-"%char.
(** A command line that gives these options: their settings in order, among them
    those of karpenter's own flags, which take their values and have no part in
    these options, up to the first argument that is not a flag. *)
Inductive spells (core : gmap string Flag) : list (string * string) → list string → Prop :=
  | Spells_nil : spells core [] []
  | Spells_end arg rest : ends_flags arg → spells core [] (arg :: rest)
  | Spells_own n v l a args :
      n ∈ own_names → spelled (bool_decide (n ∈ switches)) n v a → spells core l args →
      spells core ((n, v) :: l) (a ++ args)
  | Spells_core n f v l a args :
      core !! n = Some f → n ∉ own_names → proper n → (∀ o, fl_Set f v o = Some o) →
      spelled (fl_bool f) n v a → spells core l args → spells core l (a ++ args).

Lemma own_proper n : n ∈ own_names → proper n.
Proof.
  intros Hn. repeat (apply elem_of_cons in Hn as [->|Hn]); [..|by apply elem_of_nil in Hn];
    (split; [reflexivity|by eexists _, _]).
Qed.
Lemma classify_dashes a n d :
  a ≠ "-"%char → d = "-" ∨ d = "--" → classify (d +:+ String a n) = classify_name (String a n).
Proof.
  intros Ha [->| ->]; [|done]. change ("-" +:+ String a n) with (String "-" (String a n)). cbn [classify].
  revert Ha. clear. by destruct a as [[] [] [] [] [] [] [] []].
Qed.
Lemma classify_joined d n v : proper n → d = "-" ∨ d = "--" → classify (d +:+ n +:+ "=" +:+ v) = Named n (Some v).
Proof.
  intros (He & a & n' & -> & Ha) Hd. change (String a n' +:+ "=" +:+ v) with (String a (n' +:+ "=" +:+ v)).
  rewrite (classify_dashes a _ d Ha Hd). by apply classify_name_joined.
Qed.
Lemma str_split_whole c s : str_has_char c s = false → str_split c s = [s].
Proof.
  induction s as [|a s IH]; [done|]. cbn [str_has_char str_split]. intros [Ha Hs]%orb_false_iff.
  rewrite Ha, IH by done. done.
Qed.
Lemma classify_separate d n : proper n → d = "-" ∨ d = "--" → classify (d +:+ n) = Named n None.
Proof.
  intros (He & a & n' & -> & Ha) Hd. rewrite (classify_dashes a n' d Ha Hd). pose proof (str_split_whole "=" _ He) as Hs.
  unfold classify_name. rewrite Hs. cbn [str_has_char] in He. apply orb_false_iff in He as [He _].
  apply bool_decide_eq_false in He. revert Ha He. clear.
  by destruct a as [[] [] [] [] [] [] [] []].
Qed.
Lemma classify_end arg : ends_flags arg → classify arg = NotAFlag.
Proof.
  intros [->|[->|[->|(a & s & -> & Ha)]]]; [done..|]. cbn [classify]. revert Ha. clear.
  by destruct a as [[] [] [] [] [] [] [] []].
Qed.

(** ** What the settings mean *)

(** The last value given to an option. *)
Fixpoint given (key : string) (settings : list (string * string)) : option string :=
  match settings with
  | [] => None
  | (n, v) :: l =>
      match given key l with
      | Some x => Some x
      | None => if bool_decide (n = key) then Some v else None
      end
  end.

Section properties.
Context `{FP : !FloatParser}.

Fixpoint assign (settings : list (string * string)) (o : Options) : option Options :=
  match settings with
  | [] => Some o
  | (n, v) :: l => f ← flags !! n; o' ← fl_Set f v o; assign l o'
  end.

(** What the flag of each name does. *)
Lemma flags_cases n f :
  flags !! n = Some f →
  (n = "cluster-id" ∧ f = MkFlag false (λ v o, Some (set_ClusterID v o))) ∨
  (n = "vm-memory-overhead-percent" ∧
     f = MkFlag false (λ v o, x ← ParseFloat v; Some (set_VMMemoryOverheadPercent x o))) ∨
  (n = "interruption" ∧ f = MkFlag true (λ v o, b ← ParseBool v; Some (set_Interruption b o))) ∨
  (n = "telemetry-share" ∧ f = MkFlag true (λ v o, b ← ParseBool v; Some (set_TelemetryShare b o))) ∨
  (n = "apg-qps" ∧ f = MkFlag false (λ v o, x ← ParseInt0 v; Some (set_APGCreationQPS x o))).
Proof.
  unfold flags. rewrite !lookup_insert_Some, lookup_singleton_Some. intros H.
  repeat match goal with H : _ ∨ _ |- _ => destruct H | H : _ ∧ _ |- _ => destruct H end; subst; auto 10.
Qed.

Ltac set_cases :=
  let Hf := fresh in let Hs := fresh in
  intros ? ? ? ? ? Hf%flags_cases Hs; repeat destruct Hf as [Hf|Hf]; destruct Hf as [-> ->]; cbn [fl_Set] in Hs;
  try (apply bind_Some in Hs as (? & ? & Hs)); injection Hs as <-;
  first [rewrite bool_decide_true by done; done | rewrite bool_decide_false by done; done].

Lemma assign_field {A} key (parse : string → option A) (g : Options → A) settings o o' :
  (∀ n f v o o', flags !! n = Some f → fl_Set f v o = Some o' →
     if bool_decide (n = key) then parse v = Some (g o') else g o' = g o) →
  assign settings o = Some o' →
  Some (g o') = match given key settings with Some v => parse v | None => Some (g o) end.
Proof.
  intros Hset. revert o. induction settings as [|[n v] l IH]; intros o; cbn [assign given]; [by intros [= ->]|].
  intros (f & Hf & (o1 & H1 & H)%bind_Some)%bind_Some. specialize (Hset n f v o o1 Hf H1).
  rewrite (IH o1 H). destruct (given key l); [done|]. case_bool_decide; by rewrite ?Hset.
Qed.

(** One setting, however it is spelled. *)
Lemma flags_Parse_spelled fs n f v a args o o' :
  fs !! n = Some f → proper n → fl_Set f v o = Some o' → spelled (fl_bool f) n v a →
  flags_Parse fs (a ++ args) o = flags_Parse fs args o'.
Proof.
  intros Hf Hn Hset Ha. destruct Ha as [d Hd|d Hd Hsw|d Hd Hsw ->]; cbn [app flags_Parse].
  - by rewrite (classify_joined d n v Hn Hd), Hf, Hset.
  - by rewrite (classify_separate d n Hn Hd), Hf, Hsw, Hset.
  - by rewrite (classify_separate d n Hn Hd), Hf, Hsw, Hset.
Qed.
Lemma flags_own n f : flags !! n = Some f → fl_bool f = bool_decide (n ∈ switches).
Proof.
  intros Hf%flags_cases. repeat destruct Hf as [Hf|Hf]; destruct Hf as [-> ->]; reflexivity.
Qed.
Lemma flags_Parse_spells core settings args o o' :
  spells core settings args → assign settings o = Some o' → flags_Parse (flags ∪ core) args o = Parsed o'.
Proof.
  intros Hs. revert o. induction Hs as [|arg rest Hend|n v l a args Hn Ha Hs IH|n f v l a args Hf Hn Hp Hset Ha Hs IH];
    intros o; cbn [assign].
  - by intros [= ->].
  - intros [= ->]. cbn [flags_Parse]. by rewrite (classify_end arg Hend).
  - intros (f & Hf & (o1 & H1 & H)%bind_Some)%bind_Some. rewrite <- (flags_own n f Hf) in Ha.
    assert ((flags ∪ core) !! n = Some f) as Hlook by (by apply lookup_union_Some_l).
    rewrite (flags_Parse_spelled _ n f v a args o o1 Hlook (own_proper n Hn) H1 Ha). by apply IH.
  - intros H. assert ((flags ∪ core) !! n = Some f) as Hlook.
    { rewrite lookup_union_r; [done|]. apply eq_None_not_Some. intros [g Hg%flags_cases]. apply Hn.
      repeat destruct Hg as [Hg|Hg]; destruct Hg as [-> _]; decide_compute. }
    rewrite (flags_Parse_spelled _ n f v a args o o Hlook Hp (Hset o) Ha). by apply IH.
Qed.

(** The values given can be read. *)
Definition readable (nv : string * string) : Prop :=
  nv.1 ∈ own_names ∧
  (nv.1 = "vm-memory-overhead-percent" → is_Some (ParseFloat nv.2)) ∧
  (nv.1 ∈ switches → is_Some (ParseBool nv.2)) ∧ (nv.1 = "apg-qps" → is_Some (ParseInt0 nv.2)).
Lemma readable_set n v o : readable (n, v) → ∃ f o', flags !! n = Some f ∧ fl_Set f v o = Some o'.
Proof.
  intros (Hn & Hfloat & Hbool & Hint). cbn [fst snd] in *.
  repeat (apply elem_of_cons in Hn as [->|Hn]); [..|by apply elem_of_nil in Hn]; eexists; cbn [fl_Set].
  - eexists. split; [reflexivity|done].
  - destruct (Hfloat eq_refl) as [x Hx]. eexists. split; [reflexivity|]. cbn. by rewrite Hx.
  - destruct (Hbool ltac:(decide_compute)) as [x Hx]. eexists. split; [reflexivity|]. cbn. by rewrite Hx.
  - destruct (Hbool ltac:(decide_compute)) as [x Hx]. eexists. split; [reflexivity|]. cbn. by rewrite Hx.
  - destruct (Hint eq_refl) as [x Hx]. eexists. split; [reflexivity|]. cbn. by rewrite Hx.
Qed.
Lemma readable_assign settings o : Forall readable settings → ∃ o', assign settings o = Some o'.
Proof.
  intros Hall. revert o. induction Hall as [|[n v] l Hr _ IH]; intros o; cbn [assign]; [by eexists|].
  destruct (readable_set n v o Hr) as (f & o1 & -> & H1). cbn. rewrite H1. apply IH.
Qed.

(** C36. The command line in the spellings the flag package accepts: one dash
    or two, the value after an equals sign or as the next argument, a switch
    alone for true; mixed with karpenter's own flags, up to the first argument
    that is no flag.  If the values given can be read, each option has the last
    value given on the command line, else the value of its environment variable
    if that can be read, else its default; and without a cluster ID the
    operator does not start.  Karpenter's flags are assumed to accept the values
    given to them and to have no part in these options. *)
Theorem Parse_precedence env core settings args :
  spells core settings args → Forall readable settings →
  ∃ o, Parse env core args =
    (if bool_decide (ClusterID o = "")
     then Failed (WrapError "validating options" (ErrorString "missing field, cluster-id")) else Parsed o) ∧
  ClusterID o = default (default "" (env !! "CLUSTER_ID")) (given "cluster-id" settings) ∧
  Some (VMMemoryOverheadPercent o) =
    match given "vm-memory-overhead-percent" settings with
    | Some v => ParseFloat v
    | None => Some (default (decimal 65 1000) (env !! "VM_MEMORY_OVERHEAD_PERCENT" ≫= ParseFloat))
    end ∧
  Some (Interruption o) =
    match given "interruption" settings with
    | Some v => ParseBool v
    | None => Some (default true (env !! "INTERRUPTION" ≫= ParseBool))
    end ∧
  Some (TelemetryShare o) =
    match given "telemetry-share" settings with
    | Some v => ParseBool v
    | None => Some (default true (env !! "TELEMETRY_SHARE" ≫= ParseBool))
    end ∧
  Some (APGCreationQPS o) =
    match given "apg-qps" settings with
    | Some v => ParseInt0 v
    | None => Some (default 100%Z (env !! "APG_CREATION_QPS" ≫= Atoi))
    end.
Proof.
  intros Hs Hread. destruct (readable_assign settings (initial env) Hread) as [o Ha]. exists o. split.
  { unfold Parse. rewrite (flags_Parse_spells core _ _ _ _ Hs Ha). unfold Validate, validateRequiredFields.
    by case_bool_decide. }
  assert (∀ (env : gmap string string) A (parse : string → option A) key (d : A),
    WithDefault env parse key d = default d (env !! key ≫= parse)) as Hdef.
  { intros e A parse key d. unfold WithDefault. by destruct (e !! key). }
  split_and!.
  - apply (inj Some). rewrite (assign_field "cluster-id" Some ClusterID _ _ _ ltac:(set_cases) Ha).
    destruct (given "cluster-id" settings); [done|]. cbn. unfold WithDefaultString. rewrite Hdef.
    by destruct (env !! "CLUSTER_ID").
  - rewrite (assign_field "vm-memory-overhead-percent" ParseFloat VMMemoryOverheadPercent _ _ _ ltac:(set_cases) Ha).
    cbn [initial VMMemoryOverheadPercent]. unfold WithDefaultFloat64. by rewrite Hdef.
  - rewrite (assign_field "interruption" ParseBool Interruption _ _ _ ltac:(set_cases) Ha).
    cbn [initial Interruption]. unfold WithDefaultBool. by rewrite Hdef.
  - rewrite (assign_field "telemetry-share" ParseBool TelemetryShare _ _ _ ltac:(set_cases) Ha).
    cbn [initial TelemetryShare]. unfold WithDefaultBool. by rewrite Hdef.
  - rewrite (assign_field "apg-qps" ParseInt0 APGCreationQPS _ _ _ ltac:(set_cases) Ha).
    cbn [initial APGCreationQPS]. unfold WithDefaultInt64. by rewrite Hdef.
Qed.
End properties.
End options.

Module OptionsExample.
Import options.

(** Just the number that is used. *)
#[local] Instance parser : FloatParser := λ s, if bool_decide (s = "0.075") then Some (decimal 75 1000) else None.
Definition environment : gmap string string :=
  {["CLUSTER_ID" := "c-env"; "INTERRUPTION" := "maybe"; "TELEMETRY_SHARE" := "F"]}.
(** One of karpenter's flags. *)
Definition core : gmap string Flag := {["log-level" := MkFlag false (λ _ o, Some o)]}.
Definition settings : list (string * string) :=
  [("cluster-id", "c-1"); ("apg-qps", "0x_20"); ("telemetry-share", "true"); ("vm-memory-overhead-percent", "0.075");
   ("cluster-id", "c=2")].
Definition command_line : list string :=
  ["--cluster-id"; "c-1"; "-apg-qps=0x_20"; "--log-level"; "debug"; "-telemetry-share"; "--vm-memory-overhead-percent=0.075";
   "-cluster-id=c=2"; "--"; "-x"].
Definition chosen : Options := MkOptions "c=2" (decimal 75 1000) true true 32.

Example numbers :
  ParseInt0 "0b101" = Some 5%Z ∧ ParseInt0 "-017" = Some (-15)%Z ∧ ParseInt0 "1_000" = Some 1000%Z ∧
  ParseInt0 "1__0" = None ∧ ParseInt0 "_1" = None ∧ ParseInt0 "0x" = None ∧ ParseInt0 "08" = None ∧
  ParseInt0 "9223372036854775808" = None.
Proof. vm_compute. repeat split; reflexivity. Qed.

Lemma settings_spelled : spells core settings command_line.
Proof.
  unfold settings, command_line.
  apply (Spells_own _ "cluster-id" "c-1" _ ["--cluster-id"; "c-1"]);
    [by left|apply (Separate _ "cluster-id" "c-1" "--"); [by right|reflexivity]|].
  apply (Spells_own _ "apg-qps" "0x_20" _ ["-apg-qps=0x_20"]);
    [by do 4 right; left|exact (Joined _ "apg-qps" "0x_20" "-" (or_introl eq_refl))|].
  apply (Spells_core _ "log-level" (MkFlag false (λ _ o, Some o)) "debug" _ ["--log-level"; "debug"]);
    [reflexivity|decide_compute|split; [reflexivity|by eexists _, _]|done
    |apply (Separate _ "log-level" "debug" "--"); [by right|reflexivity]|].
  apply (Spells_own _ "telemetry-share" "true" _ ["-telemetry-share"]);
    [by do 3 right; left|apply (Bare _ "telemetry-share" "true" "-"); [by left|reflexivity|reflexivity]|].
  apply (Spells_own _ "vm-memory-overhead-percent" "0.075" _ ["--vm-memory-overhead-percent=0.075"]);
    [by right; left|exact (Joined _ "vm-memory-overhead-percent" "0.075" "--" (or_intror eq_refl))|].
  apply (Spells_own _ "cluster-id" "c=2" _ ["-cluster-id=c=2"]);
    [by left|exact (Joined _ "cluster-id" "c=2" "-" (or_introl eq_refl))|].
  constructor. by right; right; left.
Qed.

Lemma Parse_precedence_witness : Parse environment core command_line = Parsed chosen.
Proof.
  destruct (Parse_precedence environment core settings command_line settings_spelled) as (o & H & Hid & Hvm & Hi & Ht & Hq).
  - unfold settings. repeat constructor; cbn [fst snd]; try decide_compute; intros Hn;
      first [by vm_compute; eexists | vm_compute in Hn; discriminate Hn | revert Hn; decide_compute].
  - destruct o as [id vm i t q]. cbn [ClusterID VMMemoryOverheadPercent Interruption TelemetryShare APGCreationQPS] in *.
    vm_compute in Hid, Hvm, Hi, Ht, Hq. rewrite H. subst id.
    injection Hi as ->. injection Ht as ->. injection Hq as ->. injection Hvm as ->. reflexivity.
Defined.
End OptionsExample.
