(* ===== verification/CloudTypes.v ===== *)
(** * Instance types and offerings (karpenter's [pkg/cloudprovider], vendored)

    The data the providers exchange: resource lists, offerings (a capacity type
    in a zone, at a price), instance types, and the operations karpenter defines
    on them that this repository calls. *)

From S2P Require Import Prelude Effects Floats Labels Scheduling.

(** ** Quantities and resource lists

    A [resource.Quantity] is exact at a resolution of one nano-unit, which is
    finer than every quantity the code builds; [Value] and [MilliValue] round
    up, as in k8s.io/apimachinery. *)

Definition Nano : Z := 1000000000.
Notation Quantity := Z (only parsing).
Definition of_units (n : Z) : Quantity := (n * Nano)%Z.
Definition of_milli (n : Z) : Quantity := (n * 1000000)%Z.
Definition div_up (a b : Z) : Z := (- ((- a) / b))%Z.
Definition QValue (q : Quantity) : Z := div_up q Nano.
Definition QMilliValue (q : Quantity) : Z := div_up q 1000000.
Definition QIsZero (q : Quantity) : bool := (q =? 0)%Z.

Notation ResourceList := (gmap string Quantity).

Definition ResourceCPU : string := "cpu".
Definition ResourceMemory : string := "memory".
Definition ResourceEphemeralStorage : string := "ephemeral-storage".
Definition ResourcePods : string := "pods".

(** A missing entry of a resource list is the zero quantity. *)
Definition rl_get (l : ResourceList) (k : string) : Quantity := default 0%Z (l !! k).

Definition rl_merge2 (a b : ResourceList) : ResourceList :=
  union_with (λ x y, Some (x + y)%Z) a b.
Definition rl_merge (ls : list ResourceList) : ResourceList := foldl rl_merge2 ∅ ls.

(** [resources.Subtract]: the keys of the left operand. *)
Definition rl_subtract (lhs rhs : ResourceList) : ResourceList :=
  map_imap (λ k v, Some (v - rl_get rhs k)%Z) lhs.

(** [resources.Fits]. *)
Definition rl_fits (candidate total : ResourceList) : bool :=
  bool_decide (map_Forall (λ _ q, (0 <=? q)%Z = true) total)
  && bool_decide (map_Forall (λ k q, (q <=? rl_get total k)%Z = true) candidate).

(** ** Offerings and instance types *)

Record Offering := MkOffering {
  off_Requirements : Requirements;
  off_Price : price;
  off_Available : bool;
}.

Record InstanceTypeOverhead := MkOverhead {
  KubeReserved : ResourceList;
  SystemReserved : ResourceList;
  EvictionThreshold : ResourceList;
}.
Definition Overhead_Total (o : InstanceTypeOverhead) : ResourceList :=
  rl_merge [KubeReserved o; SystemReserved o; EvictionThreshold o].

Record InstanceType := MkInstanceType {
  it_Name : string;
  it_Requirements : Requirements;
  it_Offerings : list Offering;
  it_Capacity : ResourceList;
  it_Overhead : InstanceTypeOverhead;
}.

Definition Allocatable (i : InstanceType) : ResourceList :=
  rl_subtract (it_Capacity i) (Overhead_Total (it_Overhead i)).

Definition Available (ofs : list Offering) : list Offering := bfilter off_Available ofs.

Definition IsCompatible (reqs : Requirements) (o : Offering) : bool :=
  Compatible reqs (off_Requirements o) WellKnownLabels.

Definition Offerings_Compatible (reqs : Requirements) (ofs : list Offering) : list Offering :=
  bfilter (IsCompatible reqs) ofs.

Definition HasCompatible (reqs : Requirements) (ofs : list Offering) : bool :=
  existsb (IsCompatible reqs) ofs.

Definition offering_cheaper (a b : Offering) : bool := price_lt (off_Price a) (off_Price b).

(** [Cheapest] of a non-empty slice. *)
Definition Cheapest (ofs : list Offering) : option Offering := lo_min_by offering_cheaper ofs.

Definition launch_price (reqs : Requirements) (i : InstanceType) : price :=
  match Cheapest (Offerings_Compatible reqs (Available (it_Offerings i))) with
  | Some o => off_Price o
  | None => MaxPrice
  end.

Definition price_eq_name_less (reqs : Requirements) (i j : InstanceType) : bool :=
  let ip := launch_price reqs i in
  let jp := launch_price reqs j in
  if feq ip jp then str_ltb (it_Name i) (it_Name j) else price_lt ip jp.

Section instance_types.
Context {RT : GoRuntime}.

Definition OrderByPrice (reqs : Requirements) (its : list InstanceType) : list InstanceType :=
  sort_slice (price_eq_name_less reqs) its.

(** The minValues bookkeeping of [SatisfiesMinValues]: the values seen so far
    for every key with a minimum. *)
Definition min_keys (reqs : Requirements) : gmap string Z :=
  omap MinValues reqs.
Definition add_values (reqs : Requirements) (acc : gmap string (gset string)) (it : InstanceType)
    : gmap string (gset string) :=
  map_imap (λ k _, Some (values (Get (it_Requirements it) k) ∪ default ∅ (acc !! k)))
    (min_keys reqs).
Definition min_satisfied (reqs : Requirements) (acc : gmap string (gset string)) : bool :=
  bool_decide (map_Forall (λ k vs,
    (default 0 (min_keys reqs !! k) <=? Z.of_nat (size vs))%Z = true) acc).

(** Does some prefix of the instance types satisfy every minimum? *)
Fixpoint min_values_from (reqs : Requirements) (acc : gmap string (gset string))
    (last_ok : bool) (its : list InstanceType) : bool :=
  match its with
  | [] => last_ok
  | it :: its' =>
      let acc' := add_values reqs acc it in
      if min_satisfied reqs acc' then true else min_values_from reqs acc' false its'
  end.
Definition SatisfiesMinValues (reqs : Requirements) (its : list InstanceType) : bool :=
  negb (HasMinValues reqs) || min_values_from reqs ∅ true its.

Definition Truncate (reqs : Requirements) (maxItems : nat) (its : list InstanceType)
    : result (list InstanceType) :=
  let truncated := take maxItems (OrderByPrice reqs its) in
  if HasMinValues reqs && negb (SatisfiesMinValues reqs truncated)
  then Err (WrapError "validating minValues" (ErrorString "minValues requirement is not met"))
  else Ok truncated.
End instance_types.

(** ** Lemmas *)

#[export] Instance offering_cheaper_swo : StrictWeakOrder offering_cheaper.
Proof.
  constructor; intros; unfold offering_cheaper in *;
    [by apply swo_asym | by eapply swo_neg_trans].
Qed.

Lemma elem_of_Available o ofs : o ∈ Available ofs ↔ off_Available o = true ∧ o ∈ ofs.
Proof. apply elem_of_bfilter. Qed.

Lemma HasCompatible_spec reqs ofs :
  HasCompatible reqs ofs = true ↔ ∃ o, o ∈ ofs ∧ IsCompatible reqs o = true.
Proof.
  unfold HasCompatible. rewrite existsb_exists. by setoid_rewrite <- list_elem_of_In.
Qed.

Lemma Cheapest_spec ofs o :
  Cheapest ofs = Some o → o ∈ ofs ∧ ∀ o', o' ∈ ofs → fle (off_Price o) (off_Price o') = true.
Proof.
  intros H. apply lo_min_by_spec in H as [Hin Hmin]; [|apply _]. split; [done|].
  intros o' Ho'. apply price_le_not_lt. by apply Hmin.
Qed.

Lemma Cheapest_None ofs : Cheapest ofs = None ↔ ofs = [].
Proof. destruct ofs; naive_solver. Qed.

Lemma rl_subtract_lookup lhs rhs k :
  rl_subtract lhs rhs !! k = (λ v, (v - rl_get rhs k)%Z) <$> lhs !! k.
Proof. unfold rl_subtract. rewrite map_lookup_imap. by destruct (lhs !! k). Qed.

#[export] Instance price_eq_name_less_swo reqs : StrictWeakOrder (price_eq_name_less reqs).
Proof.
  set (lt1 := λ i j : InstanceType, price_lt (launch_price reqs i) (launch_price reqs j)).
  set (lt2 := λ i j : InstanceType, str_ltb (it_Name i) (it_Name j)).
  assert (StrictWeakOrder lt1) by (constructor; intros; unfold lt1 in *;
    [by apply swo_asym | by eapply swo_neg_trans]).
  assert (StrictWeakOrder lt2) by (constructor; intros; unfold lt2 in *;
    [by apply swo_asym | by eapply swo_neg_trans]).
  assert (∀ i j, price_eq_name_less reqs i j =
    (if negb (lt1 i j) && negb (lt1 j i) then lt2 i j else lt1 i j)) as Heq.
  { intros i j. unfold price_eq_name_less, lt1, lt2.
    pose proof (feq_price (launch_price reqs i) (launch_price reqs j)).
    destruct (feq _ _), (price_lt _ _), (price_lt _ _); simpl; naive_solver. }
  pose proof (lex_swo lt1 lt2) as [Ha Hn]. constructor.
  - intros x y. rewrite !Heq. apply Ha.
  - intros x y z. rewrite !Heq. apply Hn.
Qed.

Section instance_types_lemmas.
Context {RT : GoRuntime}.

Lemma Truncate_elem reqs n its r it : Truncate reqs n its = Ok r → it ∈ r → it ∈ its.
Proof.
  unfold Truncate, OrderByPrice. destruct (_ && _); [done|]. intros [= <-] Hin.
  apply elem_of_take in Hin as (k & Hk & _).
  eapply elem_of_sort_slice, list_elem_of_lookup_2, Hk.
Qed.

Lemma Truncate_length reqs n its r : Truncate reqs n its = Ok r → length r ≤ n.
Proof.
  unfold Truncate. destruct (_ && _); [done|]. intros [= <-].
  rewrite length_take. lia.
Qed.

(** What is cut off is not better than anything that is kept. *)
Lemma Truncate_cheapest reqs n its r it :
  Truncate reqs n its = Ok r → it ∈ its → it ∉ r →
  ∀ kept, kept ∈ r → price_eq_name_less reqs it kept = false.
Proof.
  unfold Truncate, OrderByPrice. destruct (_ && _); [done|]. intros [= <-] Hit Hnot kept Hk.
  set (l := sort_slice _ _) in *.
  assert (StronglySorted (not_after (price_eq_name_less reqs)) l) as Hs
    by (apply sort_slice_sorted; apply _).
  assert (it ∈ drop n l) as Hd.
  { assert (it ∈ l) as Hl by by apply elem_of_sort_slice.
    rewrite <- (take_drop n l) in Hl. apply elem_of_app in Hl as [?|?]; done. }
  rewrite <- (take_drop n l) in Hs.
  by apply (StronglySorted_app_1_elem_of _ _ _ kept it Hs).
Qed.
End instance_types_lemmas.
