(* ===== verification/Apis.v ===== *)
(** * API objects

    [ECSNodeClass] (pkg/apis/v1alpha1) and the parts of karpenter's [NodeClaim]
    and [NodePool] the code reads and writes.  A nil map of the API is the empty
    map; a nil slice is kept apart from an empty one only where the code asks. *)

From S2P Require Import Prelude Effects Labels Scheduling CloudTypes.

(** ** Object metadata *)

Record ObjectMeta := MkMeta {
  meta_Name : string;
  meta_UID : string;
  meta_Labels : gmap string string;
  meta_Annotations : gmap string string;
  meta_Finalizers : list string;
  meta_CreationTimestamp : Z;
  meta_DeletionTimestamp : option Z;
}.

(** ** pkg/apis/v1alpha1/ecsnodeclass.go *)

Definition VSwitchSelectionPolicyBalanced : string := "balanced".
Definition KubeletMaxPods : Z := 110.
Definition ECSNodeClassHashVersion : string := "v3".

Record VSwitchSelectorTerm := MkVSwitchTerm {
  vst_Tags : gmap string string;
  vst_ID : string;
}.

Record SecurityGroupSelectorTerm := MkSGTerm {
  sgt_Tags : gmap string string;
  sgt_ID : string;
  sgt_Name : string;
}.

Record ImageSelectorTerm := MkImageTerm {
  imt_Alias : string;
  imt_ID : string;
}.

Record KubeletConfiguration := MkKubelet {
  kc_ClusterDNS : list string;
  kc_MaxPods : option Z;
  kc_PodsPerCore : option Z;
  kc_SystemReserved : gmap string string;
  kc_KubeReserved : gmap string string;
  kc_EvictionHard : gmap string string;
  kc_EvictionSoft : gmap string string;
  kc_EvictionSoftGracePeriod : gmap string Z;
  kc_EvictionMaxPodGracePeriod : option Z;
  kc_ImageGCHighThresholdPercent : option Z;
  kc_ImageGCLowThresholdPercent : option Z;
  kc_CPUCFSQuota : option bool;
}.
Definition empty_kubelet : KubeletConfiguration :=
  MkKubelet [] None None ∅ ∅ ∅ ∅ ∅ None None None None.

Record SystemDisk := MkSystemDisk {
  sd_Categories : option (list string);
  sd_Size : option Z;
  sd_PerformanceLevel : option string;
}.

Record ECSNodeClassSpec := MkSpec {
  VSwitchSelectorTerms : list VSwitchSelectorTerm;
  VSwitchSelectionPolicy : string;
  SecurityGroupSelectorTerms : list SecurityGroupSelectorTerm;
  ImageSelectorTerms : list ImageSelectorTerm;
  spec_KubeletConfiguration : option KubeletConfiguration;
  spec_SystemDisk : option SystemDisk;
  spec_Tags : gmap string string;
  ResourceGroupID : string;
}.

(** ** pkg/apis/v1alpha1/ecsnodeclass_status.go *)

Definition ConditionTypeVSwitchesReady : string := "VSwitchesReady".
Definition ConditionTypeSecurityGroupsReady : string := "SecurityGroupsReady".
Definition ConditionTypeInstanceRAMReady : string := "InstanceRAMReady".
Definition ConditionTypeImagesReady : string := "ImagesReady".

Record VSwitch := MkVSwitch { vsw_ID : string; vsw_ZoneID : string }.
Record SecurityGroup := MkSecurityGroup { sg_ID : string; sg_Name : string }.
Record Image := MkImage {
  img_ID : string;
  img_Name : string;
  img_Requirements : list NodeSelectorRequirement;
}.
#[export] Instance VSwitch_eq_dec : EqDecision VSwitch.
Proof. solve_decision. Defined.
#[export] Instance SecurityGroup_eq_dec : EqDecision SecurityGroup.
Proof. solve_decision. Defined.

Inductive ConditionStatus := ConditionTrue | ConditionFalse | ConditionUnknown.
#[export] Instance ConditionStatus_eq_dec : EqDecision ConditionStatus.
Proof. solve_decision. Defined.

Record Condition := MkCondition {
  cond_Type : string;
  cond_Status : ConditionStatus;
  cond_Reason : string;
  cond_Message : string;
  cond_LastTransitionTime : Z;
}.
#[export] Instance Condition_eq_dec : EqDecision Condition.
Proof. solve_decision. Defined.

Record ECSNodeClassStatus := MkStatus {
  VSwitches : list VSwitch;
  SecurityGroups : list SecurityGroup;
  Images : list Image;
  Conditions : list Condition;
}.

Record ECSNodeClass := MkNodeClass {
  nc_Meta : ObjectMeta;
  nc_Spec : ECSNodeClassSpec;
  nc_Status : ECSNodeClassStatus;
}.

Definition nc_Name (n : ECSNodeClass) : string := meta_Name (nc_Meta n).

Definition ImageFamilyFromAlias (alias : string) : string := alias.

(** [ImageFamily]: the first alias of the image selector terms. *)
Definition ImageFamily (n : ECSNodeClass) : string :=
  match lo_find (λ t, bool_decide (imt_Alias t ≠ "")) (ImageSelectorTerms (nc_Spec n)) with
  | Some term => ImageFamilyFromAlias (imt_Alias term)
  | None => ""
  end.

(** ** karpenter objects *)

Record NodeClassReference := MkRef { ref_Name : string }.

Record NodeClaim := MkNodeClaim {
  claim_Meta : ObjectMeta;
  claim_NodeClassRef : option NodeClassReference;
  claim_Requirements : list NodeSelectorRequirement;
  claim_Requests : ResourceList;
  claim_NodeName : string;
  claim_ProviderID : string;
  claim_ImageID : string;
  claim_Capacity : ResourceList;
  claim_Allocatable : ResourceList;
  claim_Conditions : list Condition;
}.
Definition claim_Labels (c : NodeClaim) : gmap string string := meta_Labels (claim_Meta c).
Definition claim_Annotations (c : NodeClaim) : gmap string string := meta_Annotations (claim_Meta c).

Record NodePool := MkNodePool {
  pool_Meta : ObjectMeta;
  pool_NodeClassRef : option NodeClassReference;
}.

(** ** Setters *)

Definition meta_set_Annotations (a : gmap string string) (m : ObjectMeta) : ObjectMeta :=
  MkMeta (meta_Name m) (meta_UID m) (meta_Labels m) a (meta_Finalizers m)
    (meta_CreationTimestamp m) (meta_DeletionTimestamp m).
Definition meta_set_Finalizers (f : list string) (m : ObjectMeta) : ObjectMeta :=
  MkMeta (meta_Name m) (meta_UID m) (meta_Labels m) (meta_Annotations m) f
    (meta_CreationTimestamp m) (meta_DeletionTimestamp m).
Definition claim_set_Annotations (a : gmap string string) (c : NodeClaim) : NodeClaim :=
  MkNodeClaim (meta_set_Annotations a (claim_Meta c)) (claim_NodeClassRef c) (claim_Requirements c)
    (claim_Requests c) (claim_NodeName c) (claim_ProviderID c) (claim_ImageID c)
    (claim_Capacity c) (claim_Allocatable c) (claim_Conditions c).
Definition nc_set_Annotations (a : gmap string string) (n : ECSNodeClass) : ECSNodeClass :=
  MkNodeClass (meta_set_Annotations a (nc_Meta n)) (nc_Spec n) (nc_Status n).
Definition nc_set_Finalizers (f : list string) (n : ECSNodeClass) : ECSNodeClass :=
  MkNodeClass (meta_set_Finalizers f (nc_Meta n)) (nc_Spec n) (nc_Status n).
Definition nc_set_Status (s : ECSNodeClassStatus) (n : ECSNodeClass) : ECSNodeClass :=
  MkNodeClass (nc_Meta n) (nc_Spec n) s.
Definition nc_set_Conditions (cs : list Condition) (n : ECSNodeClass) : ECSNodeClass :=
  nc_set_Status (MkStatus (VSwitches (nc_Status n)) (SecurityGroups (nc_Status n))
    (Images (nc_Status n)) cs) n.
