(* ===== verification/Conditions.v ===== *)
(** * Status conditions (operatorpkg, vendored) and the readiness of a NodeClass

    A resource carries conditions; one of them, the root ([Ready]), summarises
    the dependent ones.  [Set] updates a condition and recomputes the root.  The
    invariant [consistent] says that the root is true when every dependent
    condition is, false when some is false, and unknown otherwise; it holds
    from the first use on and is what gates launches in the cloud provider. *)

From S2P Require Import Prelude Effects Labels Scheduling CloudTypes Apis.

Definition ConditionReady : string := "Ready".

Definition cond_get (t : string) (cs : list Condition) : option Condition :=
  lo_find (λ c, bool_decide (cond_Type c = t)) cs.

Definition IsTrue (c : option Condition) : bool :=
  match c with Some c => bool_decide (cond_Status c = ConditionTrue) | None => false end.
Definition IsFalse (c : option Condition) : bool :=
  match c with Some c => bool_decide (cond_Status c = ConditionFalse) | None => false end.
Definition IsUnknown (c : option Condition) : bool :=
  match c with Some c => bool_decide (cond_Status c = ConditionUnknown) | None => true end.

Definition status_string (s : ConditionStatus) : string :=
  match s with ConditionTrue => "True" | ConditionFalse => "False" | ConditionUnknown => "Unknown" end.

(** Equal up to the transition time. *)
Definition same_condition (a b : Condition) : bool :=
  bool_decide (cond_Type a = cond_Type b) && bool_decide (cond_Status a = cond_Status b)
  && bool_decide (cond_Reason a = cond_Reason b) && bool_decide (cond_Message a = cond_Message b).

Definition at_time (now : Z) (c : Condition) : Condition :=
  MkCondition (cond_Type c) (cond_Status c) (cond_Reason c) (cond_Message c) now.

Definition type_less (a b : Condition) : bool := str_ltb (cond_Type a) (cond_Type b).
Definition newer (a b : Condition) : bool :=
  (cond_LastTransitionTime b <? cond_LastTransitionTime a)%Z.

Section condition_set.
Context {RT : GoRuntime} (root : string) (dependents : list string).

(** The part of [Set] that stores the condition; [None] if nothing but the
    time would change. *)
Definition store (now : Z) (c : Condition) (cs : list Condition) : option (list Condition) :=
  if existsb (same_condition c) cs then None
  else Some (sort_slice type_less
         (bfilter (λ d, negb (bool_decide (cond_Type d = cond_Type c))) cs ++ [at_time now c])).

Definition findUnhealthyDependents (cs : list Condition) : list Condition :=
  sort_slice newer
    (bfilter (λ c, bool_decide (cond_Type c ∈ dependents) && (IsFalse (Some c) || IsUnknown (Some c))) cs).

Definition root_condition (cs : list Condition) : Condition :=
  match findUnhealthyDependents cs with
  | [] => MkCondition root ConditionTrue root "" 0
  | bad =>
      MkCondition root
        (if existsb (λ c, IsFalse (Some c)) bad then ConditionFalse else ConditionUnknown)
        "UnhealthyDependents"
        (String.concat ", " ((λ c, cond_Type c +:+ "=" +:+ status_string (cond_Status c)) <$> bad)) 0
  end.

Definition recomputeRootCondition (now : Z) (t : string) (cs : list Condition) : list Condition :=
  if bool_decide (t = root) then cs else default cs (store now (root_condition cs) cs).

Definition Set_ (now : Z) (c : Condition) (cs : list Condition) : list Condition :=
  match store now c cs with
  | None => cs
  | Some cs' => recomputeRootCondition now (cond_Type c) cs'
  end.

Definition SetTrue (now : Z) (t : string) (cs : list Condition) : list Condition :=
  Set_ now (MkCondition t ConditionTrue t "" 0) cs.
Definition SetFalse (now : Z) (t reason message : string) (cs : list Condition) : list Condition :=
  Set_ now (MkCondition t ConditionFalse reason message 0) cs.
Definition SetUnknown (now : Z) (t : string) (cs : list Condition) : list Condition :=
  Set_ now (MkCondition t ConditionUnknown "AwaitingReconciliation" "object is awaiting reconciliation" 0) cs.

(** [For]: known conditions that are missing start as unknown. *)
Definition For (now : Z) (cs : list Condition) : list Condition :=
  foldl (λ cs t, match cond_get t cs with None => SetUnknown now t cs | Some _ => cs end)
    cs (dependents ++ [root]).

(** ** The meaning of the root *)

Definition status_of (t : string) (cs : list Condition) : ConditionStatus :=
  match cond_get t cs with Some c => cond_Status c | None => ConditionUnknown end.

Definition summary (cs : list Condition) (ts : list string) : ConditionStatus :=
  if bool_decide (Exists (λ t, status_of t cs = ConditionFalse) ts) then ConditionFalse
  else if bool_decide (Forall (λ t, status_of t cs = ConditionTrue) ts) then ConditionTrue
  else ConditionUnknown.

Lemma cond_get_Some t cs c :
  NoDup (cond_Type <$> cs) → cond_get t cs = Some c ↔ c ∈ cs ∧ cond_Type c = t.
Proof.
  intros Hnd. unfold cond_get. split.
  - intros [? ?%bool_decide_eq_true]%lo_find_Some. done.
  - intros [Hin Ht]. destruct (lo_find _ cs) as [d|] eqn:Hf.
    + apply lo_find_Some in Hf as [Hd Htd%bool_decide_eq_true]. f_equal.
      apply list_elem_of_lookup in Hin as [i Hi]. apply list_elem_of_lookup in Hd as [j Hj].
      assert (i = j) as ->; [|congruence].
      eapply (NoDup_lookup _ i j t Hnd); rewrite list_lookup_fmap; [by rewrite Hi, <- Ht | by rewrite Hj, <- Htd].
    + rewrite lo_find_None in Hf. specialize (Hf c Hin). by rewrite bool_decide_true in Hf.
Qed.

Lemma cond_get_None t cs : cond_get t cs = None ↔ t ∉ (cond_Type <$> cs).
Proof.
  unfold cond_get. rewrite lo_find_None, list_elem_of_fmap. split.
  - intros H (c & -> & Hc). specialize (H c Hc). by rewrite bool_decide_true in H.
  - intros H c Hc. apply bool_decide_false. intros <-. apply H. by exists c.
Qed.

Lemma store_types now c cs cs' :
  NoDup (cond_Type <$> cs) → store now c cs = Some cs' →
  NoDup (cond_Type <$> cs') ∧
  ∀ t, cond_get t cs' = if bool_decide (t = cond_Type c) then Some (at_time now c) else cond_get t cs.
Proof.
  unfold store. destruct (existsb _ _); [done|]. intros Hnd [= <-].
  set (kept := bfilter _ cs).
  assert (NoDup (cond_Type <$> kept ++ [at_time now c])) as Hnd'.
  { rewrite fmap_app. apply NoDup_app. split_and!.
    - eapply sublist_NoDup; [exact Hnd|]. by apply fmap_sublist_of, bfilter_sublist.
    - intros t (d & -> & Hd)%list_elem_of_fmap Ht%list_elem_of_singleton.
      apply elem_of_bfilter in Hd as [Hd _]. simpl in Ht.
      apply negb_true_iff, bool_decide_eq_false in Hd. done.
    - apply NoDup_singleton. }
  split; [by rewrite sort_slice_perm|]. intros t.
  assert (NoDup (cond_Type <$> sort_slice type_less (kept ++ [at_time now c]))) as Hnd2
    by by rewrite sort_slice_perm.
  case_bool_decide as Ht.
  - apply cond_get_Some; [done|]. split; [|done]. apply elem_of_sort_slice, elem_of_app. right. left.
  - destruct (cond_get t cs) as [d|] eqn:Hd.
    + apply cond_get_Some in Hd as [Hin Htd]; [|done]. apply cond_get_Some; [done|].
      split; [|done]. apply elem_of_sort_slice, elem_of_app. left. apply elem_of_bfilter.
      split; [|done]. apply negb_true_iff, bool_decide_false. congruence.
    + rewrite cond_get_None in Hd. apply cond_get_None. intros (d & -> & Hin)%list_elem_of_fmap.
      apply elem_of_sort_slice, elem_of_app in Hin as [Hin|Hin%list_elem_of_singleton].
      * apply elem_of_bfilter in Hin as [_ Hin]. apply Hd. by apply list_elem_of_fmap_2.
      * subst d. done.
Qed.

Definition present (cs : list Condition) (t : string) : Prop := is_Some (cond_get t cs).

Lemma elem_of_unhealthy c cs :
  c ∈ findUnhealthyDependents cs ↔
  c ∈ cs ∧ cond_Type c ∈ dependents ∧ cond_Status c ≠ ConditionTrue.
Proof.
  unfold findUnhealthyDependents. rewrite elem_of_sort_slice, elem_of_bfilter.
  rewrite andb_true_iff, orb_true_iff, bool_decide_eq_true. simpl. rewrite !bool_decide_eq_true.
  destruct (cond_Status c); naive_solver.
Qed.

Lemma status_of_elem cs c :
  NoDup (cond_Type <$> cs) → c ∈ cs → status_of (cond_Type c) cs = cond_Status c.
Proof.
  intros Hnd Hc. unfold status_of.
  by rewrite (proj2 (cond_get_Some (cond_Type c) cs c Hnd)).
Qed.

Lemma root_condition_summary cs :
  NoDup (cond_Type <$> cs) → (∀ t, t ∈ dependents → present cs t) →
  cond_Status (root_condition cs) = summary cs dependents.
Proof.
  intros Hnd Hall. unfold root_condition, summary.
  pose proof (λ c, elem_of_unhealthy c cs) as Hun.
  assert (∀ t, t ∈ dependents → ∃ c, c ∈ cs ∧ cond_Type c = t ∧ status_of t cs = cond_Status c) as Hdep.
  { intros t Ht. destruct (Hall t Ht) as [c Hc]. apply cond_get_Some in Hc as [Hin <-]; [|done].
    exists c. split_and!; [done..|by apply status_of_elem]. }
  destruct (findUnhealthyDependents cs) as [|b bad] eqn:Hbad.
  - assert (Forall (λ t, status_of t cs = ConditionTrue) dependents) as Htrue.
    { apply Forall_forall. intros t Ht. destruct (Hdep t Ht) as (c & Hc & Hct & ->).
      destruct (decide (cond_Status c = ConditionTrue)) as [|Hn]; [done|].
      assert (c ∈ []) as []%elem_of_nil. apply Hun. by rewrite Hct. }
    rewrite bool_decide_false; [by rewrite bool_decide_true|].
    rewrite Exists_exists. intros (t & Ht & Hf). rewrite Forall_forall in Htrue.
    specialize (Htrue t Ht). congruence.
  - assert (b ∈ cs ∧ cond_Type b ∈ dependents ∧ cond_Status b ≠ ConditionTrue) as (Hb & Hbt & Hbs)
      by (apply Hun; left).
    rewrite (bool_decide_false (Forall _ _)).
    2:{ rewrite Forall_forall. intros HF. specialize (HF _ Hbt). by rewrite status_of_elem in HF. }
    cbn [cond_Status]. destruct (existsb _ _) eqn:He.
    + rewrite bool_decide_true; [done|].
      apply existsb_exists in He as (c & Hc%list_elem_of_In & Hf).
      apply Hun in Hc as (Hc & Hct & _). apply Exists_exists. exists (cond_Type c). split; [done|].
      rewrite status_of_elem by done. by apply bool_decide_eq_true in Hf.
    + rewrite bool_decide_false; [done|]. rewrite Exists_exists. intros (t & Ht & Hf).
      destruct (Hdep t Ht) as (c & Hc & Hct & Hs). apply not_true_iff_false in He. apply He.
      apply existsb_exists. exists c. split.
      * apply list_elem_of_In, Hun. rewrite Hct. split_and!; [done..|]. congruence.
      * apply bool_decide_true. congruence.
Qed.

(** ** The invariant *)

Record consistent (cs : list Condition) : Prop := {
  cs_types : NoDup (cond_Type <$> cs);
  cs_present : ∀ t, t ∈ dependents → present cs t;
  cs_root : present cs root;
  cs_summary : status_of root cs = summary cs dependents;
}.

(** Before [For] has completed the set, the root counts only then. *)
Definition pre_consistent (cs : list Condition) : Prop :=
  NoDup (cond_Type <$> cs) ∧ ((∀ t, t ∈ dependents → present cs t) → consistent cs).

Lemma summary_ext cs cs' :
  (∀ t, t ∈ dependents → cond_get t cs' = cond_get t cs) → summary cs' dependents = summary cs dependents.
Proof.
  intros H. unfold summary.
  assert (∀ st, Exists (λ t, status_of t cs' = st) dependents ↔ Exists (λ t, status_of t cs = st) dependents) as HE.
  { intros st. rewrite !Exists_exists. unfold status_of.
    split; intros (t & Ht & Hs); exists t; (split; [done|]); by rewrite ?H in *. }
  assert (∀ st, Forall (λ t, status_of t cs' = st) dependents ↔ Forall (λ t, status_of t cs = st) dependents) as HF.
  { intros st. rewrite !Forall_forall. unfold status_of.
    split; intros Hall t Ht; specialize (Hall t Ht); by rewrite ?H in *. }
  by rewrite (bool_decide_ext _ _ (HE _)), (bool_decide_ext _ _ (HF _)).
Qed.

Hypothesis root_not_dependent : root ∉ dependents.

Lemma recompute_spec now t cs (cs' := recomputeRootCondition now t cs) :
  NoDup (cond_Type <$> cs) → t ∈ dependents →
  NoDup (cond_Type <$> cs') ∧ (∀ u, u ≠ root → cond_get u cs' = cond_get u cs) ∧
  present cs' root ∧ status_of root cs' = cond_Status (root_condition cs).
Proof.
  intros Hnd Ht. unfold cs', recomputeRootCondition.
  rewrite bool_decide_false by (intros ->; done).
  assert (cond_Type (root_condition cs) = root) as Hroot
    by (unfold root_condition; by destruct (findUnhealthyDependents cs)).
  destruct (store now (root_condition cs) cs) as [cs2|] eqn:Hs; unfold from_option, id.
  - apply store_types in Hs as [Hnd2 Hget]; [|done]. rewrite Hroot in Hget.
    unfold present, status_of. rewrite (Hget root), bool_decide_true by done.
    split_and!; [done| |done|done]. intros u Hu. by rewrite Hget, bool_decide_false.
  - unfold store in Hs. destruct (existsb _ _) eqn:He; [|done].
    apply existsb_exists in He as (d & Hd%list_elem_of_In & Hsame). unfold same_condition in Hsame.
    go_bool.
    assert (cond_get root cs = Some d) as Hg by (apply cond_get_Some; [done|]; split; congruence).
    unfold present, status_of. rewrite Hg. split_and!; [done..|congruence].
Qed.

Lemma Set_pre_consistent now c cs :
  pre_consistent cs → cond_Type c ∈ dependents →
  pre_consistent (Set_ now c cs) ∧ present (Set_ now c cs) (cond_Type c) ∧
  (∀ t, present cs t → present (Set_ now c cs) t) ∧
  status_of (cond_Type c) (Set_ now c cs) = cond_Status c ∧
  (∀ t, t ∈ dependents → t ≠ cond_Type c → status_of t (Set_ now c cs) = status_of t cs).
Proof.
  intros [Hnd Hpre] Hc. unfold Set_. destruct (store now c cs) as [cs1|] eqn:Hs.
  - apply store_types in Hs as [Hnd1 Hget]; [|done].
    destruct (recompute_spec now (cond_Type c) cs1 Hnd1 Hc) as (Hnd2 & Hkeep & Hrp & Hrs).
    set (cs2 := recomputeRootCondition now (cond_Type c) cs1) in *.
    assert (∀ t, t ∈ dependents → t ≠ root) as Hne by (intros t Ht ->; done).
    assert (∀ t, t ∈ dependents → cond_get t cs2 = cond_get t cs1) as Hk2 by (intros; auto).
    split_and!.
    + split; [done|]. intros Hall. constructor; [done..|]. rewrite Hrs, (summary_ext cs1 cs2 Hk2).
      apply root_condition_summary; [done|]. intros t Ht. unfold present. rewrite <- Hk2 by done. by apply Hall.
    + unfold present. rewrite Hk2, Hget, bool_decide_true by done. done.
    + intros t Ht. destruct (decide (t = root)) as [->|Htr]; [done|]. unfold present in *.
      rewrite Hkeep, Hget by done. case_bool_decide; done.
    + unfold status_of. by rewrite Hk2, Hget, bool_decide_true by done.
    + intros t Ht Htc. unfold status_of. by rewrite Hk2, Hget, bool_decide_false by done.
  - unfold store in Hs. destruct (existsb _ _) eqn:He; [|done].
    apply existsb_exists in He as (d & Hd%list_elem_of_In & Hsame). unfold same_condition in Hsame. go_bool.
    assert (cond_get (cond_Type c) cs = Some d) as Hg by (apply cond_get_Some; [done|]; split; congruence).
    unfold present, status_of. rewrite Hg. split_and!; try done; congruence.
Qed.

Definition for_step (now : Z) (cs : list Condition) (t : string) : list Condition :=
  match cond_get t cs with None => SetUnknown now t cs | Some _ => cs end.

Lemma for_step_spec now cs t :
  pre_consistent cs → t ∈ dependents →
  pre_consistent (for_step now cs t) ∧ present (for_step now cs t) t ∧
  (∀ u, present cs u → present (for_step now cs t) u) ∧
  (∀ u, u ∈ dependents → status_of u (for_step now cs t) = status_of u cs).
Proof.
  intros Hp Ht. unfold for_step. destruct (cond_get t cs) as [c|] eqn:Hg.
  - split_and!; [done| |done|done]. unfold present. by rewrite Hg.
  - destruct (Set_pre_consistent now (MkCondition t ConditionUnknown "AwaitingReconciliation"
      "object is awaiting reconciliation" 0) cs Hp Ht) as (? & ? & ? & Hs & Hkeep).
    split_and!; [done..|]. intros u Hu. destruct (decide (u = t)) as [->|Hne]; [|by apply Hkeep].
    unfold SetUnknown. cbn [cond_Type cond_Status] in Hs. rewrite Hs. unfold status_of. by rewrite Hg.
Qed.

Lemma for_fold_spec now ts cs :
  ts ⊆ dependents → pre_consistent cs →
  pre_consistent (foldl (for_step now) cs ts) ∧
  (∀ t, present cs t ∨ t ∈ ts → present (foldl (for_step now) cs ts) t) ∧
  (∀ u, u ∈ dependents → status_of u (foldl (for_step now) cs ts) = status_of u cs).
Proof.
  revert cs. induction ts as [|t ts IH]; intros cs Hts Hp.
  - split_and!; [done| |done]. intros t [?|[]%elem_of_nil]; done.
  - cbn [foldl]. destruct (for_step_spec now cs t Hp) as (Hp' & Ht & Hmono & Hst); [apply Hts; left|].
    destruct (IH (for_step now cs t)) as (Hp2 & Hpres & Hst2); [intros x Hx; apply Hts; by right|done|].
    split_and!; [done| |].
    + intros u [Hu|[->|Hu]%elem_of_cons]; apply Hpres; auto.
    + intros u Hu. by rewrite Hst2, Hst.
Qed.

Lemma For_spec now cs :
  pre_consistent cs →
  consistent (For now cs) ∧ (∀ u, u ∈ dependents → status_of u (For now cs) = status_of u cs).
Proof.
  intros Hpre. unfold For. rewrite foldl_app. fold (for_step now).
  destruct (for_fold_spec now dependents cs) as (Hp & Hpres & Hst); [done..|].
  set (cs1 := foldl (for_step now) cs dependents) in *.
  assert (consistent cs1) as Hcons by (apply Hp; auto).
  cbn [foldl]. unfold for_step. destruct (cs_root _ Hcons) as [r Hr]. by rewrite Hr.
Qed.
Lemma For_consistent now cs : pre_consistent cs → consistent (For now cs).
Proof. intros. by apply For_spec. Qed.
End condition_set.

(** ** StatusConditions of an ECSNodeClass *)

Definition nodeclass_conditions : list string :=
  [ConditionTypeVSwitchesReady; ConditionTypeSecurityGroupsReady; ConditionTypeInstanceRAMReady;
   ConditionTypeImagesReady].

Definition StatusConditions {RT : GoRuntime} (now : Z) (n : ECSNodeClass) : list Condition :=
  For ConditionReady nodeclass_conditions now (Conditions (nc_Status n)).

(** The conditions a NodeClass goes through: [StatusConditions] on a new object,
    then [Set] on the dependent conditions, with [StatusConditions] at will. *)
Inductive reachable_conditions {RT : GoRuntime} : list Condition → Prop :=
  | Reach_new now : reachable_conditions (For ConditionReady nodeclass_conditions now [])
  | Reach_for now cs : reachable_conditions cs →
      reachable_conditions (For ConditionReady nodeclass_conditions now cs)
  | Reach_set now c cs : reachable_conditions cs → cond_Type c ∈ nodeclass_conditions →
      reachable_conditions (Set_ ConditionReady nodeclass_conditions now c cs).

Lemma ready_not_dependent : ConditionReady ∉ nodeclass_conditions.
Proof. decide_compute. Qed.

Lemma reachable_consistent {RT : GoRuntime} cs :
  reachable_conditions cs → consistent ConditionReady nodeclass_conditions cs.
Proof.
  induction 1 as [now|now cs _ IH|now c cs _ IH Hc].
  - apply For_consistent; [exact ready_not_dependent|]. split; [constructor|].
    intros Hall. destruct (Hall ConditionTypeImagesReady) as [c Hc]; [decide_compute|]. done.
  - apply For_consistent; [exact ready_not_dependent|]. split; [apply IH|done].
  - destruct (Set_pre_consistent ConditionReady nodeclass_conditions ready_not_dependent now c cs)
      as ([_ Hp] & _ & Hmono & _); [split; [apply IH|done]|done|].
    apply Hp. intros t Ht. by apply Hmono, IH.
Qed.

(** C24. In every reachable set of conditions of a NodeClass, [Ready] is true
    exactly when the vSwitches, the security groups, the RAM role and the
    images are all ready, false exactly when one of them is false, and unknown
    otherwise. *)
Theorem Ready_summarises {RT : GoRuntime} cs :
  reachable_conditions cs →
  (status_of ConditionReady cs = ConditionTrue ↔
     Forall (λ t, status_of t cs = ConditionTrue) nodeclass_conditions) ∧
  (status_of ConditionReady cs = ConditionFalse ↔
     Exists (λ t, status_of t cs = ConditionFalse) nodeclass_conditions).
Proof.
  intros Hr. apply reachable_consistent in Hr as [_ _ _ ->]. unfold summary.
  assert (Forall (λ t, status_of t cs = ConditionTrue) nodeclass_conditions →
          ¬ Exists (λ t, status_of t cs = ConditionFalse) nodeclass_conditions) as Hexcl.
  { rewrite Forall_forall, Exists_exists. intros HF (t & Ht & Hf). specialize (HF t Ht). congruence. }
  repeat case_bool_decide; naive_solver.
Qed.

Lemma Ready_summarises_witness :
  let cs := SetFalse ConditionReady nodeclass_conditions 7 ConditionTypeImagesReady "ImagesNotFound" "none"
              (For ConditionReady nodeclass_conditions 5 []) in
  status_of ConditionReady cs = ConditionFalse.
Proof.
  apply Ready_summarises.
  - apply Reach_set; [apply Reach_new | decide_compute].
  - apply Exists_exists. exists ConditionTypeImagesReady. split; [decide_compute | vm_compute; reflexivity].
Defined.
