(* ===== verification/Utils.v ===== *)
(** * pkg/utils/utils.go

    Parsing of provider IDs ("<region>.<instance id>"), label extraction from
    requirements, capacity types and the pretty-printing of name lists. *)

From S2P Require Import Prelude Effects Labels Scheduling CloudTypes.

Definition newline : ascii := "010"%char.
Definition dot : ascii := "."%char.

(** The match of [instanceIDRegex] (any characters, named AZ; a dot; any
    characters, named InstanceID): the wildcard does not match a newline, so the
    leftmost match lies in the first line that contains a dot; AZ is greedy, so
    the instance ID is what follows the last dot of that line. *)
Fixpoint first_line_match (lines : list string) : option string :=
  match lines with
  | [] => None
  | l :: ls => match after_last dot l with
               | Some id => Some id
               | None => first_line_match ls
               end
  end.

Definition ParseInstanceID (providerID : string) : result string :=
  match first_line_match (str_split newline providerID) with
  | Some id => Ok id
  | None => Err (ErrorString ("parsing instance id " +:+ providerID))
  end.

(** [fmt.Sprintf("%s.%s", i.Region, i.ID)] of the cloud provider. *)
Definition FormatProviderID (region id : string) : string := region +:+ "." +:+ id.

(** [GetCapacityTypes]. *)
Definition GetCapacityTypes (spotStrategy : string) : string :=
  if bool_decide (spotStrategy ≠ "NoSpot") then CapacityTypeSpot else CapacityTypeOnDemand.

(** [GetAllSingleValuedRequirementLabels]. *)
Definition GetAllSingleValuedRequirementLabels {RT : GoRuntime} (it : option InstanceType)
    : gmap string string :=
  match it with
  | None => ∅
  | Some i => omap (λ q, if (Len q =? 1)%Z then head (Values q) else None) (it_Requirements i)
  end.

(** [PrettySlice] at type [string]. *)
Fixpoint pretty_from (maxItems i len : Z) (s : list string) : string :=
  match s with
  | [] => ""
  | elem :: s' =>
      if (maxItems - 1 <? i)%Z then " and " +:+ pretty (len - i)%Z +:+ " other(s)"
      else (if (0 <? i)%Z then ", " else "") +:+ elem +:+ pretty_from maxItems (i + 1) len s'
  end.
Definition PrettySlice (s : list string) (maxItems : Z) : string :=
  pretty_from maxItems 0 (Z.of_nat (length s)) s.

(** ** [ParseISO8601]

    [time.Parse] with the layout 2006-01-02T15:04Z: fixed-width fields, except
    that the hour may have a single digit.  A time is its number of nanoseconds
    since 1970; [zeroTime] is the zero [time.Time] (the year 1), which the
    failed parse returns with its error. *)

Definition zeroTime : Z := - 62135596800 * Second.

Definition leap (y : Z) : bool :=
  (y mod 4 =? 0)%Z && (negb (y mod 100 =? 0)%Z || (y mod 400 =? 0)%Z).
Definition daysIn (m y : Z) : Z :=
  match m with
  | 2 => if leap y then 29 else 28
  | 4 | 6 | 9 | 11 => 30
  | _ => 31
  end%Z.

(** Days from 1970-01-01, with years starting in March. *)
Definition days_from_civil (y m d : Z) : Z :=
  let y := if (m <=? 2)%Z then (y - 1)%Z else y in
  let mp := ((m + 9) mod 12)%Z in
  let doy := ((153 * mp + 2) / 5 + d - 1)%Z in
  (365 * y + y / 4 - y / 100 + y / 400 + doy - 719468)%Z.

Definition char_eq (c : ascii) (s : string) : option string :=
  match s with
  | String a s' => if bool_decide (a = c) then Some s' else None
  | EmptyString => None
  end.
Fixpoint digits_exact (n : nat) (acc : Z) (s : string) : option (Z * string) :=
  match n with
  | O => Some (acc, s)
  | S n' => match s with
            | String a s' => match digit_of a with
                             | Some d => digits_exact n' (10 * acc + d) s'
                             | None => None
                             end
            | EmptyString => None
            end
  end.
Definition one_or_two_digits (s : string) : option (Z * string) :=
  match digits_exact 2 0 s with
  | Some r => Some r
  | None => digits_exact 1 0 s
  end.
Definition within (lo hi z : Z) : option () := if (lo <=? z)%Z && (z <=? hi)%Z then Some () else None.

Definition parse_minute_time (s : string) : option Z :=
  '(y, s) ← digits_exact 4 0 s; s ← char_eq "-" s;
  '(m, s) ← digits_exact 2 0 s; _ ← within 1 12 m; s ← char_eq "-" s;
  '(d, s) ← digits_exact 2 0 s; s ← char_eq "T" s;
  '(h, s) ← one_or_two_digits s; _ ← within 0 23 h; s ← char_eq ":" s;
  '(mi, s) ← digits_exact 2 0 s; _ ← within 0 59 mi; s ← char_eq "Z" s;
  _ ← within 1 (daysIn m y) d;
  if bool_decide (s = "") then
    Some ((days_from_civil y m d * 86400 + h * 3600 + mi * 60) * Second)%Z
  else None.

Definition ParseISO8601 (timeStr : string) : result Z :=
  match parse_minute_time timeStr with
  | Some t => Ok t
  | None => Err (ErrorString ("parsing time " +:+ timeStr))
  end.

Example ParseISO8601_samples :
  ParseISO8601 "1970-01-01T00:00Z" = Ok 0%Z ∧
  ParseISO8601 "2024-02-29T23:59Z" = Ok (1709251140 * Second)%Z ∧
  (∃ e, ParseISO8601 "2023-02-29T23:59Z" = Err e) ∧
  (∃ e, ParseISO8601 "2024-02-29T23:59:00Z" = Err e).
Proof. split_and!; [done | done | by eexists | by eexists]. Qed.

(** ** Lemmas *)

Lemma str_split_elem_char c d s :
  c ≠ d → existsb (str_has_char d) (str_split c s) = str_has_char d s.
Proof.
  intros Hcd. induction s as [|a s IH]; [done|]. simpl. case_bool_decide as Ha.
  - subst. simpl. rewrite IH. rewrite bool_decide_false by done. done.
  - destruct (str_split c s) as [|h t] eqn:Hs; simpl in *.
    + by rewrite <- IH, orb_false_r.
    + by rewrite <- IH, orb_assoc.
Qed.

Lemma after_last_is_Some c s : is_Some (after_last c s) ↔ str_has_char c s = true.
Proof.
  induction s as [|a s IH]; simpl; [split; [by intros [??]|done]|].
  rewrite orb_true_iff, bool_decide_eq_true.
  destruct (after_last c s) eqn:E; [naive_solver|].
  case_bool_decide; [naive_solver|]. split; [by intros [??]|].
  intros [|H']; [done|]. by apply IH in H' as [??].
Qed.

Lemma first_line_match_is_Some ls :
  is_Some (first_line_match ls) ↔ existsb (str_has_char dot) ls = true.
Proof.
  induction ls as [|l ls IH]; simpl; [split; [by intros [??]|done]|].
  rewrite orb_true_iff, <- IH, <- after_last_is_Some.
  destruct (after_last dot l); [naive_solver|]. split; [by right|].
  intros [[??]|]; done.
Qed.

Lemma ParseInstanceID_format region id :
  str_has_char newline region = false → str_has_char newline id = false →
  str_has_char dot id = false →
  ParseInstanceID (FormatProviderID region id) = Ok id.
Proof.
  intros Hr Hn Hd. unfold ParseInstanceID, FormatProviderID.
  change ("." +:+ id) with (String dot id).
  rewrite str_split_no_char.
  - simpl. by rewrite after_last_app.
  - rewrite str_has_char_app, Hr. simpl. by rewrite Hn.
Qed.

(** ** Properties *)

(** the instance ID parsed from the provider ID that the cloud
    provider writes on a NodeClaim is the ID of the instance, whatever dots the
    region may contain. *)
Theorem ParseInstanceID_roundtrip (region id : string)
    (Hregion : str_has_char newline region = false)
    (Hline : str_has_char newline id = false)
    (Hdot : str_has_char dot id = false) :
  ParseInstanceID (FormatProviderID region id) = Ok id.
Proof. by apply ParseInstanceID_format. Qed.

Lemma ParseInstanceID_roundtrip_witness :
  ParseInstanceID (FormatProviderID "cn-zhangjiakou" "i-8vb5") = Ok "i-8vb5".
Proof. apply ParseInstanceID_roundtrip; reflexivity. Defined.

(** parsing never panics and fails exactly on the strings without
    a dot. *)
Theorem ParseInstanceID_error_iff (s : string) :
  (∃ id, ParseInstanceID s = Ok id) ↔ str_has_char dot s = true.
Proof.
  rewrite <- (str_split_elem_char newline) by done.
  rewrite <- first_line_match_is_Some. unfold ParseInstanceID.
  destruct (first_line_match _); split; try (by intros [??]); by eexists.
Qed.
