(* ===== verification/Version.v ===== *)
(** * The Kubernetes version provider (pkg/providers/version)

    Reads the version of the API server, caches it, and warns when it is outside
    the tested range.  The comparison is that of the vendored
    k8s.io/apimachinery/pkg/util/version, on "generic" versions.  The API server
    is a parameter ([Discovery]). *)

From S2P Require Import Prelude Effects GoCache Scheduling.

Module version.

(** ** Generic versions (apimachinery, vendored) *)

Definition is_space (a : ascii) : bool :=
  bool_decide (a ∈ [" "; "009"; "010"; "012"; "013"])%char.
Fixpoint skip_spaces (s : string) : string :=
  match s with
  | String a s' => if is_space a then skip_spaces s' else s
  | EmptyString => s
  end.
Definition is_digit (a : ascii) : bool := if digit_of a then true else false.
Fixpoint span_digits (s : string) : string * string :=
  match s with
  | String a s' => if is_digit a then let '(d, r) := span_digits s' in (String a d, r) else ("", s)
  | EmptyString => ("", "")
  end.

(** Further components: a dot followed by at least one digit; [fuel] bounds the
    number of components by the length of the string. *)
Fixpoint more_components (fuel : nat) (s : string) : list string * string :=
  match fuel, s with
  | S fuel', String "." s' =>
      match span_digits s' with
      | ("", _) => ([], s)
      | (d, r) => let '(ds, r') := more_components fuel' r in (d :: ds, r')
      end
  | _, _ => ([], s)
  end.

(** [strconv.ParseUint] in base 10 at 64 bits. *)
Definition ParseUint (s : string) : option Z :=
  match parse_unsigned s with
  | Some n => if (n <? 2 ^ 64)%Z then Some n else None
  | None => None
  end.

Definition zero_prefixed (comp : string) : bool := has_prefix "0" comp && negb (bool_decide (comp = "0")).

(** [ParseGeneric]: the numeric components; what follows them is ignored but
    must not contain a line break. *)
Definition ParseGeneric (str : string) : result (list Z) :=
  let illegal := Err (ErrorString ("could not parse " +:+ str)) in
  let s := skip_spaces str in
  let s := match s with String "v" s' => s' | _ => s end in
  match span_digits s with
  | ("", _) => illegal
  | (d, r) =>
      let '(ds, rest) := more_components (String.length r) r in
      if str_has_char "010" rest then illegal
      else match ds with
           | [] => illegal
           | _ => if zero_prefixed d then illegal
                  else match mapM ParseUint (d :: ds) with
                       | Some l => Ok l
                       | None => illegal
                       end
           end
  end.

Definition MustParseGeneric (str : string) : result (list Z) :=
  match ParseGeneric str with Err _ => Panic | r => r end.

Definition onlyZeros (l : list Z) : bool := forallb (Z.eqb 0) l.

(** [compareInternal] of generic versions. *)
Fixpoint compareInternal (v other : list Z) : Z :=
  match v, other with
  | x :: v', y :: other' =>
      if (y <? x)%Z then 1%Z else if (x <? y)%Z then (-1)%Z else compareInternal v' other'
  | [], [] => 0%Z
  | v, [] => if onlyZeros v then 0%Z else 1%Z
  | [], other => if onlyZeros other then 0%Z else (-1)%Z
  end.
Definition LessThan (v other : list Z) : bool := (compareInternal v other =? -1)%Z.

(** ** pkg/providers/version/version.go *)

Definition kubernetesVersionCacheKey : string := "kubernetesVersion".
Definition MinK8sVersion : string := "1.28.9".
Definition MaxK8sVersion : string := "1.31.1".

(** The outer result is the panic of [MustParseGeneric]; the error is the value
    returned, which the caller only logs. *)
Definition validateK8sVersion (v : string) : result (option error) :=
  k8sVersion ← MustParseGeneric v;
  min ← MustParseGeneric MinK8sVersion;
  max ← MustParseGeneric MaxK8sVersion;
  Ok (if LessThan k8sVersion min || LessThan max k8sVersion
      then Some (ErrorString ("karpenter version is not compatible with K8s version "
                              +:+ String.concat "." (pretty <$> k8sVersion)))
      else None).

(** [Discovery().ServerVersion().String()]. *)
Class Discovery (W : Type) := ServerVersion : W → result string * W.
(** The hash of the version for the change monitor. *)
Class VersionHash := hash_version : string → string.

Record DefaultProvider := MkProvider { v_cache : cache string; v_cm : cache string }.
Definition NewDefaultProvider (ttl : Z) : DefaultProvider :=
  MkProvider (cache_new ttl) (cache_new (24 * Hour)).

Section get.
Context {W : Type} `{HC : !HasClock W} `{DI : !Discovery W} `{VH : !VersionHash}.

Definition Get_ : M (St DefaultProvider W) string :=
  p ← get_prov;
  t ← now;
  match cache_get t kubernetesVersionCacheKey (v_cache p) with
  | Some v => mret v
  | None =>
      v ← call ServerVersion;
      t ← now;
      let '(changed, cm) := HasChanged t "kubernetes-version" (hash_version v) (v_cm p) in
      _ ← set_prov (MkProvider (cache_set_default t kubernetesVersionCacheKey v (v_cache p)) cm);
      _ ← (if changed : bool then lift (validateK8sVersion v) else mret None);
      mret v
  end.
End get.

Example parse_examples :
  ParseGeneric "v1.30.1-aliyun.1" = Ok [1; 30; 1]%Z ∧ ParseGeneric " 1.31" = Ok [1; 31]%Z ∧
  ParseGeneric "1.2.x" = Ok [1; 2]%Z ∧
  (∃ e, ParseGeneric "v1" = Err e) ∧ (∃ e, ParseGeneric "01.2" = Err e).
Proof. split_and!; try reflexivity; eexists; reflexivity. Qed.

(** ** Properties *)

(** A version with three components, whatever follows them, is
    accepted exactly when it lies between 1.28.9 and 1.31.1 inclusive. *)
Theorem validateK8sVersion_range v a b c :
  ParseGeneric v = Ok [a; b; c]%Z →
  ∃ err, validateK8sVersion v = Ok err ∧
    (err = None ↔ (a = 1 ∧ (b = 28 ∧ 9 ≤ c ∨ 28 < b < 31 ∨ b = 31 ∧ c ≤ 1))%Z).
Proof.
  intros Hp. assert (MustParseGeneric v = Ok [a; b; c]) as Hm by (unfold MustParseGeneric; by rewrite Hp).
  unfold validateK8sVersion. rewrite Hm, result_Ok_bind.
  change (MustParseGeneric MinK8sVersion) with (Ok [1; 28; 9]%Z). rewrite result_Ok_bind.
  change (MustParseGeneric MaxK8sVersion) with (Ok [1; 31; 1]%Z). rewrite result_Ok_bind.
  eexists. split; [reflexivity|]. unfold LessThan. cbn [compareInternal].
  repeat match goal with |- context [(?x <? ?y)%Z] => destruct (Z.ltb_spec x y) end;
    cbn; (split; [intros Hn; try discriminate Hn; lia | intros; first [reflexivity | exfalso; lia]]).
Qed.

Lemma validateK8sVersion_range_witness :
  ∃ err, validateK8sVersion "v1.31.1-aliyun.1" = Ok err ∧
    (err = None ↔ (1 = 1 ∧ (31 = 28 ∧ 9 ≤ 1 ∨ 28 < 31 < 31 ∨ 31 = 31 ∧ 1 ≤ 1))%Z).
Proof. apply validateK8sVersion_range. reflexivity. Defined.

Lemma Get_cached_version {W} `{HC : !HasClock W} `{DI : !Discovery W} `{VH : !VersionHash} p (w : W) v :
  cache_get (clock w) kubernetesVersionCacheKey (v_cache p) = Some v →
  Get_ (MkSt p w) = (Ok v, MkSt p w).
Proof.
  intros H. unfold Get_. rewrite (M_Ok_bind _ _ _ p (MkSt p w)) by done.
  rewrite (M_Ok_bind now _ _ (clock w) (MkSt p w)) by done. by rewrite H.
Qed.

(** The version is read from the API server at most once per cache
    lifetime: after a read of a parseable version, [Get] answers it without a
    call until the entry expires. *)
Theorem Get_once {W} `{HC : !HasClock W} `{DI : !Discovery W} `{VH : !VersionHash}
    p (w w' : W) v parts :
  cache_get (clock w) kubernetesVersionCacheKey (v_cache p) = None →
  ServerVersion w = (Ok v, w') → ParseGeneric v = Ok parts →
  (0 ≤ clock w')%Z → (0 < defaultExpiration (v_cache p))%Z →
  ∃ p', Get_ (MkSt p w) = (Ok v, MkSt p' w') ∧
    ∀ w2, (clock w' ≤ clock w2 ≤ clock w' + defaultExpiration (v_cache p))%Z →
      Get_ (MkSt p' w2) = (Ok v, MkSt p' w2).
Proof.
  intros Hmiss Hcall Hparse Hclock Hd.
  assert (∃ err, validateK8sVersion v = Ok err) as [err Hval].
  { assert (MustParseGeneric v = Ok parts) as Hm by (unfold MustParseGeneric; by rewrite Hparse).
    unfold validateK8sVersion. rewrite Hm. by eexists. }
  eexists (MkProvider (cache_set_default (clock w') kubernetesVersionCacheKey v (v_cache p))
    (HasChanged (clock w') "kubernetes-version" (hash_version v) (v_cm p)).2). split.
  - unfold Get_. rewrite (M_Ok_bind _ _ _ p (MkSt p w)) by done.
    rewrite (M_Ok_bind now _ _ (clock w) (MkSt p w)), Hmiss by done.
    rewrite (M_Ok_bind _ _ _ _ _ (call_run _ p w _ w' Hcall)).
    rewrite (M_Ok_bind now _ _ (clock w') (MkSt p w')) by done.
    destruct (HasChanged _ _ _ _) as [[] cm]; unfold mbind, M_bind; cbn; [by rewrite Hval | done].
  - intros w2 Hw2. apply Get_cached_version. cbn [v_cache]. rewrite cache_get_set_default_eq by done.
    by rewrite (proj2 (Z.ltb_ge _ _)) by lia.
Qed.

End version.

(** ** A concrete API server *)

Module VersionExample.
Import version.
#[global] Instance version_clock : HasClock Z := id.
#[global] Instance version_server : Discovery Z := λ w, (Ok "v1.30.1-aliyun.1", (w + 5)%Z).
#[global] Instance version_hash : VersionHash := id.
Lemma Get_once_witness :
  ∃ p', Get_ (MkSt (NewDefaultProvider (15 * Minute)) Second)
    = (Ok "v1.30.1-aliyun.1", MkSt p' (Second + 5)%Z).
Proof.
  destruct (Get_once (NewDefaultProvider (15 * Minute)) Second (Second + 5)%Z "v1.30.1-aliyun.1" [1; 30; 1]%Z)
    as (p' & H & _); [reflexivity | reflexivity | reflexivity | vm_compute; discriminate | vm_compute; reflexivity |].
  exists p'. exact H.
Defined.
End VersionExample.
