(* ===== verification/Pricing.v ===== *)
(** * The pricing provider (pkg/providers/pricing)

    On-demand prices per instance type and spot prices per instance type and
    zone, refreshed from a price server and initialised from a static list
    embedded in the binary.  The price server and the static list are
    parameters. *)

From S2P Require Import Prelude Effects Floats.

Definition defaultRegion : string := "cn-qingdao".

Record zonal := MkZonal { defaultPrice : price; zprices : gmap string price }.

Definition zero_price : price := Price (float64_of_Z 0) eq_refl.
Definition newZonalPricing (p : price) : zonal := MkZonal p ∅.

Record PricingProvider := MkPricing {
  pr_region : string;
  priceLastUpdatedTimestamp : option Z;  (** [None] is the zero time *)
  onDemandPrices : gmap string price;
  spotPrices : gmap string zonal;
  spotPricingUpdated : bool;
}.

(** What the price server answers for a region ([priceserver/pkg/apis]); the
    entries of its map are not nil. *)
Record InstanceTypePrice := MkITPrice {
  OnDemandPricePerHour : price;
  SpotPricePerHour : gmap string price;
}.

(** [tools.QueryClientInterface]. *)
Class PriceServer (W : Type) := {
  price_Sync : W → result () * W;
  price_ListInstancesDetails : string → W → option (gmap string InstanceTypePrice);
}.

(** ** Queries *)

Definition OnDemandPrice (p : PricingProvider) (instanceType : string) : option price :=
  onDemandPrices p !! instanceType.

Definition SpotPrice (p : PricingProvider) (instanceType zone : string) : option price :=
  match spotPrices p !! instanceType with
  | Some val =>
      if negb (spotPricingUpdated p) then Some (defaultPrice val)
      else zprices val !! zone
  | None => None
  end.

(** [InstanceTypes]: [lo.Union] of the two key sets. *)
Definition InstanceTypes {RT : GoRuntime} (p : PricingProvider) : list string :=
  lo_uniq (map_keys 0 (onDemandPrices p) ++ map_keys 1 (spotPrices p)).

(** ** Initialisation *)

Definition populateInitialSpotPricing (pricing : gmap string price) : gmap string zonal :=
  newZonalPricing <$> pricing.

Definition Reset (initialOnDemandPrices : gmap string (gmap string price)) (p : PricingProvider)
    : PricingProvider :=
  let staticPricing := match initialOnDemandPrices !! pr_region p with
                       | Some s => s
                       | None => default ∅ (initialOnDemandPrices !! defaultRegion)
                       end in
  MkPricing (pr_region p) (priceLastUpdatedTimestamp p) staticPricing
    (populateInitialSpotPricing staticPricing) false.

Definition NewDefaultProvider (initialOnDemandPrices : gmap string (gmap string price))
    (region : string) : PricingProvider :=
  Reset initialOnDemandPrices (MkPricing region None ∅ ∅ false).

(** ** Updates *)

Definition set_timestamp (t : Z) (p : PricingProvider) : PricingProvider :=
  MkPricing (pr_region p) (Some t) (onDemandPrices p) (spotPrices p) (spotPricingUpdated p).
Definition set_onDemandPrices (m : gmap string price) (p : PricingProvider) : PricingProvider :=
  MkPricing (pr_region p) (priceLastUpdatedTimestamp p) m (spotPrices p) (spotPricingUpdated p).
Definition set_spotPrices (m : gmap string zonal) (p : PricingProvider) : PricingProvider :=
  MkPricing (pr_region p) (priceLastUpdatedTimestamp p) (onDemandPrices p) m true.

(** The two nested loops of [UpdateSpotPricing]: an instance type not yet known
    gets an empty entry, then the received zone prices overwrite its old ones. *)
Definition update_zonal (old : option zonal) (info : option InstanceTypePrice) : option zonal :=
  match info with
  | None => old
  | Some i => let z := default (newZonalPricing zero_price) old in
              Some (MkZonal (defaultPrice z) (lo_assign (zprices z) (SpotPricePerHour i)))
  end.

Section updates.
Context {W : Type} `{HC : !HasClock W} `{PS : !PriceServer W}.

Definition sync_due (last : option Z) (now : Z) : bool :=
  match last with
  | None => true
  | Some t => (t + 5 * Minute <? now)%Z
  end.

Definition syncPricingData : M (St PricingProvider W) () :=
  p ← get_prov;
  t ← now;
  if sync_due (priceLastUpdatedTimestamp p) t then
    _ ← call price_Sync;
    t' ← now;
    set_prov (set_timestamp t' p)
  else mret ().

Definition listDetails : M (St PricingProvider W) (gmap string InstanceTypePrice) := λ s,
  match price_ListInstancesDetails (pr_region (prov s)) (env s) with
  | Some m => if bool_decide (m = ∅)
              then (Err (ErrorString ("no price info available for region " +:+ pr_region (prov s))), s)
              else (Ok m, s)
  | None => (Err (ErrorString ("no price info available for region " +:+ pr_region (prov s))), s)
  end.

Definition UpdateOnDemandPricing : M (St PricingProvider W) () :=
  _ ← syncPricingData;
  prices ← listDetails;
  p ← get_prov;
  set_prov (set_onDemandPrices (OnDemandPricePerHour <$> prices) p).

Definition UpdateSpotPricing : M (St PricingProvider W) () :=
  _ ← syncPricingData;
  prices ← listDetails;
  p ← get_prov;
  set_prov (set_spotPrices (merge update_zonal (spotPrices p) prices) p).

(** ** Lemmas *)

(** Refreshing the client touches the time stamp only. *)
Definition same_prices (p p' : PricingProvider) : Prop :=
  pr_region p' = pr_region p ∧ onDemandPrices p' = onDemandPrices p ∧
  spotPrices p' = spotPrices p ∧ spotPricingUpdated p' = spotPricingUpdated p.

Lemma syncPricingData_same s r s' :
  syncPricingData s = (r, s') → same_prices (prov s) (prov s').
Proof.
  unfold syncPricingData, same_prices. mrun. destruct (sync_due _ _).
  - unfold call. destruct (price_Sync (env s)) as [[]?]; mrun; by intros [= <- <-].
  - by intros [= <- <-].
Qed.

Lemma listDetails_spec s r s' :
  listDetails s = (r, s') → s' = s ∧
  match r with
  | Ok m => price_ListInstancesDetails (pr_region (prov s)) (env s) = Some m ∧ m ≠ ∅
  | Err _ => True
  | Panic => False
  end.
Proof.
  unfold listDetails. destruct (price_ListInstancesDetails _ _) as [m|].
  - case_bool_decide; by intros [= <- <-].
  - by intros [= <- <-].
Qed.

Lemma lookup_update_zonal (m : gmap string zonal) (prices : gmap string InstanceTypePrice) k :
  merge update_zonal m prices !! k = update_zonal (m !! k) (prices !! k).
Proof. rewrite lookup_merge. by destruct (m !! k), (prices !! k). Qed.

(** An update is [syncPricingData], then [listDetails], then one assignment. *)
Lemma update_cases (f : gmap string InstanceTypePrice → PricingProvider → PricingProvider) s r s' :
  (_ ← syncPricingData; prices ← listDetails; p ← get_prov; set_prov (f prices p)) s = (r, s') →
  match r with
  | Ok _ => ∃ prices p1, same_prices (prov s) p1 ∧
      price_ListInstancesDetails (pr_region (prov s)) (env s') = Some prices ∧
      prices ≠ ∅ ∧ prov s' = f prices p1
  | _ => same_prices (prov s) (prov s')
  end.
Proof.
  mrun. destruct (syncPricingData s) as [r1 s1] eqn:H1.
  apply syncPricingData_same in H1. destruct r1; [|by intros [= <- <-]..].
  destruct (listDetails s1) as [r2 s2] eqn:H2. apply listDetails_spec in H2 as [-> H2].
  destruct r2 as [m| |]; [|by intros [= <- <-]..].
  intros [= <- <-]. simpl. destruct H1 as (Hr & Hrest). rewrite Hr in H2.
  exists m, (prov s1). by destruct H2.
Qed.

(** ** Properties *)

(** a successful on-demand update makes [OnDemandPrice] answer
    exactly what the price server listed for the region, and leaves the spot
    prices alone. *)
Theorem UpdateOnDemandPricing_functional (s s' : St PricingProvider W)
    (Hok : UpdateOnDemandPricing s = (Ok (), s')) :
  ∃ prices, price_ListInstancesDetails (pr_region (prov s)) (env s') = Some prices ∧
    (∀ it, OnDemandPrice (prov s') it = OnDemandPricePerHour <$> prices !! it) ∧
    (∀ it zone, SpotPrice (prov s') it zone = SpotPrice (prov s) it zone).
Proof.
  apply (update_cases (λ prices p, set_onDemandPrices (OnDemandPricePerHour <$> prices) p))
    in Hok as (m & p1 & (_ & _ & Hs & Hu) & Hm & _ & Hp).
  exists m. rewrite Hp. split; [done|]. split.
  - intros it. unfold OnDemandPrice; simpl. by rewrite lookup_fmap.
  - intros it zone. unfold SpotPrice; simpl. by rewrite Hs, Hu.
Qed.

(** after a successful spot update, every price the server listed
    is answered for its zone, and a zone the server did not list keeps the
    last price known for it, if any. *)
Theorem UpdateSpotPricing_functional (s s' : St PricingProvider W)
    (Hok : UpdateSpotPricing s = (Ok (), s')) :
  ∃ prices, price_ListInstancesDetails (pr_region (prov s)) (env s') = Some prices ∧
    ∀ it zone, SpotPrice (prov s') it zone =
      match (prices !! it) ≫= (λ i, SpotPricePerHour i !! zone) with
      | Some new => Some new
      | None => spotPrices (prov s) !! it ≫= (λ z, zprices z !! zone)
      end.
Proof.
  apply (update_cases (λ prices p, set_spotPrices (merge update_zonal (spotPrices p) prices) p))
    in Hok as (m & p1 & (_ & _ & Hs & _) & Hm & _ & Hp).
  exists m. rewrite Hp. split; [done|].
  intros it zone. unfold SpotPrice; simpl. rewrite lookup_update_zonal, Hs.
  destruct (m !! it) as [i|]; simpl.
  - rewrite lookup_lo_assign. destruct (SpotPricePerHour i !! zone); [done|].
    by destruct (spotPrices (prov s) !! it).
  - by destruct (spotPrices (prov s) !! it).
Qed.

(** a failed update, on-demand or spot, retains every known price
    (the provider's documented behaviour). *)
Theorem failed_update_retains_prices (spot : bool) (s s' : St PricingProvider W) (e : error)
    (Herr : (if spot then UpdateSpotPricing else UpdateOnDemandPricing) s = (Err e, s')) :
  (∀ it, OnDemandPrice (prov s') it = OnDemandPrice (prov s) it) ∧
  (∀ it zone, SpotPrice (prov s') it zone = SpotPrice (prov s) it zone).
Proof.
  assert (same_prices (prov s) (prov s')) as (_ & Ho & Hs & Hu).
  { destruct spot;
      [apply (update_cases (λ prices p,
         set_spotPrices (merge update_zonal (spotPrices p) prices) p)) in Herr
      |apply (update_cases (λ prices p,
         set_onDemandPrices (OnDemandPricePerHour <$> prices) p)) in Herr]; done. }
  unfold OnDemandPrice, SpotPrice. rewrite Ho, Hs, Hu. done.
Qed.
End updates.

(** until the first spot update, the spot price of every instance
    type is its static on-demand price, in every zone. *)
Theorem initial_spot_is_on_demand (initial : gmap string (gmap string price)) (region it zone : string) :
  SpotPrice (NewDefaultProvider initial region) it zone =
  OnDemandPrice (NewDefaultProvider initial region) it.
Proof.
  unfold SpotPrice, OnDemandPrice, NewDefaultProvider, Reset, populateInitialSpotPricing; simpl.
  rewrite lookup_fmap. by destruct (_ !! it).
Qed.

(** ** A concrete price server for the witnesses *)

Module PricingExample.
Definition cents (n : Z) : float64 := decimal n 100.
Definition p12 : price := Price (cents 12) eq_refl.
Definition p34 : price := Price (cents 34) eq_refl.

(** The environment: the clock, and whether the server answers. *)
Definition world : Type := Z * bool.
#[global] Instance world_clock : HasClock world := λ w, w.1.
Definition listed : gmap string InstanceTypePrice :=
  {["ecs.g6.large" := MkITPrice p34 {["cn-beijing-a" := p12]}]}.
#[global] Instance world_prices : PriceServer world := {|
  price_Sync := λ w : world, (if w.2 then Ok () else Err (ErrorString "unreachable"), w);
  price_ListInstancesDetails := λ _ _, Some listed;
|}.
Definition initial : gmap string (gmap string price) :=
  {["cn-beijing" := {["ecs.g6.large" := p12; "ecs.g7.large" := p34]}]}.
Definition start (up : bool) : St PricingProvider world :=
  MkSt (NewDefaultProvider initial "cn-beijing") (7, up)%Z.
End PricingExample.

Lemma UpdateOnDemandPricing_functional_witness :
  ∃ prices, price_ListInstancesDetails (W := PricingExample.world) "cn-beijing" (7%Z, true) = Some prices ∧
    ∀ it, OnDemandPrice (prov (UpdateOnDemandPricing (PricingExample.start true)).2) it =
          OnDemandPricePerHour <$> prices !! it.
Proof.
  destruct (UpdateOnDemandPricing_functional (PricingExample.start true)
    (UpdateOnDemandPricing (PricingExample.start true)).2) as (prices & H1 & H2 & _);
    [vm_compute; reflexivity|].
  exists prices. split; [exact H1 | exact H2].
Defined.

Lemma UpdateSpotPricing_functional_witness :
  ∃ prices, price_ListInstancesDetails (W := PricingExample.world) "cn-beijing" (7%Z, true) = Some prices.
Proof.
  destruct (UpdateSpotPricing_functional (PricingExample.start true)
    (UpdateSpotPricing (PricingExample.start true)).2) as (prices & H1 & _);
    [vm_compute; reflexivity|].
  exists prices. exact H1.
Defined.

Lemma failed_update_retains_prices_witness :
  OnDemandPrice (prov (UpdateOnDemandPricing (PricingExample.start false)).2) "ecs.g7.large" =
  Some PricingExample.p34.
Proof.
  destruct (failed_update_retains_prices false (PricingExample.start false)
    (UpdateOnDemandPricing (PricingExample.start false)).2 (ErrorString "unreachable")) as [H _];
    [vm_compute; reflexivity|].
  rewrite H. reflexivity.
Defined.
