(* ===== verification/PriceTable.v ===== *)
(** * The price table: its generator, and JSON

    hack/tools/price_gen asks the price server for the on-demand prices of every
    region and writes them, as JSON, into the file that is embedded in the binary;
    the pricing provider starts from it ([pkg/utils/object.JSONUnmarshal]).  The
    part of encoding/json used is modelled on bytes, but for the decimal form of a
    float, which is strconv's. *)

From S2P Require Import Prelude Effects Floats GoText GoFormat Pricing.

(** ** encoding/json: strings *)

Module json.

Notation quote := ("034"%char).
Notation backslash := ("092"%char).
Notation newline := ("010"%char).
Definition byte (a : ascii) : N := N_of_ascii a.
Definition between (lo hi : N) (a : ascii) : bool := (lo <=? byte a)%N && (byte a <=? hi)%N.
Definition hex : string := "0123456789abcdef".
Definition hex_digit (n : N) : ascii := default "0"%char (String.get (N.to_nat n) hex).

(** unicode/utf8: the first rune and its size; [None] is [RuneError] of size 1. *)
Definition continuation (a : ascii) : N := (byte a - 128)%N.
Definition DecodeRune (s : string) : option (N * nat) :=
  match s with
  | String a s1 =>
      if between 0 127 a then Some (byte a, 1)
      else match s1 with
      | String b s2 =>
          if between 194 223 a && between 128 191 b
          then Some (((byte a - 192) * 64 + continuation b)%N, 2)
          else match s2 with
          | String c s3 =>
              if between 224 239 a && between (if byte a =? 224 then 160 else 128)%N (if byte a =? 237 then 159 else 191)%N b
                 && between 128 191 c
              then Some (((byte a - 224) * 4096 + continuation b * 64 + continuation c)%N, 3)
              else match s3 with
              | String d _ =>
                  if between 240 244 a && between (if byte a =? 240 then 144 else 128)%N (if byte a =? 244 then 143 else 191)%N b
                     && between 128 191 c && between 128 191 d
                  then Some (((byte a - 240) * 262144 + continuation b * 4096 + continuation c * 64 + continuation d)%N, 4)
                  else None
              | EmptyString => None
              end
          | EmptyString => None
          end
      | EmptyString => None
      end
  | EmptyString => None
  end.

Definition chars (l : list N) : string := foldr (λ n, String (ascii_of_N n)) "" l.
Definition RuneError : string := chars [239; 191; 189]%N.
(** [utf8.EncodeRune]: surrogates and what is out of range become [RuneError]. *)
Definition EncodeRune (r : N) : string :=
  if (r <? 128)%N then chars [r]
  else if (r <? 2048)%N then chars [192 + r / 64; 128 + r mod 64]%N
  else if (55296 <=? r)%N && (r <=? 57343)%N then RuneError
  else if (r <? 65536)%N then chars [224 + r / 4096; 128 + (r / 64) mod 64; 128 + r mod 64]%N
  else if (r <=? 1114111)%N
       then chars [240 + r / 262144; 128 + (r / 4096) mod 64; 128 + (r / 64) mod 64; 128 + r mod 64]%N
  else RuneError.

(** *** Encoding (with HTML escaping, as [Marshal] does) *)

Definition htmlSafe (a : ascii) : bool :=
  between 32 127 a && negb (bool_decide (byte a ∈ [34; 38; 60; 62; 92]%N)).
Definition escape (a : ascii) : string :=
  if htmlSafe a then String a ""
  else if bool_decide (a = quote) || bool_decide (a = backslash) then String backslash (String a "")
  else if bool_decide (byte a = 8%N) then "\b"
  else if bool_decide (byte a = 12%N) then "\f"
  else if bool_decide (byte a = 10%N) then "\n"
  else if bool_decide (byte a = 13%N) then "\r"
  else if bool_decide (byte a = 9%N) then "\t"
  else "\u00" +:+ String (hex_digit (byte a / 16)) (String (hex_digit (byte a mod 16)) "").

(** A round takes a rune, so there are at most as many as bytes. *)
Fixpoint append_string (fuel : nat) (s : string) : string :=
  match fuel, s with
  | S fuel', String a s' =>
      if between 0 127 a then escape a +:+ append_string fuel' s'
      else match DecodeRune s with
      | None => "\ufffd" +:+ append_string fuel' s'
      | Some (r, size) =>
          (if bool_decide (r ∈ [8232; 8233]%N) then "\u202" +:+ String (hex_digit (r mod 16)) ""
           else str_take size s) +:+ append_string fuel' (str_drop size s)
      end
  | _, _ => ""
  end.
Definition appendString (s : string) : string :=
  String quote (append_string (String.length s) s +:+ String quote "").

(** *** Decoding *)

Definition hex_value (a : ascii) : option N :=
  if between 48 57 a then Some (byte a - 48)%N
  else if between 97 102 a then Some (byte a - 87)%N
  else if between 65 70 a then Some (byte a - 55)%N
  else None.
(** [getu4], after the backslash and the u. *)
Definition getu4 (s : string) : option (N * string) :=
  match s with
  | String a (String b (String c (String d r))) =>
      x ← hex_value a; y ← hex_value b; z ← hex_value c; w ← hex_value d;
      Some ((x * 4096 + y * 256 + z * 16 + w)%N, r)
  | _ => None
  end.
Definition surrogate (r : N) : bool := (55296 <=? r)%N && (r <=? 57343)%N.
(** A surrogate with the one that follows it, if they are a pair; else the
    first alone is [RuneError]. *)
Definition paired (r : N) (rest : string) : string * string :=
  match rest with
  | String b (String u s) =>
      if bool_decide (b = backslash) && bool_decide (u = "u"%char) then
        match getu4 s with
        | Some (r2, rest') =>
            if (r <? 56320)%N && (56320 <=? r2)%N && (r2 <=? 57343)%N
            then (EncodeRune ((r - 55296) * 1024 + (r2 - 56320) + 65536)%N, rest')
            else (RuneError, rest)
        | None => (RuneError, rest)
        end
      else (RuneError, rest)
  | _ => (RuneError, rest)
  end.
Definition unescape (s : string) : option (string * string) :=
  match s with
  | String a r =>
      if bool_decide (a ∈ [quote; backslash; "/"%char]) then Some (String a "", r)
      else if bool_decide (a = "b"%char) then Some (chars [8%N], r)
      else if bool_decide (a = "f"%char) then Some (chars [12%N], r)
      else if bool_decide (a = "n"%char) then Some (chars [10%N], r)
      else if bool_decide (a = "r"%char) then Some (chars [13%N], r)
      else if bool_decide (a = "t"%char) then Some (chars [9%N], r)
      else if bool_decide (a = "u"%char) then
        '(c, rest) ← getu4 r;
        Some (if surrogate c then paired c rest else (EncodeRune c, rest))
      else None
  | EmptyString => None
  end.
(** The text after the opening quote: the string and what follows the closing
    quote. *)
Fixpoint unquote (fuel : nat) (s : string) : option (string * string) :=
  match fuel, s with
  | S fuel', String a s' =>
      if bool_decide (a = quote) then Some ("", s')
      else if bool_decide (a = backslash) then
        '(c, rest) ← unescape s';
        '(t, r) ← unquote fuel' rest;
        Some (c +:+ t, r)
      else if between 0 31 a then None
      else
        let '(c, rest) := match DecodeRune s with
                          | Some (_, size) => (str_take size s, str_drop size s)
                          | None => (RuneError, s')
                          end in
        '(t, r) ← unquote fuel' rest;
        Some (c +:+ t, r)
  | _, _ => None
  end.

(** *** Values *)

Definition is_ws (a : ascii) : bool := bool_decide (byte a ∈ [32; 9; 13; 10]%N).
Definition skip_ws (s : string) : string := (span is_ws s).2.
Definition number_char (a : ascii) : bool :=
  between 48 57 a || bool_decide (a ∈ ["-"; "+"; "."; "e"; "E"]%char).

(** The decimal form of a finite float, shortest such that it reads back as the
    same float, and its reading, [None] for what is not a number of JSON or out
    of range ([floatEncoder], [convertNumber], strconv). *)
Definition finite (f : float64) : bool := match f with SpecFloat.S754_infinity _ | SpecFloat.S754_nan => false | _ => true end.
Class Numbers := {
  FormatNumber : price → string;
  ParseNumber : string → option price;
  number_chars : ∀ p : price, finite p = true → FormatNumber p ≠ "" ∧ all_chars number_char (FormatNumber p) = true;
  Parse_Format : ∀ p : price, finite p = true → ParseNumber (FormatNumber p) = Some p;
}.

Section values.
Context {RT : GoRuntime} `{NU : !Numbers}.

(** *** [MarshalIndent] with four spaces *)

Fixpoint spaces (n : nat) : string := match n with O => "" | S n' => String " " (spaces n') end.
Definition line (depth : nat) : string := String newline (spaces (4 * depth)).
Fixpoint join (sep : string) (l : list string) : string :=
  match l with
  | [] => ""
  | [x] => x
  | x :: l' => x +:+ sep +:+ join sep l'
  end.
Definition member (kv : string * string) : string := appendString kv.1 +:+ ": " +:+ kv.2.
Definition encode_object (depth : nat) (members : list (string * string)) : string :=
  match members with
  | [] => "{}"
  | _ => "{" +:+ line (S depth) +:+ join ("," +:+ line (S depth)) (member <$> members) +:+ line depth +:+ "}"
  end.
(** A map is written by the order of its keys. *)
Definition key_less {A} (x y : string * A) : bool := str_ltb x.1 y.1.
Definition encode_map {A} (site depth : nat) (value : A → option string) (m : gmap string A) : option string :=
  encode_object depth <$> mapM (λ kv, (λ t, (kv.1, t)) <$> value kv.2) (sort_slice key_less (range_map site m)).
Definition encode_number (p : price) : option string := if finite p then Some (FormatNumber p) else None.
Definition MarshalIndent (m : gmap string (gmap string price)) : option string :=
  encode_map 60 0 (encode_map 61 1 encode_number) m.

(** *** [Unmarshal] into the same type

    A value of another type is an error, as is what is not JSON; null leaves the
    zero value. *)
Definition null {A} (zero : A) (value : string → option (A * string)) (s : string) : option (A * string) :=
  match s with
  | String "n" (String "u" (String "l" (String "l" r))) => Some (zero, r)
  | _ => value s
  end.
Definition decode_number (s : string) : option (price * string) :=
  let '(t, r) := span number_char s in p ← ParseNumber t; Some (p, r).

Fixpoint members {A} (value : string → option (A * string)) (fuel : nat) (m : gmap string A) (s : string)
    : option (gmap string A * string) :=
  match fuel, skip_ws s with
  | S fuel', String q s1 =>
      if bool_decide (q = quote) then
        '(k, s2) ← unquote (String.length s1) s1;
        match skip_ws s2 with
        | String ":" s3 =>
            '(v, s4) ← value (skip_ws s3);
            match skip_ws s4 with
            | String "," s5 => members value fuel' (<[k := v]> m) s5
            | String "}" s5 => Some (<[k := v]> m, s5)
            | _ => None
            end
        | _ => None
        end
      else None
  | _, _ => None
  end.
Definition decode_map {A} (value : string → option (A * string)) (s : string) : option (gmap string A * string) :=
  match s with
  | String "{" s1 =>
      match skip_ws s1 with
      | String "}" r => Some (∅, r)
      | _ => members value (String.length s1) ∅ s1
      end
  | _ => None
  end.
Definition Unmarshal (s : string) : option (gmap string (gmap string price)) :=
  '(m, r) ← null ∅ (decode_map (null ∅ (decode_map (null zero_price decode_number)))) (skip_ws s);
  if bool_decide (skip_ws r = "") then Some m else None.
End values.

(** ** What is written reads back *)

Definition is_ascii (s : string) : bool := all_chars (between 0 127) s.

Lemma substring_all s : String.substring 0 (String.length s) s = s.
Proof. induction s as [|a s IH]; [done|]. cbn. by rewrite IH. Qed.
Lemma str_drop_1 a s : str_drop 1 (String a s) = s.
Proof. unfold str_drop. cbn. rewrite Nat.sub_0_r. apply substring_all. Qed.
Lemma str_take_1 a s : str_take 1 (String a s) = String a "".
Proof. by destruct s. Qed.

Lemma DecodeRune_ascii a s : between 0 127 a = true → DecodeRune (String a s) = Some (byte a, 1).
Proof. intros Ha. cbn. by rewrite Ha. Qed.

(** Reading one byte that was written. *)
Lemma unquote_escape a fuel r :
  between 0 127 a = true →
  unquote (S fuel) (escape a +:+ r) = '(t, r') ← unquote fuel r; Some (String a t, r').
Proof.
  intros Ha. destruct (htmlSafe a) eqn:Hs.
  - unfold escape. rewrite Hs, str_cons_app, str_nil_app.
    assert (a ≠ quote ∧ a ≠ backslash ∧ between 0 31 a = false) as (Hq & Hb & Hc).
    { clear -Hs. split_and!; [intros ->; discriminate Hs..|]. unfold htmlSafe, between in *.
      apply andb_true_iff in Hs as [[Hs _]%andb_true_iff _]. apply N.leb_le in Hs.
      rewrite (proj2 (N.leb_gt (byte a) 31)) by lia. by rewrite andb_false_r. }
    cbn [unquote]. rewrite (bool_decide_false _ Hq), (bool_decide_false _ Hb), Hc.
    rewrite (DecodeRune_ascii _ _ Ha), str_drop_1, str_take_1. by destruct (unquote fuel r) as [[]|].
  - cbn [unquote]. generalize (unquote fuel) as u. intros u.
    destruct a as [[] [] [] [] [] [] [] []]; try discriminate Hs; try discriminate Ha; clear;
      vm_compute; by destruct (u r) as [[]|].
Qed.


Lemma escape_length a : 1 ≤ String.length (escape a).
Proof. unfold escape. repeat case_match; rewrite ?str_length_app; cbn; lia. Qed.

Lemma unquote_append s n fuel r :
  is_ascii s = true → String.length s ≤ n → String.length (append_string n s) < fuel →
  unquote fuel (append_string n s +:+ String quote r) = Some (s, r).
Proof.
  revert n fuel. induction s as [|a s IH]; intros n fuel Hs Hn Hf.
  - destruct n; cbn in Hf |- *; (destruct fuel; [lia|done]).
  - unfold is_ascii in Hs. cbn [all_chars] in Hs. apply andb_true_iff in Hs as [Ha Hs]. cbn in Hn.
    destruct n as [|n]; [lia|]. cbn [append_string] in Hf |- *. rewrite Ha in Hf |- *.
    rewrite str_length_app in Hf. pose proof (escape_length a). destruct fuel as [|fuel]; [lia|].
    rewrite str_app_assoc, unquote_escape, IH by (done || lia). done.
Qed.
Lemma unquote_appendString s r :
  is_ascii s = true → ∃ u, appendString s +:+ r = String quote u ∧ unquote (String.length u) u = Some (s, r).
Proof.
  intros Hs. eexists. split; [unfold appendString; rewrite str_cons_app; reflexivity|].
  rewrite str_app_assoc, str_cons_app, str_nil_app. apply unquote_append; [done|done|].
  rewrite str_length_app. cbn. lia.
Qed.

Lemma skip_ws_app u s : all_chars is_ws u = true → starts_with is_ws s = false → skip_ws (u +:+ s) = s.
Proof. intros Hu Hs. unfold skip_ws. by rewrite (span_app _ _ _ Hu Hs). Qed.
Lemma skip_ws_none s : starts_with is_ws s = false → skip_ws s = s.
Proof. intros Hs. rewrite <- (skip_ws_app "" s) at 2 by done. done. Qed.
Lemma line_ws depth : all_chars is_ws (line depth) = true.
Proof. unfold line. cbn [all_chars]. generalize (4 * depth) as n. induction n as [|n IH]; [done|]. exact IH. Qed.

(** A text that stands for a value, wherever it ends. *)
Definition reads {A} (dec : string → option (A * string)) (t : string) (v : A) : Prop :=
  t ≠ "" ∧ starts_with is_ws t = false ∧ ∀ r, starts_with number_char r = false → dec (t +:+ r) = Some (v, r).

Section roundtrip.
Context {A : Type} (dec : string → option (A * string)).
Notation entry := (string * string * A)%type.
Definition entry_ok (x : entry) : Prop := is_ascii x.1.1 = true ∧ reads dec x.1.2 x.2.

(** One member, with what comes before and after it. *)
Lemma members_member x fuel m u r :
  entry_ok x → all_chars is_ws u = true → starts_with number_char r = false →
  members dec (S fuel) m (u +:+ member x.1 +:+ r) =
  match skip_ws r with
  | String "," s5 => members dec fuel (<[x.1.1 := x.2]> m) s5
  | String "}" s5 => Some (<[x.1.1 := x.2]> m, s5)
  | _ => None
  end.
Proof.
  destruct x as [[k t] v]. intros [Hk (Ht & Hws & Hdec)] Hu Hr. unfold member. cbn [fst snd] in *.
  rewrite !str_app_assoc. destruct (unquote_appendString k (": " +:+ t +:+ r) Hk) as (w & -> & Hw).
  cbn [members]. rewrite skip_ws_app by done. rewrite bool_decide_true by done. rewrite Hw. cbn [mbind option_bind].
  rewrite (skip_ws_none (": " +:+ t +:+ r)) by done.
  change (": " +:+ t +:+ r) with (String ":" (" " +:+ t +:+ r)). cbv match.
  rewrite (skip_ws_app " "), Hdec by (done || (rewrite starts_with_app; by rewrite bool_decide_false)). done.
Qed.

Lemma members_join depth l fuel m u r :
  l ≠ [] → Forall entry_ok l → length l ≤ fuel → all_chars is_ws u = true →
  members dec fuel m (u +:+ join ("," +:+ line (S depth)) (member <$> l.*1) +:+ line depth +:+ "}" +:+ r) =
  Some (foldl (λ m x, <[x.1.1 := x.2]> m) m l, r).
Proof.
  revert fuel m u. induction l as [|x l IH]; intros fuel m u Hne Hok Hf Hu; [done|].
  apply Forall_cons in Hok as [Hx Hok]. cbn [length] in Hf. destruct fuel as [|fuel]; [lia|].
  destruct l as [|y l].
  - cbn [fmap list_fmap join]. rewrite members_member by done.
    by rewrite (skip_ws_app (line depth)) by (apply line_ws || done).
  - change (join ("," +:+ line (S depth)) (member <$> (x :: y :: l).*1))
      with (member x.1 +:+ ("," +:+ line (S depth)) +:+ join ("," +:+ line (S depth)) (member <$> (y :: l).*1)).
    rewrite str_app_assoc, members_member by done. rewrite skip_ws_none by done.
    rewrite !str_app_assoc. cbn [length] in Hf.
    apply (IH fuel (<[x.1.1:=x.2]> m) (line (S depth))); [done|done|cbn [length]; lia|apply line_ws].
Qed.

(** A whole object. *)
Lemma member_length x : 1 ≤ String.length (member x).
Proof. unfold member, appendString. rewrite str_cons_app. cbn [String.length]. lia. Qed.
Lemma join_length sep l : length l ≤ String.length (join sep (member <$> l)).
Proof.
  induction l as [|x l IH]; [done|]. destruct l as [|y l].
  - exact (member_length x).
  - change (join sep (member <$> x :: y :: l)) with (member x +:+ sep +:+ join sep (member <$> y :: l)).
    rewrite !str_length_app. pose proof (member_length x). cbn [length] in *. lia.
Qed.
Lemma decode_encode_object depth l r :
  Forall entry_ok l →
  decode_map dec (encode_object depth l.*1 +:+ r) = Some (foldl (λ m x, <[x.1.1 := x.2]> m) ∅ l, r).
Proof.
  intros Hok. destruct l as [|x l]; [done|]. set (xs := x :: l) in *.
  assert (encode_object depth xs.*1 = "{" +:+ line (S depth) +:+ join ("," +:+ line (S depth)) (member <$> xs.*1) +:+ line depth +:+ "}")
    as -> by done.
  rewrite !str_app_assoc. rewrite str_cons_app, str_nil_app. cbn [decode_map].
  assert (starts_with is_ws (join ("," +:+ line (S depth)) (member <$> xs.*1) +:+ line depth +:+ "}" +:+ r) = false ∧
    ∃ w, join ("," +:+ line (S depth)) (member <$> xs.*1) +:+ line depth +:+ "}" +:+ r = String quote w) as [Hs [w Hw]].
  { unfold xs. destruct l as [|y l]; cbn [fmap list_fmap join]; unfold member at 1, appendString; rewrite !str_app_assoc, str_cons_app;
      (split; [done|by eexists]). }
  rewrite (skip_ws_app (line (S depth))) by (apply line_ws || done). rewrite Hw. cbv match. rewrite <- Hw.
  apply members_join; [done|done| |apply line_ws].
  rewrite !str_length_app. pose proof (join_length ("," +:+ line (S depth)) xs.*1) as H.
  rewrite length_fmap in H. lia.
Qed.
End roundtrip.

Lemma foldl_insert_map {A} (l : list (string * A)) (m : gmap string A) :
  l ≡ₚ map_to_list m → foldl (λ m kv, <[kv.1 := kv.2]> m) ∅ l = m.
Proof.
  intros Hl. assert (NoDup l.*1) as Hnd by (rewrite Hl; apply NoDup_fst_map_to_list).
  rewrite <- (list_to_map_to_list m), <- (list_to_map_proper l (map_to_list m)) by done.
  rewrite (list_to_map_proper l (reverse l)) by (done || by rewrite reverse_Permutation).
  clear. induction l as [|x l IH] using rev_ind; [done|].
  rewrite foldl_app, reverse_app. cbn. by rewrite IH.
Qed.

(** The texts of the values, with their keys. *)
Lemma encoded_entries {A} (dec : string → option (A * string)) (value : A → option string) l ms :
  mapM (λ kv : string * A, (λ t, (kv.1, t)) <$> value kv.2) l = Some ms →
  (∀ k v t, (k, v) ∈ l → value v = Some t → is_ascii k = true ∧ reads dec t v) →
  ∃ xs : list (string * string * A), xs.*1 = ms ∧ (λ x, (x.1.1, x.2)) <$> xs = l ∧ Forall (entry_ok dec) xs.
Proof.
  revert ms. induction l as [|[k v] l IH]; intros ms H Hok; [injection H as <-; by exists []|].
  cbn in H. destruct (value v) as [t|] eqn:Hv; [|discriminate H]. cbn in H.
  destruct (mapM _ l) as [ms'|] eqn:Hm; [|discriminate H]. injection H as <-.
  destruct (IH ms' eq_refl) as (xs & <- & <- & Hxs); [intros; apply Hok; [by right|done]|].
  exists ((k, t, v) :: xs). split_and!; [done|done|]. constructor; [|done]. apply Hok; [by left|done].
Qed.

Section tables.
Context {RT : GoRuntime} `{NU : !Numbers}.

Lemma reads_map {A} site depth (dec : string → option (A * string)) value (m : gmap string A) t :
  encode_map site depth value m = Some t →
  (∀ k v t, m !! k = Some v → value v = Some t → is_ascii k = true ∧ reads dec t v) →
  reads (null ∅ (decode_map dec)) t m.
Proof.
  unfold encode_map. intros (ms & Hms & ->)%fmap_Some Hok.
  assert (sort_slice key_less (range_map site m) ≡ₚ map_to_list m) as Hperm by (by rewrite sort_slice_perm, range_map_perm).
  destruct (encoded_entries dec value _ _ Hms) as (xs & <- & Hl & Hxs).
  { intros k v t0 Hin. apply Hok. by rewrite Hperm, elem_of_map_to_list in Hin. }
  assert (∃ u, encode_object depth xs.*1 = String "{" u) as [u Hu] by (destruct xs; by eexists).
  split_and!; [by rewrite Hu|by rewrite Hu|]. intros r _.
  assert (foldl (λ (m : gmap string A) x, <[x.1.1 := x.2]> m) ∅ xs = m) as Hm.
  { rewrite <- Hl in Hperm. apply foldl_insert_map in Hperm. by rewrite foldl_fmap in Hperm. }
  pose proof (decode_encode_object dec depth xs r Hxs) as Hdec. rewrite Hm, Hu in Hdec. by rewrite Hu.
Qed.

Lemma reads_number (p : price) t : encode_number p = Some t → reads (null zero_price decode_number) t p.
Proof.
  unfold encode_number. destruct (finite p) eqn:Hf; [|done]. intros [= <-].
  destruct (number_chars p Hf) as [Hne Hch]. pose proof (Parse_Format p Hf) as Hp.
  destruct (FormatNumber p) as [|a t]; [done|].
  assert (starts_with is_ws (String a t) = false ∧ a ≠ "n"%char) as [Hws Hn].
  { cbn in Hch. apply andb_true_iff in Hch as [Ha _]. cbn. clear -Ha. by destruct a as [[] [] [] [] [] [] [] []]. }
  split_and!; [done|done|]. intros r Hr.
  assert (null zero_price decode_number (String a t +:+ r) = decode_number (String a t +:+ r)) as ->.
  { rewrite str_cons_app. clear -Hn. by destruct a as [[] [] [] [] [] [] [] []]. }
  unfold decode_number. rewrite (span_app _ _ _ Hch Hr), Hp. done.
Qed.

(** What [MarshalIndent] writes, [Unmarshal] reads. *)
Lemma Unmarshal_MarshalIndent m t :
  MarshalIndent m = Some t → map_Forall (λ k v, is_ascii k = true ∧ map_Forall (λ k' _, is_ascii k' = true) v) m →
  Unmarshal t = Some m.
Proof.
  intros Ht Hascii. unfold MarshalIndent in Ht.
  assert (reads (null ∅ (decode_map (null ∅ (decode_map (null zero_price decode_number))))) t m) as (Hne & Hws & Hr).
  { apply (reads_map 60 0 _ _ _ _ Ht). intros k v tv Hv Htv. destruct (Hascii _ _ Hv) as [Hk Hin]. split; [done|].
    apply (reads_map 61 1 _ _ _ _ Htv). intros k' p tp Hp Htp. split; [by apply (Hin k' p)|by apply reads_number]. }
  unfold Unmarshal. rewrite skip_ws_none by done. pose proof (Hr "" eq_refl) as H. rewrite str_app_nil in H.
  by rewrite H.
Qed.

(** Finite prices can be written. *)
Lemma encode_map_is_Some {A} site depth (value : A → option string) m :
  map_Forall (λ _ v, is_Some (value v)) m → is_Some (encode_map site depth value m).
Proof.
  intros Hm. unfold encode_map. apply fmap_is_Some, mapM_is_Some. apply Forall_forall. intros [k v] Hin.
  rewrite sort_slice_perm, range_map_perm, elem_of_map_to_list in Hin. apply fmap_is_Some. by apply Hm in Hin.
Qed.
Lemma MarshalIndent_is_Some (m : gmap string (gmap string price)) :
  map_Forall (λ _ v, map_Forall (λ _ (p : price), finite p = true) v) m → is_Some (MarshalIndent m).
Proof.
  intros Hm. apply encode_map_is_Some. intros k v Hv. apply encode_map_is_Some. intros k' p Hp.
  unfold encode_number. rewrite (Hm _ _ Hv _ _ Hp). by eexists.
Qed.
End tables.
End json.

(** ** pkg/utils/object *)

(** A text that cannot be read panics. *)
Definition JSONUnmarshal `{NU : !json.Numbers} (raw : string) : result (gmap string (gmap string price)) :=
  match json.Unmarshal raw with Some m => Ok m | None => Panic end.

(** ** The generator *)

Module price_gen.

(** The regions the price server knows, and the file system. *)
Class Regions (W : Type) := ListRegions : W → list string.
Class FileSystem (W : Type) := {
  WriteFile : string → string → W → result () * W;
  contents : W → gmap string string;
  written : ∀ path data w w', WriteFile path data w = (Ok (), w') → contents w' !! path = Some data;
}.
Definition table_path : string := "pkg/providers/pricing/initial-on-demand-prices.json".

Section generator.
Context {RT : GoRuntime} {W : Type} `{NU : !json.Numbers} `{PS : !PriceServer W} `{RS : !Regions W} `{FS : !FileSystem W}.

Definition regionalPrice (w : W) : gmap string (option (gmap string InstanceTypePrice)) :=
  foldl (λ m region, <[region := price_ListInstancesDetails region w]> m) ∅ (ListRegions w).
(** The prices of a region that was not answered are dereferenced. *)
Definition region_prices (kv : string * option (gmap string InstanceTypePrice)) : result (string * gmap string price) :=
  match kv.2 with Some prices => Ok (kv.1, OnDemandPricePerHour <$> prices) | None => Panic end.
Definition allPrice (regional : gmap string (option (gmap string InstanceTypePrice)))
    : result (gmap string (gmap string price)) :=
  match rmapM region_prices (range_map 62 regional) with
  | Ok entries => Ok (list_to_map entries)
  | Err e => Err e
  | Panic => Panic
  end.
(** Every error is a panic. *)
Definition main (queryClient : error + ()) : M W () := λ w,
  match queryClient with
  | inl _ => (Panic, w)
  | inr _ =>
      match allPrice (regionalPrice w) with
      | Ok prices =>
          match json.MarshalIndent prices with
          | Some data =>
              match WriteFile table_path data w with
              | (Ok _, w') => (Ok (), w')
              | (_, w') => (Panic, w')
              end
          | None => (Panic, w)
          end
      | _ => (Panic, w)
      end
  end.

Lemma regionalPrice_lookup w region :
  regionalPrice w !! region =
  if bool_decide (region ∈ ListRegions w) then Some (price_ListInstancesDetails region w) else None.
Proof.
  unfold regionalPrice. generalize (ListRegions w) as l. intros l. induction l as [|x l IH] using rev_ind; [done|].
  rewrite foldl_app. cbn. destruct (decide (x = region)) as [->|Hne].
  - rewrite lookup_insert_eq, bool_decide_true; [done|]. set_solver.
  - rewrite lookup_insert_ne, IH by done. apply bool_decide_if_ext. set_solver.
Qed.

Definition on_demand (d : option (gmap string InstanceTypePrice)) : gmap string price :=
  OnDemandPricePerHour <$> default ∅ d.
Lemma allPrice_complete (regional : gmap string (option (gmap string InstanceTypePrice))) :
  map_Forall (λ _ d, is_Some d) regional →
  ∃ all, allPrice regional = Ok all ∧
    ∀ region, all !! region = on_demand <$> regional !! region.
Proof.
  intros Hall. unfold allPrice.
  assert (∀ l, (∀ kv, kv ∈ l → is_Some (kv.2 : option (gmap string InstanceTypePrice))) →
    rmapM region_prices l =
    Ok (prod_map id on_demand <$> l)) as Hrun.
  { induction l as [|[k d] l IH]; intros Hl; [done|]. cbn. destruct (Hl (k, d)) as [m Hm]; [by left|]. cbn in Hm. subst d.
    cbn. rewrite IH; [done|]. intros kv Hkv. apply Hl. by right. }
  rewrite Hrun; [|intros [k d] H; rewrite range_map_perm, elem_of_map_to_list in H; by apply Hall in H].
  eexists. split; [reflexivity|]. intros region.
  rewrite (list_to_map_proper _ (prod_map id on_demand <$> map_to_list regional)).
  - by rewrite list_to_map_fmap, list_to_map_to_list, lookup_fmap.
  - rewrite <- list_fmap_compose. cbn. rewrite range_map_perm. apply NoDup_fst_map_to_list.
  - by rewrite range_map_perm.
Qed.

(** A region whose details are known, under names of ASCII characters and with
    finite prices. *)
Definition tabular (w : W) (region : string) : Prop :=
  json.is_ascii region = true ∧ ∃ d, price_ListInstancesDetails region w = Some d ∧
    map_Forall (λ t i, json.is_ascii t = true ∧ json.finite (OnDemandPricePerHour i) = true) d.

(** C35. The table reaches the provider unchanged.  For the regions the
    price server knows, the generator ends with the table written, the binary
    that embeds the file can read it, and a provider of any of these regions
    starts with the on-demand prices of the server, as spot prices too; a
    provider of another region starts with those of the default region. *)
Theorem table_roundtrip w :
  (∀ region, region ∈ ListRegions w → tabular w region) →
  (∀ data, ∃ w', WriteFile table_path data w = (Ok (), w')) →
  ∃ w' data prices, main (inr ()) w = (Ok (), w') ∧
    contents w' !! table_path = Some data ∧ JSONUnmarshal data = Ok prices ∧
    ∀ region t zone (source := if bool_decide (region ∈ ListRegions w) then region else defaultRegion)
        (p := NewDefaultProvider prices region),
      OnDemandPrice p t =
        (if bool_decide (source ∈ ListRegions w) then on_demand (price_ListInstancesDetails source w) !! t else None) ∧
      SpotPrice p t zone = OnDemandPrice p t.
Proof.
  intros Hall Hwrite. destruct (allPrice_complete (regionalPrice w)) as (all & Hrun & Hlook).
  { intros region d. rewrite regionalPrice_lookup. case_bool_decide as Hin; [|done].
    destruct (Hall _ Hin) as (_ & m & -> & _). intros [= <-]. by eexists. }
  assert (∀ region, all !! region = if bool_decide (region ∈ ListRegions w)
    then Some (on_demand (price_ListInstancesDetails region w)) else None) as Hlook'.
  { intros region. rewrite Hlook, regionalPrice_lookup. by case_bool_decide. }
  assert (map_Forall (λ k v, json.is_ascii k = true ∧
    map_Forall (λ k' (p : price), json.is_ascii k' = true ∧ json.finite p = true) v) all) as Hgood.
  { intros region v Hv. rewrite Hlook' in Hv. case_bool_decide as Hin; [|done].
    destruct (Hall _ Hin) as (Hr & d & Hd & Hok). rewrite Hd in Hv. injection Hv as <-. split; [done|].
    intros t p Hp. unfold on_demand in Hp. cbn in Hp. apply lookup_fmap_Some in Hp as (i & <- & Hi). by apply (Hok t i). }
  destruct (json.MarshalIndent_is_Some all) as [data Hdata].
  { intros region v Hv t p Hp. by apply (proj2 (Hgood _ _ Hv) t p). }
  destruct (Hwrite data) as [w' Hw]. exists w', data, all. split_and!.
  - unfold main. by rewrite Hrun, Hdata, Hw.
  - by apply (written _ _ w).
  - unfold JSONUnmarshal. rewrite (json.Unmarshal_MarshalIndent all data Hdata); [done|].
    intros region v Hv. destruct (Hgood _ _ Hv) as [Hr Hin]. split; [done|]. intros t p Hp. by apply (Hin t p).
  - intros region t zone source p.
    assert (onDemandPrices p = default ∅ (all !! source)) as Hp.
    { subst p source. cbn. rewrite Hlook'. case_bool_decide; [by rewrite Hlook', bool_decide_true|done]. }
    split.
    + unfold OnDemandPrice. rewrite Hp, Hlook'. by case_bool_decide.
    + unfold SpotPrice, OnDemandPrice. cbn. unfold populateInitialSpotPricing. rewrite lookup_fmap.
      by destruct (_ !! t).
Qed.
End generator.
End price_gen.

(** ** Example *)

Module PriceTableExample.
Import price_gen.

(** A number is written as its decimal form for the price of the example, by
    the bits of an encoding of it otherwise. *)
#[local] Instance float64_eq_dec : EqDecision float64.
Proof. unfold float64. solve_decision. Defined.
Notation code := (bool + option bool + bool * positive * Z)%type.
Definition to_code (f : float64) : code :=
  match f with
  | SpecFloat.S754_zero b => inl (inl b)
  | SpecFloat.S754_infinity b => inl (inr (Some b))
  | SpecFloat.S754_nan => inl (inr None)
  | SpecFloat.S754_finite b m e => inr (b, m, e)
  end.
Definition of_code (c : code) : float64 :=
  match c with
  | inl (inl b) => SpecFloat.S754_zero b
  | inl (inr (Some b)) => SpecFloat.S754_infinity b
  | inl (inr None) => SpecFloat.S754_nan
  | inr (b, m, e) => SpecFloat.S754_finite b m e
  end.
#[local] Instance float64_countable : Countable float64.
Proof. refine (inj_countable' to_code of_code _). by intros []. Defined.
Definition as_price (f : float64) : option price :=
  match bool_dec (is_nan f) false with left H => Some (Price f H) | right _ => None end.
Lemma as_price_pval (p : price) : as_price p = Some p.
Proof.
  unfold as_price. destruct (bool_dec _ _) as [H|H]; [f_equal; by apply price_eq|]. destruct H. apply pval_num.
Qed.

Fixpoint bits (p : positive) : string :=
  match p with xH => "e" | xO q => String "0" (bits q) | xI q => String "1" (bits q) end.
Fixpoint unbits (s : string) : option positive :=
  match s with
  | String "0" s' => xO <$> unbits s'
  | String "1" s' => xI <$> unbits s'
  | String "e" EmptyString => Some xH
  | _ => None
  end.
Lemma unbits_bits p : unbits (bits p) = Some p.
Proof. induction p as [p IH|p IH|]; cbn; [by rewrite IH..|done]. Qed.
Lemma bits_chars p : bits p ≠ "" ∧ all_chars json.number_char (bits p) = true.
Proof. induction p as [p [_ IH]|p [_ IH]|]; done. Qed.

Definition p275 : price := Price (decimal 275 100) eq_refl.
Definition format_price (p : price) : string :=
  if bool_decide (pval p = pval p275) then "2.75" else bits (encode (pval p)).
Definition parse_price (s : string) : option price :=
  if bool_decide (s = "2.75") then Some p275 else f ← unbits s ≫= decode; as_price f.
#[local] Program Instance numbers : json.Numbers := {| json.FormatNumber := format_price; json.ParseNumber := parse_price |}.
Next Obligation. intros p _. unfold format_price. case_bool_decide; [done|apply bits_chars]. Qed.
Next Obligation.
  intros p _. unfold format_price, parse_price.
  destruct (bool_decide_reflect (pval p = pval p275)) as [Hp|Hp]; [f_equal; by apply price_eq|].
  rewrite bool_decide_false by (by destruct (encode (pval p))).
  rewrite unbits_bits. cbn [mbind option_bind]. rewrite decode_encode. apply as_price_pval.
Qed.

Record disk := MkDisk { d_files : gmap string string }.
#[local] Program Instance disk_files : FileSystem disk := {|
  WriteFile path data d := (Ok (), MkDisk (<[path := data]> (d_files d)));
  contents := d_files;
|}.
Next Obligation. intros path data d d' [= <-]. apply lookup_insert_eq. Qed.
#[local] Instance disk_regions : Regions disk := λ _, ["cn-qingdao"; "cn-hangzhou"].
#[local] Instance disk_prices : PriceServer disk := {|
  price_Sync := λ d, (Ok (), d);
  price_ListInstancesDetails region _ :=
    if bool_decide (region = "cn-qingdao") then Some {["ecs.c1.large" := MkITPrice p275 ∅]}
    else if bool_decide (region = "cn-hangzhou") then Some ∅ else None;
|}.
Definition checkout : disk := MkDisk ∅.

(** The text, with its quotes as apostrophes. *)
Definition quoted (a : ascii) : ascii := if bool_decide (a = "'"%char) then "034"%char else a.
Fixpoint with_quotes (s : string) : string :=
  match s with EmptyString => "" | String a s' => String (quoted a) (with_quotes s') end.
Definition lines (l : list string) : string := json.join (String "010" "") (with_quotes <$> l).
Example table_example :
  d_files (main (inr ()) checkout).2 !! table_path = Some (lines
    ["{"; "    'cn-hangzhou': {},"; "    'cn-qingdao': {"; "        'ecs.c1.large': 2.75"; "    }"; "}"]).
Proof. vm_compute. reflexivity. Qed.

Lemma table_roundtrip_witness :
  ∃ w' data prices, main (inr ()) checkout = (Ok (), w') ∧ JSONUnmarshal data = Ok prices ∧
    OnDemandPrice (NewDefaultProvider prices "eu-central-1") "ecs.c1.large" = Some p275.
Proof.
  destruct (table_roundtrip checkout) as (w' & data & prices & Hm & _ & Hj & Hp).
  - intros region Hin. assert (region = "cn-qingdao" ∨ region = "cn-hangzhou") as [->| ->].
    { unfold ListRegions, disk_regions in Hin. set_solver. }
    + split; [reflexivity|]. eexists. split; [reflexivity|]. intros t i [<- <-]%lookup_singleton_Some. split; reflexivity.
    + split; [reflexivity|]. eexists. split; [reflexivity|]. apply map_Forall_empty.
  - intros data. eexists. reflexivity.
  - exists w', data, prices. split; [exact Hm|]. split; [exact Hj|].
    destruct (Hp "eu-central-1" "ecs.c1.large" "") as [Hod _]. rewrite Hod. vm_compute. reflexivity.
Defined.
End PriceTableExample.
