(* ===== verification/VSwitchProvider.v ===== *)
(** * The vSwitch provider (pkg/providers/vswitch)

    Discovers the vSwitches matching a NodeClass, caches them, and chooses for
    every zone the vSwitch with the most free addresses, keeping track of the
    addresses that launches in flight are going to use.  The VPC service is a
    parameter ([VpcApi]); so is the structural hash used as cache key. *)

From S2P Require Import Prelude Effects Floats GoCache Labels Scheduling CloudTypes Apis.

Module vswitch.

(** ** The VPC service *)

(** [vpc.DescribeVSwitchesResponseBodyVSwitchesVSwitch], the fields read. *)
Record VpcVSwitch := MkVpcVSwitch {
  VSwitchId : option string;
  ZoneId : option string;
  AvailableIpAddressCount : option Z;
}.

Record DescribeVSwitchesRequest := MkRequest {
  rq_Tag : list (string * option string);
  rq_VSwitchId : option string;
  rq_PageSize : Z;
  rq_PageNumber : Z;
}.

Record DescribeVSwitchesBody := MkBody {
  body_RequestId : option string;
  body_TotalCount : option Z;
  body_VSwitches : option (list VpcVSwitch);
}.

Class VpcApi (W : Type) :=
  DescribeVSwitches : DescribeVSwitchesRequest → W → result (option DescribeVSwitchesBody) * W.

(** [hashstructure.Hash] of the selector terms, printed in decimal. *)
Class TermsHash := hash_terms : list VSwitchSelectorTerm → result string.

(** ** State *)

Record VSwitch := MkLaunchVSwitch {
  zv_ID : string;
  zv_ZoneID : string;
  zv_AvailableIPAddressCount : Z;
}.
#[export] Instance LaunchVSwitch_eq_dec : EqDecision VSwitch.
Proof. solve_decision. Defined.

Record DefaultProvider := MkProvider {
  vs_cache : cache (list VpcVSwitch);
  availableIPAddressCache : cache Z;
  inflightIPs : gmap string Z;
}.

Definition NewDefaultProvider (ttl ipTTL : Z) : DefaultProvider :=
  MkProvider (cache_new ttl) (cache_new ipTTL) ∅.

Definition set_cache (c : cache (list VpcVSwitch)) (p : DefaultProvider) : DefaultProvider :=
  MkProvider c (availableIPAddressCache p) (inflightIPs p).
Definition set_inflight (m : gmap string Z) (p : DefaultProvider) : DefaultProvider :=
  MkProvider (vs_cache p) (availableIPAddressCache p) m.

(** ** Listing *)

Section list.
Context {RT : GoRuntime} {W : Type} `{HC : !HasClock W} `{VA : !VpcApi W} `{TH : TermsHash}.

(** During a listing the provider's state goes with the map of the vSwitches
    collected so far. *)
Notation LS := (St (DefaultProvider * gmap string VpcVSwitch) W).

(** The callback of [List]. *)
Definition process (v : VpcVSwitch) : M LS () := λ s,
  let id := StringValue (VSwitchId v) in
  let p := (prov s).1 in
  (Ok (), MkSt
    (MkProvider (vs_cache p)
       (cache_set_default (clock (env s)) id (IntValue (AvailableIpAddressCount v))
          (availableIPAddressCache p))
       (delete id (inflightIPs p)),
     <[id := v]> (prov s).2) (env s)).

Definition null_response : error := ErrorString "unexpected null value was returned".

(** The page loop: pages 1 to 359, [fuel] pages left. *)
Fixpoint describe_pages (fuel : nat) (pageNumber : Z) (tags : list (string * option string))
    (id : option string) : M LS () :=
  match fuel with
  | O => mret ()
  | S fuel' =>
      output ← call (DescribeVSwitches (MkRequest tags id 50 pageNumber));
      match output with
      | None => fail null_response
      | Some body =>
          match body_TotalCount body, body_VSwitches body with
          | Some total, Some vs =>
              _ ← mapM_ process vs;
              if (total <? int32 (pageNumber * 50))%Z || (Z.of_nat (length vs) <? 50)%Z
              then mret ()
              else describe_pages fuel' (pageNumber + 1) tags id
          | _, _ => fail (WrapError ("requestId: " +:+ StringValue (body_RequestId body)) null_response)
          end
      end
  end.
Definition describeVSwitches (tags : list (string * option string)) (id : option string)
    : M LS () := describe_pages 359 1 tags id.

Definition term_tags (t : VSwitchSelectorTerm) : list (string * option string) :=
  (λ kv : string * string, (kv.1, if bool_decide (kv.2 = "*") then None else Some kv.2))
    <$> range_map 2 (vst_Tags t).
Definition term_id (t : VSwitchSelectorTerm) : option string :=
  if bool_decide (vst_ID t = "") then None else Some (vst_ID t).

Definition List_ (nodeClass : ECSNodeClass) : M (St DefaultProvider W) (list VpcVSwitch) := λ s,
  let terms := VSwitchSelectorTerms (nc_Spec nodeClass) in
  match terms with
  | [] => (Ok [], s)
  | _ =>
      match hash_terms terms with
      | Err e => (Err e, s)
      | Panic => (Panic, s)
      | Ok h =>
          match cache_get (clock (env s)) h (vs_cache (prov s)) with
          | Some switches => (Ok switches, s)
          | None =>
              let '(r, s') :=
                mapM_ (λ t, wrap "describing vSwitches" (describeVSwitches (term_tags t) (term_id t)))
                  terms (MkSt (prov s, ∅) (env s)) in
              let '(p, found) := prov s' in
              match r with
              | Ok _ =>
                  (Ok (map_values 4 found),
                   MkSt (set_cache (cache_set_default (clock (env s')) h (map_values 3 found)
                           (vs_cache p)) p) (env s'))
              | Err e => (Err e, MkSt p (env s'))
              | Panic => (Panic, MkSt p (env s'))
              end
          end
      end
  end.
End list.

(** ** Choosing the vSwitches of a launch *)

(** [AsInt64] of a quantity: exact or zero. *)
Definition as_int64 (q : Quantity) : Z := if (q mod Nano =? 0)%Z then (q / Nano)%Z else 0%Z.

Definition pods_less (i j : InstanceType) : bool :=
  (rl_get (it_Capacity i) ResourcePods <? rl_get (it_Capacity j) ResourcePods)%Z.

Definition minPods (instanceTypes : list InstanceType) (reqs : Requirements) : Z :=
  match lo_min_by pods_less
          (bfilter (λ it, HasCompatible reqs (Available (it_Offerings it))) instanceTypes) with
  | None => 0
  | Some it => as_int64 (rl_get (it_Capacity it) ResourcePods)
  end.

Definition zone_requirements (capacityType zone : string) : Requirements :=
  NewRequirements [NewRequirement CapacityTypeLabelKey (SelIn [capacityType]);
                   NewRequirement LabelTopologyZone (SelIn [zone])].

(** The first loop: the cached address counts of the NodeClass's vSwitches. *)
Definition available_counts (now : Z) (p : DefaultProvider) (vs : list Apis.VSwitch)
    : gmap string Z :=
  foldl (λ m v, match cache_get now (vsw_ID v) (availableIPAddressCache p) with
                | Some n => <[vsw_ID v := n]> m
                | None => m
                end) ∅ vs.

(** The second loop: one candidate per zone. *)
Definition zonal_step (avail inflight : gmap string Z) (m : gmap string VSwitch) (v : Apis.VSwitch)
    : gmap string VSwitch :=
  let new := MkLaunchVSwitch (vsw_ID v) (vsw_ZoneID v) (default 0%Z (avail !! vsw_ID v)) in
  match m !! vsw_ZoneID v with
  | Some cur =>
      let curIPs := default (zv_AvailableIPAddressCount cur) (inflight !! zv_ID cur) in
      let newIPs := default (default 0%Z (avail !! vsw_ID v)) (inflight !! vsw_ID v) in
      if (newIPs <=? curIPs)%Z then m else <[vsw_ZoneID v := new]> m
  | None => <[vsw_ZoneID v := new]> m
  end.
Definition zonal_candidates (avail inflight : gmap string Z) (vs : list Apis.VSwitch)
    : gmap string VSwitch := foldl (zonal_step avail inflight) ∅ vs.

(** The third loop: deduct the addresses of the smallest instance type. *)
Definition deduct (instanceTypes : list InstanceType) (capacityType : string)
    (inflight : gmap string Z) (v : VSwitch) : gmap string Z :=
  let predicted := minPods instanceTypes (zone_requirements capacityType (zv_ZoneID v)) in
  let prevIPs := default (zv_AvailableIPAddressCount v) (inflight !! zv_ID v) in
  <[zv_ID v := int64 (prevIPs - predicted)]> inflight.

Section launch.
Context {RT : GoRuntime}.

Definition ZonalVSwitchesForLaunch (now : Z) (nodeClass : ECSNodeClass)
    (instanceTypes : list InstanceType) (capacityType : string) (p : DefaultProvider)
    : result (gmap string VSwitch) * DefaultProvider :=
  let vs := VSwitches (nc_Status nodeClass) in
  match vs with
  | [] => (Err (ErrorString "no vSwitches matched selector"), p)
  | _ =>
      let avail := available_counts now p vs in
      let zonal := zonal_candidates avail (inflightIPs p) vs in
      (Ok zonal,
       set_inflight (foldl (deduct instanceTypes capacityType) (inflightIPs p) (map_values 5 zonal)) p)
  end.

(** [UpdateInflightIPs]: the vSwitches requested but not used get their
    addresses back.  The request and the response are given by the vSwitch
    IDs they mention. *)
Definition add_back (now : Z) (toAddBack : list string) (instanceTypes : list InstanceType)
    (vSwitches : list VSwitch) (capacityType : string) (inflight : gmap string Z)
    (kv : string * Z) : gmap string Z :=
  if negb (bool_decide (kv.1 ∈ toAddBack)) then inflight
  else match lo_find (λ v, bool_decide (zv_ID v = kv.1)) vSwitches with
       | None => inflight
       | Some original =>
           if bool_decide (zv_AvailableIPAddressCount original = kv.2) then
             match inflight !! zv_ID original with
             | Some ips => <[zv_ID original :=
                 int64 (ips + minPods instanceTypes
                          (zone_requirements capacityType (zv_ZoneID original)))]> inflight
             | None => inflight
             end
           else inflight
       end.

Definition UpdateInflightIPs (now : Z) (requested : list (option (option string)))
    (launched : option (list (option string))) (instanceTypes : list InstanceType)
    (vSwitches : list VSwitch) (capacityType : string) (p : DefaultProvider) : DefaultProvider :=
  let requestVSwitches :=
    lo_compact (lo_uniq ((λ r, match r with None => "" | Some v => StringValue v end) <$> requested)) in
  let responseVSwitches :=
    match launched with
    | None => []
    | Some l => lo_compact (lo_uniq (StringValue <$> l))
    end in
  let toAddBack := filter (λ s, s ∉ responseVSwitches) requestVSwitches in
  let cached := Object <$> cache_items now (availableIPAddressCache p) in
  set_inflight
    (foldl (add_back now toAddBack instanceTypes vSwitches capacityType) (inflightIPs p)
       (range_map 6 cached)) p.
End launch.

(** ** Reference definitions *)

(** The addresses believed free on a vSwitch: the tracked number if a launch is
    in flight, else the number last read from the service, else 0. *)
Definition free_ips (now : Z) (p : DefaultProvider) (id : string) : Z :=
  match inflightIPs p !! id with
  | Some n => n
  | None => default 0%Z (cache_get now id (availableIPAddressCache p))
  end.

(** The first of the zone's vSwitches, in the order of the NodeClass status,
    among those with the most free addresses. *)
Definition roomier (now : Z) (p : DefaultProvider) (v w : Apis.VSwitch) : bool :=
  (free_ips now p (vsw_ID w) <? free_ips now p (vsw_ID v))%Z.
Definition best_in_zone (now : Z) (p : DefaultProvider) (vs : list Apis.VSwitch) (zone : string)
    : option Apis.VSwitch :=
  lo_min_by (roomier now p) (bfilter (λ v, bool_decide (vsw_ZoneID v = zone)) vs).

(** ** Lemmas: the choice per zone *)

Lemma lo_min_by_snoc {A} (less : A → A → bool) l x :
  lo_min_by less (l ++ [x]) =
  match lo_min_by less l with
  | None => Some x
  | Some m => Some (if less x m then x else m)
  end.
Proof.
  destruct l as [|y l]; [done|]. simpl. f_equal.
  revert y. induction l as [|z l IH]; intros y; simpl; [done|]. apply IH.
Qed.

Lemma lookup_available_counts now p vs id :
  available_counts now p vs !! id =
  if bool_decide (id ∈ vsw_ID <$> vs) then cache_get now id (availableIPAddressCache p) else None.
Proof.
  unfold available_counts. induction vs as [|v vs IH] using rev_ind; [done|].
  rewrite foldl_app, fmap_app. simpl.
  destruct (cache_get now (vsw_ID v) (availableIPAddressCache p)) as [n|] eqn:Hg.
  - destruct (decide (vsw_ID v = id)) as [<-|Hne].
    + rewrite lookup_insert_eq, Hg, bool_decide_true; [done|]. set_solver.
    + rewrite lookup_insert_ne, IH by done. repeat case_bool_decide; set_solver.
  - rewrite IH. repeat case_bool_decide; [done| set_solver | |done].
    destruct (decide (vsw_ID v = id)) as [<-|Hne]; [done|]. set_solver.
Qed.

Section choice.
Context (now : Z) (p : DefaultProvider) (vs : list Apis.VSwitch).
Let avail := available_counts now p vs.

Definition launch_of (v : Apis.VSwitch) : VSwitch :=
  MkLaunchVSwitch (vsw_ID v) (vsw_ZoneID v)
    (default 0%Z (cache_get now (vsw_ID v) (availableIPAddressCache p))).

Lemma avail_free v : v ∈ vs →
  default 0%Z (avail !! vsw_ID v) = default 0%Z (cache_get now (vsw_ID v) (availableIPAddressCache p))
  ∧ default (default 0%Z (avail !! vsw_ID v)) (inflightIPs p !! vsw_ID v) = free_ips now p (vsw_ID v).
Proof.
  intros Hv. unfold avail, free_ips. rewrite lookup_available_counts, bool_decide_true.
  - by destruct (inflightIPs p !! vsw_ID v).
  - apply list_elem_of_fmap. by exists v.
Qed.

Lemma zonal_candidates_prefix l zone : l ⊆ vs →
  foldl (zonal_step avail (inflightIPs p)) ∅ l !! zone = launch_of <$> best_in_zone now p l zone.
Proof.
  intros Hl. induction l as [|v l IH] using rev_ind; [done|].
  assert (v ∈ vs) as Hv by (apply Hl; set_solver).
  specialize (IH ltac:(set_solver)). destruct (avail_free v Hv) as [Hc Hf].
  rewrite foldl_app. simpl. unfold best_in_zone in *. rewrite bfilter_app, bfilter_cons.
  set (m := foldl _ _ _) in *. rewrite Hc in Hf. unfold zonal_step. rewrite Hc, Hf.
  case_bool_decide as Hz.
  - subst. change (bfilter _ []) with (@nil Apis.VSwitch).
    rewrite lo_min_by_snoc, IH.
    destruct (lo_min_by _ (bfilter _ l)) as [c|] eqn:Hbest; simpl.
    + assert (c ∈ vs) as Hcin.
      { apply lo_min_by_elem in Hbest. apply elem_of_bfilter in Hbest as [_ Hb]. set_solver. }
      destruct (avail_free c Hcin) as [Hcc Hcf]. rewrite Hcc in Hcf. rewrite Hcf.
      unfold roomier. destruct (Z.leb_spec (free_ips now p (vsw_ID v)) (free_ips now p (vsw_ID c)));
        destruct (Z.ltb_spec (free_ips now p (vsw_ID c)) (free_ips now p (vsw_ID v)));
        try lia; [by rewrite IH | by rewrite lookup_insert_eq].
    + by rewrite lookup_insert_eq.
  - change (bfilter _ []) with (@nil Apis.VSwitch). rewrite app_nil_r.
    destruct (m !! vsw_ZoneID v); [|by rewrite lookup_insert_ne].
    destruct (_ <=? _)%Z; [done|]. by rewrite lookup_insert_ne.
Qed.
End choice.

(** A zone's choice is one of its vSwitches, and none of them has more room. *)
#[export] Instance roomier_swo now p : StrictWeakOrder (roomier now p).
Proof.
  constructor; unfold roomier; intros *; rewrite ?Z.ltb_lt, ?Z.ltb_ge; lia.
Qed.

Lemma best_in_zone_spec now p vs zone v :
  best_in_zone now p vs zone = Some v →
  v ∈ vs ∧ vsw_ZoneID v = zone ∧
  ∀ w, w ∈ vs → vsw_ZoneID w = zone → (free_ips now p (vsw_ID w) ≤ free_ips now p (vsw_ID v))%Z.
Proof.
  intros [Hin Hmin]%(lo_min_by_spec (roomier now p)).
  apply elem_of_bfilter in Hin as [Hz%bool_decide_eq_true Hin]. split_and!; [done..|].
  intros w Hw Hwz. assert (roomier now p w v = false) as H.
  { apply Hmin. apply elem_of_bfilter. split; [by apply bool_decide_true | done]. }
  unfold roomier in H. lia.
Qed.

Lemma best_in_zone_is_Some now p vs v :
  v ∈ vs → is_Some (best_in_zone now p vs (vsw_ZoneID v)).
Proof.
  intros Hv. apply lo_min_by_is_Some. intros Hnil. rewrite bfilter_nil_iff in Hnil.
  specialize (Hnil v Hv). rewrite bool_decide_true in Hnil; done.
Qed.

(** ** Lemmas: the deduction *)

Lemma foldl_deduct_lookup its ct l m id :
  NoDup (zv_ID <$> l) →
  foldl (deduct its ct) m l !! id =
  match lo_find (λ v, bool_decide (zv_ID v = id)) l with
  | Some v => Some (int64 (default (zv_AvailableIPAddressCount v) (m !! id)
                     - minPods its (zone_requirements ct (zv_ZoneID v))))
  | None => m !! id
  end.
Proof.
  revert m. induction l as [|v l IH]; intros m Hnd; [done|].
  apply NoDup_cons in Hnd as [Hnot Hnd]. simpl. rewrite IH by done.
  case_bool_decide as Hid.
  - subst. destruct (lo_find _ l) as [w|] eqn:Hw.
    + apply lo_find_Some in Hw as [Hw Heq%bool_decide_eq_true]. exfalso. apply Hnot.
      rewrite <- Heq. by apply list_elem_of_fmap_2.
    + unfold deduct. by rewrite lookup_insert_eq.
  - unfold deduct at 1 2. rewrite lookup_insert_ne by done. done.
Qed.

Section deduction.
Context {RT : GoRuntime} (now : Z) (p : DefaultProvider) (vs : list Apis.VSwitch).
Context (Hnd : NoDup (vsw_ID <$> vs)).
Let zonal := zonal_candidates (available_counts now p vs) (inflightIPs p) vs.

Lemma lookup_zonal zone : zonal !! zone = launch_of now p <$> best_in_zone now p vs zone.
Proof. unfold zonal, zonal_candidates. by apply zonal_candidates_prefix. Qed.

Lemma vs_inj v w : v ∈ vs → w ∈ vs → vsw_ID v = vsw_ID w → v = w.
Proof.
  intros [i Hi]%list_elem_of_lookup [j Hj]%list_elem_of_lookup Heq.
  assert (i = j) as ->; [|congruence].
  eapply (NoDup_lookup _ i j (vsw_ID v) Hnd); rewrite list_lookup_fmap.
  - by rewrite Hi. - by rewrite Hj, Heq.
Qed.

Lemma zonal_values_elem z :
  z ∈ map_values 5 zonal ↔ ∃ v, best_in_zone now p vs (vsw_ZoneID v) = Some v ∧ z = launch_of now p v.
Proof.
  rewrite elem_of_map_values. split.
  - intros [zone Hz]. rewrite lookup_zonal in Hz.
    destruct (best_in_zone now p vs zone) as [v|] eqn:Hb; [|done].
    injection Hz as <-. exists v. split; [|done].
    pose proof (best_in_zone_spec _ _ _ _ _ Hb) as (_ & -> & _). done.
  - intros (v & Hb & ->). exists (vsw_ZoneID v). by rewrite lookup_zonal, Hb.
Qed.

(** Each vSwitch is chosen for at most one zone, so it is charged once. *)
Lemma zonal_values_NoDup : NoDup (zv_ID <$> map_values 5 zonal).
Proof.
  unfold map_values. rewrite <- list_fmap_compose.
  apply NoDup_fmap_2_strong; [|rewrite range_map_perm; apply NoDup_map_to_list].
  intros [k1 z1] [k2 z2] H1%elem_of_range_map H2%elem_of_range_map Heq. simpl in Heq.
  rewrite lookup_zonal in H1, H2.
  destruct (best_in_zone now p vs k1) as [v1|] eqn:Hb1; [|done].
  destruct (best_in_zone now p vs k2) as [v2|] eqn:Hb2; [|done].
  injection H1 as <-. injection H2 as <-.
  pose proof (best_in_zone_spec _ _ _ _ _ Hb1) as (Hv1 & <- & _).
  pose proof (best_in_zone_spec _ _ _ _ _ Hb2) as (Hv2 & <- & _).
  by rewrite (vs_inj v1 v2).
Qed.

Lemma deducted_lookup its ct id :
  foldl (deduct its ct) (inflightIPs p) (map_values 5 zonal) !! id =
  match lo_find (λ v, bool_decide (zv_ID v = id)) (map_values 5 zonal) with
  | Some v => Some (int64 (free_ips now p id - minPods its (zone_requirements ct (zv_ZoneID v))))
  | None => inflightIPs p !! id
  end.
Proof.
  rewrite foldl_deduct_lookup by apply zonal_values_NoDup.
  destruct (lo_find _ _) as [z|] eqn:Hz; [|done].
  apply lo_find_Some in Hz as [(v & Hb & ->)%zonal_values_elem Hid%bool_decide_eq_true].
  simpl in *. subst id. unfold free_ips. by destruct (inflightIPs p !! vsw_ID v).
Qed.

Lemma find_chosen v :
  best_in_zone now p vs (vsw_ZoneID v) = Some v →
  lo_find (λ z, bool_decide (zv_ID z = vsw_ID v)) (map_values 5 zonal) = Some (launch_of now p v).
Proof.
  intros Hb. destruct (lo_find _ _) as [z|] eqn:Hz.
  - apply lo_find_Some in Hz as [(w & Hw & ->)%zonal_values_elem Hid%bool_decide_eq_true].
    simpl in Hid. rewrite (vs_inj w v); [done| |  |done].
    + by apply best_in_zone_spec in Hw as (? & _).
    + by apply best_in_zone_spec in Hb as (? & _).
  - rewrite lo_find_None in Hz. specialize (Hz (launch_of now p v)).
    rewrite bool_decide_true in Hz; [|done]. exfalso.
    assert (true = false); [|done]. apply Hz. apply zonal_values_elem. by exists v.
Qed.
End deduction.

(** ** Lemmas: giving addresses back *)

Section give_back.
Context (now : Z) (back : list string) (its : list InstanceType) (sws : list VSwitch) (ct : string).
Notation ab := (add_back now back its sws ct).

Lemma add_back_lookup_ne m kv id : kv.1 ≠ id → ab m kv !! id = m !! id.
Proof.
  intros Hne. unfold add_back. destruct (negb _); [done|].
  destruct (lo_find _ _) as [o|] eqn:Ho; [|done].
  apply lo_find_Some in Ho as [_ Hid%bool_decide_eq_true].
  case_bool_decide; [|done]. destruct (m !! zv_ID o); [|done].
  by rewrite lookup_insert_ne by congruence.
Qed.

Lemma foldl_add_back_notin l m id : id ∉ l.*1 → foldl ab m l !! id = m !! id.
Proof.
  revert m. induction l as [|kv l IH]; intros m Hn; [done|]. simpl.
  rewrite IH by set_solver. apply add_back_lookup_ne. set_solver.
Qed.

Lemma foldl_add_back_in l m id n o ips :
  NoDup l.*1 → (id, n) ∈ l → id ∈ back →
  lo_find (λ v, bool_decide (zv_ID v = id)) sws = Some o →
  zv_AvailableIPAddressCount o = n → m !! id = Some ips →
  foldl ab m l !! id = Some (int64 (ips + minPods its (zone_requirements ct (zv_ZoneID o)))).
Proof.
  intros Hnd Hin Hback Ho Hn. revert m. induction l as [|kv l IH]; intros m Hm; [by apply elem_of_nil in Hin|].
  rewrite fmap_cons in Hnd. apply NoDup_cons in Hnd as [Hnot Hnd]. simpl.
  apply elem_of_cons in Hin as [<-|Hin].
  - rewrite foldl_add_back_notin by done. unfold add_back. simpl.
    rewrite bool_decide_true, Ho by done. simpl.
    rewrite bool_decide_true by done.
    apply lo_find_Some in Ho as [_ Hid%bool_decide_eq_true]. rewrite Hid, Hm.
    by rewrite lookup_insert_eq.
  - apply IH; [done..|]. rewrite add_back_lookup_ne; [done|].
    intros <-. apply Hnot. change kv.1 with ((kv.1, n).1). by apply list_elem_of_fmap_2.
Qed.

Lemma foldl_add_back_unlisted l m id :
  lo_find (λ v, bool_decide (zv_ID v = id)) sws = None → foldl ab m l !! id = m !! id.
Proof.
  intros Hn. revert m. induction l as [|kv l IH]; intros m; [done|]. simpl. rewrite IH.
  destruct (decide (kv.1 = id)) as [<-|Hne]; [|by apply add_back_lookup_ne].
  unfold add_back. rewrite Hn. by destruct (negb _).
Qed.
End give_back.

(** ** Lemmas: the listing *)

(** What is relied on of the service: the pages of one query, for as long as a
    listing takes, are consecutive slices of one list, whose length is the total
    count. *)
Class PagedVpc (W : Type) `{VA : !VpcApi W} := {
  matching : list (string * option string) → option string → list VpcVSwitch;
  paged : ∀ rq w, ∃ rid w',
    let all := matching (rq_Tag rq) (rq_VSwitchId rq) in
    DescribeVSwitches rq w =
      (Ok (Some (MkBody rid (Some (Z.of_nat (length all)))
         (Some (take (Z.to_nat (rq_PageSize rq))
                  (drop (Z.to_nat ((rq_PageNumber rq - 1) * rq_PageSize rq)) all))))), w');
}.

Definition vswitch_id (v : VpcVSwitch) : string := StringValue (VSwitchId v).
Notation collect := (collect_by vswitch_id).
Definition forget (m : gmap string Z) (v : VpcVSwitch) : gmap string Z :=
  delete (StringValue (VSwitchId v)) m.

Section listing.
Context {RT : GoRuntime} {W : Type} `{HC : !HasClock W} `{VA : !VpcApi W} `{PV : !PagedVpc W}.
Context `{TH : TermsHash}.
Notation LS := (St (DefaultProvider * gmap string VpcVSwitch) W).

(** The effect of processing [l] on the part of the state the results depend
    on: the vSwitches found, the tracked addresses, the listing cache. *)
Definition processed (l : list VpcVSwitch) (s s' : LS) : Prop :=
  (prov s').2 = foldl collect (prov s).2 l ∧
  inflightIPs (prov s').1 = foldl forget (inflightIPs (prov s).1) l ∧
  vs_cache (prov s').1 = vs_cache (prov s).1.

Lemma processed_nil s s' : prov s' = prov s → processed [] s s'.
Proof. intros H. unfold processed. by rewrite H. Qed.
Lemma processed_app l k s1 s2 s3 :
  processed l s1 s2 → processed k s2 s3 → processed (l ++ k) s1 s3.
Proof.
  unfold processed. intros (H1 & H2 & H3) (-> & -> & ->). rewrite !foldl_app. by rewrite H1, H2, H3.
Qed.

Lemma mapM_process l (s : LS) : ∃ s', mapM_ process l s = (Ok (), s') ∧ processed l s s'.
Proof.
  revert s. induction l as [|v l IH]; intros s.
  - exists s. split; [done | by apply processed_nil].
  - destruct (IH (process v s).2) as (s' & Hs' & Hp). exists s'. split; [exact Hs'|].
    by apply (processed_app [v] l s (process v s).2 s').
Qed.

Lemma describe_pages_all fuel n tags id (s : LS) (all := matching tags id) :
  (1 ≤ n)%Z → (n - 1 + Z.of_nat fuel ≤ 359)%Z →
  (Z.of_nat (length all) ≤ 50 * (n - 1 + Z.of_nat fuel))%Z →
  ∃ s', describe_pages fuel n tags id s = (Ok (), s') ∧
    processed (drop (Z.to_nat ((n - 1) * 50)) all) s s'.
Proof.
  revert n s. induction fuel as [|fuel IH]; intros n s Hn Hmax Hlen.
  { exists s. split; [done|]. rewrite drop_ge by lia. by apply processed_nil. }
  simpl. unfold mbind, M_bind, call.
  destruct (paged (MkRequest tags id 50 n) (env s)) as (rid & w' & ->). simpl. fold all.
  set (page := take (Z.to_nat 50) _).
  destruct (mapM_process page (MkSt (prov s) w')) as (s1 & -> & Hp1).
  assert (processed page s s1) as Hp2 by done. clear Hp1.
  rewrite int32_id by lia.
  destruct (_ || _) eqn:Hstop.
  - exists s1. split; [done|]. rewrite <- (take_drop (Z.to_nat 50) (drop _ all)).
    rewrite drop_drop, (drop_ge all (_ + _)); [by rewrite app_nil_r|].
    unfold page in Hstop. rewrite length_take, length_drop in Hstop.
    apply orb_true_iff in Hstop as [H%Z.ltb_lt|H%Z.ltb_lt]; lia.
  - destruct (IH (n + 1)%Z s1) as (s2 & Hs2 & Hp3); [lia..|]. exists s2. split; [done|].
    rewrite <- (take_drop (Z.to_nat 50) (drop _ all)), drop_drop.
    eapply processed_app; [done|].
    replace (Z.to_nat ((n - 1) * 50) + Z.to_nat 50)%nat with (Z.to_nat ((n + 1 - 1) * 50)) by lia.
    done.
Qed.

Definition term_matches (t : VSwitchSelectorTerm) : list VpcVSwitch :=
  matching (term_tags t) (term_id t).
Definition nodeclass_matches (nodeClass : ECSNodeClass) : list VpcVSwitch :=
  VSwitchSelectorTerms (nc_Spec nodeClass) ≫= term_matches.

Lemma describe_terms terms (s : LS) :
  (∀ t, t ∈ terms → (Z.of_nat (length (term_matches t)) ≤ 17950)%Z) →
  ∃ s', mapM_ (λ t, wrap "describing vSwitches" (describeVSwitches (term_tags t) (term_id t)))
          terms s = (Ok (), s') ∧ processed (terms ≫= term_matches) s s'.
Proof.
  revert s. induction terms as [|t terms IH]; intros s Hlen.
  - exists s. split; [done | by apply processed_nil].
  - destruct (describe_pages_all 359 1 (term_tags t) (term_id t) s) as (s1 & H1 & Hp1); [lia..| |].
    { specialize (Hlen t ltac:(left)). unfold term_matches in Hlen. lia. }
    destruct (IH s1) as (s2 & H2 & Hp2); [intros u Hu; apply Hlen; by right|].
    exists s2. split; [|by apply (processed_app _ _ s s1)].
    simpl. unfold mbind at 1, M_bind at 1, wrap at 1, describeVSwitches.
    by rewrite H1.
Qed.

Lemma lookup_forget l m k :
  foldl forget m l !! k =
  if bool_decide (k ∈ (λ v, StringValue (VSwitchId v)) <$> l) then None else m !! k.
Proof.
  revert m. induction l as [|v l IH]; intros m; [done|]. simpl. rewrite IH. unfold forget.
  destruct (decide (StringValue (VSwitchId v) = k)) as [->|Hne].
  - rewrite lookup_delete_eq. repeat case_bool_decide; set_solver.
  - rewrite lookup_delete_ne by done. repeat case_bool_decide; set_solver.
Qed.
End listing.

(** ** Properties *)

(** A [List] that is not served from the cache returns exactly the
    vSwitches matching some selector term, each once, however the service
    spreads them over pages (359 pages of 50 are read per term), and forgets the
    addresses tracked for them, the counts having just been read afresh. *)
Theorem List_complete {RT : GoRuntime} {W} `{!HasClock W} `{VA : !VpcApi W} `{PV : !PagedVpc W}
    `{TermsHash} nodeClass h (s : St DefaultProvider W) :
  hash_terms (VSwitchSelectorTerms (nc_Spec nodeClass)) = Ok h →
  cache_get (clock (env s)) h (vs_cache (prov s)) = None →
  (∀ t, t ∈ VSwitchSelectorTerms (nc_Spec nodeClass) → (Z.of_nat (length (term_matches t)) ≤ 17950)%Z) →
  identifies vswitch_id (nodeclass_matches nodeClass) →
  ∃ l s', List_ nodeClass s = (Ok l, s') ∧ NoDup l ∧
    (∀ v, v ∈ l ↔ v ∈ nodeclass_matches nodeClass) ∧
    (∀ id, inflightIPs (prov s') !! id =
       if bool_decide (id ∈ (λ v, StringValue (VSwitchId v)) <$> l) then None
       else inflightIPs (prov s) !! id).
Proof.
  intros Hh Hmiss Hlen Hid. unfold List_.
  destruct (VSwitchSelectorTerms (nc_Spec nodeClass)) as [|t0 ts] eqn:Hts.
  { exists [], s. unfold nodeclass_matches. rewrite Hts. split_and!; [done | constructor | done |].
    intros id. by rewrite bool_decide_false by by intros ?%elem_of_nil. }
  rewrite Hh, Hmiss.
  destruct (describe_terms (t0 :: ts) (MkSt (prov s, ∅) (env s)) Hlen) as (s1 & -> & Hf & Hi & _).
  destruct s1 as [[p1 found] w1]. simpl in Hf, Hi.
  unfold nodeclass_matches in *. rewrite Hts in *.
  change (term_matches t0 ++ (ts ≫= term_matches)) with ((t0 :: ts) ≫= term_matches) in *.
  eexists _, _. split_and!; [done| | |].
  - subst found. by apply NoDup_collected.
  - intros v. subst found. by apply elem_of_collected.
  - intros id. simpl. rewrite Hi, lookup_forget. apply bool_decide_if_ext.
    rewrite !list_elem_of_fmap. subst found.
    by setoid_rewrite elem_of_collected.
Qed.

(** A launch that got no instance leaves no trace: adding back the
    addresses [ZonalVSwitchesForLaunch] deducted restores the number believed
    free on every vSwitch, when all the chosen vSwitches were requested, none
    was used and their counts have not been refreshed in between. *)
Theorem UpdateInflightIPs_restores {RT : GoRuntime} now nodeClass its ct requested p zonal p'
    (vs := VSwitches (nc_Status nodeClass)) :
  NoDup (vsw_ID <$> vs) →
  ZonalVSwitchesForLaunch now nodeClass its ct p = (Ok zonal, p') →
  (∀ v, v ∈ vs → vsw_ID v ≠ "" ∧ is_Some (cache_get now (vsw_ID v) (availableIPAddressCache p))) →
  (∀ zone z, zonal !! zone = Some z → Some (Some (zv_ID z)) ∈ requested) →
  (∀ id, - 2 ^ 63 ≤ free_ips now p id < 2 ^ 63)%Z →
  ∀ id, free_ips now (UpdateInflightIPs now requested None its (map_values 5 zonal) ct p') id
        = free_ips now p id.
Proof.
  intros Hnd Hlaunch Hvs Hreq Hrange id. unfold ZonalVSwitchesForLaunch in Hlaunch. fold vs in Hlaunch.
  destruct vs as [|v0 vs0] eqn:Evs; [done|]. rewrite <- Evs in *. clear Evs v0 vs0.
  injection Hlaunch as Hz Hp'. subst zonal p'.
  set (zonal := zonal_candidates _ _ _) in *. unfold UpdateInflightIPs, free_ips at 1. simpl.
  set (back := filter _ _). set (cached := Object <$> _).
  set (deducted := foldl (deduct its ct) _ _).
  assert (deducted !! id = _) as Hded by apply (deducted_lookup now p vs Hnd its ct id).
  destruct (lo_find _ _) as [z|] eqn:Hz in Hded.
  - pose proof (lo_find_Some _ _ _ Hz) as [(v & Hb & ->)%zonal_values_elem Hid%bool_decide_eq_true].
    simpl in Hid, Hded. pose proof (best_in_zone_spec _ _ _ _ _ Hb) as (Hv & _).
    destruct (Hvs v Hv) as [Hne [n Hn]].
    erewrite (foldl_add_back_in now back its _ ct _ _ id n (launch_of now p v));
      [| apply (NoDup_map_keys 6 cached) | | | done | | exact Hded].
    + simpl. by rewrite int64_sub_add.
    + apply elem_of_range_map. unfold cached. rewrite lookup_fmap, <- cache_get_items. by subst id.
    + unfold back. apply list_elem_of_filter. split; [by intros ?%elem_of_nil|].
      apply elem_of_lo_compact. split; [|by subst id]. apply elem_of_lo_uniq, list_elem_of_fmap.
      exists (Some (Some id)). split; [done|]. subst id.
      apply (Hreq (vsw_ZoneID v) (launch_of now p v)).
      unfold zonal. by rewrite lookup_zonal, Hb.
    + simpl. subst id. by rewrite Hn.
  - rewrite lo_find_None in Hz.
    assert (lo_find (λ v, bool_decide (zv_ID v = id)) (map_values 5 zonal) = None) as Hz' by by apply lo_find_None.
    assert (foldl (add_back now back its (map_values 5 zonal) ct) deducted (range_map 6 cached) !! id
            = deducted !! id) as ->.
    { apply foldl_add_back_unlisted. done. }
    by rewrite Hded.
Qed.


End vswitch.

(** ** A concrete service *)

Module VSwitchExample.
Import vswitch.

(** Sixty vSwitches in three zones, served in two pages; the environment is the
    clock. *)
Definition inventory : list VpcVSwitch :=
  (λ i, MkVpcVSwitch (Some ("vsw-" +:+ pretty i))
          (Some ("cn-hangzhou-" +:+ pretty (i mod 3)%nat))
          (Some (Z.of_nat (100 + 7 * i)))) <$> seq 0 60.

Definition selected (tags : list (string * option string)) (id : option string) : list VpcVSwitch :=
  match id with
  | None => inventory
  | Some i => bfilter (λ v, bool_decide (StringValue (VSwitchId v) = i)) inventory
  end.

#[global] Instance example_clock : HasClock Z := id.
#[global] Instance example_vpc : VpcApi Z := λ rq now,
  let all := selected (rq_Tag rq) (rq_VSwitchId rq) in
  (Ok (Some (MkBody (Some "req") (Some (Z.of_nat (length all)))
     (Some (take (Z.to_nat (rq_PageSize rq))
              (drop (Z.to_nat ((rq_PageNumber rq - 1) * rq_PageSize rq)) all))))), (now + Second)%Z).
#[global] Program Instance example_paged : PagedVpc Z := {| matching := selected |}.
Next Obligation. intros rq w. by eexists _, _. Qed.
#[global] Instance example_hash : TermsHash := λ terms, Ok (pretty (length terms)).

Definition example_meta : ObjectMeta := MkMeta "default" "uid" ∅ ∅ [] 0 None.
Definition example_spec : ECSNodeClassSpec :=
  MkSpec [MkVSwitchTerm {["env" := "*"]} ""; MkVSwitchTerm ∅ "vsw-7"] "" [] [] None None ∅ "".
Definition example_class : ECSNodeClass :=
  MkNodeClass example_meta example_spec
    (MkStatus [MkVSwitch "vsw-1" "cn-hangzhou-1"; MkVSwitch "vsw-2" "cn-hangzhou-2";
               MkVSwitch "vsw-4" "cn-hangzhou-1"] [] [] []).
Definition example_type : InstanceType :=
  MkInstanceType "ecs.g6.large" ∅
    [MkOffering (NewRequirements [NewRequirement CapacityTypeLabelKey (SelIn ["spot"]);
                                  NewRequirement LabelTopologyZone (SelIn ["cn-hangzhou-1"])])
       MaxPrice true]
    {[ResourcePods := of_units 110]} (MkOverhead ∅ ∅ ∅).
Definition fresh : DefaultProvider := NewDefaultProvider Minute (5 * Minute).
Definition listed : DefaultProvider := prov (List_ example_class (MkSt fresh Second)).2.

(** After a listing the zone cn-hangzhou-1 gets the roomier vsw-4, which is
    charged the 110 addresses of the only type that fits. *)
Example launch_example :
  let '(r, p') := ZonalVSwitchesForLaunch (5 * Second) example_class [example_type] "spot" listed in
  match r with
  | Ok m => zv_ID <$> m !! "cn-hangzhou-1" = Some "vsw-4"
  | _ => False
  end ∧
  free_ips (5 * Second) listed "vsw-4" = 128%Z ∧ free_ips (5 * Second) p' "vsw-4" = 18%Z ∧
  free_ips (5 * Second) p' "vsw-1" = 107%Z.
Proof. vm_compute. repeat split; reflexivity. Qed.

Lemma List_complete_witness :
  ∃ l s', List_ example_class (MkSt fresh Second) = (Ok l, s') ∧ NoDup l ∧
    (∀ v, v ∈ l ↔ v ∈ nodeclass_matches example_class) ∧
    (∀ id, inflightIPs (prov s') !! id =
       if bool_decide (id ∈ (λ v, StringValue (VSwitchId v)) <$> l) then None else None).
Proof.
  apply (List_complete example_class "2" (MkSt fresh Second)).
  - vm_compute. reflexivity.
  - reflexivity.
  - intros t Ht. simpl in Ht. apply elem_of_cons in Ht as [->|[->|[]%elem_of_nil]%elem_of_cons];
      vm_compute; discriminate.
  - intros v w Hv Hw Heq.
    assert (∀ u, u ∈ nodeclass_matches example_class → u ∈ inventory) as Hinv.
    { intros u Hu. apply list_elem_of_bind in Hu as (t & Hu & _).
      unfold term_matches, matching, example_paged, selected in Hu.
      destruct (term_id t); [apply elem_of_bfilter in Hu as [_ Hu]|]; exact Hu. }
    apply (identifies_NoDup vswitch_id inventory); [decide_compute | by apply Hinv | by apply Hinv | exact Heq].
Defined.


Definition after_launch : DefaultProvider :=
  (ZonalVSwitchesForLaunch (5 * Second) example_class [example_type] "spot" listed).2.
Definition example_zonal : gmap string VSwitch :=
  match (ZonalVSwitchesForLaunch (5 * Second) example_class [example_type] "spot" listed).1 with
  | Ok m => m
  | _ => ∅
  end.

Lemma UpdateInflightIPs_restores_witness :
  free_ips (5 * Second)
    (UpdateInflightIPs (5 * Second) [Some (Some "vsw-4"); Some (Some "vsw-2")] None [example_type]
       (map_values 5 example_zonal) "spot" after_launch) "vsw-4" = 128%Z.
Proof.
  rewrite (UpdateInflightIPs_restores (5 * Second) example_class [example_type] "spot"
    [Some (Some "vsw-4"); Some (Some "vsw-2")] listed example_zonal after_launch).
  - vm_compute. reflexivity.
  - decide_compute.
  - vm_compute. reflexivity.
  - intros v Hv. simpl in Hv.
    apply elem_of_cons in Hv as [->|[->|[->|[]%elem_of_nil]%elem_of_cons]%elem_of_cons];
      (split; [discriminate | eexists; vm_compute; reflexivity]).
  - intros zone z Hz.
    assert (map_Forall (λ _ z, Some (Some (zv_ID z)) ∈ [Some (Some "vsw-4"); Some (Some "vsw-2")])
              example_zonal) as Hall by decide_compute.
    exact (Hall zone z Hz).
  - intros id. unfold free_ips.
    assert (inflightIPs listed = ∅) as -> by (vm_compute; reflexivity). rewrite lookup_empty.
    unfold cache_get.
    assert (map_Forall (λ _ it, (- 2 ^ 63 ≤ Object it < 2 ^ 63)%Z)
              (items (availableIPAddressCache listed))) as Hall
      by decide_compute.
    destruct (items (availableIPAddressCache listed) !! id) as [it|] eqn:Hit; [|simpl; lia].
    specialize (Hall id it Hit). simpl in Hall. destruct (expired _ it); simpl; lia.
Defined.

End VSwitchExample.
