(* ===== verification/SecurityGroupProvider.v ===== *)
(** * The security group provider (pkg/providers/securitygroup)

    Discovers the security groups that match the selector terms of a NodeClass:
    one query per term, each read to its last page, the results indexed by
    group ID and cached under the hash of the queries.  The ECS service is a
    parameter ([EcsGroups]); so is the structural hash. *)

From S2P Require Import Prelude Effects GoCache Labels Scheduling CloudTypes Apis.

Module securitygroup.

(** ** The ECS service *)

(** The group of the response, the fields read. *)
Record EcsSecurityGroup := MkEcsGroup {
  SecurityGroupId : option string;
  SecurityGroupName : option string;
}.

(** [ecs.DescribeSecurityGroupsRequest], the filters set by [getFilterSets]. *)
Record FilterSet := MkFilter {
  fs_SecurityGroupId : option string;
  fs_SecurityGroupName : option string;
  fs_Tag : list (string * option string);
}.

Record GroupsBody := MkGroupsBody {
  gb_RequestId : option string;
  gb_NextToken : option string;
  gb_SecurityGroups : option (list EcsSecurityGroup);
}.

(** A query is a filter and the token of the page asked for. *)
Class EcsGroups (W : Type) :=
  DescribeSecurityGroups : FilterSet → option string → W → result (option GroupsBody) * W.

(** [hashstructure.Hash] of the queries, printed in decimal. *)
Class FiltersHash := hash_filters : list FilterSet → result string.

(** ** State *)

Record DefaultProvider := MkProvider { sg_cache : cache (list EcsSecurityGroup) }.
Definition NewDefaultProvider (ttl : Z) : DefaultProvider := MkProvider (cache_new ttl).

Definition group_id (g : EcsSecurityGroup) : string := StringValue (SecurityGroupId g).

Section list.
Context {RT : GoRuntime} {W : Type} `{HC : !HasClock W} `{EG : !EcsGroups W} `{FH : FiltersHash}.

(** An ID wins over a name, a name over the tags; the value "*" of a tag
    stands for any value. *)
Definition filter_of (t : SecurityGroupSelectorTerm) : FilterSet :=
  if bool_decide (sgt_ID t ≠ "") then MkFilter (Some (sgt_ID t)) None []
  else if bool_decide (sgt_Name t ≠ "") then MkFilter None (Some (sgt_Name t)) []
  else MkFilter None None
         ((λ kv : string * string, (kv.1, if bool_decide (kv.2 = "*") then None else Some kv.2))
            <$> range_map 40 (sgt_Tags t)).
Definition getFilterSets (terms : list SecurityGroupSelectorTerm) : list FilterSet :=
  filter_of <$> terms.

(** The groups collected so far go with the clock and the service. *)
Notation LS := (St (gmap string EcsSecurityGroup) W).

Definition process (g : EcsSecurityGroup) : M LS () :=
  modify (λ s, MkSt (collect_by group_id (prov s) g) (env s)).

Definition null_response : error := ErrorString "unexpected null value was returned".

(** The token loop, [fuel] pages at most (running out of fuel is not
    returning). *)
Fixpoint describe_pages (fuel : nat) (filter : FilterSet) (token : option string) : M LS () :=
  match fuel with
  | O => lift Panic
  | S fuel' =>
      output ← call (DescribeSecurityGroups filter token);
      match output with
      | None => fail null_response
      | Some body =>
          match gb_SecurityGroups body with
          | None => fail (WrapError ("requestId: " +:+ StringValue (gb_RequestId body)) null_response)
          | Some groups =>
              _ ← mapM_ process groups;
              match gb_NextToken body, groups with
              | None, _ | Some "", _ | _, [] => mret ()
              | Some t, _ => describe_pages fuel' filter (Some t)
              end
          end
      end
  end.
Definition describeSecurityGroups (fuel : nat) (filter : FilterSet) : M LS () :=
  describe_pages fuel filter None.

Definition getSecurityGroups (fuel : nat) (filterSets : list FilterSet)
    : M (St DefaultProvider W) (list EcsSecurityGroup) := λ s,
  match hash_filters filterSets with
  | Err e => (Err e, s)
  | Panic => (Panic, s)
  | Ok h =>
      match cache_get (clock (env s)) h (sg_cache (prov s)) with
      | Some groups => (Ok groups, s)
      | None =>
          let '(r, s') :=
            mapM_ (λ f, wrap "describing security groups" (describeSecurityGroups fuel f)) filterSets
              (MkSt ∅ (env s)) in
          match r with
          | Ok _ =>
              (Ok (map_values 42 (prov s')),
               MkSt (MkProvider (cache_set_default (clock (env s')) h (map_values 41 (prov s'))
                       (sg_cache (prov s)))) (env s'))
          | Err e => (Err e, MkSt (prov s) (env s'))
          | Panic => (Panic, MkSt (prov s) (env s'))
          end
      end
  end.

(** The IDs are dereferenced for the change log. *)
Definition List_ (fuel : nat) (nodeClass : ECSNodeClass)
    : M (St DefaultProvider W) (list EcsSecurityGroup) :=
  groups ← getSecurityGroups fuel (getFilterSets (SecurityGroupSelectorTerms (nc_Spec nodeClass)));
  _ ← lift (rmapM (λ g, deref (SecurityGroupId g)) groups);
  mret groups.
End list.

(** ** Lemmas *)

Section listing.
Context {RT : GoRuntime} {W : Type} `{HC : !HasClock W} `{EG : !EcsGroups W} `{FH : FiltersHash}.
Notation LS := (St (gmap string EcsSecurityGroup) W).

(** The service answers a query, starting with a token, by [n] pages that hold
    the groups [l]. *)
Inductive pages_from (f : FilterSet) : option string → W → nat → list EcsSecurityGroup → W → Prop :=
  | Groups_last tok w rid next l w' :
      DescribeSecurityGroups f tok w = (Ok (Some (MkGroupsBody rid next (Some l))), w') →
      next = None ∨ next = Some "" ∨ l = [] → pages_from f tok w 1 l w'
  | Groups_next tok w rid t l w' n l' w'' :
      DescribeSecurityGroups f tok w = (Ok (Some (MkGroupsBody rid (Some t) (Some l))), w') →
      t ≠ "" → l ≠ [] → pages_from f (Some t) w' n l' w'' →
      pages_from f tok w (S n) (l ++ l') w''.

(** The queries, one after the other, with at most [n] pages each. *)
Inductive answers (n : nat) : list FilterSet → W → list EcsSecurityGroup → W → Prop :=
  | Answers_nil w : answers n [] w [] w
  | Answers_cons f fs w k l w' l' w'' :
      pages_from f None w k l w' → k ≤ n → answers n fs w' l' w'' →
      answers n (f :: fs) w (l ++ l') w''.

Lemma mapM_process_groups l m (w : W) :
  mapM_ process l (MkSt m w) = (Ok (), MkSt (foldl (collect_by group_id) m l) w).
Proof. revert m. induction l as [|g l IH]; intros m; [done|]. apply IH. Qed.

Lemma describe_pages_complete f tok w n l w' :
  pages_from f tok w n l w' → ∀ fuel m, n ≤ fuel →
  describe_pages fuel f tok (MkSt m w) = (Ok (), MkSt (foldl (collect_by group_id) m l) w').
Proof.
  induction 1 as [tok w rid next l w' Hd Hend | tok w rid t l w' n l' w'' Hd Ht Hl _ IH];
    intros [|fuel] m Hf; try lia; cbn [describe_pages];
    rewrite (M_Ok_bind _ _ _ _ _ (call_run _ m w _ w' Hd)); cbn [gb_SecurityGroups gb_NextToken];
    rewrite (M_Ok_bind _ _ _ _ _ (mapM_process_groups l m w')).
  - destruct Hend as [-> | [-> | ->]]; [done..|]. by destruct next as [[]|].
  - rewrite foldl_app, <- (IH fuel) by lia. by destruct t, l.
Qed.

Lemma describe_all_complete n fs w l w' :
  answers n fs w l w' → ∀ m,
  mapM_ (λ f, wrap "describing security groups" (describeSecurityGroups n f)) fs (MkSt m w)
    = (Ok (), MkSt (foldl (collect_by group_id) m l) w').
Proof.
  induction 1 as [w|f fs w k l w' l' w'' Hp Hk _ IH]; intros m; [done|]. cbn [mapM_].
  rewrite (M_Ok_bind _ _ _ () (MkSt (foldl (collect_by group_id) m l) w')).
  - by rewrite IH, foldl_app.
  - apply wrap_Ok. by apply (describe_pages_complete f None w k l w').
Qed.
End listing.

(** ** Properties *)

(** A listing that the cache does not answer reads every page of
    every query and returns each matching group once, whatever the number of
    pages; the groups are cached, so that the same selection is answered without
    a query, with the same groups, until the entry expires. *)
Theorem List_all_groups {RT : GoRuntime} {W} `{HC : !HasClock W} `{EG : !EcsGroups W} `{FH : FiltersHash}
    nodeClass h fuel p (w w' : W) found
    (filters := getFilterSets (SecurityGroupSelectorTerms (nc_Spec nodeClass))) :
  hash_filters filters = Ok h →
  cache_get (clock w) h (sg_cache p) = None →
  answers fuel filters w found w' →
  identifies group_id found → (∀ g, g ∈ found → is_Some (SecurityGroupId g)) →
  (0 ≤ clock w')%Z → (0 < defaultExpiration (sg_cache p))%Z →
  ∃ l p', List_ fuel nodeClass (MkSt p w) = (Ok l, MkSt p' w') ∧
    NoDup (group_id <$> l) ∧ (∀ g, g ∈ l ↔ g ∈ found) ∧
    ∀ w2, (clock w' ≤ clock w2 ≤ clock w' + defaultExpiration (sg_cache p))%Z →
      ∃ l2, List_ fuel nodeClass (MkSt p' w2) = (Ok l2, MkSt p' w2) ∧ l2 ≡ₚ l.
Proof.
  intros Hh Hmiss Hans Hid Hsome Hclock Hd.
  set (m := foldl (collect_by group_id) ∅ found).
  assert (∀ site, ∃ ids, rmapM (λ g, deref (SecurityGroupId g)) (map_values site m) = Ok ids) as Hids.
  { intros site. eexists. apply (rmapM_Ok _ group_id). intros g Hg.
    apply elem_of_collected in Hg; [|done]. destruct (Hsome g Hg) as [id Hg']. unfold group_id. by rewrite Hg'. }
  exists (map_values 42 m), (MkProvider (cache_set_default (clock w') h (map_values 41 m) (sg_cache p))).
  split_and!.
  - unfold List_, getSecurityGroups. fold filters. unfold mbind at 1, M_bind at 1. rewrite Hh.
    cbn [env prov]. rewrite Hmiss, (describe_all_complete _ _ _ _ _ Hans). fold m.
    destruct (Hids 42%nat) as [ids Hi]. unfold mbind at 1, M_bind at 1, lift. cbn [prov env]. by rewrite Hi.
  - apply NoDup_collected_keys.
  - intros g. by apply elem_of_collected.
  - intros w2 Hw2. exists (map_values 41 m). split.
    + unfold List_, getSecurityGroups. fold filters. unfold mbind at 1, M_bind at 1. rewrite Hh.
      cbn [env prov sg_cache]. rewrite cache_get_set_default_eq by done.
      rewrite (proj2 (Z.ltb_ge _ _)) by lia.
      destruct (Hids 41%nat) as [ids Hi]. unfold mbind at 1, M_bind at 1, lift. by rewrite Hi.
    + unfold map_values. by rewrite !range_map_perm.
Qed.

End securitygroup.

(** ** A concrete service *)

Module SecurityGroupExample.
Import securitygroup.

#[global] Instance groups_clock : HasClock Z := id.
#[global] Instance groups_hash : FiltersHash := λ fs, Ok (pretty (length fs)).
Definition group (n : string) : EcsSecurityGroup := MkEcsGroup (Some ("sg-" +:+ n)) (Some n).
(** The group of an ID query; a tag query has two pages. *)
#[global] Instance groups_ecs : EcsGroups Z := λ f tok w,
  (Ok (Some match fs_SecurityGroupId f, tok with
            | Some id, _ => MkGroupsBody None (Some "") (Some [group "b"])
            | None, None => MkGroupsBody None (Some "t") (Some [group "a"; group "b"])
            | None, Some _ => MkGroupsBody None None (Some [group "c"])
            end), (w + 1)%Z).
Definition class : ECSNodeClass :=
  MkNodeClass (MkMeta "default" "uid" ∅ ∅ [] 0 None)
    (MkSpec [] "" [MkSGTerm {["karpenter" := "*"]} "" ""; MkSGTerm ∅ "sg-b" "ignored"] [] None None ∅ "")
    (MkStatus [] [] [] []).
Definition start : DefaultProvider := NewDefaultProvider Minute.
Definition found : list EcsSecurityGroup := [group "a"; group "b"; group "c"; group "b"].

Example filters_example :
  getFilterSets (SecurityGroupSelectorTerms (nc_Spec class)) =
  [MkFilter None None [("karpenter", None)]; MkFilter (Some "sg-b") None []].
Proof. vm_compute. reflexivity. Qed.

Lemma found_answers :
  answers 2 (getFilterSets (SecurityGroupSelectorTerms (nc_Spec class))) Second found (Second + 3)%Z.
Proof.
  rewrite filters_example.
  apply (Answers_cons 2 _ _ _ 2 [group "a"; group "b"; group "c"] (Second + 2)%Z [group "b"]); [|lia|].
  - apply (Groups_next _ None Second None "t" [group "a"; group "b"] (Second + 1)%Z 1 [group "c"]);
      [reflexivity | discriminate | discriminate |].
    eapply (Groups_last _ (Some "t")); [reflexivity | by left].
  - apply (Answers_cons 2 _ _ _ 1 [group "b"] (Second + 3)%Z []); [|lia|apply Answers_nil].
    eapply (Groups_last _ None); [reflexivity | by right; left].
Qed.

Lemma List_all_groups_witness :
  ∃ l p', List_ 2 class (MkSt start Second) = (Ok l, MkSt p' (Second + 3)%Z) ∧
    (∀ g, g ∈ l ↔ g ∈ found).
Proof.
  destruct (List_all_groups class "2" 2 start Second (Second + 3)%Z found) as (l & p' & H & _ & Hl & _).
  - vm_compute. reflexivity.
  - reflexivity.
  - exact found_answers.
  - intros v w Hv Hw Heq.
    apply (identifies_NoDup group_id [group "a"; group "b"; group "c"]); [decide_compute| | |exact Heq];
      unfold found in *; set_solver.
  - intros g Hg. unfold found in Hg.
    repeat (apply elem_of_cons in Hg as [->|Hg]; [by eexists|]). by apply elem_of_nil in Hg.
  - vm_compute. discriminate.
  - vm_compute. reflexivity.
  - exists l, p'. split; [exact H | exact Hl].
Defined.
End SecurityGroupExample.
