(* ===== verification/InstanceTypeCalc.v ===== *)
(** * From an ECS instance type to a karpenter instance type
      (pkg/providers/instancetype/types.go)

    The translation of one entry of the ECS catalogue: its labels
    ([computeRequirements]), capacity ([computeCapacity]) and reserved overhead
    ([calculateResourceOverhead]).  The floating-point computations are the IEEE
    ones of the source, and the printed [float32] fields go through [GoFormat]. *)

From S2P Require Import Prelude Effects GoText Floats GoFormat Labels Scheduling CloudTypes Apis.

Module instancetype.

(** [DescribeInstanceTypesResponseBodyInstanceTypesInstanceType], the fields
    read.  [float32] fields hold single-precision values. *)
Record InstanceTypeInfo := MkInfo {
  InstanceTypeId : option string;
  CpuArchitecture : option string;
  CpuCoreCount : option Z;
  MemorySize : option float32;
  GPUAmount : option Z;
  GPUSpec : option string;
  GPUMemorySize : option float32;
  PhysicalProcessorModel : option string;
  EniQuantity : option Z;
  EniPrivateIpAddressQuantity : option Z;
  InstanceBandwidthRx : option Z;
  InstanceBandwidthTx : option Z;
}.

Definition GiBMiBRatio : Z := 1024.
Definition MiBByteRatio : Z := 1024 * 1024.
Definition TerwayMinENIRequirements : Z := 11.
Definition BaseHostNetworkPods : Z := 3.
Definition FlannelDefaultPods : Z := 256.
Definition ClusterCNITypeTerway : string := "terway-eniip".
Definition ClusterCNITypeFlannel : string := "Flannel".
Definition DefaultSystemDiskSize : Z := 20.

Record ZoneData := MkZoneData { zd_ID : string; zd_Available : bool; zd_SpotAvailable : bool }.

(** [createOffering]: a price and an availability for one capacity type in one
    zone, whose identifier is the zone's name. *)
Definition createOffering (zone capacityType : string) (p : price) (available : bool) : Offering :=
  MkOffering (NewRequirements [NewRequirement CapacityTypeLabelKey (SelIn [capacityType]);
                               NewRequirement LabelTopologyZone (SelIn [zone]);
                               NewRequirement LabelTopologyZoneID (SelIn [zone])]) p available.

(** ** Overhead *)

(** Quantities with the binary suffixes the code prints: mebibytes, and
    millionths of a gibibyte (the six decimals of verb f). *)
Definition of_MiB (n : Z) : Quantity := of_units (n * MiBByteRatio).
Definition of_microGiB (n : Z) : Quantity := (n * 2 ^ 30 * 1000)%Z.

Definition thresholds : list (Z * float64) :=
  [(1000, decimal 6 100); (2000, decimal 1 100); (3000, decimal 5 1000); (4000, decimal 5 1000)]%Z.

Definition calculateCPUOverhead (cpuM : Z) : Z :=
  let base := foldl (λ acc t,
    if (t.1 <=? cpuM)%Z then int64 (acc + int64_of_float (fmul (float64_of_Z 1000) t.2)) else acc)
    0%Z thresholds in
  if (4000 <? cpuM)%Z
  then int64 (base + int64_of_float (fmul (float64_of_Z (int64 (cpuM - 4000))) (decimal 25 10000)))
  else base.

Definition memoryOverhead (pods memoryMi : Z) : Z :=
  int64 (int64_of_float (fmin (float64_of_Z (int64 (11 * pods + 255)))
                              (fmul (float64_of_Z memoryMi) (decimal 25 100))) + 200).

Definition calculateResourceOverhead (pods cpuM memoryMi : Z) : ResourceList :=
  {[ResourceCPU := of_milli (calculateCPUOverhead cpuM);
    ResourceMemory := of_MiB (memoryOverhead pods memoryMi)]}.

(** ** Labels *)

Definition extractECSArch (unFormatedArch : string) : string :=
  if bool_decide (unFormatedArch = "X86") then "amd64"
  else if bool_decide (unFormatedArch = "ARM") then "arm64"
  else "amd64".

Definition lowerKabobCase (s : string) : string :=
  let ret := str_replace_char " " "-" s in
  let ret := str_replace_char "/" "-" ret in
  str_lower (str_replace_char "*" "-" ret).

Definition getGPUManufacturer (gpuName : string) : string :=
  match str_split " " gpuName with h :: _ => h | [] => "" end.

Definition getCPUModel (cpuName : string) : string :=
  if str_contains cpuName ECSAMDCPUModelValue then str_lower ECSAMDCPUModelValue
  else if str_contains cpuName ECSIntelCPUModelValue then str_lower ECSIntelCPUModelValue
  else "".

(** The regular expression [instanceTypeScheme]: the prefix "ecs.", a run of
    lower-case letters, optionally a dash, digits and "tb", then digits.  The
    classes of adjacent parts are disjoint, so the greedy match needs no
    backtracking. *)
Definition is_lower (a : ascii) : bool :=
  let n := N_of_ascii a in (97 <=? n)%N && (n <=? 122)%N.
Definition is_digit (a : ascii) : bool :=
  let n := N_of_ascii a in (48 <=? n)%N && (n <=? 57)%N.
Definition nonempty (s : string) : option string := if bool_decide (s = "") then None else Some s.
Definition scheme_tb (s : string) : option string :=
  r ← strip_prefix "-" s;
  let '(ds, r) := span is_digit r in
  _ ← nonempty ds;
  strip_prefix "tb" r.

(** The category and the generation of an instance type name. *)
Definition instanceTypeScheme (s : string) : option (string * string) :=
  r ← strip_prefix "ecs." s;
  let '(letters, r) := span is_lower r in
  category ← nonempty letters;
  generation ← nonempty (span is_digit (default r (scheme_tb r))).1;
  Some (category, generation).

(** [requirements.Get(key).Insert(v)] on a key that is present: the
    requirement is shared with the map. *)
Definition insert_value (key v : string) (reqs : Requirements) : Requirements :=
  match reqs !! key with
  | Some r => <[key := Insert r [v]]> reqs
  | None => reqs
  end.

(** The memory label: the size in MiB, printed as a [float32]. *)
Definition memoryLabel (info : InstanceTypeInfo) : string :=
  sprint_float32 (fmul32 (default (float32_of_Z 0) (MemorySize info)) (float32_of_Z GiBMiBRatio)).

Section compute.
Context {RT : GoRuntime}.

Definition base_requirements (info : InstanceTypeInfo) (zones capacityTypes : list string)
    (region : string) : Requirements :=
  NewRequirements [
    NewRequirement LabelInstanceTypeStable (SelIn [StringValue (InstanceTypeId info)]);
    NewRequirement LabelArchStable (SelIn [extractECSArch (StringValue (CpuArchitecture info))]);
    NewRequirement LabelOSStable (SelIn ["linux"]);
    NewRequirement LabelTopologyZone (SelIn zones);
    NewRequirement LabelTopologyRegion (SelIn [region]);
    NewRequirement LabelWindowsBuild SelDoesNotExist;
    NewRequirement CapacityTypeLabelKey (SelIn capacityTypes);
    NewRequirement LabelInstanceCPU (SelIn [pretty (IntValue (CpuCoreCount info))]);
    NewRequirement LabelInstanceCPUModel SelDoesNotExist;
    NewRequirement LabelInstanceMemory (SelIn [memoryLabel info]);
    NewRequirement LabelInstanceCategory SelDoesNotExist;
    NewRequirement LabelInstanceFamily SelDoesNotExist;
    NewRequirement LabelInstanceGeneration SelDoesNotExist;
    NewRequirement LabelInstanceSize SelDoesNotExist;
    NewRequirement LabelInstanceGPUName SelDoesNotExist;
    NewRequirement LabelInstanceGPUManufacturer SelDoesNotExist;
    NewRequirement LabelInstanceGPUCount SelDoesNotExist;
    NewRequirement LabelInstanceGPUMemory SelDoesNotExist].

Definition any_of (key : string) (o : Offering) : result string := Any (Get (off_Requirements o) key).

Definition add_zone_ids (zoneIDs : list string) (reqs : Requirements) : Requirements :=
  match bfilter (λ z, negb (bool_decide (z = ""))) zoneIDs with
  | [] => reqs
  | ids => Add1 reqs (NewRequirement LabelTopologyZoneID (SelIn ids))
  end.

Definition add_scheme (id : string) (reqs : Requirements) : Requirements :=
  match instanceTypeScheme id with
  | Some (category, generation) =>
      insert_value LabelInstanceGeneration generation (insert_value LabelInstanceCategory category reqs)
  | None => reqs
  end.

Definition add_family (id : string) (reqs : Requirements) : Requirements :=
  match str_split "." id with
  | [a; b; c] => insert_value LabelInstanceSize c (insert_value LabelInstanceFamily (a +:+ "." +:+ b) reqs)
  | _ => reqs
  end.

Definition add_gpu (info : InstanceTypeInfo) (reqs : Requirements) : Requirements :=
  if (IntValue (GPUAmount info) =? 0)%Z then reqs
  else
    let spec := StringValue (GPUSpec info) in
    insert_value LabelInstanceGPUMemory
      (sprint_float32 (default (float32_of_Z 0) (GPUMemorySize info)))
      (insert_value LabelInstanceGPUCount (pretty (IntValue (GPUAmount info)))
        (insert_value LabelInstanceGPUManufacturer (getGPUManufacturer spec)
          (insert_value LabelInstanceGPUName (lowerKabobCase spec) reqs))).

Definition add_cpu_model (info : InstanceTypeInfo) (reqs : Requirements) : Requirements :=
  match PhysicalProcessorModel info with
  | Some model => insert_value LabelInstanceCPUModel (getCPUModel model) reqs
  | None => reqs
  end.

Definition computeRequirements (info : InstanceTypeInfo) (offerings : list Offering)
    (region : string) : result Requirements :=
  zones ← rmapM (any_of LabelTopologyZone) (Available offerings);
  capacityTypes ← rmapM (any_of CapacityTypeLabelKey) (Available offerings);
  zoneIDs ← rmapM (any_of LabelTopologyZoneID) (Available offerings);
  let id := StringValue (InstanceTypeId info) in
  Ok (add_cpu_model info (add_gpu info (add_family id (add_scheme id
        (add_zone_ids zoneIDs (base_requirements info zones capacityTypes region)))))).
End compute.

(** ** Capacity *)

Definition cpu (info : InstanceTypeInfo) : result Quantity :=
  n ← deref (CpuCoreCount info); Ok (of_units n).

Definition extractMemory (info : InstanceTypeInfo) : result Quantity :=
  n ← deref (micros (default (float32_of_Z 0) (MemorySize info))); Ok (of_microGiB n).

Definition memory (VMMemoryOverheadPercent : float64) (info : InstanceTypeInfo) : result Quantity :=
  mem ← extractMemory info;
  if QIsZero mem then Ok mem
  else
    let overhead := int64_of_ceil (fdiv (fmul (float64_of_Z (QValue mem)) VMMemoryOverheadPercent)
                                        (float64_of_Z MiBByteRatio)) in
    Ok (mem - of_MiB overhead)%Z.

Definition eniPods (info : InstanceTypeInfo) : Z :=
  int32 (int32 (IntValue (EniQuantity info) - 1) * IntValue (EniPrivateIpAddressQuantity info)).

Definition pods (info : InstanceTypeInfo) (maxPods podsPerCore : option Z) (clusterCNI : string)
    : Quantity :=
  let count := match maxPods with
               | Some n => n
               | None =>
                   if bool_decide (clusterCNI = ClusterCNITypeTerway)
                   then int32 (eniPods info + BaseHostNetworkPods)
                   else if bool_decide (clusterCNI = ClusterCNITypeFlannel) then FlannelDefaultPods
                   else KubeletMaxPods
               end in
  let count := if (0 <? IntValue podsPerCore)%Z
               then Z.min (int32 (IntValue podsPerCore * IntValue (CpuCoreCount info))) count
               else count in
  of_units count.

Definition gpus_of (manufacturer : string) (info : InstanceTypeInfo) : result Quantity :=
  spec ← deref (GPUSpec info);
  if bool_decide (str_lower (getGPUManufacturer spec) = manufacturer)
  then n ← deref (GPUAmount info); Ok (of_units n)
  else Ok 0%Z.
Definition nvidiaGPUs (info : InstanceTypeInfo) : result Quantity := gpus_of "nvidia" info.
Definition amdGPUs (info : InstanceTypeInfo) : result Quantity := gpus_of "amd" info.

(** "%dG": decimal gigabytes. *)
Definition ephemeralStorage (systemDisk : option SystemDisk) : result Quantity :=
  size ← match systemDisk with
         | None => Ok DefaultSystemDiskSize
         | Some d => deref (sd_Size d)
         end;
  Ok (of_units (size * 10 ^ 9)).

Definition privateIPv4Address (info : InstanceTypeInfo) : result Quantity :=
  a ← deref (EniPrivateIpAddressQuantity info);
  b ← deref (EniQuantity info);
  Ok (of_units (int32 (a * b))).

Definition getInstanceBandwidth (info : InstanceTypeInfo) : Z :=
  Z.max (IntValue (InstanceBandwidthRx info)) (IntValue (InstanceBandwidthTx info)).

Definition computeCapacity (pct : float64) (info : InstanceTypeInfo) (maxPods podsPerCore : option Z)
    (systemDisk : option SystemDisk) (clusterCNI : string) : result ResourceList :=
  c ← cpu info;
  m ← memory pct info;
  s ← ephemeralStorage systemDisk;
  n ← nvidiaGPUs info;
  a ← amdGPUs info;
  Ok {[ResourceCPU := c; ResourceMemory := m; ResourceEphemeralStorage := s;
       ResourcePods := pods info maxPods podsPerCore clusterCNI;
       ResourceNVIDIAGPU := n; ResourceAMDGPU := a]}.

Definition windows_requirements : Requirements :=
  NewRequirements [NewRequirement LabelOSStable (SelIn ["windows"])].

Section new_instance_type.
Context {RT : GoRuntime}.

(** [NewInstanceType]: no offering, no instance type. *)
Definition NewInstanceType (pct : float64) (info : InstanceTypeInfo) (kc : KubeletConfiguration)
    (region : string) (systemDisk : option SystemDisk) (offerings : list Offering)
    (clusterCNI : string) : result (option InstanceType) :=
  match offerings with
  | [] => Ok None
  | _ =>
      name ← deref (InstanceTypeId info);
      reqs ← computeRequirements info offerings region;
      capacity ← computeCapacity pct info (kc_MaxPods kc) (kc_PodsPerCore kc) systemDisk clusterCNI;
      mem ← extractMemory info;
      let overhead := calculateResourceOverhead (QValue (rl_get capacity ResourcePods))
                        (QMilliValue (rl_get capacity ResourceCPU))
                        (Z.quot (QValue mem) MiBByteRatio) in
      capacity ←
        (if Compatible reqs windows_requirements ∅
         then ips ← privateIPv4Address info; Ok (<[ResourcePrivateIPv4Address := ips]> capacity)
         else Ok capacity);
      Ok (Some (MkInstanceType name reqs offerings capacity (MkOverhead overhead ∅ ∅)))
  end.
End new_instance_type.

(** ** Lemmas: labels *)

Definition base_keys : list string :=
  [LabelInstanceTypeStable; LabelArchStable; LabelOSStable; LabelTopologyZone; LabelTopologyRegion;
   LabelWindowsBuild; CapacityTypeLabelKey; LabelInstanceCPU; LabelInstanceCPUModel;
   LabelInstanceMemory; LabelInstanceCategory; LabelInstanceFamily; LabelInstanceGeneration;
   LabelInstanceSize; LabelInstanceGPUName; LabelInstanceGPUManufacturer; LabelInstanceGPUCount;
   LabelInstanceGPUMemory].

Lemma base_keys_NoDup : NoDup base_keys.
Proof. decide_compute. Qed.

(** The requirements that scheduling relies on, looked up. *)
Definition scheduling_labels (info : InstanceTypeInfo) (zones cts : list string)
    (reqs : Requirements) : Prop :=
  reqs !! LabelInstanceTypeStable =
    Some (NewRequirement LabelInstanceTypeStable (SelIn [StringValue (InstanceTypeId info)])) ∧
  reqs !! LabelArchStable =
    Some (NewRequirement LabelArchStable (SelIn [extractECSArch (StringValue (CpuArchitecture info))])) ∧
  reqs !! LabelOSStable = Some (NewRequirement LabelOSStable (SelIn ["linux"])) ∧
  reqs !! LabelTopologyZone = Some (NewRequirement LabelTopologyZone (SelIn zones)) ∧
  reqs !! CapacityTypeLabelKey = Some (NewRequirement CapacityTypeLabelKey (SelIn cts)).

Lemma base_requirements_labels info zones cts region :
  scheduling_labels info zones cts (base_requirements info zones cts region).
Proof.
  unfold scheduling_labels, base_requirements. split_and!;
    lazymatch goal with |- NewRequirements ?l !! _ = Some ?q =>
      refine (NewRequirements_lookup l q base_keys_NoDup _) end;
    by repeat first [left | right].
Qed.

Lemma insert_value_lookup_ne key v reqs k :
  key ≠ k → insert_value key v reqs !! k = reqs !! k.
Proof. intros Hne. unfold insert_value. destruct (reqs !! key); [by rewrite lookup_insert_ne|done]. Qed.

(** The refinements of the labels do not touch the labels scheduling relies on. *)
Definition untouched (k : string) : Prop :=
  k ∉ [LabelInstanceCategory; LabelInstanceGeneration; LabelInstanceFamily; LabelInstanceSize;
       LabelInstanceGPUName; LabelInstanceGPUManufacturer; LabelInstanceGPUCount;
       LabelInstanceGPUMemory; LabelInstanceCPUModel; LabelTopologyZoneID].
#[global] Instance untouched_dec k : Decision (untouched k).
Proof. unfold untouched. apply _. Defined.

Lemma add_zone_ids_lookup_ne zoneIDs reqs k :
  k ≠ LabelTopologyZoneID → add_zone_ids zoneIDs reqs !! k = reqs !! k.
Proof.
  intros Hk. unfold add_zone_ids. destruct (bfilter _ _) as [|z l]; [done|]. unfold Add1.
  destruct (reqs !! Key _); rewrite lookup_insert_ne; try done.
  by rewrite Intersection_Key.
Qed.

Lemma refined_lookup info zoneIDs id reqs k :
  untouched k →
  add_cpu_model info (add_gpu info (add_family id (add_scheme id (add_zone_ids zoneIDs reqs)))) !! k
  = reqs !! k.
Proof.
  unfold untouched. intros Hk. rewrite !not_elem_of_cons in Hk. destruct_and! Hk.
  unfold add_cpu_model, add_gpu, add_family, add_scheme.
  destruct (PhysicalProcessorModel info), (_ =? 0)%Z, (str_split _ id) as [|? [|? [|? [|]]]],
    (instanceTypeScheme id) as [[]|];
    rewrite ?insert_value_lookup_ne by done; by apply add_zone_ids_lookup_ne.
Qed.

Lemma refined_labels info zoneIDs id zones cts reqs :
  scheduling_labels info zones cts reqs →
  scheduling_labels info zones cts
    (add_cpu_model info (add_gpu info (add_family id (add_scheme id (add_zone_ids zoneIDs reqs))))).
Proof.
  unfold scheduling_labels. intros (H1 & H2 & H3 & H4 & H5).
  rewrite !refined_lookup by decide_compute. done.
Qed.

(** ** Lemmas: offerings *)

Lemma offering_keys_NoDup : NoDup [CapacityTypeLabelKey; LabelTopologyZone; LabelTopologyZoneID].
Proof. decide_compute. Qed.

Lemma createOffering_lookup zone ct p a k :
  off_Requirements (createOffering zone ct p a) !! k =
  if bool_decide (k = CapacityTypeLabelKey) then Some (NewRequirement CapacityTypeLabelKey (SelIn [ct]))
  else if bool_decide (k = LabelTopologyZone) then Some (NewRequirement LabelTopologyZone (SelIn [zone]))
  else if bool_decide (k = LabelTopologyZoneID) then Some (NewRequirement LabelTopologyZoneID (SelIn [zone]))
  else None.
Proof.
  unfold createOffering. simpl off_Requirements. repeat case_bool_decide.
  - subst. apply (NewRequirements_lookup _ (NewRequirement CapacityTypeLabelKey (SelIn [ct])));
      [apply offering_keys_NoDup | left].
  - subst. apply (NewRequirements_lookup _ (NewRequirement LabelTopologyZone (SelIn [zone])));
      [apply offering_keys_NoDup | right; left].
  - subst. apply (NewRequirements_lookup _ (NewRequirement LabelTopologyZoneID (SelIn [zone])));
      [apply offering_keys_NoDup | right; right; left].
  - apply NewRequirements_lookup_None; [apply offering_keys_NoDup|].
    change (k ∉ [CapacityTypeLabelKey; LabelTopologyZone; LabelTopologyZoneID]).
    rewrite !not_elem_of_cons. split_and!; [done..|by intros ?%elem_of_nil].
Qed.

Lemma createOffering_single_valued zone ct p a :
  single_valued (off_Requirements (createOffering zone ct p a)).
Proof.
  intros k x. rewrite createOffering_lookup.
  repeat case_bool_decide; intros [= <-]; eexists; apply single_NewRequirement.
Qed.

Lemma any_of_zone {RT : GoRuntime} zone ct p a :
  any_of LabelTopologyZone (createOffering zone ct p a) = Ok zone.
Proof. unfold any_of, Get. rewrite createOffering_lookup. simpl. apply single_Any, single_NewRequirement. Qed.
Lemma any_of_zone_id {RT : GoRuntime} zone ct p a :
  any_of LabelTopologyZoneID (createOffering zone ct p a) = Ok zone.
Proof. unfold any_of, Get. rewrite createOffering_lookup. simpl. apply single_Any, single_NewRequirement. Qed.
Lemma any_of_capacity_type {RT : GoRuntime} zone ct p a :
  any_of CapacityTypeLabelKey (createOffering zone ct p a) = Ok ct.
Proof. unfold any_of, Get. rewrite createOffering_lookup. simpl. apply single_Any, single_NewRequirement. Qed.

(** The arguments of [createOffering], and the offerings made of a list of them. *)
Record Offer := MkOffer { of_zone : string; of_ct : string; of_price : price; of_avail : bool }.
Definition offer (q : Offer) : Offering := createOffering (of_zone q) (of_ct q) (of_price q) (of_avail q).

Lemma Available_offers qs : Available (offer <$> qs) = offer <$> bfilter of_avail qs.
Proof.
  unfold Available. induction qs as [|q qs IH]; [done|].
  rewrite fmap_cons, !bfilter_cons. simpl. rewrite IH. by destruct (of_avail q).
Qed.

Lemma rmapM_offers {RT : GoRuntime} key (g : Offer → string) qs :
  (∀ q, any_of key (offer q) = Ok (g q)) → rmapM (any_of key) (offer <$> qs) = Ok (g <$> qs).
Proof.
  intros H. induction qs as [|q qs IH]; [done|]. rewrite !fmap_cons. simpl. rewrite H. simpl.
  by rewrite IH.
Qed.

Lemma offer_labels {RT : GoRuntime} q :
  any_of LabelTopologyZone (offer q) = Ok (of_zone q) ∧
  any_of CapacityTypeLabelKey (offer q) = Ok (of_ct q) ∧
  any_of LabelTopologyZoneID (offer q) = Ok (of_zone q).
Proof.
  unfold offer. rewrite any_of_zone, any_of_capacity_type, any_of_zone_id. done.
Qed.

Lemma computeRequirements_offers {RT : GoRuntime} info qs region (live := bfilter of_avail qs) :
  ∃ reqs, computeRequirements info (offer <$> qs) region = Ok reqs ∧
    scheduling_labels info (of_zone <$> live) (of_ct <$> live) reqs.
Proof.
  unfold computeRequirements. rewrite Available_offers. fold live.
  rewrite (rmapM_offers LabelTopologyZone of_zone live (λ q, proj1 (offer_labels q))), result_Ok_bind.
  rewrite (rmapM_offers CapacityTypeLabelKey of_ct live (λ q, proj1 (proj2 (offer_labels q)))),
    result_Ok_bind.
  rewrite (rmapM_offers LabelTopologyZoneID of_zone live (λ q, proj2 (proj2 (offer_labels q)))),
    result_Ok_bind.
  eexists. split; [reflexivity|]. apply refined_labels, base_requirements_labels.
Qed.

(** The fields the translation dereferences are present. *)
Record complete (info : InstanceTypeInfo) (disk : option SystemDisk) : Prop := {
  has_id : is_Some (InstanceTypeId info);
  has_cores : is_Some (CpuCoreCount info);
  has_spec : is_Some (GPUSpec info);
  has_amount : is_Some (GPUAmount info);
  has_memory : is_Some (micros (default (float32_of_Z 0) (MemorySize info)));
  has_disk : ∀ d, disk = Some d → is_Some (sd_Size d);
}.

Lemma gpus_of_complete info disk manufacturer :
  complete info disk → ∃ q, gpus_of manufacturer info = Ok q.
Proof.
  intros [_ _ [spec Hs] [n Hn] _ _]. unfold gpus_of. rewrite Hs. simpl.
  case_bool_decide; [rewrite Hn|]; by eexists.
Qed.

Lemma computeCapacity_complete pct info disk mp ppc cni :
  complete info disk →
  ∃ c, computeCapacity pct info mp ppc disk cni = Ok c ∧ c !! ResourcePrivateIPv4Address = None ∧
    c !! ResourcePods = Some (pods info mp ppc cni).
Proof.
  intros Hc. unfold computeCapacity.
  destruct (gpus_of_complete info disk "nvidia" Hc) as [n Hn].
  destruct (gpus_of_complete info disk "amd" Hc) as [a Ha].
  assert (∃ m, memory pct info = Ok m) as [m Hm].
  { destruct Hc as [_ _ _ _ [k Hk] _]. unfold memory, extractMemory. rewrite Hk. simpl.
    destruct (QIsZero _); by eexists. }
  assert (∃ s, ephemeralStorage disk = Ok s) as [sz Hs].
  { destruct Hc as [_ _ _ _ _ Hd]. unfold ephemeralStorage. destruct disk as [d|]; [|by eexists].
    destruct (Hd d eq_refl) as [k ->]. by eexists. }
  destruct (has_cores _ _ Hc) as [c Hcores]. unfold cpu. rewrite Hcores. simpl.
  rewrite Hm. simpl. rewrite Hs. simpl. unfold nvidiaGPUs, amdGPUs. rewrite Hn. simpl.
  rewrite Ha. simpl. by eexists.
Qed.

(** Every instance type runs linux, so the windows branch is not taken. *)
Lemma not_windows reqs :
  reqs !! LabelOSStable = Some (NewRequirement LabelOSStable (SelIn ["linux"])) →
  Compatible reqs windows_requirements ∅ = false.
Proof.
  intros Hos. apply not_true_iff_false. intros HC.
  assert (windows_requirements !! LabelOSStable = Some (NewRequirement LabelOSStable (SelIn ["windows"])))
    as Hw by reflexivity.
  apply Compatible_single_valued with (k := LabelOSStable)
    (x := NewRequirement LabelOSStable (SelIn ["windows"])) (v := "windows") in HC as [_ Hhas].
  - specialize (Hhas _ Hos). by rewrite Has_In in Hhas.
  - intros k x. unfold windows_requirements. simpl. unfold NewRequirements, AddAll. simpl.
    unfold Add1. rewrite lookup_empty. intros Hx. apply lookup_singleton_Some in Hx as [_ <-].
    eexists. apply single_NewRequirement.
  - done.
  - apply single_NewRequirement.
Qed.

Lemma NewInstanceType_labels {RT : GoRuntime} pct info kc region disk (qs : list Offer) cni
    (live := bfilter of_avail qs) :
  qs ≠ [] → complete info disk →
  ∃ name reqs cap ov,
    NewInstanceType pct info kc region disk (offer <$> qs) cni =
      Ok (Some (MkInstanceType name reqs (offer <$> qs) cap ov)) ∧
    InstanceTypeId info = Some name ∧
    scheduling_labels info (of_zone <$> live) (of_ct <$> live) reqs ∧
    cap !! ResourcePrivateIPv4Address = None ∧
    cap !! ResourcePods = Some (pods info (kc_MaxPods kc) (kc_PodsPerCore kc) cni).
Proof.
  intros Hne Hc.
  destruct (computeRequirements_offers info qs region) as (reqs & Hreqs & Hlabels).
  destruct (computeCapacity_complete pct info disk (kc_MaxPods kc) (kc_PodsPerCore kc) cni Hc)
    as (cap & Hcap & Hnoip & Hpods).
  destruct (has_id _ _ Hc) as [name Hname]. destruct (has_memory _ _ Hc) as [mem Hmem].
  assert (∃ ov, NewInstanceType pct info kc region disk (offer <$> qs) cni =
    Ok (Some (MkInstanceType name reqs (offer <$> qs) cap ov))) as [ov Hov].
  { unfold NewInstanceType. rewrite Hreqs, Hcap, Hname. unfold extractMemory. rewrite Hmem.
    unfold deref. destruct Hlabels as (_ & _ & Hos & _).
    rewrite !result_Ok_bind, (not_windows reqs Hos), !result_Ok_bind.
    destruct qs; [done|]. rewrite fmap_cons. by eexists. }
  by exists name, reqs, cap, ov.
Qed.

Lemma NewInstanceType_ok {RT : GoRuntime} pct info kc region disk (qs : list Offer) cni :
  qs ≠ [] → complete info disk →
  ∃ it, NewInstanceType pct info kc region disk (offer <$> qs) cni = Ok (Some it) ∧
    InstanceTypeId info = Some (it_Name it) ∧ it_Offerings it = offer <$> qs.
Proof.
  intros Hne Hc.
  destruct (NewInstanceType_labels pct info kc region disk qs cni Hne Hc)
    as (name & reqs & cap & ov & H & Hn & _). by eexists.
Qed.

(** ** Properties *)

(** C33. A catalogue entry with its fields present becomes an instance
    type (the translation does not panic) named after it, carrying the given
    offerings, whose zone and capacity-type requirements allow exactly the zones
    and capacity types of its available offerings, whose operating system can only
    be linux, and whose architecture is arm64 for an ARM entry and amd64 for any
    other; the windows-only private address resource is absent, and the pod
    capacity is the one computed for the kubelet configuration and the network
    plugin. *)
Theorem NewInstanceType_sound {RT : GoRuntime} pct info kc region disk (qs : list Offer) cni :
  qs ≠ [] → complete info disk →
  ∃ it, NewInstanceType pct info kc region disk (offer <$> qs) cni = Ok (Some it) ∧
    InstanceTypeId info = Some (it_Name it) ∧
    it_Offerings it = offer <$> qs ∧
    (∀ z, Has (Get (it_Requirements it) LabelTopologyZone) z = true ↔
          ∃ q, q ∈ qs ∧ of_avail q = true ∧ of_zone q = z) ∧
    (∀ ct, Has (Get (it_Requirements it) CapacityTypeLabelKey) ct = true ↔
           ∃ q, q ∈ qs ∧ of_avail q = true ∧ of_ct q = ct) ∧
    (∀ n, Has (Get (it_Requirements it) LabelInstanceTypeStable) n = true ↔ n = it_Name it) ∧
    (∀ os, Has (Get (it_Requirements it) "kubernetes.io/os") os = true ↔ os = "linux") ∧
    (∀ a, Has (Get (it_Requirements it) "kubernetes.io/arch") a = true ↔
          a = if bool_decide (CpuArchitecture info = Some "ARM") then "arm64" else "amd64") ∧
    it_Capacity it !! ResourcePrivateIPv4Address = None ∧
    it_Capacity it !! ResourcePods = Some (pods info (kc_MaxPods kc) (kc_PodsPerCore kc) cni).
Proof.
  intros Hne Hc.
  destruct (NewInstanceType_labels pct info kc region disk qs cni Hne Hc)
    as (name & reqs & cap & ov & Hov & Hname & (Htype & Harch & Hos & Hzone & Hct) & Hnoip & Hpods).
  change "kubernetes.io/os" with LabelOSStable. change "kubernetes.io/arch" with LabelArchStable.
  assert (extractECSArch (StringValue (CpuArchitecture info)) =
    if bool_decide (CpuArchitecture info = Some "ARM") then "arm64" else "amd64") as Hspec.
  { unfold extractECSArch. destruct (CpuArchitecture info) as [x|]; cbn [StringValue ptr_or default]; [|done].
    repeat case_bool_decide; naive_solver. }
  eexists. split; [exact Hov|]. unfold Get. cbn [it_Name it_Offerings it_Requirements it_Capacity].
  rewrite Htype, Harch, Hos, Hzone, Hct, Hname, Hspec. split_and!; try done; intros x; rewrite Has_In, bool_decide_eq_true.
  1, 2: rewrite list_elem_of_fmap; setoid_rewrite elem_of_bfilter; naive_solver.
  all: by rewrite list_elem_of_singleton.
Qed.

(** The documented reservation of ACK, in thousandths of a core: 6% of the first
    core, 1% of the second, 0.5% of the third and of the fourth, 0.25% of the
    others. *)
Definition ack_cpu_reserved (cores : Z) : Z :=
  ((if 1 <=? cores then 60 else 0) + (if 2 <=? cores then 10 else 0)
   + (if 3 <=? cores then 5 else 0) + (if 4 <=? cores then 5 else 0)
   + (if 4 <? cores then (cores - 4) * 25 / 10 else 0))%Z.

(** The floating-point computation of the reserved CPU is exactly the
    documented policy, rounded down to a thousandth of a core, for every
    machine of up to 1024 cores; the reservation leaves at least 94% of the
    CPU. *)
Theorem calculateCPUOverhead_policy cores :
  (0 ≤ cores ≤ 1024)%Z →
  calculateCPUOverhead (1000 * cores) = ack_cpu_reserved cores ∧
  (calculateCPUOverhead (1000 * cores) * 100 ≤ 6 * (1000 * cores))%Z.
Proof.
  intros H.
  assert (((calculateCPUOverhead (1000 * cores) =? ack_cpu_reserved cores)
           && (calculateCPUOverhead (1000 * cores) * 100 <=? 6 * (1000 * cores)))%Z = true) as Hb.
  { apply (forall_upto (λ c, (calculateCPUOverhead (1000 * c) =? ack_cpu_reserved c)
      && (calculateCPUOverhead (1000 * c) * 100 <=? 6 * (1000 * c)))%Z 1024);
      [vm_compute; reflexivity | lia]. }
  go_bool. lia.
Qed.

Lemma calculateCPUOverhead_policy_witness :
  calculateCPUOverhead (1000 * 64) = 230%Z.
Proof. apply (calculateCPUOverhead_policy 64). lia. Defined.

(** A catalogue entry with [k] halves of a GiB of memory. *)
Definition half_gib (k : Z) : float32 := float32_of_ratio (Z.to_pos k) 2.
Definition with_memory (f : float32) : InstanceTypeInfo :=
  MkInfo None None None (Some f) None None None None None None None None.

Definition label_check (k : Z) : bool :=
  bool_decide (k = 0%Z) ||
  bool_decide (Atoi (memoryLabel (with_memory (half_gib k)))
    = if (512 * k <? 1000000)%Z then Some (512 * k)%Z else None).

Lemma label_check_all : check_upto label_check 2304 = true.
Proof. vm_compute. reflexivity. Qed.

(** C39. The memory label of a machine with up to 1152 GiB in steps of
    512 MiB is the decimal number of MiB exactly when that number has at most
    six digits; from a million on (976.6 GiB) it is printed with an exponent,
    is no integer for the scheduler, and no [Gt] or [Lt] requirement on
    instance-memory accepts it. *)
Theorem memoryLabel_integer k info :
  (1 ≤ k ≤ 2304)%Z → MemorySize info = Some (half_gib k) →
  Atoi (memoryLabel info) = (if (512 * k <? 1000000)%Z then Some (512 * k)%Z else None) ∧
  ((1000000 ≤ 512 * k)%Z → ∀ bound,
     Has (NewRequirement LabelInstanceMemory (SelGt bound)) (memoryLabel info) = false ∧
     Has (NewRequirement LabelInstanceMemory (SelLt bound)) (memoryLabel info) = false).
Proof.
  intros Hk Hinfo.
  assert (memoryLabel info = memoryLabel (with_memory (half_gib k))) as ->
    by (unfold memoryLabel; by rewrite Hinfo).
  assert (Atoi (memoryLabel (with_memory (half_gib k)))
    = if (512 * k <? 1000000)%Z then Some (512 * k)%Z else None) as HA.
  { pose proof (forall_upto label_check 2304 label_check_all k ltac:(lia)) as Hc.
    unfold label_check in Hc. apply orb_true_iff in Hc as [Hc|Hc]; go_bool; [lia|done]. }
  split; [done|]. intros Hbig bound.
  rewrite (proj2 (Z.ltb_ge _ _) Hbig) in HA.
  unfold Has. simpl. unfold withinIntPtrs. rewrite HA, !andb_false_r. done.
Qed.

Lemma memoryLabel_integer_witness :
  Has (NewRequirement LabelInstanceMemory (SelGt "524288")) (memoryLabel (with_memory (half_gib 2048)))
  = false.
Proof.
  destruct (memoryLabel_integer 2048 (with_memory (half_gib 2048))) as [_ H].
  - split; discriminate.
  - reflexivity.
  - exact (proj1 (H ltac:(discriminate) "524288")).
Defined.

(** A small general-purpose machine offered in two zones, one of them out of
    spot capacity. *)
Definition g6_large : InstanceTypeInfo :=
  MkInfo (Some "ecs.g6.large") (Some "X86") (Some 2%Z) (Some (float32_of_Z 8)) (Some 0%Z) (Some "")
    (Some (float32_of_Z 0)) (Some "Intel Xeon(Cascade Lake) Platinum 8269CY") (Some 2%Z) (Some 6%Z)
    (Some 1024000%Z) (Some 1024000%Z).
Definition g6_offers : list Offer :=
  [MkOffer "cn-hangzhou-h" CapacityTypeOnDemand MaxPrice true;
   MkOffer "cn-hangzhou-h" CapacityTypeSpot MaxPrice false;
   MkOffer "cn-hangzhou-i" CapacityTypeOnDemand MaxPrice true].

Lemma NewInstanceType_sound_witness :
  ∃ it, NewInstanceType (decimal 75 1000) g6_large empty_kubelet "cn-hangzhou" None
          (offer <$> g6_offers) ClusterCNITypeTerway = Ok (Some it) ∧
    (Has (Get (it_Requirements it) CapacityTypeLabelKey) CapacityTypeSpot = true ↔
     ∃ q, q ∈ g6_offers ∧ of_avail q = true ∧ of_ct q = CapacityTypeSpot).
Proof.
  destruct (NewInstanceType_sound (decimal 75 1000) g6_large empty_kubelet "cn-hangzhou" None
    g6_offers ClusterCNITypeTerway) as (it & Hit & _ & _ & _ & Hct & _).
  - discriminate.
  - constructor; try (eexists; vm_compute; reflexivity). intros d Hd. discriminate Hd.
  - exists it. split; [exact Hit | apply Hct].
Defined.

(** The whole translation, evaluated: 8 GiB less 7.5%, 9 pods, and the labels
    read off the name. *)
Example g6_large_example :
  match NewInstanceType (decimal 75 1000) g6_large empty_kubelet "cn-hangzhou" None
          (offer <$> g6_offers) ClusterCNITypeTerway with
  | Ok (Some it) =>
      rl_get (it_Capacity it) ResourceMemory = of_MiB (8192 - 615) ∧
      rl_get (it_Capacity it) ResourcePods = of_units 9 ∧
      rl_get (KubeReserved (it_Overhead it)) ResourceMemory = of_MiB (11 * 9 + 255 + 200) ∧
      elements (values (Get (it_Requirements it) LabelInstanceCategory)) = ["g"] ∧
      elements (values (Get (it_Requirements it) LabelInstanceGeneration)) = ["6"] ∧
      elements (values (Get (it_Requirements it) LabelInstanceFamily)) = ["ecs.g6"] ∧
      elements (values (Get (it_Requirements it) LabelInstanceCPUModel)) = ["intel"]
  | _ => False
  end.
Proof. vm_compute. repeat split; reflexivity. Qed.

(** ** The name scheme *)

Lemma digit_not_lower a : is_digit a = true → is_lower a = false.
Proof.
  unfold is_digit, is_lower. intros H. apply andb_true_iff in H as [H1%N.leb_le H2%N.leb_le].
  apply andb_false_iff. left. apply N.leb_gt. lia.
Qed.

Lemma nonempty_Some s : s ≠ "" → nonempty s = Some s.
Proof. intros H. unfold nonempty. by rewrite bool_decide_false. Qed.

(** An instance type name of the usual shape (the category in
    lower-case letters, then the digits of the generation, then anything that
    does not continue the digits) yields exactly its category and generation. *)
Theorem instanceTypeScheme_parses category generation rest :
  category ≠ "" → all_chars is_lower category = true →
  generation ≠ "" → all_chars is_digit generation = true →
  starts_with is_digit rest = false →
  instanceTypeScheme ("ecs." +:+ category +:+ generation +:+ rest) = Some (category, generation).
Proof.
  intros Hc Hcl Hg Hgd Hr. unfold instanceTypeScheme. rewrite (proj2 (strip_prefix_Some "ecs." _ _) eq_refl). simpl.
  destruct generation as [|g gs] eqn:Egen; [done|]. rewrite <- Egen in *.
  assert (starts_with is_lower (generation +:+ rest) = false) as Hstop.
  { subst. change (String g gs +:+ rest) with (String g (gs +:+ rest)). simpl in *.
    apply andb_true_iff in Hgd as [Hgd _]. by apply digit_not_lower. }
  rewrite span_app by done. rewrite (nonempty_Some category) by done. simpl.
  assert (scheme_tb (generation +:+ rest) = None) as ->.
  { unfold scheme_tb. subst. change (String g gs +:+ rest) with (String g (gs +:+ rest)). simpl.
    rewrite bool_decide_false; [done|]. intros <-. by simpl in Hgd. }
  simpl. rewrite span_app by done. simpl. by rewrite nonempty_Some.
Qed.

Lemma instanceTypeScheme_parses_witness :
  instanceTypeScheme "ecs.gn6i-c4g1.xlarge" = Some ("gn", "6").
Proof. apply (instanceTypeScheme_parses "gn" "6" "i-c4g1.xlarge"); first [discriminate | reflexivity]. Defined.

End instancetype.
