(* ===== verification/InstanceTypeProvider.v ===== *)
(** * The instance type provider (pkg/providers/instancetype/instancetype.go)

    Keeps the ECS catalogue and, per instance type, the zones with stock
    (on-demand and spot), and lists the instance types a NodeClass can use, with
    one offering per zone and capacity type.  Its answers are cached under a key
    made of change counters and hashes.  The ECS service, the structural hash
    and the cluster's CNI lookup are parameters; prices are read through the
    interface [PricingView], which the pricing provider implements. *)

From S2P Require Import Prelude Effects Floats GoFormat GoCache UnavailableOfferings Labels.
From S2P Require Import Scheduling CloudTypes Apis Pricing InstanceTypeCalc.

Module instancetypes.
Import instancetype.

(** ** Interfaces *)

(** What the pricing provider promises to its clients ([pricing.Provider]). *)
Class PricingView (P : Type) := {
  view_OnDemandPrice : P → string → option price;
  view_SpotPrice : P → string → string → option price;
}.
#[export] Instance pricing_provider_view : PricingView PricingProvider := {|
  view_OnDemandPrice := OnDemandPrice;
  view_SpotPrice := SpotPrice;
|}.

(** [ack.Provider.GetClusterCNI]. *)
Class ClusterCNI (W : Type) := GetClusterCNI : W → result string * W.

(** The ECS catalogue. *)
Record InstanceTypesPage := MkTypesPage {
  page_NextToken : option string;
  page_InstanceTypes : option (list InstanceTypeInfo);
}.
Record SupportedResource := MkSupported { sr_Value : option string; sr_StatusCategory : option string }.
Record AvailableZone := MkAvailableZone {
  az_ZoneId : option string;
  az_StatusCategory : option string;
  az_AvailableResources : option (list (option (list SupportedResource)));
}.
Record AvailableResourceBody := MkResourceBody {
  ar_RequestId : option string;
  ar_AvailableZones : option (list AvailableZone);
}.
Class EcsCatalogue (W : Type) := {
  DescribeInstanceTypes : option string → W → result (option InstanceTypesPage) * W;
  DescribeAvailableResource : option string → W → result (option AvailableResourceBody) * W;
}.

(** [hashstructure.Hash], printed with sixteen hexadecimal digits where it goes
    into a key. *)
Class TypeHashes := {
  hash_infos : list InstanceTypeInfo → string;
  hash_stock : gmap string (gset string) → string;
  hash_zones : gset string → string;
  hash_kubelet : KubeletConfiguration → string;
  hash_zones_hex : ∀ z, str_has_char "-" (hash_zones z) = false;
}.

(** ** State *)

Record DefaultProvider := MkProvider {
  it_region : string;
  instanceTypesInfo : list InstanceTypeInfo;
  instanceTypesOfferings : gmap string (gset string);
  spotInstanceTypesOfferings : gmap string (gset string);
  instanceTypesCache : cache (list InstanceType);
  it_cm : cache string;
  instanceTypesSeqNum : Z;
  instanceTypesOfferingsSeqNum : Z;
}.

Definition NewDefaultProvider (region : string) : DefaultProvider :=
  MkProvider region [] ∅ ∅ (cache_new InstanceTypesAndZonesTTL) (cache_new (24 * Hour)) 0 0.

Definition set_infos (l : list InstanceTypeInfo) (p : DefaultProvider) : DefaultProvider :=
  MkProvider (it_region p) l (instanceTypesOfferings p) (spotInstanceTypesOfferings p)
    (instanceTypesCache p) (it_cm p) (instanceTypesSeqNum p) (instanceTypesOfferingsSeqNum p).
Definition set_stock (m : gmap string (gset string)) (p : DefaultProvider) : DefaultProvider :=
  MkProvider (it_region p) (instanceTypesInfo p) m (spotInstanceTypesOfferings p)
    (instanceTypesCache p) (it_cm p) (instanceTypesSeqNum p) (instanceTypesOfferingsSeqNum p).
Definition set_spot_stock (m : gmap string (gset string)) (p : DefaultProvider) : DefaultProvider :=
  MkProvider (it_region p) (instanceTypesInfo p) (instanceTypesOfferings p) m
    (instanceTypesCache p) (it_cm p) (instanceTypesSeqNum p) (instanceTypesOfferingsSeqNum p).
Definition set_types_cache (c : cache (list InstanceType)) (p : DefaultProvider) : DefaultProvider :=
  MkProvider (it_region p) (instanceTypesInfo p) (instanceTypesOfferings p)
    (spotInstanceTypesOfferings p) c (it_cm p) (instanceTypesSeqNum p) (instanceTypesOfferingsSeqNum p).
Definition set_cm (c : cache string) (p : DefaultProvider) : DefaultProvider :=
  MkProvider (it_region p) (instanceTypesInfo p) (instanceTypesOfferings p)
    (spotInstanceTypesOfferings p) (instanceTypesCache p) c
    (instanceTypesSeqNum p) (instanceTypesOfferingsSeqNum p).
Definition bump_types (p : DefaultProvider) : DefaultProvider :=
  MkProvider (it_region p) (instanceTypesInfo p) (instanceTypesOfferings p)
    (spotInstanceTypesOfferings p) (instanceTypesCache p) (it_cm p)
    (uint64 (instanceTypesSeqNum p + 1)) (instanceTypesOfferingsSeqNum p).
Definition bump_stock (p : DefaultProvider) : DefaultProvider :=
  MkProvider (it_region p) (instanceTypesInfo p) (instanceTypesOfferings p)
    (spotInstanceTypesOfferings p) (instanceTypesCache p) (it_cm p)
    (instanceTypesSeqNum p) (uint64 (instanceTypesOfferingsSeqNum p + 1)).

Definition Reset (p : DefaultProvider) : DefaultProvider :=
  set_types_cache (cache_flush (instanceTypesCache p)) (set_stock ∅ (set_infos [] p)).

(** ** Listing *)

Definition validateState (p : DefaultProvider) (nodeClass : ECSNodeClass) : result () :=
  if bool_decide (instanceTypesInfo p = []) then Err (ErrorString "no instance types found")
  else if bool_decide (instanceTypesOfferings p = ∅) then
    Err (ErrorString "no instance types offerings found")
  else if bool_decide (spotInstanceTypesOfferings p = ∅) then
    Err (ErrorString "no spot instance types offerings found")
  else match VSwitches (nc_Status nodeClass) with
       | [] => Err (ErrorString "no vswitches found")
       | _ => Ok ()
       end.

Definition vSwitchsZones (nodeClass : ECSNodeClass) : gset string :=
  list_to_set (vsw_ZoneID <$> VSwitches (nc_Status nodeClass)).

Definition stocked (m : gmap string (gset string)) (instanceType : string) : gset string :=
  default ∅ (m !! instanceType).

Definition allZones (p : DefaultProvider) : gset string :=
  map_fold (λ _ zones acc, zones ∪ acc) ∅ (instanceTypesOfferings p).

Section listing.
Context {RT : GoRuntime} {P W : Type} `{PV : !PricingView P} `{HC : !HasClock W}.
Context `{CN : !ClusterCNI W} `{TH : !TypeHashes}.

Definition listKey (p : DefaultProvider) (uo : UnavailableOfferings) (zones : gset string)
    (kc : KubeletConfiguration) : string :=
  pretty (instanceTypesSeqNum p) +:+ "-" +:+ pretty (instanceTypesOfferingsSeqNum p) +:+ "-"
  +:+ pretty (SeqNum uo) +:+ "-" +:+ hash_zones zones +:+ "-" +:+ hash_kubelet kc.

(** [createOfferings]: for every zone, an on-demand offering if the on-demand
    price is known, then a spot offering if the spot price is known. *)
Definition createOfferings (now : Z) (uo : UnavailableOfferings) (pr : P) (instanceType : string)
    (zones : list ZoneData) : list Offering :=
  zones ≫= λ zone,
    match view_OnDemandPrice pr instanceType with
    | Some odPrice =>
        [createOffering (zd_ID zone) CapacityTypeOnDemand odPrice
           (negb (IsUnavailable now instanceType (zd_ID zone) CapacityTypeOnDemand uo)
            && zd_Available zone)]
    | None => []
    end ++
    match view_SpotPrice pr instanceType (zd_ID zone) with
    | Some spotPrice =>
        [createOffering (zd_ID zone) CapacityTypeSpot spotPrice
           (negb (IsUnavailable now instanceType (zd_ID zone) CapacityTypeSpot uo)
            && zd_SpotAvailable zone)]
    | None => []
    end.

Definition zoneData (p : DefaultProvider) (vzones : gset string) (id : string) (zoneID : string)
    : ZoneData :=
  MkZoneData zoneID
    (bool_decide (zoneID ∈ stocked (instanceTypesOfferings p) id) && bool_decide (zoneID ∈ vzones))
    (bool_decide (zoneID ∈ stocked (spotInstanceTypesOfferings p) id) && bool_decide (zoneID ∈ vzones)).

(** The body of the [lo.Map] over the catalogue; every iteration enumerates
    the zones afresh. *)
Definition list_one (pct : float64) (now : Z) (uo : UnavailableOfferings) (pr : P)
    (p : DefaultProvider) (kc : KubeletConfiguration) (nodeClass : ECSNodeClass) (cni : string)
    (ni : nat * InstanceTypeInfo) : result (option InstanceType) :=
  let '(n, i) := ni in
  let zones := zoneData p (vSwitchsZones nodeClass) (StringValue (InstanceTypeId i))
                 <$> unsorted_list (10 + n) (allZones p) in
  id ← deref (InstanceTypeId i);
  NewInstanceType pct i kc (it_region p) (spec_SystemDisk (nc_Spec nodeClass))
    (createOfferings now uo pr id zones) cni.

Definition list_types (pct : float64) (now : Z) (uo : UnavailableOfferings) (pr : P)
    (p : DefaultProvider) (kc : KubeletConfiguration) (nodeClass : ECSNodeClass) (cni : string)
    : result (list InstanceType) :=
  omap (M := list) id <$>
    rmapM (list_one pct now uo pr p kc nodeClass cni) (imap pair (instanceTypesInfo p)).

(** [List]; the unavailable offerings and the prices are read only. *)
Definition List_ (pct : float64) (uo : UnavailableOfferings) (pr : P)
    (kc : option KubeletConfiguration) (nodeClass : ECSNodeClass)
    : M (St DefaultProvider W) (list InstanceType) := λ s,
  let kc := default empty_kubelet kc in
  let p := prov s in
  let now := clock (env s) in
  match validateState p nodeClass with
  | Err e => (Err e, s)
  | Panic => (Panic, s)
  | Ok _ =>
      let key := listKey p uo (vSwitchsZones nodeClass) kc in
      match cache_get now key (instanceTypesCache p) with
      | Some its => (Ok its, s)
      | None =>
          let p := set_cm (HasChanged now "zones" (hash_zones (allZones p)) (it_cm p)).2 p in
          match GetClusterCNI (env s) with
          | (Err e, w) => (Err (WrapError "failed to get cluster CNI" e), MkSt p w)
          | (Panic, w) => (Panic, MkSt p w)
          | (Ok cni, w) =>
              match list_types pct (clock w) uo pr p kc nodeClass cni with
              | Ok its =>
                  (Ok its, MkSt (set_types_cache
                     (cache_set_default (clock w) key its (instanceTypesCache p)) p) w)
              | Err e => (Err e, MkSt p w)
              | Panic => (Panic, MkSt p w)
              end
          end
      end
  end.
End listing.

(** ** Refreshing the catalogue *)

Section refresh.
Context {RT : GoRuntime} {W : Type} `{HC : !HasClock W} `{CN : !ClusterCNI W} `{EC : !EcsCatalogue W}.
Context `{TH : !TypeHashes}.
Notation S' := (St DefaultProvider W).

(** The token loop, [fuel] pages at most (running out of fuel is not
    returning). *)
Fixpoint instance_type_pages (fuel : nat) (token : option string) (acc : list InstanceTypeInfo)
    : M S' (list InstanceTypeInfo) :=
  match fuel with
  | O => lift Panic
  | S fuel' =>
      resp ← call (DescribeInstanceTypes token);
      match resp with
      | None => mret acc
      | Some page =>
          match page_InstanceTypes page with
          | None | Some [] => mret acc
          | Some l =>
              match page_NextToken page with
              | None | Some "" => mret (acc ++ l)
              | Some t => instance_type_pages fuel' (Some t) (acc ++ l)
              end
          end
      end
  end.
Definition getAllInstanceTypes (fuel : nat) : M S' (list InstanceTypeInfo) :=
  instance_type_pages fuel None [].

Definition supported_by (cni : string) (item : InstanceTypeInfo) : bool :=
  if bool_decide (cni = ClusterCNITypeTerway) then (TerwayMinENIRequirements <=? eniPods item)%Z
  else true.

Definition UpdateInstanceTypes (fuel : nat) : M S' () :=
  instanceTypes ← getAllInstanceTypes fuel;
  cni ← wrap "failed to get cluster CNI" (call GetClusterCNI);
  let instanceTypes := bfilter (supported_by cni) instanceTypes in
  p ← get_prov;
  t ← now;
  let '(changed, cm) := HasChanged t "instance-types" (hash_infos instanceTypes) (it_cm p) in
  let p := set_cm cm p in
  let p := if changed then bump_types p else p in
  set_prov (set_infos instanceTypes p).

Definition in_stock (category : option string) : bool :=
  bool_decide (StringValue category = "WithStock")
  || bool_decide (StringValue category = "ClosedWithStock").

(** [processAvailableResources]: record the zone for every type in stock. *)
Definition process_supported (zone : option string) (m : gmap string (gset string))
    (sr : SupportedResource) : result (gmap string (gset string)) :=
  if in_stock (sr_StatusCategory sr) then
    v ← deref (sr_Value sr);
    z ← deref zone;
    Ok (<[v := {[z]} ∪ stocked m v]> m)
  else Ok m.
Definition processAvailableResources (m : gmap string (gset string)) (az : AvailableZone)
    : result (gmap string (gset string)) :=
  match az_AvailableResources az with
  | None => Ok m
  | Some ars =>
      rfoldM (λ m ar, match ar with
                      | None => Ok m
                      | Some srs => rfoldM (process_supported (az_ZoneId az)) m srs
                      end) m ars
  end.

Definition no_types : error :=
  ErrorString "DescribeAvailableResourceWithOptions failed to return any instance types".
Definition processAvailableResourcesResponse (resp : option AvailableResourceBody)
    : result (gmap string (gset string)) :=
  match resp with
  | None => Err no_types
  | Some body =>
      match ar_AvailableZones body with
      | None | Some [] => Err (WrapError ("requestId: " +:+ StringValue (ar_RequestId body)) no_types)
      | Some zones =>
          rfoldM (λ m az, if in_stock (az_StatusCategory az) then processAvailableResources m az
                          else Ok m) ∅ zones
      end
  end.

Definition UpdateInstanceTypeOfferings : M S' () :=
  resp ← call (DescribeAvailableResource None);
  stock ← lift (processAvailableResourcesResponse resp);
  p ← get_prov;
  t ← now;
  let '(changed, cm) := HasChanged t "instance-type-offering" (hash_stock stock) (it_cm p) in
  let p := set_cm cm p in
  let p := if changed then bump_stock p else p in
  _ ← set_prov (set_stock stock p);
  resp ← call (DescribeAvailableResource (Some "SpotAsPriceGo"));
  spot ← lift (processAvailableResourcesResponse resp);
  p ← get_prov;
  set_prov (set_spot_stock spot p).
End refresh.

(** ** Lemmas: offerings *)

Lemma NewRequirement_In_inj k v w :
  NewRequirement k (SelIn [v]) = NewRequirement k (SelIn [w]) → v = w.
Proof.
  intros H. pose proof (Has_In k [v] v) as Hv. rewrite H, Has_In in Hv.
  rewrite (bool_decide_true (v ∈ [v])) in Hv by left.
  apply bool_decide_eq_true in Hv. by apply list_elem_of_singleton in Hv.
Qed.

Lemma createOffering_inj z1 ct1 p1 a1 z2 ct2 p2 a2 :
  createOffering z1 ct1 p1 a1 = createOffering z2 ct2 p2 a2 → z1 = z2 ∧ ct1 = ct2 ∧ p1 = p2 ∧ a1 = a2.
Proof.
  intros H.
  pose proof (f_equal (λ o, off_Requirements o !! LabelTopologyZone) H) as Hz.
  pose proof (f_equal (λ o, off_Requirements o !! CapacityTypeLabelKey) H) as Hc.
  pose proof (f_equal off_Price H) as Hp. pose proof (f_equal off_Available H) as Ha.
  clear H. cbv beta in Hz, Hc. rewrite !createOffering_lookup in Hz, Hc.
  rewrite !(bool_decide_false (LabelTopologyZone = CapacityTypeLabelKey)) in Hz by done.
  rewrite !bool_decide_true in Hz, Hc by done.
  apply (inj Some) in Hz, Hc. apply NewRequirement_In_inj in Hz, Hc.
  split_and!; [exact Hz | exact Hc | exact Hp | exact Ha].
Qed.

#[global] Instance offer_inj : Inj (=) (=) offer.
Proof.
  intros [z c p a] [z' c' p' a'] H. unfold offer in H. simpl in H.
  apply createOffering_inj in H as (-> & -> & -> & ->). done.
Qed.

Lemma elem_of_offered z ct p a (qs : list Offer) :
  createOffering z ct p a ∈ offer <$> qs ↔ MkOffer z ct p a ∈ qs.
Proof.
  change (createOffering z ct p a) with (offer (MkOffer z ct p a)). split.
  - by intros H%(list_elem_of_fmap_inj offer).
  - apply (list_elem_of_fmap_2 offer).
Qed.

Lemma Has_other k v w : v ≠ w → Has (NewRequirement k (SelIn [v])) w = false.
Proof. intros H. rewrite Has_In. apply bool_decide_false. rewrite list_elem_of_singleton. congruence. Qed.

(** Offers of different zones or capacity types exclude each other. *)
Lemma offers_exclude q1 q2 :
  (of_zone q1, of_ct q1) ≠ (of_zone q2, of_ct q2) →
  Intersects (off_Requirements (offer q1)) (off_Requirements (offer q2)) = false.
Proof.
  intros Hne. apply not_true_iff_false. unfold Intersects. rewrite bool_decide_eq_true.
  unfold map_Forall. intros Hall.
  destruct (decide (of_zone q1 = of_zone q2)) as [Hz|Hz].
  - assert (of_ct q1 ≠ of_ct q2) as Hct by congruence.
    specialize (Hall CapacityTypeLabelKey (NewRequirement CapacityTypeLabelKey (SelIn [of_ct q2]))).
    unfold offer in Hall. rewrite !createOffering_lookup, !bool_decide_true in Hall by done.
    specialize (Hall eq_refl).
    rewrite (Intersects_at_single _ _ (of_ct q2)), Has_other in Hall by auto with go. done.
  - specialize (Hall LabelTopologyZone (NewRequirement LabelTopologyZone (SelIn [of_zone q2]))).
    unfold offer in Hall. rewrite !createOffering_lookup in Hall.
    rewrite !(bool_decide_false (LabelTopologyZone = CapacityTypeLabelKey)), !bool_decide_true in Hall by done.
    specialize (Hall eq_refl).
    rewrite (Intersects_at_single _ _ (of_zone q2)), Has_other in Hall by auto with go. done.
Qed.

Section offers.
Context {P : Type} `{PV : !PricingView P} (now : Z) (uo : UnavailableOfferings) (pr : P) (id : string).

(** The arguments of the offerings, in order. *)
Definition zone_offers (zone : ZoneData) : list Offer :=
  match view_OnDemandPrice pr id with
  | Some price => [MkOffer (zd_ID zone) CapacityTypeOnDemand price
      (negb (IsUnavailable now id (zd_ID zone) CapacityTypeOnDemand uo) && zd_Available zone)]
  | None => []
  end ++
  match view_SpotPrice pr id (zd_ID zone) with
  | Some price => [MkOffer (zd_ID zone) CapacityTypeSpot price
      (negb (IsUnavailable now id (zd_ID zone) CapacityTypeSpot uo) && zd_SpotAvailable zone)]
  | None => []
  end.
Definition offers (zones : list ZoneData) : list Offer := zones ≫= zone_offers.

Lemma createOfferings_offers zones : createOfferings now uo pr id zones = offer <$> offers zones.
Proof.
  unfold createOfferings, offers. induction zones as [|z zones IH]; [done|].
  rewrite !bind_cons, fmap_app, IH. f_equal. unfold zone_offers. rewrite fmap_app.
  by destruct (view_OnDemandPrice pr id), (view_SpotPrice pr id (zd_ID z)).
Qed.

Lemma elem_of_zone_offers zone q :
  q ∈ zone_offers zone ↔
  of_zone q = zd_ID zone ∧
  ((of_ct q = CapacityTypeOnDemand ∧ view_OnDemandPrice pr id = Some (of_price q) ∧
    of_avail q = negb (IsUnavailable now id (zd_ID zone) CapacityTypeOnDemand uo) && zd_Available zone)
   ∨ (of_ct q = CapacityTypeSpot ∧ view_SpotPrice pr id (zd_ID zone) = Some (of_price q) ∧
      of_avail q = negb (IsUnavailable now id (zd_ID zone) CapacityTypeSpot uo) && zd_SpotAvailable zone)).
Proof.
  unfold zone_offers. rewrite elem_of_app. destruct q as [z ct pp a]. simpl.
  destruct (view_OnDemandPrice pr id), (view_SpotPrice pr id (zd_ID zone));
    rewrite ?list_elem_of_singleton, ?elem_of_nil; naive_solver.
Qed.

Lemma elem_of_offers zones q : q ∈ offers zones ↔ ∃ zone, zone ∈ zones ∧ q ∈ zone_offers zone.
Proof. unfold offers. rewrite list_elem_of_bind. naive_solver. Qed.

Lemma offers_priced zones zone ct :
  (∃ price a, MkOffer zone ct price a ∈ offers zones) ↔
  zone ∈ (zd_ID <$> zones) ∧
  ((ct = CapacityTypeOnDemand ∧ is_Some (view_OnDemandPrice pr id)) ∨
   (ct = CapacityTypeSpot ∧ is_Some (view_SpotPrice pr id zone))).
Proof.
  rewrite list_elem_of_fmap. split.
  - intros (price & a & Hin). apply elem_of_offers in Hin as (zd & Hzd & Hq).
    apply elem_of_zone_offers in Hq as [Hz Hcase]. simpl in *. subst zone. naive_solver.
  - intros [(zd & -> & Hzd) Hcase].
    destruct Hcase as [(-> & [price Hp])|(-> & [price Hp])]; exists price; eexists;
      apply elem_of_offers; exists zd; (split; [exact Hzd|]); apply elem_of_zone_offers; simpl;
      (split; [done|]); [left|right]; split_and!; done.
Qed.

Lemma offers_NoDup zones :
  NoDup (zd_ID <$> zones) → NoDup ((λ q, (of_zone q, of_ct q)) <$> offers zones).
Proof.
  induction zones as [|z zones IH]; intros Hnd; [constructor|].
  rewrite fmap_cons in Hnd. apply NoDup_cons in Hnd as [Hnot Hnd].
  unfold offers. rewrite bind_cons, fmap_app. apply NoDup_app. split_and!.
  - unfold zone_offers. destruct (view_OnDemandPrice pr id), (view_SpotPrice pr id (zd_ID z));
      simpl; repeat constructor; rewrite ?list_elem_of_singleton, ?elem_of_nil; naive_solver.
  - intros [zz cc] (q & Heq & Hq)%list_elem_of_fmap (q' & Heq' & Hq')%list_elem_of_fmap.
    apply elem_of_zone_offers in Hq as [Hz _]. apply elem_of_offers in Hq' as (z' & Hin & Hq').
    apply elem_of_zone_offers in Hq' as [Hz' _]. apply Hnot.
    replace (zd_ID z) with (zd_ID z') by congruence. by apply list_elem_of_fmap_2.
  - by apply IH.
Qed.
End offers.

(** ** Lemmas: listing *)

Section listing_lemmas.
Context {RT : GoRuntime} {P : Type} `{PV : !PricingView P}.

(** What can be launched, according to the stock, the prices, the recorded
    capacity errors and the NodeClass's vSwitches.  The zones looked at are those
    in which some type has on-demand stock. *)
Definition launchable (now : Z) (uo : UnavailableOfferings) (pr : P) (p : DefaultProvider)
    (nodeClass : ECSNodeClass) (id zone ct : string) : Prop :=
  zone ∈ vSwitchsZones nodeClass ∧ IsUnavailable now id zone ct uo = false ∧
  ((ct = CapacityTypeOnDemand ∧ is_Some (view_OnDemandPrice pr id) ∧
    zone ∈ stocked (instanceTypesOfferings p) id)
   ∨ (ct = CapacityTypeSpot ∧ is_Some (view_SpotPrice pr id zone) ∧
      zone ∈ stocked (spotInstanceTypesOfferings p) id ∧
      ∃ other, zone ∈ stocked (instanceTypesOfferings p) other)).

Lemma elem_of_allZones p zone : zone ∈ allZones p ↔ ∃ other, zone ∈ stocked (instanceTypesOfferings p) other.
Proof.
  unfold allZones, stocked.
  apply (map_fold_weak_ind (λ r m, zone ∈ r ↔ ∃ other, zone ∈ default ∅ (m !! other))).
  - split; [done|]. intros [other H]. by rewrite lookup_empty in H.
  - intros k zs m r Hk IH. rewrite elem_of_union, IH. split.
    + intros [Hz|[other Ho]]; [exists k; by rewrite lookup_insert_eq|]. exists other.
      rewrite lookup_insert_ne; [done|]. intros ->. by rewrite Hk in Ho.
    + intros [other Ho]. destruct (decide (k = other)) as [->|Hne]; [left; by rewrite lookup_insert_eq in Ho|].
      right. exists other. by rewrite lookup_insert_ne in Ho.
Qed.

Lemma offers_launchable now uo pr p nodeClass id site zone ct :
  (∃ price, MkOffer zone ct price true ∈ offers now uo pr id
     (zoneData p (vSwitchsZones nodeClass) id <$> unsorted_list site (allZones p))) ↔
  launchable now uo pr p nodeClass id zone ct.
Proof.
  unfold launchable. split.
  - intros (price & Hq). apply elem_of_offers in Hq as (zd & Hzd & Hq).
    apply list_elem_of_fmap in Hzd as (z & -> & Hz). apply elem_of_unsorted_list in Hz.
    apply elem_of_zone_offers in Hq as [Hzone Hcase]. simpl in *. subst zone.
    apply elem_of_allZones in Hz.
    destruct Hcase as [(-> & Hp & Ha)|(-> & Hp & Ha)]; symmetry in Ha; go_bool;
      (split_and!; [done..|]); [left|right]; split_and!; eauto.
  - intros (Hv & Hu & Hcase).
    assert (zone ∈ allZones p) as Hall by (apply elem_of_allZones; naive_solver).
    set (zd := zoneData p (vSwitchsZones nodeClass) id zone).
    assert (zd ∈ zoneData p (vSwitchsZones nodeClass) id <$> unsorted_list site (allZones p)) as Hzd.
    { apply list_elem_of_fmap_2. by apply elem_of_unsorted_list. }
    destruct Hcase as [(-> & [price Hp] & Hs)|(-> & [price Hp] & Hs & _)]; exists price;
      apply elem_of_offers; exists zd; (split; [done|]); apply elem_of_zone_offers; simpl;
      (split; [done|]); [left|right]; rewrite Hu; simpl;
      rewrite !bool_decide_true by done; split_and!; done.
Qed.

Lemma list_one_spec pct now uo pr p kc nodeClass cni n i :
  complete i (spec_SystemDisk (nc_Spec nodeClass)) →
  ∃ r, list_one pct now uo pr p kc nodeClass cni (n, i) = Ok r ∧
    (∀ it, r = Some it → InstanceTypeId i = Some (it_Name it) ∧
       ∀ zone ct, (∃ price, createOffering zone ct price true ∈ it_Offerings it) ↔
                  launchable now uo pr p nodeClass (it_Name it) zone ct) ∧
    (∀ id zone ct, InstanceTypeId i = Some id → launchable now uo pr p nodeClass id zone ct →
       is_Some r).
Proof.
  intros Hc. destruct (has_id _ _ Hc) as [name Hname]. unfold list_one.
  rewrite Hname. unfold deref. rewrite result_Ok_bind, createOfferings_offers.
  change (StringValue (Some name)) with name.
  set (qs := offers _ _ _ _ _).
  assert (∀ zone ct, (∃ price, MkOffer zone ct price true ∈ qs) ↔
                     launchable now uo pr p nodeClass name zone ct) as Hqs
    by (intros; apply offers_launchable).
  destruct qs as [|q0 qs0] eqn:Eqs.
  { exists None. split_and!; [done..|]. intros id zone ct [= <-] Hl.
    apply Hqs in Hl as (price & []%elem_of_nil). }
  rewrite <- Eqs in *.
  destruct (NewInstanceType_ok pct i kc (it_region p) (spec_SystemDisk (nc_Spec nodeClass)) qs cni)
    as (it & Hit & Hn & Ho); [by rewrite Eqs | done |].
  exists (Some it). split_and!; [done| |by intros].
  intros it' [= <-]. rewrite Hname in Hn. injection Hn as Hn. rewrite <- Hn. split; [done|].
  intros zone ct. rewrite <- Hqs, Ho. by setoid_rewrite elem_of_offered.
Qed.

Lemma list_types_spec pct now uo pr p kc nodeClass cni :
  (∀ i, i ∈ instanceTypesInfo p → complete i (spec_SystemDisk (nc_Spec nodeClass))) →
  ∃ its, list_types pct now uo pr p kc nodeClass cni = Ok its ∧
    (∀ it, it ∈ its → (∃ i, i ∈ instanceTypesInfo p ∧ InstanceTypeId i = Some (it_Name it)) ∧
       ∀ zone ct, (∃ price, createOffering zone ct price true ∈ it_Offerings it) ↔
                  launchable now uo pr p nodeClass (it_Name it) zone ct) ∧
    (∀ i id zone ct, i ∈ instanceTypesInfo p → InstanceTypeId i = Some id →
       launchable now uo pr p nodeClass id zone ct → ∃ it, it ∈ its ∧ it_Name it = id).
Proof.
  intros Hall. unfold list_types.
  assert (∀ l, (∀ ni, ni ∈ l → ni.2 ∈ instanceTypesInfo p) →
    ∃ rs, rmapM (list_one pct now uo pr p kc nodeClass cni) l = Ok rs ∧
      (∀ it, Some it ∈ rs → (∃ i, i ∈ instanceTypesInfo p ∧ InstanceTypeId i = Some (it_Name it)) ∧
         ∀ zone ct, (∃ price, createOffering zone ct price true ∈ it_Offerings it) ↔
                    launchable now uo pr p nodeClass (it_Name it) zone ct) ∧
      (∀ ni id zone ct, ni ∈ l → InstanceTypeId ni.2 = Some id →
         launchable now uo pr p nodeClass id zone ct → ∃ it, Some it ∈ rs ∧ it_Name it = id)) as Hl.
  { induction l as [|[n i] l IH]; intros Hin.
    - exists []. split_and!; [done | by intros it ?%elem_of_nil | by intros ni id z c ?%elem_of_nil].
    - destruct IH as (rs & Hrs & H1 & H2); [intros ni Hni; apply Hin; by right|].
      assert (i ∈ instanceTypesInfo p) as Hi by (apply (Hin (n, i)); left).
      destruct (list_one_spec pct now uo pr p kc nodeClass cni n i (Hall i Hi)) as (r & Hr & H3 & H4).
      exists (r :: rs). split_and!.
      + exact (rmapM_cons_Ok _ _ _ _ _ Hr Hrs).
      + intros it [<-|Hit]%elem_of_cons; [|by apply H1].
        destruct (H3 it eq_refl) as [Hid Hav]. split; [by exists i | done].
      + intros ni id zone ct [->|Hni]%elem_of_cons Hid Hlaunch.
        * destruct (H4 id zone ct Hid Hlaunch) as [it ->]. exists it.
          destruct (H3 it eq_refl) as [Hid' _]. simpl in Hid. split; [left | congruence].
        * destruct (H2 ni id zone ct Hni Hid Hlaunch) as (it & Hit & Hn). exists it.
          split; [by right | done]. }
  destruct (Hl (imap pair (instanceTypesInfo p))) as (rs & -> & H1 & H2).
  { intros [n i] Hni. apply elem_of_lookup_imap_1 in Hni as (k & i' & Heq & Hk).
    injection Heq as -> ->. simpl. by eapply list_elem_of_lookup_2. }
  exists (omap (M := list) id rs). split_and!; [done| |].
  - intros it Hit. apply H1. apply list_elem_of_omap in Hit as (r & Hr & Hid).
    unfold id in Hid. by subst r.
  - intros i id zone ct Hi Hid Hlaunch.
    apply list_elem_of_lookup in Hi as [k Hk].
    destruct (H2 (k, i) id zone ct) as (it & Hit & Hn); [|done..|].
    + apply (elem_of_lookup_imap_2 pair _ i k Hk).
    + exists it. split; [|done]. apply list_elem_of_omap. by exists (Some it).
Qed.
End listing_lemmas.

(** ** Lemmas: stock *)

(** A type is in stock in a zone, according to a response. *)
Definition az_stocks (az : AvailableZone) (id : string) : Prop :=
  ∃ ars srs sr, az_AvailableResources az = Some ars ∧ Some srs ∈ ars ∧ sr ∈ srs ∧
    in_stock (sr_StatusCategory sr) = true ∧ sr_Value sr = Some id.
Definition response_stocks (zones : list AvailableZone) (id zone : string) : Prop :=
  ∃ az, az ∈ zones ∧ in_stock (az_StatusCategory az) = true ∧ az_ZoneId az = Some zone ∧ az_stocks az id.

(** The identifiers the code dereferences are present. *)
Definition well_formed_zone (az : AvailableZone) : Prop :=
  is_Some (az_ZoneId az) ∧
  ∀ ars srs sr, az_AvailableResources az = Some ars → Some srs ∈ ars → sr ∈ srs → is_Some (sr_Value sr).

(** One fold step at a time: [P x] is what the element contributes. *)
Lemma rfoldM_stock {A} (f : gmap string (gset string) → A → result (gmap string (gset string)))
    (P : A → string → string → Prop) l m :
  (∀ m x, x ∈ l → ∃ m', f m x = Ok m' ∧
     ∀ id z, z ∈ stocked m' id ↔ z ∈ stocked m id ∨ P x id z) →
  ∃ m', rfoldM f m l = Ok m' ∧
    ∀ id z, z ∈ stocked m' id ↔ z ∈ stocked m id ∨ ∃ x, x ∈ l ∧ P x id z.
Proof.
  revert m. induction l as [|x l IH]; intros m Hf.
  - exists m. split; [done|]. intros id z. split; [by left|].
    intros [?|(x & []%elem_of_nil & _)]; done.
  - destruct (Hf m x ltac:(left)) as (m1 & H1 & Hs1).
    destruct (IH m1) as (m2 & H2 & Hs2); [intros m' y Hy; apply Hf; by right|].
    exists m2. split; [simpl; rewrite H1; exact H2|]. intros id z. rewrite Hs2, Hs1.
    setoid_rewrite elem_of_cons. naive_solver.
Qed.

Lemma process_supported_stock zone m sr z0 :
  zone = Some z0 → is_Some (sr_Value sr) →
  ∃ m', process_supported zone m sr = Ok m' ∧
    ∀ id z, z ∈ stocked m' id ↔ z ∈ stocked m id ∨
      (in_stock (sr_StatusCategory sr) = true ∧ sr_Value sr = Some id ∧ z = z0).
Proof.
  intros -> [v Hv]. unfold process_supported. destruct (in_stock _); [|naive_solver].
  rewrite Hv. simpl. eexists. split; [done|]. intros id z. unfold stocked at 1.
  destruct (decide (v = id)) as [->|Hne].
  - rewrite lookup_insert_eq. simpl. set_solver.
  - rewrite lookup_insert_ne by done. fold (stocked m id). naive_solver.
Qed.

Lemma processAvailableResources_stock m az :
  well_formed_zone az →
  ∃ m', processAvailableResources m az = Ok m' ∧
    ∀ id z, z ∈ stocked m' id ↔ z ∈ stocked m id ∨ (az_ZoneId az = Some z ∧ az_stocks az id).
Proof.
  intros [[z0 Hz0] Hwf]. unfold processAvailableResources.
  destruct (az_AvailableResources az) as [ars|] eqn:Hars.
  2:{ exists m. split; [done|]. intros id z. split; [by left|].
      intros [?|[_ (ars & srs & sr & Ha & _)]]; [done | congruence]. }
  destruct (rfoldM_stock (λ m ar, match ar with
      | None => Ok m
      | Some srs => rfoldM (process_supported (az_ZoneId az)) m srs
      end) (λ ar id z, z = z0 ∧ ∃ srs sr, ar = Some srs ∧ sr ∈ srs ∧
              in_stock (sr_StatusCategory sr) = true ∧ sr_Value sr = Some id) ars m)
    as (m' & Hm' & Hs).
  { intros m1 [srs|] Hin.
    - destruct (rfoldM_stock (process_supported (az_ZoneId az))
        (λ sr id z, in_stock (sr_StatusCategory sr) = true ∧ sr_Value sr = Some id ∧ z = z0) srs m1)
        as (m2 & Hm2 & Hs2).
      { intros m2 sr Hsr. apply process_supported_stock; [done|]. by apply (Hwf ars srs sr). }
      exists m2. split; [done|]. intros id z. rewrite Hs2. naive_solver.
    - exists m1. split; [done|]. naive_solver. }
  exists m'. split; [done|]. intros id z. rewrite Hs. unfold az_stocks. rewrite Hars, Hz0.
  naive_solver.
Qed.

Lemma processResponse_stock body zones :
  ar_AvailableZones body = Some zones → zones ≠ [] → (∀ az, az ∈ zones → well_formed_zone az) →
  ∃ m, processAvailableResourcesResponse (Some body) = Ok m ∧
    ∀ id z, z ∈ stocked m id ↔ response_stocks zones id z.
Proof.
  intros Hz Hne Hwf. unfold processAvailableResourcesResponse. rewrite Hz.
  destruct zones as [|z0 zs] eqn:E; [done|]. rewrite <- E in *. clear E z0 zs Hne.
  destruct (rfoldM_stock (λ m az, if in_stock (az_StatusCategory az)
      then processAvailableResources m az else Ok m)
    (λ az id z, in_stock (az_StatusCategory az) = true ∧ az_ZoneId az = Some z ∧ az_stocks az id) zones ∅)
    as (m & Hm & Hs).
  { intros m1 az Haz. destruct (in_stock (az_StatusCategory az)).
    - destruct (processAvailableResources_stock m1 az (Hwf az Haz)) as (m2 & Hm2 & Hs2).
      exists m2. split; [done|]. intros id z. rewrite Hs2. naive_solver.
    - exists m1. split; [done|]. naive_solver. }
  exists m. split; [done|]. intros id z. rewrite Hs. unfold response_stocks, stocked at 1.
  rewrite lookup_empty. simpl. set_solver.
Qed.

(** ** Lemmas: the cache of listings *)

Section coherence.
Context {RT : GoRuntime} {P W : Type} `{PV : !PricingView P} `{HC : !HasClock W}.
Context `{CN : !ClusterCNI W} `{TH : !TypeHashes}.

(** The key determines the counters and the printed hashes. *)
Lemma listKey_inj p p' uo uo' z z' kc kc' :
  (0 ≤ instanceTypesSeqNum p)%Z → (0 ≤ instanceTypesSeqNum p')%Z →
  (0 ≤ instanceTypesOfferingsSeqNum p)%Z → (0 ≤ instanceTypesOfferingsSeqNum p')%Z →
  (0 ≤ SeqNum uo)%Z → (0 ≤ SeqNum uo')%Z →
  listKey p uo z kc = listKey p' uo' z' kc' →
  instanceTypesSeqNum p = instanceTypesSeqNum p' ∧
  instanceTypesOfferingsSeqNum p = instanceTypesOfferingsSeqNum p' ∧
  SeqNum uo = SeqNum uo' ∧ hash_zones z = hash_zones z' ∧ hash_kubelet kc = hash_kubelet kc'.
Proof.
  intros Ha Ha' Hb Hb' Hc Hc' Hk. unfold listKey in Hk.
  change ("-" +:+ ?t) with (String "-"%char t) in Hk.
  apply cut_inj in Hk as [H1 Hk]; [|by apply pretty_no_dash..].
  apply cut_inj in Hk as [H2 Hk]; [|by apply pretty_no_dash..].
  apply cut_inj in Hk as [H3 Hk]; [|by apply pretty_no_dash..].
  apply cut_inj in Hk as [H4 H5]; [|apply hash_zones_hex..].
  split_and!; [by apply (inj pretty)..|done|done].
Qed.

Lemma rmapM_ext {A B} (f g : A → result B) l : (∀ x, f x = g x) → rmapM f l = rmapM g l.
Proof. intros H. induction l as [|x l IH]; [done|]. simpl. by rewrite H, IH. Qed.

(** Everything the listing depends on. *)
Lemma list_types_ext pct now now' uo uo' pr pr' p p' kc nodeClass nodeClass' cni :
  it_region p' = it_region p → instanceTypesInfo p' = instanceTypesInfo p →
  instanceTypesOfferings p' = instanceTypesOfferings p →
  spotInstanceTypesOfferings p' = spotInstanceTypesOfferings p →
  vSwitchsZones nodeClass' = vSwitchsZones nodeClass →
  spec_SystemDisk (nc_Spec nodeClass') = spec_SystemDisk (nc_Spec nodeClass) →
  (∀ id, view_OnDemandPrice pr' id = view_OnDemandPrice pr id) →
  (∀ id z, view_SpotPrice pr' id z = view_SpotPrice pr id z) →
  (∀ id z ct, IsUnavailable now' id z ct uo' = IsUnavailable now id z ct uo) →
  list_types pct now' uo' pr' p' kc nodeClass' cni = list_types pct now uo pr p kc nodeClass cni.
Proof.
  intros Hr Hi Ho Hs Hz Hd Hod Hsp Hun. unfold list_types. rewrite Hi.
  rewrite (rmapM_ext _ (list_one pct now uo pr p kc nodeClass cni)); [done|]. intros [n i]. unfold list_one, allZones. rewrite Hr, Ho, Hz, Hd.
  assert (∀ id zs, createOfferings now' uo' pr' id zs = createOfferings now uo pr id zs) as Hc.
  { intros id zs. unfold createOfferings. induction zs as [|z zs IH]; [done|].
    rewrite !bind_cons, IH, Hod, Hsp, !Hun. done. }
  assert (∀ vz id z, zoneData p' vz id z = zoneData p vz id z) as Hzd
    by (intros; unfold zoneData; by rewrite Ho, Hs).
  destruct (deref (InstanceTypeId i)); [|done..].
  rewrite !result_Ok_bind, Hc. do 2 f_equal. apply list_fmap_ext. intros k z _. apply Hzd.
Qed.

Lemma List_miss pct uo pr kc nodeClass (s s1 : St DefaultProvider W) its :
  cache_get (clock (env s)) (listKey (prov s) uo (vSwitchsZones nodeClass) (default empty_kubelet kc))
    (instanceTypesCache (prov s)) = None →
  List_ pct uo pr kc nodeClass s = (Ok its, s1) →
  validateState (prov s) nodeClass = Ok () ∧
  ∃ cni, GetClusterCNI (env s) = (Ok cni, env s1) ∧
    list_types pct (clock (env s1)) uo pr (prov s) (default empty_kubelet kc) nodeClass cni = Ok its ∧
    ∃ cm, prov s1 = set_types_cache (cache_set_default (clock (env s1))
      (listKey (prov s) uo (vSwitchsZones nodeClass) (default empty_kubelet kc)) its
      (instanceTypesCache (prov s))) (set_cm cm (prov s)).
Proof.
  intros Hmiss. unfold List_. rewrite Hmiss. destruct (validateState _ _) as [[]| |]; [|done..].
  destruct (GetClusterCNI (env s)) as [[cni| |] w]; [|done..].
  change (list_types pct (clock w) uo pr (set_cm ?c (prov s)) ?k nodeClass cni)
    with (list_types pct (clock w) uo pr (prov s) k nodeClass cni).
  destruct (list_types _ _ _ _ _ _ _ _) as [l| |] eqn:Hl; [|done..].
  intros [= <- <-]. split; [done|]. exists cni. split_and!; [done..|]. by eexists.
Qed.

Lemma validateState_zones p nodeClass nodeClass' :
  vSwitchsZones nodeClass' = vSwitchsZones nodeClass →
  validateState p nodeClass = Ok () → validateState p nodeClass' = Ok ().
Proof.
  unfold validateState, vSwitchsZones. intros Hz.
  repeat (case_bool_decide; [done|]).
  destruct (VSwitches (nc_Status nodeClass)) as [|v vs]; [done|]. intros _.
  destruct (VSwitches (nc_Status nodeClass')) as [|v' vs']; [|done]. set_solver.
Qed.
End coherence.

(** ** Lemmas: the catalogue *)

Section catalogue.
Context {RT : GoRuntime} {W : Type} `{HC : !HasClock W} `{CN : !ClusterCNI W} `{EC : !EcsCatalogue W}.

(** The service answers the queries that start with a token by these pages,
    one after the other. *)
Inductive pages_from : option string → W → list (list InstanceTypeInfo) → W → Prop :=
  | Page_last tok w l next w' :
      DescribeInstanceTypes tok w = (Ok (Some (MkTypesPage next (Some l))), w') →
      l ≠ [] → next = None ∨ next = Some "" → pages_from tok w [l] w'
  | Page_empty tok w next w' :
      DescribeInstanceTypes tok w = (Ok (Some (MkTypesPage next (Some []))), w') →
      pages_from tok w [] w'
  | Page_next tok w l t w' ps w'' :
      DescribeInstanceTypes tok w = (Ok (Some (MkTypesPage (Some t) (Some l))), w') →
      l ≠ [] → t ≠ "" → pages_from (Some t) w' ps w'' → pages_from tok w (l :: ps) w''.

Lemma instance_type_pages_complete tok w ps w' :
  pages_from tok w ps w' → ∀ fuel acc p, length ps < fuel →
  instance_type_pages fuel tok acc (MkSt p w) = (Ok (acc ++ concat ps), MkSt p w').
Proof.
  induction 1 as [tok w l next w' Hd Hl Hn | tok w next w' Hd | tok w l t w' ps w'' Hd Hl Ht _ IH];
    intros [|fuel] acc p Hf; try (simpl in Hf; lia);
    simpl; unfold mbind, M_bind, call; simpl; rewrite Hd; simpl.
  - rewrite app_nil_r. destruct l; [done|]. by destruct Hn as [-> | ->].
  - by rewrite app_nil_r.
  - rewrite app_assoc, <- (IH fuel (acc ++ l) p) by (simpl in Hf; lia). destruct l; [done|]. by destruct t.
Qed.
End catalogue.

(** ** Properties *)

Section properties.
Context {RT : GoRuntime} {P W : Type} `{PV : !PricingView P} `{HC : !HasClock W}.
Context `{CN : !ClusterCNI W} `{EC : !EcsCatalogue W} `{TH : !TypeHashes}.

(** The documented invariant of [createOfferings]: over distinct
    zones, every requirement of every offering has a single value, two
    different offerings exclude each other, and there is an offering for a
    zone and capacity type exactly when the corresponding price is known. *)
Theorem createOfferings_exclusive now uo (pr : P) id zones
    (ofs := createOfferings now uo pr id zones) :
  NoDup (zd_ID <$> zones) →
  (∀ o, o ∈ ofs → single_valued (off_Requirements o)) ∧
  (∀ i j oi oj, ofs !! i = Some oi → ofs !! j = Some oj → i ≠ j →
     Intersects (off_Requirements oi) (off_Requirements oj) = false) ∧
  (∀ zone ct, (∃ price a, createOffering zone ct price a ∈ ofs) ↔
     zone ∈ (zd_ID <$> zones) ∧
     ((ct = CapacityTypeOnDemand ∧ is_Some (view_OnDemandPrice pr id)) ∨
      (ct = CapacityTypeSpot ∧ is_Some (view_SpotPrice pr id zone)))).
Proof.
  intros Hnd. subst ofs. rewrite createOfferings_offers.
  pose proof (offers_NoDup now uo pr id zones Hnd) as Hoffers. split_and!.
  - intros o (q & -> & _)%list_elem_of_fmap. unfold offer. apply createOffering_single_valued.
  - intros i j oi oj Hi Hj Hij. rewrite list_lookup_fmap in Hi, Hj.
    destruct (offers now uo pr id zones !! i) as [qi|] eqn:Hqi; [|done].
    destruct (offers now uo pr id zones !! j) as [qj|] eqn:Hqj; [|done].
    injection Hi as <-. injection Hj as <-. apply offers_exclude. intros Heq. apply Hij.
    eapply (NoDup_lookup _ i j (of_zone qi, of_ct qi) Hoffers); rewrite list_lookup_fmap.
    + by rewrite Hqi. + by rewrite Hqj, Heq.
  - intros zone ct. setoid_rewrite elem_of_offered. apply offers_priced.
Qed.

(** C18. A [List] that is not served from the cache succeeds when the
    provider is initialised, the NodeClass has vSwitches, the catalogue
    entries are complete and the CNI is known; every type returned is in the
    catalogue and has an available offering for a zone and capacity type
    exactly when that combination is launchable: in stock, priced, not
    recorded as unavailable, in a zone of the NodeClass's vSwitches, and for
    spot in a zone in which some type has on-demand stock too, as a zone with
    spot stock only gets no offering.  Every launchable catalogue type is
    returned. *)
Theorem List_sound pct uo (pr : P) kc nodeClass (s : St DefaultProvider W) cni w :
  validateState (prov s) nodeClass = Ok () →
  cache_get (clock (env s)) (listKey (prov s) uo (vSwitchsZones nodeClass) (default empty_kubelet kc))
    (instanceTypesCache (prov s)) = None →
  GetClusterCNI (env s) = (Ok cni, w) →
  (∀ i, i ∈ instanceTypesInfo (prov s) → complete i (spec_SystemDisk (nc_Spec nodeClass))) →
  ∃ its s', List_ pct uo pr kc nodeClass s = (Ok its, s') ∧
    (∀ it, it ∈ its →
       (∃ i, i ∈ instanceTypesInfo (prov s) ∧ InstanceTypeId i = Some (it_Name it)) ∧
       ∀ zone ct, (∃ price, createOffering zone ct price true ∈ it_Offerings it) ↔
                  launchable (clock w) uo pr (prov s) nodeClass (it_Name it) zone ct) ∧
    (∀ i id zone ct, i ∈ instanceTypesInfo (prov s) → InstanceTypeId i = Some id →
       launchable (clock w) uo pr (prov s) nodeClass id zone ct →
       ∃ it, it ∈ its ∧ it_Name it = id).
Proof.
  intros Hv Hmiss Hcni Hcomplete. unfold List_. rewrite Hv, Hmiss, Hcni.
  set (p := set_cm _ _).
  destruct (list_types_spec pct (clock w) uo pr p (default empty_kubelet kc) nodeClass cni Hcomplete)
    as (its & Hits & Hspec). rewrite Hits. eexists its, _. by split.
Qed.


(** A listing stored under one state never answers for another in
    which a change counter, the hash of the vSwitch zones or the hash of the
    kubelet configuration differs. *)
Theorem listKey_separates p p' uo uo' z z' kc kc' t now its c :
  (0 ≤ instanceTypesSeqNum p)%Z → (0 ≤ instanceTypesSeqNum p')%Z →
  (0 ≤ instanceTypesOfferingsSeqNum p)%Z → (0 ≤ instanceTypesOfferingsSeqNum p')%Z →
  (0 ≤ SeqNum uo)%Z → (0 ≤ SeqNum uo')%Z →
  instanceTypesSeqNum p ≠ instanceTypesSeqNum p' ∨
  instanceTypesOfferingsSeqNum p ≠ instanceTypesOfferingsSeqNum p' ∨
  SeqNum uo ≠ SeqNum uo' ∨ hash_zones z ≠ hash_zones z' ∨ hash_kubelet kc ≠ hash_kubelet kc' →
  cache_get now (listKey p' uo' z' kc')
    (cache_set_default t (listKey p uo z kc) (its : list InstanceType) c) =
  cache_get now (listKey p' uo' z' kc') c.
Proof.
  intros ?????? Hdiff. apply cache_get_set_ne. intros Hk.
  apply listKey_inj in Hk; [|done..]. naive_solver.
Qed.

(** [UpdateInstanceTypes] reads every page of the catalogue and
    keeps, in order, the types whose network interfaces the cluster's CNI can
    use (all of them unless it is Terway); the change counter moves exactly
    when the hash of the list differs from the one last seen. *)
Theorem UpdateInstanceTypes_functional (p : DefaultProvider) (w w1 w2 : W) ps cni fuel
    (kept := bfilter (supported_by cni) (concat ps)) :
  pages_from None w ps w1 → length ps < fuel → GetClusterCNI w1 = (Ok cni, w2) →
  ∃ p', UpdateInstanceTypes fuel (MkSt p w) = (Ok (), MkSt p' w2) ∧
    instanceTypesInfo p' = kept ∧
    instanceTypesOfferings p' = instanceTypesOfferings p ∧
    spotInstanceTypesOfferings p' = spotInstanceTypesOfferings p ∧
    instanceTypesSeqNum p' =
      (if bool_decide (cache_get (clock w2) "instance-types" (it_cm p) = Some (hash_infos kept))
       then instanceTypesSeqNum p else uint64 (instanceTypesSeqNum p + 1)).
Proof.
  intros Hps Hfuel Hcni. unfold UpdateInstanceTypes, getAllInstanceTypes.
  unfold mbind at 1, M_bind at 1. rewrite (instance_type_pages_complete _ _ _ _ Hps) by done.
  unfold mbind, M_bind, wrap, call. simpl. rewrite Hcni. simpl. fold kept.
  unfold HasChanged. destruct (cache_get _ _ (it_cm p)) as [h|] eqn:Hh.
  - case_bool_decide as Hb; eexists; (split; [done|]); simpl; split_and!; try done; subst.
    + by rewrite bool_decide_true.
    + rewrite bool_decide_false by congruence. done.
  - eexists; (split; [done|]). simpl. split_and!; try done.
Qed.

End properties.

End instancetypes.

(** ** A concrete service *)

Module InstanceTypesExample.
Import instancetype instancetypes.

Lemma no_dash s : str_has_char "-" (str_replace_char "-" "_" s) = false.
Proof.
  unfold str_replace_char. induction s as [|a s IH]; [done|]. simpl. rewrite IH, orb_false_r.
  apply bool_decide_false. by case_bool_decide.
Qed.

#[global] Program Instance example_hashes : TypeHashes := {|
  hash_infos l := pretty (length l);
  hash_stock m := pretty (size m);
  hash_zones z := str_replace_char "-" "_" (String.concat "," (elements z));
  hash_kubelet kc := match kc_MaxPods kc with Some n => pretty n | None => "" end;
|}.
Next Obligation. intros. apply no_dash. Qed.

(** The environment is the clock; the catalogue has two pages. *)
#[global] Instance types_clock : HasClock Z := id.
#[global] Instance types_cni : ClusterCNI Z := λ w, (Ok ClusterCNITypeTerway, w).
Definition tiny : InstanceTypeInfo :=
  MkInfo (Some "ecs.t6.small") (Some "X86") (Some 1%Z) (Some (GoFormat.float32_of_Z 1)) (Some 0%Z)
    (Some "") (Some (GoFormat.float32_of_Z 0)) None (Some 2%Z) (Some 2%Z) None None.
Definition g6_xlarge : InstanceTypeInfo :=
  MkInfo (Some "ecs.g6.xlarge") (Some "X86") (Some 4%Z) (Some (GoFormat.float32_of_Z 16)) (Some 0%Z)
    (Some "") (Some (GoFormat.float32_of_Z 0)) None (Some 3%Z) (Some 10%Z) None None.
Definition stock_body (zone id : string) : AvailableResourceBody :=
  MkResourceBody (Some "req")
    (Some [MkAvailableZone (Some zone) (Some "WithStock")
             (Some [Some [MkSupported (Some id) (Some "ClosedWithStock");
                          MkSupported (Some "ecs.g5.large") (Some "WithoutStock")]])]).
#[global] Instance types_ecs : EcsCatalogue Z := {|
  DescribeInstanceTypes := λ tok w,
    match tok with
    | None => (Ok (Some (MkTypesPage (Some "t1") (Some [tiny]))), w)
    | Some _ => (Ok (Some (MkTypesPage None (Some [g6_xlarge]))), w)
    end;
  DescribeAvailableResource := λ spot w,
    (Ok (Some (stock_body (match spot with None => "cn-hangzhou-h" | Some _ => "cn-hangzhou-i" end)
                 "ecs.g6.xlarge")), w);
|}.
#[global] Instance flat_prices : PricingView price := {|
  view_OnDemandPrice := λ p _, Some p;
  view_SpotPrice := λ p _ _, Some p;
|}.

Definition start : St DefaultProvider Z := MkSt (NewDefaultProvider "cn-hangzhou") Second.
Definition with_types : St DefaultProvider Z := (UpdateInstanceTypes 10 start).2.
Definition ready : St DefaultProvider Z := (UpdateInstanceTypeOfferings with_types).2.
Definition class_with_disk (disk : option SystemDisk) : ECSNodeClass :=
  MkNodeClass (MkMeta "default" "uid" ∅ ∅ [] 0 None) (MkSpec [] "" [] [] None disk ∅ "")
    (MkStatus [MkVSwitch "vsw-1" "cn-hangzhou-h"] [] [] []).
Definition pct : float64 := decimal 75 1000.
Definition uo0 : UnavailableOfferings := NewUnavailableOfferings.
Definition first_listing := List_ pct uo0 MaxPrice None (class_with_disk None) ready.
Definition types_of (r : result (list InstanceType)) : list InstanceType :=
  match r with Ok l => l | _ => [] end.

(** The Terway filter drops the machine with too few addresses; the other one
    is launchable on demand in zone h only. *)
Example first_listing_example :
  it_Name <$> types_of first_listing.1 = ["ecs.g6.xlarge"] ∧
  instanceTypesSeqNum (prov ready) = 1%Z ∧ instanceTypesOfferingsSeqNum (prov ready) = 1%Z.
Proof. vm_compute. repeat split; reflexivity. Qed.

(** The cache key of [List] does not cover the system disk: after a
    listing for a NodeClass with the default 20 GB disk, a NodeClass that
    differs only in asking for a 100 GB disk is answered with 20 GB of ephemeral
    storage, although a listing computed for it reports 100 GB. *)
Theorem List_ignores_system_disk
    (large := class_with_disk (Some (MkSystemDisk None (Some 100%Z) None)))
    (storage := λ r, (λ it, rl_get (it_Capacity it) ResourceEphemeralStorage) <$> types_of r.1) :
  storage (List_ pct uo0 MaxPrice None large first_listing.2) = [of_units (20 * 10 ^ 9)] ∧
  storage (List_ pct uo0 MaxPrice None large ready) = [of_units (100 * 10 ^ 9)].
Proof. vm_compute. split; reflexivity. Qed.

Lemma createOfferings_exclusive_witness :
  Intersects
    (off_Requirements (createOffering "cn-hangzhou-h" CapacityTypeOnDemand MaxPrice true))
    (off_Requirements (createOffering "cn-hangzhou-h" CapacityTypeSpot MaxPrice false)) = false.
Proof.
  destruct (createOfferings_exclusive 5 uo0 MaxPrice "ecs.g6.large" [MkZoneData "cn-hangzhou-h" true false])
    as (_ & H & _); [decide_compute|].
  apply (H 0 1 _ _); [reflexivity | reflexivity | discriminate].
Defined.

Lemma complete_entries i :
  i ∈ instanceTypesInfo (prov ready) → complete i None.
Proof.
  assert (instanceTypesInfo (prov ready) = [g6_xlarge]) as -> by (vm_compute; reflexivity).
  intros ->%list_elem_of_singleton. constructor; try (eexists; vm_compute; reflexivity).
  intros d Hd. discriminate Hd.
Qed.

Lemma List_sound_witness :
  ∃ its s', List_ pct uo0 MaxPrice None (class_with_disk None) ready = (Ok its, s') ∧
    ∀ it, it ∈ its → ∀ zone ct, (∃ price, createOffering zone ct price true ∈ it_Offerings it) ↔
      launchable Second uo0 MaxPrice (prov ready) (class_with_disk None) (it_Name it) zone ct.
Proof.
  destruct (List_sound pct uo0 MaxPrice None (class_with_disk None) ready ClusterCNITypeTerway Second)
    as (its & s' & H & Hspec & _).
  - vm_compute. reflexivity.
  - vm_compute. reflexivity.
  - vm_compute. reflexivity.
  - exact complete_entries.
  - exists its, s'. split; [exact H|]. intros it Hit. exact (proj2 (Hspec it Hit)).
Defined.

Lemma first_listing_ok : first_listing = (Ok (types_of first_listing.1), first_listing.2).
Proof.
  assert ((match first_listing.1 with Ok _ => true | _ => false end) = true) as H
    by (vm_compute; reflexivity).
  destruct first_listing as [[l| |] s]; [reflexivity | discriminate H | discriminate H].
Qed.


Lemma listKey_separates_witness :
  cache_get Second (listKey (prov ready) uo0 ∅ empty_kubelet)
    (cache_set_default Second (listKey (prov start) uo0 ∅ empty_kubelet) (@nil InstanceType)
       (cache_new Minute)) = None.
Proof.
  rewrite (listKey_separates (prov start) (prov ready)); [reflexivity | vm_compute; discriminate .. |].
  left. vm_compute. discriminate.
Defined.

Lemma UpdateInstanceTypes_functional_witness :
  ∃ p', UpdateInstanceTypes 10 start = (Ok (), MkSt p' Second) ∧ instanceTypesInfo p' = [g6_xlarge].
Proof.
  destruct (UpdateInstanceTypes_functional (prov start) Second Second Second [[tiny]; [g6_xlarge]]
    ClusterCNITypeTerway 10) as (p' & H & Hi & _).
  - eapply Page_next; [reflexivity | discriminate | discriminate |].
    eapply Page_last; [reflexivity | discriminate | left; reflexivity].
  - simpl. lia.
  - reflexivity.
  - exists p'. split; [exact H|]. rewrite Hi. vm_compute. reflexivity.
Defined.

Lemma stock_body_well_formed zone id az :
  az ∈ default [] (ar_AvailableZones (stock_body zone id)) → well_formed_zone az.
Proof.
  simpl. intros ->%list_elem_of_singleton. split; [by eexists|]. simpl.
  intros ars srs sr [= <-] Hs Hr. apply list_elem_of_singleton in Hs. injection Hs as ->.
  apply elem_of_cons in Hr as [->|Hr]; [by eexists|].
  apply list_elem_of_singleton in Hr as ->. by eexists.
Qed.


End InstanceTypesExample.
