(* ===== verification/InstanceSelect.v ===== *)
(** * Choosing what to launch (pkg/providers/instance/instance.go, pure part)

    The filters and choices [Create] applies to the instance types karpenter
    proposes: dropping exotic machines and overpriced spot types, the capacity
    type, the image of each type, and the vSwitch (hence the zone) of each type
    in the request. *)

From S2P Require Import Prelude Effects Floats Labels Scheduling CloudTypes Apis.
From S2P Require Import VSwitchProvider InstanceTypeCalc InstanceTypeProvider.
Import instancetype instancetypes.

Definition instanceTypeFlexibilityThreshold : nat := 5.
Definition maxInstanceTypes : nat := 20.
Definition instanceCacheExpiration : Z := 15 * Second.

Definition claim_reqs (nodeClaim : NodeClaim) : Requirements :=
  NewNodeSelectorRequirementsWithMinValues (claim_Requirements nodeClaim).
Definition allows (reqs : Requirements) (ct : string) : bool := Has (Get reqs CapacityTypeLabelKey) ct.

Section select.
Context {RT : GoRuntime}.

(** ** Filters *)

Definition exotic (it : InstanceType) : bool :=
  existsb (λ size, str_contains size "metal") (Values (Get (it_Requirements it) LabelInstanceSize))
  || negb (QIsZero (rl_get (it_Capacity it) ResourceAMDGPU))
  || negb (QIsZero (rl_get (it_Capacity it) ResourceNVIDIAGPU)).

Definition filterExoticInstanceTypes (instanceTypes : list InstanceType) : list InstanceType :=
  match bfilter (λ it, negb (exotic it)) instanceTypes with
  | [] => instanceTypes
  | generic => generic
  end.

Definition capacity_type_of (o : Offering) : result string :=
  Any (Get (off_Requirements o) CapacityTypeLabelKey).

(** The two flags of [isMixedCapacityLaunch], updated by one offering. *)
Definition mixed_step (reqs : Requirements) (flags : bool * bool) (o : Offering)
    : result (bool * bool) :=
  if IsCompatible reqs o then
    ct ← capacity_type_of o;
    Ok (if bool_decide (ct = CapacityTypeSpot) then (true, flags.2) else (flags.1, true))
  else Ok flags.

Definition isMixedCapacityLaunch (nodeClaim : NodeClaim) (instanceTypes : list InstanceType)
    : result bool :=
  let reqs := claim_reqs nodeClaim in
  if negb (allows reqs CapacityTypeSpot) || negb (allows reqs CapacityTypeOnDemand) then Ok false
  else
    flags ← rfoldM (mixed_step reqs) (false, false)
              (instanceTypes ≫= λ it, Available (it_Offerings it));
    Ok (flags.1 && flags.2).

Definition cheapest_step (acc : price) (o : Offering) : result price :=
  ct ← capacity_type_of o;
  Ok (if bool_decide (ct = CapacityTypeOnDemand) && price_lt (off_Price o) acc
      then off_Price o else acc).
Definition cheapestOnDemand (instanceTypes : list InstanceType) : result price :=
  rfoldM cheapest_step MaxPrice (instanceTypes ≫= λ it, Available (it_Offerings it)).

Definition filterUnwantedSpot (instanceTypes : list InstanceType) : result (list InstanceType) :=
  cheapest ← cheapestOnDemand instanceTypes;
  Ok (bfilter (λ it, match Cheapest (Available (it_Offerings it)) with
                     | None => false
                     | Some o => fle (pval (off_Price o)) (pval cheapest)
                     end) instanceTypes).

Definition filterInstanceTypes (nodeClaim : NodeClaim) (instanceTypes : list InstanceType)
    : result (list InstanceType) :=
  let instanceTypes := filterExoticInstanceTypes instanceTypes in
  mixed ← isMixedCapacityLaunch nodeClaim instanceTypes;
  if mixed : bool then filterUnwantedSpot instanceTypes else Ok instanceTypes.

(** ** Choices *)

Definition with_capacity_type (ct : string) (reqs : Requirements) : Requirements :=
  <[CapacityTypeLabelKey := NewRequirement CapacityTypeLabelKey (SelIn [ct])]> reqs.

Definition getCapacityType (nodeClaim : NodeClaim) (instanceTypes : list InstanceType) : string :=
  let reqs := claim_reqs nodeClaim in
  if allows reqs CapacityTypeSpot
     && existsb (λ it, HasCompatible (with_capacity_type CapacityTypeSpot reqs)
                         (Available (it_Offerings it))) instanceTypes
  then CapacityTypeSpot else CapacityTypeOnDemand.

Definition checkODFallback (nodeClaim : NodeClaim) (instanceTypes : list InstanceType)
    : option error :=
  if negb (bool_decide (getCapacityType nodeClaim instanceTypes = CapacityTypeOnDemand))
     || negb (allows (claim_reqs nodeClaim) CapacityTypeSpot) then None
  else if (length instanceTypes <? instanceTypeFlexibilityThreshold)%nat
  then Some (ErrorString "at least 5 instance types are recommended when flexible to spot but requesting on-demand")
  else None.

Definition image_fits (it : InstanceType) (img : Image) : bool :=
  Compatible (it_Requirements it) (NewNodeSelectorRequirements (img_Requirements img)) WellKnownLabels.
Definition mapToInstanceTypes (instanceTypes : list InstanceType) (images : list Image)
    : gmap string string :=
  foldl (λ m it, match lo_find (image_fits it) images with
                 | Some img => <[it_Name it := img_ID img]> m
                 | None => m
                 end) ∅ instanceTypes.

Definition zone_of (o : Offering) : result string :=
  Any (Get (off_Requirements o) LabelTopologyZone).

(** The spot loop of [getVSwitchID]: the vSwitch of the cheapest compatible
    offering so far, with its price. *)
Definition vswitch_step (zonal : gmap string vswitch.VSwitch) (reqs : Requirements)
    (best : string * price) (o : Offering) : result (string * price) :=
  if negb (IsCompatible reqs o) then Ok best
  else
    z ← zone_of o;
    Ok (match zonal !! z with
        | None => best
        | Some v => if price_lt (off_Price o) best.2 then (vswitch.zv_ID v, off_Price o) else best
        end).

Definition getVSwitchID (site : nat) (it : InstanceType) (zonal : gmap string vswitch.VSwitch)
    (reqs : Requirements) (capacityType policy : string) : result string :=
  let zoneIDs := map_keys site zonal in
  if (bool_decide (capacityType = CapacityTypeOnDemand)
      || bool_decide (policy = VSwitchSelectionPolicyBalanced))
     && negb (bool_decide (zoneIDs = []))
  then
    zone ← deref (zoneIDs !! Z.to_nat (rand_intn site (Z.of_nat (length zoneIDs))));
    v ← deref (zonal !! zone);
    Ok (vswitch.zv_ID v)
  else
    best ← rfoldM (vswitch_step zonal reqs) ("", MaxPrice) (it_Offerings it);
    Ok best.1.

Definition getTags (ClusterID : string) (nodeClass : ECSNodeClass) (nodeClaim : NodeClaim)
    : gmap string string :=
  lo_assign (spec_Tags (nc_Spec nodeClass))
    {["kubernetes.io/cluster/" +:+ ClusterID := "owned";
      NodePoolLabelKey := default "" (claim_Labels nodeClaim !! NodePoolLabelKey);
      ECSClusterIDTagKey := ClusterID;
      LabelNodeClass := nc_Name nodeClass]}.
End select.

(** ** The offerings of the instance type provider, seen from here *)

(** What the selection relies on, and what [instancetypes.List_] provides: an
    offering is for one of the two capacity types in one zone, at a finite
    price. *)
Definition proper_offering (o : Offering) : Prop :=
  ∃ q, o = offer q ∧ (of_ct q = CapacityTypeOnDemand ∨ of_ct q = CapacityTypeSpot) ∧
       price_lt (of_price q) MaxPrice = true.
Definition proper_type (it : InstanceType) : Prop := ∀ o, o ∈ it_Offerings it → proper_offering o.

Section semantics.
Context {RT : GoRuntime}.

Lemma Has_Exists k v : Has (NewRequirement k SelExists) v = true.
Proof. unfold Has. simpl. rewrite andb_true_r. by rewrite bool_decide_false by set_solver. Qed.

Lemma Has_Get reqs k v :
  Has (Get reqs k) v = true ↔ ∀ e, reqs !! k = Some e → Has e v = true.
Proof.
  unfold Get. destruct (reqs !! k) as [e|]; [naive_solver|].
  rewrite Has_Exists. naive_solver.
Qed.

(** Compatibility with an offering is membership of its capacity type and of
    its zone. *)
Lemma IsCompatible_offer reqs q :
  IsCompatible reqs (offer q) = true ↔
  Has (Get reqs CapacityTypeLabelKey) (of_ct q) = true ∧
  Has (Get reqs LabelTopologyZone) (of_zone q) = true ∧
  Has (Get reqs LabelTopologyZoneID) (of_zone q) = true.
Proof.
  unfold IsCompatible, offer.
  rewrite Compatible_single_valued by apply createOffering_single_valued.
  pose proof (createOffering_lookup (of_zone q) (of_ct q) (of_price q) (of_avail q)) as Hl.
  set (R := off_Requirements _) in *. clearbody R. rewrite !Has_Get. split.
  - intros H. split_and!.
    + apply (H CapacityTypeLabelKey (NewRequirement CapacityTypeLabelKey (SelIn [of_ct q])));
        [by rewrite Hl | auto with go].
    + apply (H LabelTopologyZone (NewRequirement LabelTopologyZone (SelIn [of_zone q])));
        [by rewrite Hl | auto with go].
    + apply (H LabelTopologyZoneID (NewRequirement LabelTopologyZoneID (SelIn [of_zone q])));
        [by rewrite Hl | auto with go].
  - intros (Hc & Hz & Hi) k x v Hk Hx.
    assert (∀ k' w, single (NewRequirement k' (SelIn [w])) v → w = v) as Hsing.
    { intros k' w (_ & Hv & _). simpl in Hv. set_solver. }
    rewrite Hl in Hk. repeat case_bool_decide; [..|discriminate Hk]; injection Hk as <-; apply Hsing in Hx as <-; subst;
      (split; [left; auto with go | done]).
Qed.

Lemma offer_capacity_type q : capacity_type_of (offer q) = Ok (of_ct q).
Proof. apply (proj1 (proj2 (offer_labels q))). Qed.
Lemma offer_zone q : zone_of (offer q) = Ok (of_zone q).
Proof. apply (proj1 (offer_labels q)). Qed.
End semantics.

(** ** Lemmas: filters *)

Section filters.
Context {RT : GoRuntime}.

Lemma filterExotic_sub its : filterExoticInstanceTypes its `sublist_of` its.
Proof.
  unfold filterExoticInstanceTypes. pose proof (bfilter_sublist (λ it, negb (exotic it)) its) as H.
  destruct (bfilter _ its); [done|exact H].
Qed.
Lemma filterExotic_nonempty its : its ≠ [] → filterExoticInstanceTypes its ≠ [].
Proof. unfold filterExoticInstanceTypes. by destruct (bfilter _ its). Qed.

Notation live its := (its ≫= λ it, Available (it_Offerings it)).

Lemma elem_of_live its o :
  o ∈ live its ↔ ∃ it, it ∈ its ∧ o ∈ it_Offerings it ∧ off_Available o = true.
Proof.
  rewrite list_elem_of_bind. setoid_rewrite elem_of_Available. naive_solver.
Qed.

Lemma live_proper its o : Forall proper_type its → o ∈ live its → proper_offering o.
Proof.
  intros Hp (it & Hit & Ho & _)%elem_of_live. rewrite Forall_forall in Hp. by apply (Hp it Hit).
Qed.

(** The minimum search of [filterUnwantedSpot]. *)
Lemma cheapest_fold l acc :
  (∀ o, o ∈ l → proper_offering o) →
  ∃ c, rfoldM cheapest_step acc l = Ok c ∧
    fle c acc = true ∧
    (∀ o, o ∈ l → capacity_type_of o = Ok CapacityTypeOnDemand → fle c (off_Price o) = true) ∧
    (c = acc ∨ ∃ o, o ∈ l ∧ capacity_type_of o = Ok CapacityTypeOnDemand ∧ c = off_Price o).
Proof.
  revert acc. induction l as [|o l IH]; intros acc Hp.
  { exists acc. split_and!; [done| |by intros o ?%elem_of_nil|by left].
    apply price_le_not_lt, swo_irrefl; apply _. }
  destruct (Hp o ltac:(left)) as (q & Hq & Hct & _).
  set (acc' := if bool_decide (of_ct q = CapacityTypeOnDemand) && price_lt (off_Price o) acc
               then off_Price o else acc).
  destruct (IH acc') as (c & Hc & Hle & Hall & Hatt); [intros o' Ho'; apply Hp; by right|].
  assert (capacity_type_of o = Ok (of_ct q)) as Hcto by (rewrite Hq; apply offer_capacity_type).
  exists c. split_and!.
  - rewrite (rfoldM_cons_Ok _ _ acc'); [exact Hc|]. unfold cheapest_step. by rewrite Hcto.
  - unfold acc' in Hle. destruct (_ && _) eqn:Hb; [|done]. go_bool.
    eapply price_le_trans; [exact Hle|]. apply price_le_not_lt. by apply swo_asym.
  - intros o' [->|Ho']%elem_of_cons Hod; [|by apply Hall].
    rewrite Hcto in Hod. injection Hod as Hod. unfold acc' in Hle.
    rewrite bool_decide_true in Hle by done. simpl in Hle.
    destruct (price_lt (off_Price o) acc) eqn:Hlt; [done|].
    eapply price_le_trans; [exact Hle|]. by apply price_le_not_lt.
  - destruct Hatt as [->|(o' & Ho' & ?)]; [|right; exists o'; split; [by right|done]].
    unfold acc'. destruct (_ && _) eqn:Hb; [|by left]. go_bool.
    right. exists o. split_and!; [left | by rewrite Hcto; f_equal | done].
Qed.

Lemma mixed_fold reqs l flags :
  (∀ o, o ∈ l → proper_offering o) →
  ∃ r, rfoldM (mixed_step reqs) flags l = Ok r ∧
    (r.2 = true → flags.2 = true ∨ ∃ o, o ∈ l ∧ capacity_type_of o = Ok CapacityTypeOnDemand).
Proof.
  revert flags. induction l as [|o l IH]; intros flags Hp.
  { exists flags. split; [done|]. by left. }
  destruct (Hp o ltac:(left)) as (q & Hq & Hct & _).
  assert (capacity_type_of o = Ok (of_ct q)) as Hcto by (rewrite Hq; apply offer_capacity_type).
  assert (∃ flags', mixed_step reqs flags o = Ok flags' ∧
    (flags'.2 = true → flags.2 = true ∨ of_ct q = CapacityTypeOnDemand)) as (flags' & Hs & Hf).
  { unfold mixed_step. destruct (IsCompatible reqs o); [|eexists; split; [done|by left]].
    rewrite Hcto. eexists. split; [done|].
    case_bool_decide as Hspot; intros Hf; [by left|]. right.
    destruct Hct as [Hct|Hct]; [exact Hct | destruct (Hspot Hct)]. }
  destruct (IH flags') as (r & Hr & Hr2); [intros o' Ho'; apply Hp; by right|].
  exists r. split; [by rewrite (rfoldM_cons_Ok _ _ flags')|]. intros H.
  destruct (Hr2 H) as [H'|(o' & Ho' & Hod)].
  - destruct (Hf H') as [?|Hod]; [by left|]. right. exists o. split; [left|]. by rewrite Hcto, Hod.
  - right. exists o'. split; [by right | done].
Qed.

Lemma isMixed_spec nodeClaim its :
  Forall proper_type its →
  ∃ b, isMixedCapacityLaunch nodeClaim its = Ok b ∧
    (b = true → ∃ o, o ∈ live its ∧ capacity_type_of o = Ok CapacityTypeOnDemand).
Proof.
  intros Hp. unfold isMixedCapacityLaunch. destruct (_ || _); [by exists false|].
  destruct (mixed_fold (claim_reqs nodeClaim) (live its) (false, false)) as (r & Hr & Hr2).
  { intros o. by apply live_proper. }
  exists (r.1 && r.2). split; [by rewrite Hr|]. intros H. go_bool.
  destruct (Hr2 ltac:(done)) as [?|?]; [done|done].
Qed.

(** What [filterUnwantedSpot] keeps. *)
Lemma filterUnwantedSpot_spec its :
  Forall proper_type its →
  ∃ r, filterUnwantedSpot its = Ok r ∧ r `sublist_of` its ∧
    (∀ it, it ∈ r → ∃ o, o ∈ Available (it_Offerings it) ∧
       ∀ o', o' ∈ live its → capacity_type_of o' = Ok CapacityTypeOnDemand →
         fle (off_Price o) (off_Price o') = true) ∧
    ((∃ o, o ∈ live its ∧ capacity_type_of o = Ok CapacityTypeOnDemand) → r ≠ []).
Proof.
  intros Hp. unfold filterUnwantedSpot, cheapestOnDemand.
  destruct (cheapest_fold (live its) MaxPrice) as (c & -> & _ & Hall & Hatt).
  { intros o. by apply live_proper. }
  rewrite result_Ok_bind. eexists. split; [done|]. split; [apply bfilter_sublist|]. split.
  - intros it [Hk Hit]%elem_of_bfilter.
    destruct (Cheapest (Available (it_Offerings it))) as [o|] eqn:Ho; [|done].
    exists o. split; [by apply Cheapest_spec in Ho as [? _]|]. intros o' Ho' Hod.
    eapply price_le_trans; [exact Hk|]. by apply Hall.
  - intros (o & Ho & Hod). rewrite bfilter_nil_iff. intros Hnone.
    assert (∃ o, o ∈ live its ∧ fle (off_Price o) c = true) as (o1 & Hlive & Hle).
    { destruct Hatt as [->|(o' & Ho' & _ & ->)].
      - exists o. split; [done|]. destruct (live_proper its o Hp Ho) as (q & -> & _ & Hlt).
        apply price_le_not_lt. by apply swo_asym.
      - exists o'. split; [done|]. apply price_le_not_lt, swo_irrefl; apply _. }
    apply elem_of_live in Hlive as (it & Hit & Hin & Hav). specialize (Hnone it Hit).
    assert (o1 ∈ Available (it_Offerings it)) as Hav' by by apply elem_of_Available.
    destruct (Cheapest (Available (it_Offerings it))) as [o2|] eqn:Hch.
    + apply Cheapest_spec in Hch as [_ Hmin]. specialize (Hmin o1 Hav').
      rewrite (price_le_trans _ _ _ Hmin Hle) in Hnone. done.
    + apply Cheapest_None in Hch. rewrite Hch in Hav'. by apply elem_of_nil in Hav'.
Qed.

Lemma filterInstanceTypes_sublist nodeClaim its r :
  filterInstanceTypes nodeClaim its = Ok r → r `sublist_of` its.
Proof.
  unfold filterInstanceTypes.
  destruct (isMixedCapacityLaunch _ _) as [[]| |]; [..|done|done]; rewrite result_Ok_bind.
  - unfold filterUnwantedSpot. destruct (cheapestOnDemand _); [|done..]. rewrite result_Ok_bind.
    intros [= <-]. etrans; [apply bfilter_sublist | apply filterExotic_sub].
  - intros [= <-]. apply filterExotic_sub.
Qed.

(** ** What survives the filters, on its own terms *)

(** Neither bare metal nor with GPUs. *)
Definition plain (it : InstanceType) : Prop :=
  (∀ size, size ∈ Values (Get (it_Requirements it) LabelInstanceSize) → str_contains size "metal" = false) ∧
  rl_get (it_Capacity it) ResourceAMDGPU = 0%Z ∧ rl_get (it_Capacity it) ResourceNVIDIAGPU = 0%Z.
(** A proposed type, a plain one if there is any. *)
Definition considered (its : list InstanceType) (it : InstanceType) : Prop :=
  it ∈ its ∧ (plain it ∨ ∀ it', it' ∈ its → ¬ plain it').
Definition offers_live (it : InstanceType) (o : Offering) : Prop := o ∈ it_Offerings it ∧ off_Available o = true.
(** The launch may use both capacity types: the NodeClaim allows both, and there
    is an offering of each in stock that it admits. *)
Definition stocked_for (nodeClaim : NodeClaim) (its : list InstanceType) (ct : string) : Prop :=
  ∃ it o, considered its it ∧ offers_live it o ∧ IsCompatible (claim_reqs nodeClaim) o = true ∧ capacity_type_of o = Ok ct.
Definition mixed_launch (nodeClaim : NodeClaim) (its : list InstanceType) : Prop :=
  (∀ ct, ct ∈ [CapacityTypeSpot; CapacityTypeOnDemand] →
    allows (claim_reqs nodeClaim) ct = true ∧ stocked_for nodeClaim its ct).
(** In such a launch, a type costs no more than any on-demand offering. *)
Record survives (nodeClaim : NodeClaim) (its : list InstanceType) (it : InstanceType) : Prop := {
  sv_considered : considered its it;
  sv_cheap : mixed_launch nodeClaim its → ∃ o, offers_live it o ∧
    ∀ it' o', considered its it' → offers_live it' o' → capacity_type_of o' = Ok CapacityTypeOnDemand →
      fle (off_Price o) (off_Price o') = true;
}.

Lemma exotic_plain it : exotic it = false ↔ plain it.
Proof.
  unfold exotic, plain, QIsZero. rewrite !orb_false_iff, !negb_false_iff, !Z.eqb_eq. split.
  - intros [[Hm Ha] Hn]. split_and!; [|done..]. intros size Hs. apply not_true_iff_false. intros Hc.
    apply not_true_iff_false in Hm. apply Hm, existsb_exists. exists size. split; [by apply list_elem_of_In|done].
  - intros (Hm & Ha & Hn). split_and!; [|done..]. apply not_true_iff_false.
    intros (size & Hs%list_elem_of_In & Hc)%existsb_exists. by rewrite (Hm size Hs) in Hc.
Qed.
Lemma elem_of_filterExotic its it : it ∈ filterExoticInstanceTypes its ↔ considered its it.
Proof.
  unfold filterExoticInstanceTypes, considered.
  destruct (bfilter (λ it, negb (exotic it)) its) as [|x l] eqn:Hb.
  - pose proof (proj1 (bfilter_nil_iff _ _) Hb) as Hnone. split; [|by intros []]. intros Hit. split; [done|].
    right. intros it' Hit' Hp%exotic_plain. specialize (Hnone it' Hit'). cbv beta in Hnone. by rewrite Hp in Hnone.
  - rewrite <- Hb, elem_of_bfilter, negb_true_iff, exotic_plain. split; [by intros []; auto|].
    intros [Hit [Hp|Hnone]]; [done|]. exfalso.
    assert (x ∈ bfilter (λ it, negb (exotic it)) its) as [Hx Hin]%elem_of_bfilter by (rewrite Hb; by left).
    apply negb_true_iff, exotic_plain in Hx. by apply (Hnone x).
Qed.
Lemma live_considered its o :
  o ∈ live (filterExoticInstanceTypes its) ↔ ∃ it, considered its it ∧ offers_live it o.
Proof. rewrite elem_of_live. setoid_rewrite elem_of_filterExotic. done. Qed.

Lemma mixed_found reqs l flags r :
  rfoldM (mixed_step reqs) flags l = Ok r →
  (flags.1 = true ∨ (∃ o, o ∈ l ∧ IsCompatible reqs o = true ∧ capacity_type_of o = Ok CapacityTypeSpot) → r.1 = true) ∧
  (flags.2 = true ∨ (∃ o, o ∈ l ∧ IsCompatible reqs o = true ∧ capacity_type_of o = Ok CapacityTypeOnDemand) → r.2 = true).
Proof.
  revert flags. induction l as [|o l IH]; intros flags H.
  { injection H as <-. split; (intros [?|(o & []%elem_of_nil & _)]; done). }
  cbn [rfoldM] in H. apply bind_Ok in H as (f' & Hs & H). apply IH in H as [H1 H2]. unfold mixed_step in Hs.
  destruct (IsCompatible reqs o) eqn:Hc.
  - apply bind_Ok in Hs as (ct & Hct & Hs). injection Hs as <-. case_bool_decide as Hspot; cbn in H1, H2.
    + split; [intros _; by apply H1; left|]. intros [?|(o' & [->|Ho']%elem_of_cons & ? & Hod)]; apply H2; [by left| |by right; eauto].
      rewrite Hct in Hod. injection Hod as Hod. rewrite Hspot in Hod. discriminate Hod.
    + split; [|intros _; by apply H2; left]. intros [?|(o' & [->|Ho']%elem_of_cons & ? & Hod)]; apply H1; [by left| |by right; eauto].
      rewrite Hct in Hod. by injection Hod as Hod.
  - injection Hs as <-. split; (intros [?|(o' & [->|Ho']%elem_of_cons & Hc' & Hod)]; [|congruence|]);
      first [apply H1|apply H2]; eauto 10.
Qed.

Lemma cheapest_found l acc c :
  rfoldM cheapest_step acc l = Ok c →
  fle c acc = true ∧ ∀ o, o ∈ l → capacity_type_of o = Ok CapacityTypeOnDemand → fle c (off_Price o) = true.
Proof.
  revert acc. induction l as [|o l IH]; intros acc H.
  { injection H as <-. split; [apply price_le_not_lt, swo_irrefl; apply _|by intros o ?%elem_of_nil]. }
  cbn [rfoldM] in H. apply bind_Ok in H as (acc' & Hs & H). apply IH in H as [Hle Hall].
  unfold cheapest_step in Hs. apply bind_Ok in Hs as (ct & Hct & Hs). injection Hs as Hs.
  assert (fle acc' acc = true ∧ (ct = CapacityTypeOnDemand → fle acc' (off_Price o) = true)) as [Ha Ho].
  { rewrite <- Hs. case_bool_decide as Hod; cbn; [destruct (price_lt (off_Price o) acc) eqn:Hlt|].
    - split; [apply price_le_not_lt; by apply swo_asym|intros _; apply price_le_not_lt, swo_irrefl; apply _].
    - split; [apply price_le_not_lt, swo_irrefl; apply _|intros _; by apply price_le_not_lt].
    - split; [apply price_le_not_lt, swo_irrefl; apply _|done]. }
  split; [by eapply price_le_trans|]. intros o' [->|Ho']%elem_of_cons Hod; [|by apply Hall].
  rewrite Hct in Hod. injection Hod as Hod. eapply price_le_trans; [exact Hle|by apply Ho].
Qed.

Lemma filterInstanceTypes_survives nodeClaim its r it :
  filterInstanceTypes nodeClaim its = Ok r → it ∈ r → survives nodeClaim its it.
Proof.
  unfold filterInstanceTypes. intros (b & Hb & H)%bind_Ok Hit. destruct b.
  - unfold filterUnwantedSpot in H. apply bind_Ok in H as (c & Hc & H). injection H as <-.
    apply elem_of_bfilter in Hit as [Hk Hit]. split; [by apply elem_of_filterExotic|]. intros _.
    destruct (Cheapest (Available (it_Offerings it))) as [o|] eqn:Ho; [|done]. exists o.
    split; [by apply Cheapest_spec in Ho as [Ho%elem_of_Available _]; destruct Ho|].
    intros it' o' Hit' Ho' Hod. eapply price_le_trans; [exact Hk|].
    apply (cheapest_found _ _ _ Hc); [|done]. apply live_considered. by exists it'.
  - injection H as <-. split; [by apply elem_of_filterExotic|]. intros Hmix. exfalso.
    destruct (Hmix CapacityTypeSpot) as [Has (it1 & o1 & Hc1 & Hl1 & Hi1 & Ht1)]; [by left|].
    destruct (Hmix CapacityTypeOnDemand) as [Hao (it2 & o2 & Hc2 & Hl2 & Hi2 & Ht2)]; [by right; left|].
    unfold isMixedCapacityLaunch in Hb. rewrite Has, Hao in Hb. cbn [negb orb] in Hb.
    apply bind_Ok in Hb as (flags & Hf & Hb). apply mixed_found in Hf as [H1 H2].
    rewrite H1, H2 in Hb; [discriminate Hb|right; exists o2|right; exists o1];
      (split; [apply live_considered; by eauto|done]).
Qed.
End filters.

(** ** Lemmas: the vSwitch of a type *)

Section vswitch_choice.
Context {RT : GoRuntime} (zonal : gmap string vswitch.VSwitch) (reqs : Requirements).

(** An offering the loop considers, with the vSwitch of its zone. *)
Definition candidate (o : Offering) (v : vswitch.VSwitch) : Prop :=
  IsCompatible reqs o = true ∧ ∃ z, zone_of o = Ok z ∧ zonal !! z = Some v.

Lemma vswitch_fold l best :
  (∀ o, o ∈ l → proper_offering o) →
  ∃ r, rfoldM (vswitch_step zonal reqs) best l = Ok r ∧
    fle r.2 best.2 = true ∧
    (∀ o v, o ∈ l → candidate o v → fle r.2 (off_Price o) = true) ∧
    (r = best ∨ ∃ o v, o ∈ l ∧ candidate o v ∧ r = (vswitch.zv_ID v, off_Price o)).
Proof.
  revert best. induction l as [|o l IH]; intros best Hp.
  { exists best. split_and!; [done| |by intros o v ?%elem_of_nil|by left].
    apply price_le_not_lt, swo_irrefl; apply _. }
  destruct (Hp o ltac:(left)) as (q & Hq & _).
  assert (zone_of o = Ok (of_zone q)) as Hz by (rewrite Hq; apply offer_zone).
  assert (∃ b, vswitch_step zonal reqs best o = Ok b ∧ fle b.2 best.2 = true ∧
    (∀ v, candidate o v → fle b.2 (off_Price o) = true) ∧
    (b = best ∨ ∃ v, candidate o v ∧ b = (vswitch.zv_ID v, off_Price o))) as (b & Hb & Hle & Hall & Hatt).
  { assert (fle best.2 best.2 = true) as Hrefl by (apply price_le_not_lt, swo_irrefl; apply _).
    unfold vswitch_step. destruct (IsCompatible reqs o) eqn:Hc; simpl negb; cbv iota.
    2:{ exists best. split_and!; [done|done| |by left]. intros v [Hc' _]. congruence. }
    rewrite Hz, result_Ok_bind. eexists. split; [reflexivity|].
    destruct (zonal !! of_zone q) as [v|] eqn:Hv.
    - assert (candidate o v) as Hcand by (split; [done|]; by exists (of_zone q)).
      destruct (price_lt (off_Price o) best.2) eqn:Hlt; cbn [snd].
      + split_and!; [apply price_le_not_lt; by apply swo_asym | | right; by exists v].
        intros v' _. apply price_le_not_lt, swo_irrefl; apply _.
      + split_and!; [done| |by left]. intros v' _. by apply price_le_not_lt.
    - split_and!; [done| |by left]. intros v' (_ & z & Hz' & Hv'). congruence. }
  destruct (IH b) as (r & Hr & Hle' & Hall' & Hatt'); [intros o' Ho'; apply Hp; by right|].
  exists r. split_and!.
  - by rewrite (rfoldM_cons_Ok _ _ b).
  - by eapply price_le_trans.
  - intros o' v [->|Ho']%elem_of_cons Hcand; [|by eapply Hall'].
    eapply price_le_trans; [exact Hle'|]. by eapply Hall.
  - destruct Hatt' as [->|(o' & v & Ho' & ?)]; [|right; exists o', v; split; [by right|done]].
    destruct Hatt as [->|(v & ?)]; [by left|]. right. exists o, v. split; [left|done].
Qed.
End vswitch_choice.

Lemma image_fold_notin images (l : list InstanceType) (m : gmap string string) name :
  name ∉ (it_Name <$> l) →
  foldl (λ m it, match lo_find (image_fits it) images with
                 | Some img => <[it_Name it := img_ID img]> m
                 | None => m
                 end) m l !! name = m !! name.
Proof.
  revert m. induction l as [|y l IH]; intros m Hnot; [done|].
  rewrite fmap_cons, not_elem_of_cons in Hnot. destruct Hnot as [Hy Hnot]. cbn [foldl].
  rewrite IH by done. destruct (lo_find _ _); [by rewrite lookup_insert_ne|done].
Qed.

(** ** Properties *)

Section properties.
Context {RT : GoRuntime}.


(** Spot is chosen exactly when the NodeClaim's requirements admit
    it and some type has an available spot offering in a zone they admit (a
    NodeClaim without a capacity-type requirement admits both). *)
Theorem getCapacityType_spot_iff nodeClaim its :
  Forall proper_type its →
  getCapacityType nodeClaim its = CapacityTypeSpot ↔
  allows (claim_reqs nodeClaim) CapacityTypeSpot = true ∧
  ∃ it z p, it ∈ its ∧ createOffering z CapacityTypeSpot p true ∈ it_Offerings it ∧
    Has (Get (claim_reqs nodeClaim) LabelTopologyZone) z = true ∧
    Has (Get (claim_reqs nodeClaim) LabelTopologyZoneID) z = true.
Proof.
  intros Hp. unfold getCapacityType. set (reqs := claim_reqs nodeClaim).
  transitivity (allows reqs CapacityTypeSpot = true ∧ ∃ it o, it ∈ its ∧
    o ∈ Available (it_Offerings it) ∧ IsCompatible (with_capacity_type CapacityTypeSpot reqs) o = true).
  { destruct (allows reqs CapacityTypeSpot); simpl andb; cbv iota; [|by split; [|intros [? _]]].
    destruct (existsb _ _) eqn:He.
    - split; [intros _; split; [done|]|done].
      apply existsb_exists in He as (it & Hit%list_elem_of_In & (o & Ho & Hc)%HasCompatible_spec).
      by exists it, o.
    - split; [discriminate|]. intros [_ (it & o & Hit & Ho & Hc)]. exfalso.
      apply not_true_iff_false in He. apply He, existsb_exists.
      exists it. split; [by apply list_elem_of_In|]. apply HasCompatible_spec. by exists o. }
  assert (∀ q, IsCompatible (with_capacity_type CapacityTypeSpot reqs) (offer q) = true ↔
    of_ct q = CapacityTypeSpot ∧ Has (Get reqs LabelTopologyZone) (of_zone q) = true ∧
    Has (Get reqs LabelTopologyZoneID) (of_zone q) = true) as Hcompat.
  { intros q. rewrite IsCompatible_offer. unfold with_capacity_type, Get.
    rewrite lookup_insert_eq, !lookup_insert_ne by done.
    rewrite Has_In, bool_decide_eq_true, list_elem_of_singleton. done. }
  split; intros [Ha H]; (split; [exact Ha|]).
  - destruct H as (it & o & Hit & [Hav Ho]%elem_of_Available & Hc).
    rewrite Forall_forall in Hp. destruct (Hp it Hit o Ho) as (q & -> & _).
    apply Hcompat in Hc as (Hct & Hz & Hzi). exists it, (of_zone q), (of_price q).
    split_and!; [exact Hit| |exact Hz|exact Hzi].
    destruct q as [z ct pp av]. cbn in *. subst. exact Ho.
  - destruct H as (it & z & p & Hit & Ho & Hz & Hzi).
    exists it, (offer (MkOffer z CapacityTypeSpot p true)). split_and!; [exact Hit| |].
    + apply elem_of_Available. split; [reflexivity | exact Ho].
    + apply Hcompat. split_and!; [reflexivity | exact Hz | exact Hzi].
Qed.

(** Under the cheapest-first policy a spot launch of a type goes to
    the vSwitch of a zone with the lowest price among the type's offerings
    the requirements admit in zones that have a vSwitch; the answer is empty
    exactly when there is no such offering. *)
Theorem getVSwitchID_cheapest site it zonal reqs policy :
  proper_type it → policy ≠ VSwitchSelectionPolicyBalanced →
  (∀ z v, zonal !! z = Some v → vswitch.zv_ID v ≠ "") →
  ∃ id, getVSwitchID site it zonal reqs CapacityTypeSpot policy = Ok id ∧
    (id = "" ↔ ∀ o v, o ∈ it_Offerings it → ¬ candidate zonal reqs o v) ∧
    (id ≠ "" → ∃ o v, o ∈ it_Offerings it ∧ candidate zonal reqs o v ∧ id = vswitch.zv_ID v ∧
       ∀ o' v', o' ∈ it_Offerings it → candidate zonal reqs o' v' →
         fle (off_Price o) (off_Price o') = true).
Proof.
  intros Hp Hpol Hids. unfold getVSwitchID.
  rewrite (bool_decide_false (CapacityTypeSpot = CapacityTypeOnDemand)) by done.
  rewrite (bool_decide_false (policy = _)) by done. simpl orb. simpl andb. cbv iota.
  destruct (vswitch_fold zonal reqs (it_Offerings it) ("", MaxPrice) Hp)
    as (r & -> & _ & Hall & Hatt). rewrite result_Ok_bind. eexists. split; [reflexivity|].
  destruct Hatt as [->|(o & v & Ho & Hc & ->)]; cbn [fst snd] in *.
  - split; [|done]. split; [|done]. intros _ o v Ho Hc. specialize (Hall o v Ho Hc).
    destruct (Hp o Ho) as (q & -> & _ & Hlt).
    apply price_le_not_lt in Hall. cbn in Hall. congruence.
  - assert (vswitch.zv_ID v ≠ "") as Hne by (destruct Hc as (_ & z & _ & Hz); by eapply Hids).
    split.
    + split; [done|]. intros Hnone. destruct (Hnone o v Ho Hc).
    + intros _. by exists o, v.
Qed.

(** The image of an instance type is the first image, in the order
    of the NodeClass status, compatible with it; a type without one has no
    entry. *)
Theorem mapToInstanceTypes_spec its images it :
  NoDup (it_Name <$> its) → it ∈ its →
  mapToInstanceTypes its images !! it_Name it = img_ID <$> lo_find (image_fits it) images.
Proof.
  unfold mapToInstanceTypes. induction its as [|x l IH] using rev_ind; intros Hnd Hin.
  { by apply elem_of_nil in Hin. }
  rewrite fmap_app in Hnd. apply NoDup_app in Hnd as (Hnd & Hdisj & _).
  rewrite foldl_app. cbn [foldl].
  apply elem_of_app in Hin as [Hin|Hin%list_elem_of_singleton].
  - assert (it_Name x ≠ it_Name it) as Hne.
    { intros Heq. apply (Hdisj (it_Name it)); [by apply list_elem_of_fmap_2|].
      rewrite <- Heq. by left. }
    destruct (lo_find (image_fits x) images); [rewrite lookup_insert_ne by done|]; by apply IH.
  - subst x. destruct (lo_find (image_fits it) images) as [img|] eqn:Hf; [by rewrite lookup_insert_eq|].
    rewrite (image_fold_notin images l ∅ (it_Name it)), lookup_empty; [done|].
    intros Hin. apply (Hdisj _ Hin). by left.
Qed.

(** The tags by which the cluster's instances are found and
    attributed cannot be overridden by the NodeClass's own tags. *)
Theorem getTags_protected ClusterID nodeClass nodeClaim
    (tags := getTags ClusterID nodeClass nodeClaim) :
  tags !! ("kubernetes.io/cluster/" +:+ ClusterID) = Some "owned" ∧
  tags !! NodePoolLabelKey = Some (default "" (claim_Labels nodeClaim !! NodePoolLabelKey)) ∧
  tags !! ECSClusterIDTagKey = Some ClusterID ∧
  tags !! LabelNodeClass = Some (nc_Name nodeClass).
Proof.
  unfold tags, getTags. rewrite !lookup_lo_assign.
  assert (∀ c, "kubernetes.io/cluster/" +:+ c ≠ NodePoolLabelKey) by done.
  assert (∀ c, "kubernetes.io/cluster/" +:+ c ≠ ECSClusterIDTagKey) by done.
  assert (∀ c, "kubernetes.io/cluster/" +:+ c ≠ LabelNodeClass) by done.
  split_and!.
  - by rewrite lookup_insert_eq.
  - by rewrite lookup_insert_ne, lookup_insert_eq by done.
  - by rewrite !lookup_insert_ne, lookup_insert_eq by done.
  - by rewrite !lookup_insert_ne, lookup_singleton_eq by done.
Qed.
End properties.

(** ** Examples *)

Module SelectExample.
Definition cents (n : Z) : float64 := decimal n 100.
Definition p10 : price := Price (cents 10) eq_refl.
Definition p30 : price := Price (cents 30) eq_refl.
Definition p50 : price := Price (cents 50) eq_refl.
Definition za : string := "cn-hangzhou-a".
Definition zb : string := "cn-hangzhou-b".
Definition type_of (name : string) (qs : list Offer) : InstanceType :=
  MkInstanceType name (NewRequirements [NewRequirement LabelArchStable (SelIn ["amd64"])])
    (offer <$> qs) {[ResourcePods := of_units 10]} (MkOverhead ∅ ∅ ∅).
Definition small : InstanceType :=
  type_of "ecs.g6.large" [MkOffer za CapacityTypeOnDemand p30 true; MkOffer zb CapacityTypeOnDemand p30 true;
                          MkOffer za CapacityTypeSpot p10 true; MkOffer zb CapacityTypeSpot p30 true].
Definition big : InstanceType :=
  type_of "ecs.g6.4xlarge" [MkOffer za CapacityTypeSpot p50 true].
Definition claim (reqs : list NodeSelectorRequirement) : NodeClaim :=
  MkNodeClaim (MkMeta "claim" "uid" {[NodePoolLabelKey := "default"]} ∅ [] 0 None) None reqs ∅ "" "" "" ∅ ∅ [].
Definition any_claim : NodeClaim := claim [].
Definition zb_claim : NodeClaim := claim [MkNSR LabelTopologyZone (SelIn [zb]) None].
Definition zonal : gmap string vswitch.VSwitch :=
  {[za := vswitch.MkLaunchVSwitch "vsw-a" za 100; zb := vswitch.MkLaunchVSwitch "vsw-b" zb 100]}.

(** A type made of offers at finite prices is proper. *)
Lemma type_of_proper name qs :
  Forall (λ q, (of_ct q = CapacityTypeOnDemand ∨ of_ct q = CapacityTypeSpot)
               ∧ price_lt (of_price q) MaxPrice = true) qs → proper_type (type_of name qs).
Proof.
  intros Hq o (q & -> & Hin)%list_elem_of_fmap. rewrite Forall_forall in Hq. exists q. split; [done|].
  by apply Hq.
Qed.
Lemma small_proper : proper_type small.
Proof. apply type_of_proper. repeat constructor; auto; vm_compute; reflexivity. Qed.
Lemma big_proper : proper_type big.
Proof. apply type_of_proper. repeat constructor; auto; vm_compute; reflexivity. Qed.

(** The larger spot type costs more than the small on-demand one: dropped. *)
Example filter_example :
  match filterInstanceTypes any_claim [big; small] with
  | Ok r => it_Name <$> r = ["ecs.g6.large"]
  | _ => False
  end.
Proof. vm_compute. reflexivity. Qed.

(** An on-demand launch (and any launch under the balanced policy)
    picks a vSwitch at random among all zones, without looking at the
    requirements: for a NodeClaim restricted to zone b, the vSwitch of zone a
    can be chosen although the requirements reject that zone and the type's
    on-demand offering in zone b is available. *)
Theorem getVSwitchID_ignores_zone
    (reqs := with_capacity_type CapacityTypeOnDemand (claim_reqs zb_claim)) :
  getVSwitchID 0 small zonal reqs CapacityTypeOnDemand "" = Ok "vsw-a" ∧
  Has (Get reqs LabelTopologyZone) za = false ∧
  HasCompatible reqs (Available (it_Offerings small)) = true ∧
  (vswitch.zv_ID <$> zonal !! zb) = Some "vsw-b".
Proof. vm_compute. repeat split; reflexivity. Qed.


Lemma getCapacityType_spot_iff_witness :
  getCapacityType any_claim [small] = CapacityTypeSpot.
Proof.
  apply (getCapacityType_spot_iff any_claim [small]).
  - repeat constructor. exact small_proper.
  - split; [vm_compute; reflexivity|]. exists small, za, p10.
    split; [left|]. split; [right; right; left|]. split; vm_compute; reflexivity.
Defined.

Lemma getVSwitchID_cheapest_witness :
  ∃ id, getVSwitchID 0 small zonal (with_capacity_type CapacityTypeSpot (claim_reqs any_claim))
          CapacityTypeSpot "" = Ok id ∧ (id ≠ "" → ∃ o v, o ∈ it_Offerings small ∧ id = vswitch.zv_ID v).
Proof.
  destruct (getVSwitchID_cheapest 0 small zonal
    (with_capacity_type CapacityTypeSpot (claim_reqs any_claim)) "") as (id & H & _ & Hbest).
  - exact small_proper.
  - discriminate.
  - intros z v Hz.
    assert (map_Forall (λ _ v, vswitch.zv_ID v ≠ "") zonal) as Hall by decide_compute.
    exact (Hall z v Hz).
  - exists id. split; [exact H|]. intros Hne. destruct (Hbest Hne) as (o & v & Ho & _ & Hid & _).
    exists o, v. split; [exact Ho | exact Hid].
Defined.

Definition arm_image : Image := MkImage "img-arm" "arm" [MkNSR LabelArchStable (SelIn ["arm64"]) None].
Definition x86_image : Image := MkImage "img-x86" "x86" [MkNSR LabelArchStable (SelIn ["amd64"]) None].
Lemma mapToInstanceTypes_spec_witness :
  mapToInstanceTypes [big; small] [arm_image; x86_image] !! "ecs.g6.large" = Some "img-x86".
Proof.
  change "ecs.g6.large" with (it_Name small).
  rewrite (mapToInstanceTypes_spec [big; small] [arm_image; x86_image] small).
  - vm_compute. reflexivity.
  - decide_compute.
  - right. left.
Defined.
End SelectExample.
