(* ===== verification/InstanceProvider.v ===== *)
(** * The instance provider (pkg/providers/instance)

    Launches, lists, tags and deletes ECS instances.  The provider caches the
    instances it has seen for fifteen seconds; a launch goes through an
    auto-provisioning group and records the offerings that were out of stock.
    The ECS service, the launch rate limiter, the registration script of the
    cluster and the system-disk filter are parameters. *)

From S2P Require Import Prelude Effects Floats GoCache UnavailableOfferings Labels Scheduling.
From S2P Require Import CloudTypes Apis Utils VSwitchProvider InstanceTypeCalc.
From S2P Require Import InstanceTypeProvider InstanceSelect.
Import instancetype.

Module instance.

(** ** types.go *)

Definition InstanceStatusPending : string := "Pending".
Definition InstanceStatusRunning : string := "Running".
Definition InstanceStatusStarting : string := "Starting".
Definition InstanceStatusStopping : string := "Stopping".
Definition InstanceStatusStopped : string := "Stopped".

Record Instance := MkInstance {
  CreationTime : Z;
  Status : string;
  ID : string;
  ImageID : string;
  Type_ : string;
  Region : string;
  Zone : string;
  CapacityType : string;
  SecurityGroupIDs : list string;
  VSwitchID : string;
  Tags : gmap string string;
}.

(** [DescribeInstancesResponseBodyInstancesInstance], the fields read. *)
Record EcsInstance := MkEcsInstance {
  ei_CreationTime : option string;
  ei_Status : option string;
  ei_InstanceId : option string;
  ei_ImageId : option string;
  ei_InstanceType : option string;
  ei_RegionId : option string;
  ei_ZoneId : option string;
  ei_SpotStrategy : option string;
  ei_SecurityGroupIds : option (list (option string));
  ei_VpcAttributes : option (option string);
  ei_Tags : option (list (option string * option string));
}.

Definition toSecurityGroupIDs (sgs : option (list (option string))) : result (list string) :=
  match sgs with
  | None => Ok []
  | Some l => rmapM deref l
  end.

Definition toVSwitchID (vpc : option (option string)) : result string :=
  match vpc with
  | None => Ok ""
  | Some id => deref id
  end.

Definition toTags (tags : option (list (option string * option string)))
    : result (gmap string string) :=
  match tags with
  | None => Ok ∅
  | Some l => rfoldM (λ m kv, k ← deref kv.1; v ← deref kv.2; Ok (<[k := v]> m)) ∅ l
  end.

(** [NewInstance]; a creation time that does not parse is logged and becomes
    the zero time. *)
Definition NewInstance (out : EcsInstance) : result Instance :=
  ct ← deref (ei_CreationTime out);
  let creationTime := match ParseISO8601 ct with Ok t => t | _ => zeroTime end in
  status ← deref (ei_Status out);
  id ← deref (ei_InstanceId out);
  image ← deref (ei_ImageId out);
  type ← deref (ei_InstanceType out);
  region ← deref (ei_RegionId out);
  zone ← deref (ei_ZoneId out);
  spot ← deref (ei_SpotStrategy out);
  sgs ← toSecurityGroupIDs (ei_SecurityGroupIds out);
  vsw ← toVSwitchID (ei_VpcAttributes out);
  tags ← toTags (ei_Tags out);
  Ok (MkInstance creationTime status id image type region zone (GetCapacityTypes spot) sgs vsw tags).

(** ** The provisioning request and its response *)

Record LaunchTemplateConfig := MkConfig { cfg_InstanceType : string; cfg_VSwitchId : string }.

Record ProvisioningRequest := MkProvisioning {
  pg_RegionId : string;
  pg_TotalTargetCapacity : string;
  pg_SpotTargetCapacity : string;
  pg_PayAsYouGoTargetCapacity : string;
  pg_LaunchTemplateConfig : list LaunchTemplateConfig;
  pg_ImageId : string;
  pg_UserData : string;
  pg_ResourceGroupId : string;
  pg_SecurityGroupIds : list string;
  pg_SystemDiskSize : option Z;
  pg_SystemDiskPerformanceLevel : option string;
  pg_LaunchTags : list (string * string);
  pg_GroupTags : list (string * string);
  pg_DiskCategories : list string;
}.

Record LaunchResult := MkLaunchResult {
  lr_ErrorCode : option string;
  lr_ErrorMsg : option string;
  lr_InstanceType : option string;
  lr_ZoneId : option string;
  lr_SpotStrategy : option string;
  lr_InstanceIds : option (list (option string));
}.
Record ProvisioningBody := MkProvisioningBody {
  pb_RequestId : option string;
  pb_LaunchResults : option (list (option LaunchResult));
}.
Record ProvisioningResponse := MkProvisioningResponse {
  pr_StatusCode : option Z;
  pr_Body : option ProvisioningBody;
}.

Record InstancesPage := MkInstancesPage {
  ip_NextToken : option string;
  ip_Instances : option (list EcsInstance);
}.

(** ** Interfaces *)

Class EcsInstances (W : Type) := {
  DescribeInstances : string → option string → W → result (option InstancesPage) * W;
  DeleteInstance : string → W → result () * W;
  AddTags : string → list (string * string) → W → result () * W;
  CreateAutoProvisioningGroup :
    ProvisioningRequest → W → result (option ProvisioningResponse) * W;
}.
(** [rate.Limiter.Wait]. *)
Class LaunchLimiter (W : Type) := limiter_Wait : W → result () * W.
(** [ack.Provider.GetNodeRegisterScript]. *)
Class RegisterScript (W : Type) :=
  GetNodeRegisterScript : gmap string string → KubeletConfiguration → W → result string * W.
(** [imagefamily.Resolver]: a filter that keeps types it was given. *)
Class DiskResolver (W : Type) := {
  FilterInstanceTypesBySystemDisk :
    ECSNodeClass → list InstanceType → W → result (list InstanceType) * W;
  Filter_subset : ∀ nodeClass its w l w',
    FilterInstanceTypesBySystemDisk nodeClass its w = (Ok l, w') → ∀ it, it ∈ l → it ∈ its;
}.

(** ** State *)

Record DefaultProvider := MkProvider {
  ip_region : string;
  ip_ClusterID : string;
  lastUpdateTime : Z;
  instanceCache : cache Instance;
  unavailableOfferings : UnavailableOfferings;
  vSwitchProvider : vswitch.DefaultProvider;
}.

Definition NewDefaultProvider (region clusterID : string) (uo : UnavailableOfferings)
    (vp : vswitch.DefaultProvider) : DefaultProvider :=
  MkProvider region clusterID zeroTime (cache_new instanceCacheExpiration) uo vp.

Definition set_instances (c : cache Instance) (p : DefaultProvider) : DefaultProvider :=
  MkProvider (ip_region p) (ip_ClusterID p) (lastUpdateTime p) c (unavailableOfferings p) (vSwitchProvider p).
Definition set_updated (t : Z) (p : DefaultProvider) : DefaultProvider :=
  MkProvider (ip_region p) (ip_ClusterID p) t (instanceCache p) (unavailableOfferings p) (vSwitchProvider p).
Definition set_unavailable (u : UnavailableOfferings) (p : DefaultProvider) : DefaultProvider :=
  MkProvider (ip_region p) (ip_ClusterID p) (lastUpdateTime p) (instanceCache p) u (vSwitchProvider p).
Definition set_vswitches (v : vswitch.DefaultProvider) (p : DefaultProvider) : DefaultProvider :=
  MkProvider (ip_region p) (ip_ClusterID p) (lastUpdateTime p) (instanceCache p) (unavailableOfferings p) v.

(** ** Reading instances *)

Section provider.
Context {RT : GoRuntime} {W : Type} `{HC : !HasClock W} `{EI : !EcsInstances W}.
Notation S' := (St DefaultProvider W).

Definition syncAllInstances (instances : list Instance) : M S' () := λ s,
  (Ok (), MkSt (set_instances
     (foldl (λ c i, cache_set (clock (env s)) (ID i) i DefaultExpiration c)
        (instanceCache (prov s)) instances) (prov s)) (env s)).

(** The token loop of [list], [fuel] pages at most (running out of fuel is not
    returning). *)
Fixpoint list_pages (fuel : nat) (token : option string) (acc : list Instance)
    : M S' (list Instance) :=
  match fuel with
  | O => lift Panic
  | S fuel' =>
      p ← get_prov;
      resp ← call (DescribeInstances ("kubernetes.io/cluster/" +:+ ip_ClusterID p) token);
      match resp with
      | None => mret acc
      | Some page =>
          match ip_Instances page with
          | None | Some [] => mret acc
          | Some l =>
              instances ← lift (rmapM NewInstance l);
              match ip_NextToken page with
              | None | Some "" => mret (acc ++ instances)
              | Some t => list_pages fuel' (Some t) (acc ++ instances)
              end
          end
      end
  end.
Definition list_ (fuel : nat) : M S' (list Instance) := list_pages fuel None [].

Definition List_ (fuel : nat) : M S' (list Instance) :=
  p ← get_prov;
  t ← now;
  if (t - lastUpdateTime p <? instanceCacheExpiration)%Z
  then mret (map_values 30 (Object <$> cache_items t (instanceCache p)))
  else
    instances ← list_ fuel;
    _ ← syncAllInstances instances;
    p ← get_prov;
    t ← now;
    _ ← set_prov (set_updated t p);
    mret instances.

Definition Get_ (fuel : nat) (id : string) : M S' Instance :=
  p ← get_prov;
  t ← now;
  match cache_get t id (instanceCache p) with
  | Some i => mret i
  | None =>
      instances ← List_ fuel;
      _ ← syncAllInstances instances;
      p ← get_prov;
      t ← now;
      match cache_get t id (instanceCache p) with
      | Some i => mret i
      | None => fail (NodeClaimNotFoundError (ErrorString "instance not found"))
      end
  end.

Definition terminating (id : string) (err : error) : error :=
  WrapError ("terminating instance id: " +:+ id) err.

Definition Delete (fuel : nat) (id : string) : M S' () :=
  instance ← wrap "deleting instance" (Get_ fuel id);
  if bool_decide (Status instance = InstanceStatusStarting)
     || bool_decide (Status instance = InstanceStatusPending)
  then fail (InstanceStateOperationNotSupportedError id)
  else
    r ← attempt (call (DeleteInstance id));
    match r with
    | inl err =>
        notFound ← lift (alierrors.IsNotFound err);
        if notFound : bool
        then fail (NodeClaimNotFoundError (ErrorString "instance already terminated"))
        else
          r2 ← attempt (Get_ fuel id);
          match r2 with
          | inl e =>
              if IsNodeClaimNotFoundError e then fail e
              else fail (terminating id (default err (multierr_append (Some err) (Some e))))
          | inr _ => fail (terminating id err)
          end
    | inr _ =>
        p ← get_prov;
        set_prov (set_instances (cache_delete id (instanceCache p)) p)
    end.

Definition CreateTags (fuel : nat) (id : string) (tags : gmap string string) : M S' () :=
  r ← attempt (call (AddTags id (range_map 31 tags)));
  match r with
  | inl err =>
      notFound ← lift (alierrors.IsNotFound err);
      if notFound : bool
      then fail (NodeClaimNotFoundError (WrapError "tagging instance" err))
      else fail (WrapError "tagging instance" err)
  | inr _ =>
      instances ← List_ fuel;
      syncAllInstances instances
  end.

(** ** Launching *)

Context `{LL : !LaunchLimiter W} `{RS : !RegisterScript W} `{DR : !DiskResolver W}.

Definition resolveKubeletConfiguration (nodeClass : ECSNodeClass) : KubeletConfiguration :=
  default empty_kubelet (spec_KubeletConfiguration (nc_Spec nodeClass)).

Definition DefaultSystemDisk : SystemDisk :=
  MkSystemDisk (Some ["cloud"; "cloud_ssd"; "cloud_efficiency"; "cloud_essd"; "cloud_auto";
                      "cloud_essd_entry"]) (Some DefaultSystemDiskSize) None.

(** The loop over the instance types: at most [maxInstanceTypes] launch
    configurations; a type without a vSwitch is skipped. *)
Fixpoint launch_configs (site : nat) (zonal : gmap string vswitch.VSwitch) (reqs : Requirements)
    (capacityType policy : string) (acc : list LaunchTemplateConfig) (its : list InstanceType)
    : result (list LaunchTemplateConfig) :=
  match its with
  | [] => Ok acc
  | it :: its' =>
      if (maxInstanceTypes - 1 <? length acc)%nat then Ok acc
      else
        id ← getVSwitchID site it zonal reqs capacityType policy;
        launch_configs (S site) zonal reqs capacityType policy
          (if bool_decide (id = "") then acc else acc ++ [MkConfig (it_Name it) id]) its'
  end.

Definition getProvisioningGroup (nodeClass : ECSNodeClass) (nodeClaim : NodeClaim)
    (instanceTypes : list InstanceType) (zonal : gmap string vswitch.VSwitch)
    (capacityType : string) (tags : gmap string string) : M S' ProvisioningRequest :=
  its ← call (FilterInstanceTypesBySystemDisk nodeClass instanceTypes);
  match its with
  | [] => fail (ErrorString "no instance types match the system disk requirements")
  | it0 :: _ =>
      let mappedImages := mapToInstanceTypes its (Images (nc_Status nodeClass)) in
      let reqs := with_capacity_type capacityType (claim_reqs nodeClaim) in
      configs ← lift (launch_configs 40 zonal reqs capacityType
                        (VSwitchSelectionPolicy (nc_Spec nodeClass)) [] its);
      match configs with
      | [] => fail (ErrorString "no capacity offerings are currently available given the constraints")
      | _ =>
          let labels := lo_assign (claim_Labels nodeClaim) {[CapacityTypeLabelKey := capacityType]} in
          userData ← call (GetNodeRegisterScript labels (resolveKubeletConfiguration nodeClass));
          let disk := default DefaultSystemDisk (spec_SystemDisk (nc_Spec nodeClass)) in
          match mappedImages !! it_Name it0 with
          | None => fail (ErrorString "matching image not found")
          | Some imageID =>
              p ← get_prov;
              let spot := bool_decide (capacityType = CapacityTypeSpot) in
              mret (MkProvisioning (ip_region p) "1"
                (if spot then "1" else "0") (if spot then "0" else "1")
                configs imageID userData (ResourceGroupID (nc_Spec nodeClass))
                (sg_ID <$> SecurityGroups (nc_Status nodeClass))
                (sd_Size disk) (sd_PerformanceLevel disk) (range_map 32 tags)
                [(Group +:+ "/autoprovisiongroup", "true")]
                (default [] (sd_Categories disk)))
          end
      end
  end.

Definition ErrCodeNoInstanceStock : string := "NoInstanceStock".
Definition ErrCodeOperationDeniedNoStock : string := "OperationDenied.NoStock".
Definition out_of_stock (code : option string) : bool :=
  bool_decide (StringValue code = ErrCodeNoInstanceStock)
  || bool_decide (StringValue code = ErrCodeOperationDeniedNoStock).

Definition mark_result (now : Z) (capacityType : string) (u : UnavailableOfferings)
    (r : option LaunchResult) : UnavailableOfferings :=
  match r with
  | None => u
  | Some r =>
      if out_of_stock (lr_ErrorCode r)
         && negb (bool_decide (StringValue (lr_InstanceType r) = ""))
         && negb (bool_decide (StringValue (lr_ZoneId r) = ""))
      then MarkUnavailable now (StringValue (lr_InstanceType r)) (StringValue (lr_ZoneId r)) capacityType u
      else u
  end.
Definition launch_results (resp : option ProvisioningResponse) : list (option LaunchResult) :=
  match resp with
  | Some (MkProvisioningResponse _ (Some body)) => default [] (pb_LaunchResults body)
  | _ => []
  end.
Definition updateUnavailableOfferingsCache (now : Z) (resp : option ProvisioningResponse)
    (capacityType : string) (u : UnavailableOfferings) : UnavailableOfferings :=
  foldl (mark_result now capacityType) u (launch_results resp).

Definition with_request_id (body : ProvisioningBody) (e : error) : error :=
  WrapError ("requestId: " +:+ StringValue (pb_RequestId body)) e.
Definition launch_failure (r : LaunchResult) : error :=
  ErrorString ("failed to launch instance: errorCode=" +:+ StringValue (lr_ErrorCode r)
    +:+ ", errorMessage=" +:+ StringValue (lr_ErrorMsg r)).

(** [createAutoProvisioningGroupResponseHandler], and the first result it
    accepts (a nil first result is dereferenced). *)
Definition responseHandler (resp : option ProvisioningResponse) : result LaunchResult :=
  match resp with
  | Some (MkProvisioningResponse code (Some body)) =>
      match pb_LaunchResults body with
      | None => Err (ErrorString "invalid response when creating auto provision group")
      | Some results =>
          if negb (bool_decide (IntValue code = 200%Z))
          then Err (ErrorString "unexpected status code when creating auto provision group")
          else match results with
               | [] => Err (ErrorString "no launch results found in response")
               | None :: _ => Panic
               | Some r :: _ =>
                   if out_of_stock (lr_ErrorCode r)
                   then Err (InsufficientCapacityError (with_request_id body (launch_failure r)))
                   else match lr_InstanceIds r with
                        | None | Some [] => Err (with_request_id body (launch_failure r))
                        | Some _ => Ok r
                        end
               end
      end
  | _ => Err (ErrorString "invalid response when creating auto provision group")
  end.

Definition launchInstance (nodeClass : ECSNodeClass) (nodeClaim : NodeClaim)
    (instanceTypes : list InstanceType) (tags : gmap string string)
    : M S' (LaunchResult * ProvisioningRequest) :=
  let capacityType := getCapacityType nodeClaim instanceTypes in
  zonal ← wrap "getting vSwitches" (λ s,
    let '(r, vp) := vswitch.ZonalVSwitchesForLaunch (clock (env s)) nodeClass instanceTypes
                      capacityType (vSwitchProvider (prov s)) in
    (r, MkSt (set_vswitches vp (prov s)) (env s)));
  req ← wrap "getting provisioning group"
          (getProvisioningGroup nodeClass nodeClaim instanceTypes zonal capacityType tags);
  resp ← wrap "creating auto provisioning group" (call (CreateAutoProvisioningGroup req));
  p ← get_prov;
  t ← now;
  _ ← set_prov (set_unavailable
        (updateUnavailableOfferingsCache t resp capacityType (unavailableOfferings p)) p);
  r ← lift (responseHandler resp);
  mret (r, req).

(** [NewInstanceFromProvisioningGroup]. *)
Definition NewInstanceFromProvisioningGroup (now : Z) (out : LaunchResult)
    (req : ProvisioningRequest) (region : string) : result Instance :=
  sgs ← match pg_SecurityGroupIds req with
        | [] => Panic  (** the single SecurityGroupId is never set *)
        | l => Ok l
        end;
  ids ← deref (lr_InstanceIds out);
  id0 ← deref (head ids);
  id ← deref id0;
  type ← deref (lr_InstanceType out);
  zone ← deref (lr_ZoneId out);
  spot ← deref (lr_SpotStrategy out);
  Ok (MkInstance now InstanceStatusPending id (pg_ImageId req) type region zone
        (GetCapacityTypes spot) sgs "" (list_to_map (reverse (pg_GroupTags req)))).

Definition Create (nodeClass : ECSNodeClass) (nodeClaim : NodeClaim)
    (instanceTypes : list InstanceType) : M S' Instance :=
  _ ← wrap "rate limit exceeded" (call limiter_Wait);
  let reqs := claim_reqs nodeClaim in
  its ← lift (if HasMinValues reqs then Ok instanceTypes
              else filterInstanceTypes nodeClaim instanceTypes);
  its ← wrap "truncating instance types" (lift (Truncate reqs maxInstanceTypes its));
  p ← get_prov;
  let tags := getTags (ip_ClusterID p) nodeClass nodeClaim in
  '(out, req) ← launchInstance nodeClass nodeClaim its tags;
  t ← now;
  lift (NewInstanceFromProvisioningGroup t out req (ip_region p)).
End provider.

(** ** Lemmas: the provisioning request *)

Section request.
Context {RT : GoRuntime} {W : Type} `{HC : !HasClock W} `{EI : !EcsInstances W}.
Context `{LL : !LaunchLimiter W} `{RS : !RegisterScript W} `{DR : !DiskResolver W}.

Lemma launch_configs_spec site zonal reqs ct policy acc its r (n := maxInstanceTypes) :
  length acc ≤ n → launch_configs site zonal reqs ct policy acc its = Ok r →
  length r ≤ n ∧ ∀ c, c ∈ r → c ∈ acc ∨ (cfg_InstanceType c ∈ (it_Name <$> its) ∧ cfg_VSwitchId c ≠ "").
Proof.
  revert site acc. induction its as [|it its IH]; intros site acc Hlen; cbn [launch_configs].
  { intros [= <-]. split; [done|]. by left. }
  destruct (Nat.ltb_spec (maxInstanceTypes - 1) (length acc)) as [Hfull|Hroom].
  { intros [= <-]. split; [done|]. by left. }
  destruct (getVSwitchID site it zonal reqs ct policy) as [id| |] eqn:Hid; [|done..].
  rewrite result_Ok_bind. intros H. apply IH in H as [Hr Hin].
  2:{ case_bool_decide; [done|]. rewrite length_app. simpl. unfold n, maxInstanceTypes in *. lia. }
  split; [done|]. intros c Hc. destruct (Hin c Hc) as [Hacc|[Hn Hv]].
  - case_bool_decide as He; [by left|]. apply elem_of_app in Hacc as [?|Hone]; [by left|].
    apply list_elem_of_singleton in Hone as ->. right. split; [left|exact He].
  - right. split; [by right | done].
Qed.

(** What a provisioning request asks for. *)
Record sound_request (nodeClass : ECSNodeClass) (instanceTypes : list InstanceType)
    (capacityType : string) (tags : gmap string string) (req : ProvisioningRequest) : Prop := {
  rq_configs : 1 ≤ length (pg_LaunchTemplateConfig req) ≤ maxInstanceTypes;
  rq_types : ∀ c, c ∈ pg_LaunchTemplateConfig req →
    cfg_InstanceType c ∈ (it_Name <$> instanceTypes) ∧ cfg_VSwitchId c ≠ "";
  rq_total : pg_TotalTargetCapacity req = "1";
  rq_split : (pg_SpotTargetCapacity req, pg_PayAsYouGoTargetCapacity req) =
    if bool_decide (capacityType = CapacityTypeSpot) then ("1", "0") else ("0", "1");
  rq_tags : pg_LaunchTags req ≡ₚ map_to_list tags;
  rq_groups : pg_SecurityGroupIds req = sg_ID <$> SecurityGroups (nc_Status nodeClass);
  rq_image : ∃ it img, it ∈ instanceTypes ∧ img ∈ Images (nc_Status nodeClass) ∧
    image_fits it img = true ∧ pg_ImageId req = img_ID img;
}.

Lemma mapToInstanceTypes_elem (its : list InstanceType) images name id :
  mapToInstanceTypes its images !! name = Some id →
  ∃ it img, it ∈ its ∧ img ∈ images ∧ image_fits it img = true ∧ id = img_ID img.
Proof.
  unfold mapToInstanceTypes. induction its as [|it its IH] using rev_ind.
  { cbn [foldl]. by rewrite lookup_empty. }
  rewrite foldl_app. cbn [foldl].
  destruct (lo_find (image_fits it) images) as [img|] eqn:Hf.
  - apply lo_find_Some in Hf as [Himg Hfit]. intros H.
    apply lookup_insert_Some in H as [[_ <-]|[_ H]].
    + exists it, img. split_and!; [|done..]. apply elem_of_app. right. left.
    + destruct (IH H) as (it' & img' & Hit' & ?). exists it', img'. split; [|done].
      apply elem_of_app. by left.
  - intros H. destruct (IH H) as (it' & img' & Hit' & ?). exists it', img'. split; [|done].
    apply elem_of_app. by left.
Qed.

Lemma getProvisioningGroup_sound nodeClass nodeClaim its zonal ct tags (s s' : St DefaultProvider W) req :
  getProvisioningGroup nodeClass nodeClaim its zonal ct tags s = (Ok req, s') →
  sound_request nodeClass its ct tags req ∧ prov s' = prov s.
Proof.
  unfold getProvisioningGroup. rewrite M_bind_Ok. intros (kept & s1 & Hk & H).
  apply call_Ok in Hk as [Hk Hp1].
  pose proof (Filter_subset nodeClass its (env s) _ _ Hk) as Hsub.
  destruct kept as [|it0 rest] eqn:Ekept; [done|]. rewrite <- Ekept in *.
  apply M_bind_Ok in H as (configs & s2 & Hc & H). injection Hc as Hc ->.
  apply launch_configs_spec in Hc as [Hlen Hcfg]; [|simpl; lia].
  destruct configs as [|c0 cs] eqn:Ec; [done|]. rewrite <- Ec in *.
  apply M_bind_Ok in H as (script & s3 & Hscript & H). apply call_Ok in Hscript as [_ Hp3].
  destruct (mapToInstanceTypes kept (Images (nc_Status nodeClass)) !! it_Name it0) as [image|] eqn:Himg;
    [|done].
  apply mapToInstanceTypes_elem in Himg as (it & img & Hit & Hin & Hfit & ->).
  injection H as <- <-. split; [|congruence].
  constructor; cbn.
  - subst configs. simpl. split; [lia|]. simpl in Hlen. exact Hlen.
  - intros c Hcin. destruct (Hcfg c Hcin) as [[]%elem_of_nil|[Hn Hv]]. split; [|done].
    apply list_elem_of_fmap in Hn as (x & -> & Hx). apply list_elem_of_fmap_2, Hsub, Hx.
  - done.
  - by case_bool_decide.
  - apply range_map_perm.
  - done.
  - exists it, img. split_and!; [by apply Hsub|done..].
Qed.
End request.

(** ** Lemmas: recording the offerings out of stock *)

(** The two error codes with which the service says that it has no stock. *)
Definition stock_code (code : option string) : Prop :=
  code = Some "NoInstanceStock" ∨ code = Some "OperationDenied.NoStock".

Lemma out_of_stock_spec code : out_of_stock code = true ↔ stock_code code.
Proof.
  unfold out_of_stock, stock_code. rewrite orb_true_iff, !bool_decide_eq_true.
  destruct code as [c|]; cbn; unfold ErrCodeNoInstanceStock, ErrCodeOperationDeniedNoStock;
    (split; [|naive_solver]); intros [H|H]; (by rewrite H; auto) || done.
Qed.

Definition reports (r : LaunchResult) (type zone : string) : Prop :=
  stock_code (lr_ErrorCode r) ∧ lr_InstanceType r = Some type ∧ type ≠ "" ∧
  lr_ZoneId r = Some zone ∧ zone ≠ "".

Lemma mark_result_keeps now now' ct u r type zone :
  (0 ≤ now)%Z → (now' ≤ now + UnavailableOfferingsTTL)%Z →
  IsUnavailable now' type zone ct u = true →
  IsUnavailable now' type zone ct (mark_result now ct u r) = true.
Proof.
  intros Hn Hn' Hu. unfold mark_result. destruct r as [r|]; [|done].
  destruct (_ && _ && _); [|done].
  unfold IsUnavailable, MarkUnavailable, MarkUnavailableWithTTL in *. cbn [bump uo_cache].
  set (k := key (StringValue _) _ ct). destruct (decide (k = key type zone ct)) as [->|Hne].
  - rewrite cache_get_set_eq by (unfold UnavailableOfferingsTTL, Minute, Second in *; lia).
    rewrite (proj2 (Z.ltb_ge _ _)) by lia. done.
  - by rewrite cache_get_set_ne.
Qed.

Lemma updateUnavailable_marks now now' ct u results r type zone :
  (0 ≤ now)%Z → (now' ≤ now + UnavailableOfferingsTTL)%Z →
  Some r ∈ results → reports r type zone →
  IsUnavailable now' type zone ct (foldl (mark_result now ct) u results) = true.
Proof.
  intros Hn Hn' Hin Hr.
  assert (∀ l u, IsUnavailable now' type zone ct u = true →
    IsUnavailable now' type zone ct (foldl (mark_result now ct) u l) = true) as Hkeep.
  { intros l. induction l as [|x l IH]; intros v Hv; [done|]. cbn [foldl].
    apply IH. by apply mark_result_keeps. }
  revert u. induction results as [|x l IH]; intros u; [by apply elem_of_nil in Hin|].
  cbn [foldl]. apply elem_of_cons in Hin as [<-|Hin]; [|by apply IH].
  apply Hkeep. destruct Hr as (Hs%out_of_stock_spec & Ht & Hte & Hz & Hze). unfold mark_result.
  rewrite Hs, Ht, Hz. change (StringValue (Some ?x)) with x.
  rewrite !bool_decide_false by done. simpl andb. cbv iota. by apply mark_unavailable_for.
Qed.

(** ** Lemmas: listing *)

Section listing.
Context {RT : GoRuntime} {W : Type} `{HC : !HasClock W} `{EI : !EcsInstances W}.
Notation S' := (St DefaultProvider W).

(** The service answers the queries for the cluster's tag, starting with a
    token, by pages with these instances, one page after the other. *)
Inductive pages_from (tag : string) : option string → W → list (list Instance) → W → Prop :=
  | Page_last tok w l ins next w' :
      DescribeInstances tag tok w = (Ok (Some (MkInstancesPage next (Some l))), w') →
      l ≠ [] → rmapM NewInstance l = Ok ins → next = None ∨ next = Some "" →
      pages_from tag tok w [ins] w'
  | Page_empty tok w next w' :
      DescribeInstances tag tok w = (Ok (Some (MkInstancesPage next (Some []))), w') →
      pages_from tag tok w [] w'
  | Page_next tok w l ins t w' ps w'' :
      DescribeInstances tag tok w = (Ok (Some (MkInstancesPage (Some t) (Some l))), w') →
      l ≠ [] → rmapM NewInstance l = Ok ins → t ≠ "" → pages_from tag (Some t) w' ps w'' →
      pages_from tag tok w (ins :: ps) w''.

Definition cluster_tag (p : DefaultProvider) : string := "kubernetes.io/cluster/" +:+ ip_ClusterID p.

Lemma list_pages_complete p tok w ps w' :
  pages_from (cluster_tag p) tok w ps w' → ∀ fuel acc, length ps < fuel →
  list_pages fuel tok acc (MkSt p w) = (Ok (acc ++ concat ps), MkSt p w').
Proof.
  induction 1 as [tok w l ins next w' Hd Hl Hi Hn | tok w next w' Hd
                 | tok w l ins t w' ps w'' Hd Hl Hi Ht _ IH];
    intros [|fuel] acc Hf; try (simpl in Hf; lia); cbn [list_pages];
    rewrite (M_Ok_bind get_prov _ _ p (MkSt p w)) by done; fold (cluster_tag p);
    rewrite (M_Ok_bind _ _ _ _ _ (call_run _ p w _ w' Hd));
    cbn [ip_Instances ip_NextToken concat].
  - rewrite app_nil_r. destruct l; [done|]. rewrite Hi. by destruct Hn as [-> | ->].
  - by rewrite app_nil_r.
  - destruct l; [done|]. rewrite Hi.
    rewrite app_assoc, <- (IH fuel (acc ++ ins)) by (simpl in Hf; lia). by destruct t.
Qed.
End listing.

(** ** Lemmas: the instance cache *)

Definition sync_cache (now : Z) (c : cache Instance) (l : list Instance) : cache Instance :=
  foldl (λ c i, cache_set now (ID i) i DefaultExpiration c) c l.

Definition find_id (id : string) (l : list Instance) : option Instance :=
  lo_find (λ i, bool_decide (ID i = id)) (reverse l).

Lemma sync_cache_expiration now c l : defaultExpiration (sync_cache now c l) = defaultExpiration c.
Proof.
  revert c. induction l as [|i l IH]; intros c; [done|].
  exact (IH (cache_set now (ID i) i DefaultExpiration c)).
Qed.

Lemma sync_cache_get now now' c l id :
  (0 < defaultExpiration c)%Z → (0 ≤ now)%Z → (now' ≤ now + defaultExpiration c)%Z →
  cache_get now' id (sync_cache now c l) =
  match find_id id l with Some i => Some i | None => cache_get now' id c end.
Proof.
  intros Hd Hn Hn'. unfold find_id. induction l as [|i l IH] using rev_ind; [done|].
  unfold sync_cache. rewrite foldl_app, reverse_app. cbn [foldl reverse rev_append app lo_find].
  fold (sync_cache now c l). case_bool_decide as Hid.
  - subst. change (cache_set now (ID i) i DefaultExpiration (sync_cache now c l))
      with (cache_set_default now (ID i) i (sync_cache now c l)).
    rewrite cache_get_set_default_eq by (rewrite ?sync_cache_expiration; done).
    rewrite sync_cache_expiration. by rewrite (proj2 (Z.ltb_ge _ _)) by lia.
  - by rewrite cache_get_set_ne.
Qed.

Section reading.
Context {RT : GoRuntime} {W : Type} `{HC : !HasClock W} `{EI : !EcsInstances W}.
Notation S' := (St DefaultProvider W).

Lemma syncAll_run p (w : W) l :
  syncAllInstances l (MkSt p w) =
  (Ok (), MkSt (set_instances (sync_cache (clock w) (instanceCache p) l) p) w).
Proof. done. Qed.

Lemma List_refresh p (w w' : W) ps fuel :
  (instanceCacheExpiration ≤ clock w - lastUpdateTime p)%Z →
  pages_from (cluster_tag p) None w ps w' → length ps < fuel →
  List_ fuel (MkSt p w) =
  (Ok (concat ps), MkSt (set_updated (clock w')
     (set_instances (sync_cache (clock w') (instanceCache p) (concat ps)) p)) w').
Proof.
  intros Hold Hps Hf. unfold List_.
  rewrite (M_Ok_bind get_prov _ _ p (MkSt p w)) by done.
  rewrite (M_Ok_bind now _ _ (clock w) (MkSt p w)) by done.
  rewrite (proj2 (Z.ltb_ge _ _)) by lia. unfold list_.
  rewrite (M_Ok_bind _ _ _ _ _ (list_pages_complete p None w ps w' Hps fuel [] Hf)). done.
Qed.

Lemma List_cached p (w : W) fuel :
  (clock w - lastUpdateTime p < instanceCacheExpiration)%Z →
  List_ fuel (MkSt p w) =
  (Ok (map_values 30 (Object <$> cache_items (clock w) (instanceCache p))), MkSt p w).
Proof.
  intros Hnew. unfold List_.
  rewrite (M_Ok_bind get_prov _ _ p (MkSt p w)) by done.
  rewrite (M_Ok_bind now _ _ (clock w) (MkSt p w)) by done.
  by rewrite (proj2 (Z.ltb_lt _ _)) by lia.
Qed.

(** [Get] after its cache missed. *)
Lemma Get_miss p (w : W) fuel id l p1 w1 :
  cache_get (clock w) id (instanceCache p) = None →
  List_ fuel (MkSt p w) = (Ok l, MkSt p1 w1) →
  Get_ fuel id (MkSt p w) =
  (match cache_get (clock w1) id (sync_cache (clock w1) (instanceCache p1) l) with
   | Some i => Ok i
   | None => Err (NodeClaimNotFoundError (ErrorString "instance not found"))
   end, MkSt (set_instances (sync_cache (clock w1) (instanceCache p1) l) p1) w1).
Proof.
  intros Hmiss Hl. unfold Get_.
  rewrite (M_Ok_bind get_prov _ _ p (MkSt p w)) by done.
  rewrite (M_Ok_bind now _ _ (clock w) (MkSt p w)) by done. rewrite Hmiss.
  rewrite (M_Ok_bind _ _ _ _ _ Hl), (M_Ok_bind _ _ _ _ _ (syncAll_run p1 w1 l)).
  rewrite (M_Ok_bind get_prov _ _ _ _ eq_refl), (M_Ok_bind now _ _ _ _ eq_refl). cbn [prov env].
  cbn [instanceCache set_instances].
  by destruct (cache_get (clock w1) id (sync_cache (clock w1) (instanceCache p1) l)).
Qed.

Lemma Get_hit p (w : W) fuel id i :
  cache_get (clock w) id (instanceCache p) = Some i → Get_ fuel id (MkSt p w) = (Ok i, MkSt p w).
Proof.
  intros Hhit. unfold Get_.
  rewrite (M_Ok_bind get_prov _ _ p (MkSt p w)) by done.
  rewrite (M_Ok_bind now _ _ (clock w) (MkSt p w)) by done. by rewrite Hhit.
Qed.

Lemma cache_get_later {V} (c : cache V) t t' id :
  (t ≤ t')%Z → cache_get t id c = None → cache_get t' id c = None.
Proof.
  unfold cache_get. intros Ht. destruct (items c !! id) as [it|]; [|done].
  destruct (expired t it) eqn:He; [|done]. by rewrite (expired_mono t t').
Qed.
End reading.

(** ** Relations kept by the operations

    [R] relates the environments before and after every call the operation
    makes, hence before and after the operation. *)

Section respects.
Context {RT : GoRuntime} {W : Type} `{HC : !HasClock W} `{EI : !EcsInstances W}.
Context (R : relation W) `{!PreOrder R} (fuel : nat).
Context (Hdescribe : ∀ tag token w, R w (DescribeInstances tag token w).2).

Lemma sync_respects l : respects (on_env R) (syncAllInstances l).
Proof. by apply on_env_same. Qed.
#[local] Hint Resolve sync_respects : respects.

Lemma list_pages_respects n token acc : respects (on_env R) (list_pages n token acc).
Proof.
  revert token acc. induction n as [|n IHn]; intros token acc; cbn [list_pages]; [auto with respects|].
  respects_walk. by apply on_env_call.
Qed.
Lemma list_respects : respects (on_env R) (list_ fuel).
Proof. apply list_pages_respects. Qed.
#[local] Hint Resolve list_respects : respects.
Lemma List_respects : respects (on_env R) (List_ fuel).
Proof. unfold List_. respects_walk. Qed.
#[local] Hint Resolve List_respects : respects.
Lemma Get_respects id : respects (on_env R) (Get_ fuel id).
Proof. unfold Get_. respects_walk. Qed.
#[local] Hint Resolve Get_respects : respects.
Lemma Delete_respects id : (∀ w, R w (DeleteInstance id w).2) → respects (on_env R) (Delete fuel id).
Proof. intros Hdelete. unfold Delete. respects_walk. by apply on_env_call. Qed.
Lemma CreateTags_respects id tags :
  (∀ l w, R w (AddTags id l w).2) → respects (on_env R) (CreateTags fuel id tags).
Proof. intros Htags. unfold CreateTags. respects_walk. by apply on_env_call. Qed.
End respects.

(** ** Lemmas: launching *)

Lemma responseHandler_Ok resp r :
  responseHandler resp = Ok r →
  head (launch_results resp) = Some (Some r) ∧ out_of_stock (lr_ErrorCode r) = false ∧
  is_Some (lr_InstanceIds r).
Proof.
  unfold responseHandler, launch_results. destruct resp as [[code [body|]]|]; [|done..].
  destruct (pb_LaunchResults body) as [results|]; [|done]. destruct (negb _); [done|].
  destruct results as [|[r0|] rest]; [done| |done].
  destruct (out_of_stock (lr_ErrorCode r0)) eqn:Ho; [done|].
  destruct (lr_InstanceIds r0) as [[|x l]|] eqn:Hi; [done| |done]. intros [= <-]. by rewrite Hi.
Qed.

(** What the spot strategy of a launch result says of the machine. *)
Definition billed_as (strategy ct : string) : Prop :=
  (strategy = "NoSpot" → ct = "on-demand") ∧ (strategy ≠ "NoSpot" → ct = "spot").
Lemma GetCapacityTypes_billed strategy : billed_as strategy (GetCapacityTypes strategy).
Proof.
  unfold billed_as, GetCapacityTypes. case_bool_decide; split; done.
Qed.
Lemma NewInstanceFromProvisioningGroup_Ok now out req region inst :
  NewInstanceFromProvisioningGroup now out req region = Ok inst →
  (∃ ids, lr_InstanceIds out = Some (Some (ID inst) :: ids)) ∧
  lr_InstanceType out = Some (Type_ inst) ∧ lr_ZoneId out = Some (Zone inst) ∧
  ImageID inst = pg_ImageId req ∧ SecurityGroupIDs inst = pg_SecurityGroupIds req ∧
  Status inst = InstanceStatusPending ∧ Region inst = region ∧
  ∃ strategy, lr_SpotStrategy out = Some strategy ∧ billed_as strategy (CapacityType inst).
Proof.
  unfold NewInstanceFromProvisioningGroup.
  destruct (pg_SecurityGroupIds req) as [|g gs]; [done|]. rewrite result_Ok_bind.
  destruct (lr_InstanceIds out) as [[|[id|] ids]|]; try done.
  destruct (lr_InstanceType out); [|done]. destruct (lr_ZoneId out); [|done].
  destruct (lr_SpotStrategy out); [|done]. cbn. intros [= <-]. cbn. split_and!; try done; eexists; [done|].
  split; [done|]. apply GetCapacityTypes_billed.
Qed.

Section launching.
Context {RT : GoRuntime} {W : Type} `{HC : !HasClock W} `{EI : !EcsInstances W}.
Context `{LL : !LaunchLimiter W} `{RS : !RegisterScript W} `{DR : !DiskResolver W}.

Lemma launchInstance_sound nodeClass nodeClaim its tags (s s' : St DefaultProvider W) out req :
  launchInstance nodeClass nodeClaim its tags s = (Ok (out, req), s') →
  ∃ resp w, sound_request nodeClass its (getCapacityType nodeClaim its) tags req ∧
    CreateAutoProvisioningGroup req w = (Ok resp, env s') ∧ responseHandler resp = Ok out.
Proof.
  unfold launchInstance. intros H. apply M_bind_Ok in H as (zonal & s1 & Hz & H).
  apply M_bind_Ok in H as (req' & s2 & Hreq & H). apply wrap_Ok in Hreq.
  apply getProvisioningGroup_sound in Hreq as [Hreq _].
  apply M_bind_Ok in H as (resp & s3 & Hcall & H). apply wrap_Ok, call_Ok in Hcall as [Hcall _].
  apply M_bind_Ok in H as (p & s4 & Hg & H). injection Hg as <- <-.
  apply M_bind_Ok in H as (t & s5 & Hg & H). injection Hg as <- <-.
  apply M_bind_Ok in H as ([] & s6 & Hg & H). injection Hg as <-.
  apply M_bind_Ok in H as (r & s7 & Hh & H). injection Hh as Hh <-.
  injection H as -> -> <-. by exists resp, (env s2).
Qed.
(** The steps of a [Create] that returned an instance. *)
Lemma Create_steps nodeClass nodeClaim its (s s' : St DefaultProvider W) inst :
  Create nodeClass nodeClaim its s = (Ok inst, s') →
  ∃ its' req resp w r t,
    (∀ it, it ∈ its' → it ∈ its ∧ (HasMinValues (claim_reqs nodeClaim) = false → survives nodeClaim its it)) ∧
    sound_request nodeClass its' (getCapacityType nodeClaim its')
      (getTags (ip_ClusterID (prov s)) nodeClass nodeClaim) req ∧
    CreateAutoProvisioningGroup req w = (Ok resp, env s') ∧ responseHandler resp = Ok r ∧
    NewInstanceFromProvisioningGroup t r req (ip_region (prov s)) = Ok inst.
Proof.
  unfold Create. intros H. apply M_bind_Ok in H as ([] & s1 & Hw & H).
  apply wrap_Ok, call_Ok in Hw as [_ Hp1].
  apply M_bind_Ok in H as (its1 & s2 & Hf & H). injection Hf as Hf <-.
  apply M_bind_Ok in H as (its2 & s3 & Ht & H). apply wrap_Ok in Ht. injection Ht as Ht <-.
  apply M_bind_Ok in H as (p & s4 & Hg & H). injection Hg as <- <-.
  apply M_bind_Ok in H as ([out req] & s5 & Hlaunch & H).
  apply M_bind_Ok in H as (t & s6 & Hg & H). injection Hg as <- <-. injection H as Hnew <-.
  destruct (launchInstance_sound _ _ _ _ _ _ _ _ Hlaunch) as (resp & w & Hreq & Hcall & Hresp).
  rewrite Hp1 in *. exists its2, req, resp, w, out, (clock (env s5)).
  split_and!; [|exact Hreq|exact Hcall|exact Hresp|exact Hnew].
  intros it Hit. apply (Truncate_elem _ _ _ _ _ Ht) in Hit. destruct (HasMinValues _).
  - injection Hf as <-. done.
  - split; [|intros _; by eapply filterInstanceTypes_survives].
    eapply elem_of_sublist; [exact Hit|]. by eapply filterInstanceTypes_sublist.
Qed.
End launching.

(** ** Properties *)

Section properties.
Context {RT : GoRuntime} {W : Type} `{HC : !HasClock W} `{EI : !EcsInstances W}.
Context `{LL : !LaunchLimiter W} `{RS : !RegisterScript W} `{DR : !DiskResolver W}.

(** When neither the cache has the instance nor the last listing is
    recent, [Get] reads all pages of the service and answers from them: the
    instance with that ID if there is one, else the NodeClaim-not-found error
    on which karpenter's termination relies. *)
Theorem Get_refreshed p (w w' : W) ps fuel id :
  cache_get (clock w) id (instanceCache p) = None →
  (instanceCacheExpiration ≤ clock w - lastUpdateTime p)%Z →
  pages_from (cluster_tag p) None w ps w' → length ps < fuel →
  (0 ≤ clock w ≤ clock w')%Z → (0 < defaultExpiration (instanceCache p))%Z →
  ∃ p', Get_ fuel id (MkSt p w) =
    (match find_id id (concat ps) with
     | Some i => Ok i
     | None => Err (NodeClaimNotFoundError (ErrorString "instance not found"))
     end, MkSt p' w') ∧ lastUpdateTime p' = clock w'.
Proof.
  intros Hmiss Hold Hps Hf Hclock Hd.
  pose proof (List_refresh p w w' ps fuel Hold Hps Hf) as Hl.
  rewrite (Get_miss _ _ _ _ _ _ _ Hmiss Hl). eexists.
  split; [apply (f_equal2 pair); [|reflexivity] | reflexivity].
  cbn [instanceCache set_updated set_instances].
  rewrite !sync_cache_get by (rewrite ?sync_cache_expiration; lia).
  destruct (find_id id (concat ps)); [done|].
  by rewrite (cache_get_later _ (clock w) (clock w')) by (done || lia).
Qed.

(** A listing that is not recent reads every page, whatever their
    number, returns the instances in order, and caches each under its ID for
    the cache's lifetime. *)
Theorem List_complete_pages p (w w' : W) ps fuel :
  (instanceCacheExpiration ≤ clock w - lastUpdateTime p)%Z →
  pages_from (cluster_tag p) None w ps w' → length ps < fuel →
  (0 ≤ clock w')%Z → (0 < defaultExpiration (instanceCache p))%Z →
  ∃ p', List_ fuel (MkSt p w) = (Ok (concat ps), MkSt p' w') ∧
    ∀ id i now', find_id id (concat ps) = Some i →
      (now' ≤ clock w' + defaultExpiration (instanceCache p))%Z →
      cache_get now' id (instanceCache p') = Some i.
Proof.
  intros Hold Hps Hf H0 Hd. eexists. split; [by apply List_refresh|].
  intros id i now' Hi Hn. cbn [instanceCache set_updated set_instances].
  rewrite sync_cache_get by done. by rewrite Hi.
Qed.

(** [Delete] of a cached instance: while it is pending or starting
    the service is not called and the caller is told to retry; otherwise the
    instance is deleted and leaves the cache, and a 404 of the service is
    reported as NodeClaim-not-found. *)
Theorem Delete_branches p (w : W) fuel id i :
  cache_get (clock w) id (instanceCache p) = Some i →
  (Status i = InstanceStatusStarting ∨ Status i = InstanceStatusPending →
     Delete fuel id (MkSt p w) = (Err (InstanceStateOperationNotSupportedError id), MkSt p w)) ∧
  (Status i ≠ InstanceStatusStarting → Status i ≠ InstanceStatusPending → ∀ w',
     (DeleteInstance id w = (Ok (), w') →
        ∃ p', Delete fuel id (MkSt p w) = (Ok (), MkSt p' w') ∧
          ∀ t id', cache_get t id' (instanceCache p') =
                   if bool_decide (id' = id) then None else cache_get t id' (instanceCache p)) ∧
     (∀ e, DeleteInstance id w = (Err e, w') → alierrors.IsNotFound e = Ok true →
        ∃ e', Delete fuel id (MkSt p w) = (Err e', MkSt p w') ∧ IsNodeClaimNotFoundError e' = true)).
Proof.
  intros Hhit. unfold Delete.
  assert (wrap "deleting instance" (Get_ fuel id) (MkSt p w) = (Ok i, MkSt p w)) as Hget
    by (apply wrap_Ok; by apply Get_hit).
  split.
  - intros Hs. rewrite (M_Ok_bind _ _ _ _ _ Hget).
    rewrite (proj2 (orb_true_iff _ _)); [done|].
    destruct Hs as [Hs|Hs]; [left|right]; by apply bool_decide_true.
  - intros Hns Hnp w'. rewrite (M_Ok_bind _ _ _ _ _ Hget), !bool_decide_false by done.
    cbn [orb]. cbv iota. split.
    + intros Hd. unfold mbind at 1, M_bind at 1, attempt. rewrite (call_run _ p w _ w' Hd).
      eexists. split; [done|]. cbn [instanceCache set_instances]. intros t id'.
      case_bool_decide as Hid; [subst; apply cache_get_delete_eq|]. by apply cache_get_delete_ne.
    + intros e Hd H404. unfold mbind at 1, M_bind at 1, attempt. rewrite (call_run _ p w _ w' Hd).
      unfold mbind at 1, M_bind at 1, lift. rewrite H404. eexists. split; done.
Qed.

(** C6. An instance returned by [Create] was launched by a sound
    request: at most twenty configurations, all of proposed types, one machine
    of the capacity type chosen for them, an image compatible with one of the
    types, the cluster's ownership tags on the machine. Unless the NodeClaim
    asks for a minimum number of values (the code then keeps every proposed
    type), the types of the request survived the filters: none is bare metal
    or has GPUs while a type without was proposed, and where the NodeClaim allows spot
    and on-demand and both are in stock each has an offering no dearer than
    any on-demand one. The instance is the first machine of the first launch
    result of that request's response, which is not an out-of-stock one, with
    its type, its zone and the capacity type of its spot strategy. *)
Theorem Create_sound nodeClass nodeClaim its (s s' : St DefaultProvider W) inst :
  Create nodeClass nodeClaim its s = (Ok inst, s') →
  ∃ its' req resp w r,
    (∀ it, it ∈ its' → it ∈ its ∧ (HasMinValues (claim_reqs nodeClaim) = false → survives nodeClaim its it)) ∧
    sound_request nodeClass its' (getCapacityType nodeClaim its')
      (getTags (ip_ClusterID (prov s)) nodeClass nodeClaim) req ∧
    CreateAutoProvisioningGroup req w = (Ok resp, env s') ∧
    head (launch_results resp) = Some (Some r) ∧ out_of_stock (lr_ErrorCode r) = false ∧
    (∃ ids, lr_InstanceIds r = Some (Some (ID inst) :: ids)) ∧
    lr_InstanceType r = Some (Type_ inst) ∧ lr_ZoneId r = Some (Zone inst) ∧
    (∃ strategy, lr_SpotStrategy r = Some strategy ∧ billed_as strategy (CapacityType inst)) ∧
    ImageID inst = pg_ImageId req ∧ SecurityGroupIDs inst = pg_SecurityGroupIds req ∧
    Status inst = InstanceStatusPending ∧ Region inst = ip_region (prov s).
Proof.
  intros H. destruct (Create_steps _ _ _ _ _ _ H)
    as (its2 & req & resp & w & out & t & Hits & Hreq & Hcall & Hresp & Hnew).
  exists its2, req, resp, w, out.
  apply responseHandler_Ok in Hresp as (Hhead & Hstock & _).
  apply NewInstanceFromProvisioningGroup_Ok in Hnew as (Hid & Ht & Hz & Himg & Hsg & Hst & Hreg & Hct).
  by split_and!.
Qed.

(** C20. A launch whose first result is out of stock fails with an
    insufficient-capacity error (on which karpenter retries elsewhere), and
    every offering the response reports out of stock is unavailable for the
    next three minutes. *)
Theorem launchInstance_out_of_stock nodeClass nodeClaim its tags (s s2 : St DefaultProvider W)
    zonal vp req code body r rest w3
    (ct := getCapacityType nodeClaim its) :
  vswitch.ZonalVSwitchesForLaunch (clock (env s)) nodeClass its ct (vSwitchProvider (prov s))
    = (Ok zonal, vp) →
  getProvisioningGroup nodeClass nodeClaim its zonal ct tags
    (MkSt (set_vswitches vp (prov s)) (env s)) = (Ok req, s2) →
  CreateAutoProvisioningGroup req (env s2)
    = (Ok (Some (MkProvisioningResponse code (Some body))), w3) →
  pb_LaunchResults body = Some (Some r :: rest) → code = Some 200%Z →
  stock_code (lr_ErrorCode r) → (0 ≤ clock w3)%Z →
  ∃ e s', launchInstance nodeClass nodeClaim its tags s = (Err e, s') ∧
    IsInsufficientCapacityError e = true ∧
    ∀ r' type zone now', Some r' ∈ Some r :: rest → reports r' type zone →
      (now' ≤ clock w3 + UnavailableOfferingsTTL)%Z →
      IsUnavailable now' type zone ct (unavailableOfferings (prov s')) = true.
Proof.
  intros Hz Hreq Hcall Hres -> Hoos%out_of_stock_spec Hclock. unfold launchInstance. fold ct.
  unfold mbind at 1, M_bind at 1, wrap at 1. rewrite Hz.
  unfold mbind at 1, M_bind at 1, wrap at 1. rewrite Hreq.
  unfold mbind at 1, M_bind at 1, wrap at 1. destruct s2 as [p2 w2].
  rewrite (call_run _ p2 w2 _ w3 Hcall).
  rewrite (M_Ok_bind get_prov _ _ _ _ eq_refl), (M_Ok_bind now _ _ _ _ eq_refl). cbn [prov env].
  rewrite (M_Ok_bind (set_prov _) _ _ _ _ eq_refl). cbn [env].
  unfold mbind at 1, M_bind at 1, lift, responseHandler. rewrite Hres.
  rewrite bool_decide_true by done. cbn [negb]. cbv iota. rewrite Hoos.
  eexists _, _. split_and!; [reflexivity | done |].
  intros r' type zone now' Hin Hr Hn. cbn [prov unavailableOfferings set_unavailable].
  unfold updateUnavailableOfferingsCache, launch_results. rewrite Hres. cbn [default from_option].
  by eapply updateUnavailable_marks.
Qed.
End properties.

End instance.

(** ** A service without instances: what the cache makes of it *)

Module StaleExample.
Import instance.

(** The environment is the clock; the service lists no instance. *)
#[global] Instance stale_clock : HasClock Z := id.
#[global] Instance empty_ecs : EcsInstances Z := {|
  DescribeInstances := λ _ _ w, (Ok (Some (MkInstancesPage None (Some []))), w);
  DeleteInstance := λ _ w, (Err (SDKError (Some 404%Z) "InvalidInstanceId.NotFound"), w);
  AddTags := λ _ _ w, (Ok (), w);
  CreateAutoProvisioningGroup := λ _ w, (Ok None, w);
|}.

Definition gone : Instance :=
  MkInstance 0 InstanceStatusRunning "i-gone" "img" "ecs.g6.large" "cn-hangzhou" "cn-hangzhou-h"
    CapacityTypeSpot ["sg-1"] "vsw-1" ∅.

(** The provider that listed the instance (set to expire at [e]) and last
    refreshed its cache at [last]. *)
Definition holding (last e : Z) : DefaultProvider :=
  MkProvider "cn-hangzhou" "c1" last
    (MkCache instanceCacheExpiration {["i-gone" := MkItem gone e]})
    NewUnavailableOfferings (vswitch.NewDefaultProvider Minute Minute).

(** A [Get] for an unknown instance at time [t]. *)
Definition probe {RT : GoRuntime} (p : DefaultProvider) (t : Z) : DefaultProvider :=
  prov (Get_ 2 "i-missing" (MkSt p t)).2.

Section stale.
Context {RT : GoRuntime}.

Lemma live_item t e : (t ≤ e)%Z → expired t (MkItem gone e) = false.
Proof. intros H. unfold expired. cbn [Expiration]. apply andb_false_iff. right. apply Z.ltb_ge. lia. Qed.

Lemma holding_get last e t id :
  cache_get t id (instanceCache (holding last e)) =
  if bool_decide (id = "i-gone") && negb (expired t (MkItem gone e)) then Some gone else None.
Proof.
  unfold cache_get. cbn [holding instanceCache items].
  case_bool_decide as Hid; [subst; rewrite lookup_singleton_eq | rewrite lookup_singleton_ne by done];
    [|done]. cbn [andb]. by destruct (expired t _).
Qed.

Lemma probe_old last e t :
  (instanceCacheExpiration ≤ t - last)%Z → probe (holding last e) t = holding t e.
Proof.
  intros Hold. unfold probe.
  assert (pages_from (cluster_tag (holding last e)) None t [] t) as Hps
    by (eapply Page_empty; reflexivity).
  rewrite (Get_miss (HC := stale_clock) (holding last e) t 2 "i-missing" _ _ _
    (holding_get last e t "i-missing")
    (List_refresh (holding last e) t t [] 2 Hold Hps ltac:(simpl; lia))). done.
Qed.

Lemma probe_recent last e t :
  (t - last < instanceCacheExpiration)%Z → (t ≤ e)%Z →
  probe (holding last e) t = holding last (t + instanceCacheExpiration).
Proof.
  intros Hnew He. unfold probe.
  pose proof (live_item t e He) as Hlive.
  rewrite (Get_miss (HC := stale_clock) (holding last e) t 2 "i-missing" _ _ _
    (holding_get last e t "i-missing")
    (List_cached (holding last e) t 2 Hnew)).
  change (clock t) with t.
  assert (map_values 30 (Object <$> cache_items t (instanceCache (holding last e))) = [gone]) as ->.
  { unfold cache_items. cbn [holding instanceCache items].
    rewrite map_filter_singleton_True by done. rewrite map_fmap_singleton. cbn [Object]. unfold map_values.
    pose proof (range_map_perm Instance 30 {["i-gone" := gone]}) as Hperm.
    rewrite map_to_list_singleton in Hperm. apply Permutation_singleton_r in Hperm. by rewrite Hperm. }
  cbn [prov fst snd]. unfold sync_cache, holding, set_instances, cache_set. cbn.
  rewrite insert_singleton_eq. done.
Qed.

(** Every fifteen seconds: a probe that refreshes the listing, and two within
    its lifetime. *)
Definition probe_times (start : Z) (n : nat) : list Z :=
  seq 0 n ≫= λ k, let t := (start + Z.of_nat k * 15 * Second)%Z in [t; t + 5 * Second; t + 12 * Second]%Z.

Lemma probe_times_S start n :
  probe_times start (S n) = probe_times start n ++
    (let t := (start + Z.of_nat n * 15 * Second)%Z in [t; t + 5 * Second; t + 12 * Second]%Z).
Proof. unfold probe_times. by rewrite seq_S, bind_app. Qed.

Lemma period last e t :
  (15 * Second ≤ t - last)%Z → (t + 5 * Second ≤ e)%Z →
  foldl probe (holding last e) [t; t + 5 * Second; t + 12 * Second]%Z = holding t (t + 27 * Second).
Proof.
  intros Hold He. cbn [foldl]. rewrite probe_old by (unfold instanceCacheExpiration; lia).
  rewrite !probe_recent by (unfold instanceCacheExpiration, Second in *; lia).
  apply (f_equal2 holding); [reflexivity | unfold instanceCacheExpiration; lia].
Qed.

Lemma stale_run n start :
  (0 < start)%Z →
  foldl probe (holding (start - 15 * Second) (start + 12 * Second)) (probe_times start n) =
  holding (start + (Z.of_nat n - 1) * 15 * Second) (start + Z.of_nat n * 15 * Second + 12 * Second).
Proof.
  intros Hs. induction n as [|n IH].
  - apply (f_equal2 holding); lia.
  - rewrite probe_times_S, foldl_app, IH, period by (unfold Second; lia).
    apply (f_equal2 holding); lia.
Qed.
End stale.

(** C40. An instance that the service no longer lists can stay in the
    cache without end: each [Get] for an unknown instance while the last
    listing is recent re-inserts the cached instances with a new lifetime, and
    a refresh does not remove what is no longer listed.  After any number [n]
    of fifteen-second periods with three such calls each, [Get] still returns
    the vanished instance. *)
Theorem vanished_instance_stays {RT : GoRuntime} (n : nat) (start : Z) :
  (0 < start)%Z →
  (Get_ 2 "i-gone"
     (MkSt (foldl probe (holding (start - 15 * Second) (start + 12 * Second)) (probe_times start n))
        (start + Z.of_nat n * 15 * Second)%Z)).1 = Ok gone.
Proof.
  intros Hs. rewrite stale_run by done. rewrite (Get_hit (HC := stale_clock) _ _ _ _ gone); [done|].
  change (clock ?t) with t. rewrite holding_get, bool_decide_true by done. cbn [andb].
  by rewrite live_item by (unfold Second; lia).
Qed.

Lemma vanished_instance_stays_witness :
  (Get_ 2 "i-gone"
     (MkSt (foldl probe (holding (Minute - 15 * Second) (Minute + 12 * Second)) (probe_times Minute 240))
        (Minute + 240 * 15 * Second)%Z)).1 = Ok gone.
Proof. exact (vanished_instance_stays 240 Minute ltac:(reflexivity)). Defined.
End StaleExample.

(** ** A concrete service *)

Module LaunchExample.
Import instance.

(** The environment: the clock, and whether the service has stock. *)
Definition world : Type := Z * bool.
#[global] Instance launch_clock : HasClock world := λ w, w.1.
Definition ecs (id status : string) : EcsInstance :=
  MkEcsInstance (Some "2024-10-01T08:30Z") (Some status) (Some id) (Some "img-x86") (Some "ecs.g6.large")
    (Some "cn-hangzhou") (Some "cn-hangzhou-a") (Some "NoSpot") (Some [Some "sg-1"]) (Some (Some "vsw-a"))
    (Some [(Some "karpenter.sh/nodepool", Some "default")]).
Definition result_of (stock : bool) (req : ProvisioningRequest) : LaunchResult :=
  let type := cfg_InstanceType <$> head (pg_LaunchTemplateConfig req) in
  if stock
  then MkLaunchResult None None type (Some "cn-hangzhou-a") (Some "SpotAsPriceGo") (Some [Some "i-new"])
  else MkLaunchResult (Some "OperationDenied.NoStock") (Some "sold out") type (Some "cn-hangzhou-a") None None.
#[global] Instance launch_ecs : EcsInstances world := {|
  DescribeInstances := λ _ tok w,
    match tok with
    | None => (Ok (Some (MkInstancesPage (Some "next") (Some [ecs "i-1" "Running"]))), w)
    | Some _ => (Ok (Some (MkInstancesPage (Some "") (Some [ecs "i-2" "Starting"]))), w)
    end;
  DeleteInstance := λ _ w, (Ok (), w);
  AddTags := λ _ _ w, (Ok (), w);
  CreateAutoProvisioningGroup := λ req w,
    (Ok (Some (MkProvisioningResponse (Some 200%Z)
       (Some (MkProvisioningBody (Some "req") (Some [Some (result_of w.2 req)]))))), w);
|}.
#[global] Instance no_limit : LaunchLimiter world := λ w, (Ok (), w).
#[global] Instance script : RegisterScript world := λ _ _ w, (Ok "#!/bin/sh", w).
#[global] Program Instance any_disk : DiskResolver world :=
  {| FilterInstanceTypesBySystemDisk _ its w := (Ok its, w) |}.
Next Obligation. intros nodeClass its w l w' [= <- _] it H. exact H. Qed.

Definition class : ECSNodeClass :=
  MkNodeClass (MkMeta "default" "uid" ∅ ∅ [] 0 None)
    (MkSpec [] "" [] [] None None {[NodePoolLabelKey := "hijacked"]} "rg-1")
    (MkStatus [MkVSwitch "vsw-a" SelectExample.za; MkVSwitch "vsw-b" SelectExample.zb]
       [MkSecurityGroup "sg-1" "sg"] [SelectExample.arm_image; SelectExample.x86_image] []).
Definition fresh : DefaultProvider :=
  NewDefaultProvider "cn-hangzhou" "c1" NewUnavailableOfferings (vswitch.NewDefaultProvider Minute Minute).
Definition start (stock : bool) : St DefaultProvider world := MkSt fresh (Minute, stock).
Definition its : list InstanceType := [SelectExample.big; SelectExample.small].
Definition created : result Instance * St DefaultProvider world :=
  Create class SelectExample.any_claim its (start true).

Example create_example :
  match created.1 with
  | Ok i => ID i = "i-new" ∧ Type_ i = "ecs.g6.large" ∧ ImageID i = "img-x86" ∧ CapacityType i = "spot"
  | _ => False
  end.
Proof. vm_compute. repeat split; reflexivity. Qed.

Lemma created_ok : ∃ i, created.1 = Ok i ∧ ID i = "i-new".
Proof.
  pose proof create_example as H. destruct created.1 as [i| |]; [|done..]. exists i. naive_solver.
Qed.

Lemma Create_sound_witness :
  ∃ inst its' req, created.1 = Ok inst ∧ (∀ it, it ∈ its' → survives SelectExample.any_claim its it) ∧
    sound_request class its' (getCapacityType SelectExample.any_claim its')
      (getTags "c1" class SelectExample.any_claim) req.
Proof.
  destruct created_ok as (inst & Hok & _).
  assert (created = (Ok inst, created.2)) as H.
  { rewrite <- Hok. destruct created. reflexivity. }
  destruct (Create_sound class SelectExample.any_claim its (start true) created.2 inst H)
    as (its' & req & resp & w & r & Hsub & Hreq & _).
  exists inst, its', req. split; [exact Hok|]. split; [|exact Hreq].
  intros it Hit. apply (Hsub it Hit). vm_compute. reflexivity.
Defined.

Definition pages : list (list Instance) :=
  match rmapM (λ e, rmapM NewInstance [e]) [ecs "i-1" "Running"; ecs "i-2" "Starting"] with
  | Ok l => l
  | _ => []
  end.
Lemma two_pages : pages_from (cluster_tag fresh) None (Minute, true) pages (Minute, true).
Proof.
  eapply Page_next; [reflexivity | discriminate | vm_compute; reflexivity | discriminate |].
  eapply Page_last; [reflexivity | discriminate | vm_compute; reflexivity | right; reflexivity].
Qed.

Lemma Get_refreshed_witness :
  ∃ p', Get_ 5 "i-9" (start true) =
    (Err (NodeClaimNotFoundError (ErrorString "instance not found")), MkSt p' (Minute, true)).
Proof.
  destruct (Get_refreshed fresh (Minute, true) (Minute, true) pages 5 "i-9") as (p' & H & _).
  - reflexivity.
  - vm_compute. discriminate.
  - exact two_pages.
  - vm_compute. lia.
  - vm_compute. split; discriminate.
  - vm_compute. reflexivity.
  - exists p'. exact H.
Defined.

Lemma List_complete_pages_witness :
  ∃ p', List_ 5 (start true) = (Ok (concat pages), MkSt p' (Minute, true)).
Proof.
  destruct (List_complete_pages fresh (Minute, true) (Minute, true) pages 5) as (p' & H & _).
  - vm_compute. discriminate.
  - exact two_pages.
  - vm_compute. lia.
  - vm_compute. discriminate.
  - vm_compute. reflexivity.
  - exists p'. exact H.
Defined.

Definition listed : DefaultProvider := prov (List_ 5 (start true)).2.
Definition starting : Instance := default StaleExample.gone (find_id "i-2" (concat pages)).
Lemma Delete_branches_witness :
  Delete 5 "i-2" (MkSt listed (Minute, true)) =
  (Err (InstanceStateOperationNotSupportedError "i-2"), MkSt listed (Minute, true)).
Proof.
  apply (Delete_branches listed (Minute, true) 5 "i-2" starting).
  - vm_compute. reflexivity.
  - left. vm_compute. reflexivity.
Defined.

(** A sold-out launch of the small type. *)
Definition one : list InstanceType := [SelectExample.small].
Definition zonal1 : gmap string vswitch.VSwitch * vswitch.DefaultProvider :=
  match vswitch.ZonalVSwitchesForLaunch Minute class one CapacityTypeSpot (vSwitchProvider fresh) with
  | (Ok m, vp) => (m, vp)
  | (_, vp) => (∅, vp)
  end.
Definition request1 : result ProvisioningRequest * St DefaultProvider world :=
  getProvisioningGroup class SelectExample.any_claim one zonal1.1 CapacityTypeSpot ∅
    (MkSt (set_vswitches zonal1.2 fresh) (Minute, false)).
Definition empty_request : ProvisioningRequest :=
  MkProvisioning "" "" "" "" [] "" "" "" [] None None [] [] [].
Definition req1 : ProvisioningRequest := match request1.1 with Ok r => r | _ => empty_request end.

Lemma launchInstance_out_of_stock_witness :
  ∃ e s', launchInstance class SelectExample.any_claim one ∅ (start false) = (Err e, s') ∧
    IsInsufficientCapacityError e = true ∧
    IsUnavailable (2 * Minute) "ecs.g6.large" "cn-hangzhou-a" CapacityTypeSpot
      (unavailableOfferings (prov s')) = true.
Proof.
  destruct (launchInstance_out_of_stock class SelectExample.any_claim one ∅ (start false) request1.2
    zonal1.1 zonal1.2 req1 (Some 200%Z)
    (MkProvisioningBody (Some "req") (Some [Some (result_of false req1)]))
    (result_of false req1) [] (Minute, false)) as (e & s' & H & Hice & Hun).
  - vm_compute. reflexivity.
  - vm_compute. reflexivity.
  - vm_compute. reflexivity.
  - reflexivity.
  - reflexivity.
  - right. reflexivity.
  - vm_compute. discriminate.
  - exists e, s'. split; [exact H|]. split; [exact Hice|].
    apply (Hun (result_of false req1)); [left | | vm_compute; discriminate].
    split; [right; reflexivity|]. vm_compute. repeat split; try reflexivity; discriminate.
Defined.
End LaunchExample.
