(* ===== verification/ImageFamily.v ===== *)
(** * Images and system disks (pkg/providers/imagefamily)

    The image provider resolves the image selector terms of a NodeClass: an
    alias stands for the images the cluster service recommends for the
    Kubernetes version, filtered by the image family; an ID for that image.  The
    resolver keeps the instance types that offer one of the wanted system disk
    categories, asking the service for each type in parallel.  The services and
    the structural hashes are parameters. *)

From S2P Require Import Prelude Effects GoCache Labels Scheduling CloudTypes Apis Utils Version.
From S2P Require Import InstanceSelect InstanceProvider.

Module imagefamily.

(** ** types.go *)

Record Image := MkImage {
  Name : string;
  ImageID : string;
  Requirements : Scheduling.Requirements;
}.

(** ** Image families (acl3.go, containeros.go, resolver.go) *)

(** The match of [alibabaCloudLinux3ImageIDRegex]: within one line, the three
    literals in this order (the wildcards do not match a line break). *)
Definition acl3_line (l : string) : bool :=
  match (r ← after_first "aliyun_3_" l; r ← after_first "G_alibase_" r; after_first "vhd" r) with
  | Some _ => true
  | None => false
  end.
Definition alibabaCloudLinux3ImageIDRegex (id : string) : bool :=
  existsb acl3_line (str_split newline id).

Inductive ImageFamily := ContainerOS | AlibabaCloudLinux3.

Definition ContainerOS_ResolveImages (images : list Image) : list Image :=
  bfilter (λ im, has_prefix "ContainerOS" (Name im)) images.
Definition AlibabaCloudLinux3_ResolveImages (images : list Image) : list Image :=
  bfilter (λ im, alibabaCloudLinux3ImageIDRegex (ImageID im)) images.
Definition ResolveImages (family : ImageFamily) : list Image → list Image :=
  match family with
  | ContainerOS => ContainerOS_ResolveImages
  | AlibabaCloudLinux3 => AlibabaCloudLinux3_ResolveImages
  end.

Definition GetImageFamily (family : string) : option ImageFamily :=
  if bool_decide (family = ImageFamilyContainerOS) then Some ContainerOS
  else if bool_decide (family = ImageFamilyAlibabaCloudLinux3) then Some AlibabaCloudLinux3
  else None.

(** ** Services *)

(** An image of either service, the fields read. *)
Record ServiceImage := MkServiceImage {
  si_ImageId : option string;
  si_ImageName : option string;
  si_Architecture : option string;
}.

(** The first answer is the body of the response, [None] if the response or its
    body is nil; the elements of the two lists are pointers. *)
Class ImageServices (W : Type) := {
  DescribeKubernetesVersionMetadata :
    string → W → result (option (list (option (list (option ServiceImage))))) * W;
  DescribeImages : string → W → result (option (list (option ServiceImage))) * W;
}.

(** The hash of the selector terms, and that of an image's requirements (where
    [lo.Must] panics). *)
Class ImageHashes := {
  hash_image_terms : list ImageSelectorTerm → result string;
  hash_reqs : Scheduling.Requirements → result string;
}.

Record DefaultProvider := MkProvider {
  im_cache : cache (list Image);
  versionProvider : version.DefaultProvider;
}.
Definition NewDefaultProvider (ttl : Z) (v : version.DefaultProvider) : DefaultProvider :=
  MkProvider (cache_new ttl) v.

Definition TrimPrefix (s prefix : string) : string := default s (strip_prefix prefix s).

Definition arch_requirements (arch : string) : Scheduling.Requirements :=
  NewRequirements [NewRequirement LabelArchStable (SelIn [arch])].

(** The images of a supported architecture; [id] overrides the image's own ID. *)
Fixpoint to_images (id : option string) (l : list (option ServiceImage)) : result (list Image) :=
  match l with
  | [] => Ok []
  | si :: l' =>
      i ← deref si;
      rest ← to_images id l';
      Ok match AlibabaCloudToKubeArchitectures !! StringValue (si_Architecture i) with
         | None => rest
         | Some arch =>
             MkImage (StringValue (si_ImageName i)) (default (StringValue (si_ImageId i)) id)
               (arch_requirements arch) :: rest
         end
  end.

Section provider.
Context {RT : GoRuntime} {W : Type} `{HC : !HasClock W} `{IS : !ImageServices W} `{HI : !ImageHashes}.
Context `{DI : !version.Discovery W} `{VH : !version.VersionHash}.
Notation S' := (St DefaultProvider W).

Definition getImagesWithAlias (k8sVersion : string) : M S' (list Image) :=
  resp ← wrap "failed to describe k8s version metadata"
           (call (DescribeKubernetesVersionMetadata (TrimPrefix k8sVersion "v")));
  match resp with
  | None | Some [] => mret []
  | Some (body :: _) => lift (l ← deref body; to_images None l)
  end.

(** The cause of the failure is dropped. *)
Definition getImagesWithID (id : string) : M S' (list Image) :=
  r ← attempt (call (DescribeImages id));
  match r with
  | inl _ => fail (ErrorString ("failed to get images through id " +:+ id))
  | inr None | inr (Some []) => mret []
  | inr (Some l) => lift (to_images (Some id) l)
  end.

Definition images_of_term (k8sVersion : string) (t : ImageSelectorTerm) : M S' (list Image) :=
  if bool_decide (imt_Alias t ≠ "") then
    ims ← getImagesWithAlias k8sVersion;
    match GetImageFamily (imt_Alias t) with
    | None => fail (ErrorString ("unsupported image family " +:+ imt_Alias t))
    | Some family => mret (ResolveImages family ims)
    end
  else getImagesWithID (imt_ID t).

(** The first image with given requirements wins. *)
Definition add_image (m : gmap string Image) (im : Image) : result (gmap string Image) :=
  h ← hash_reqs (Requirements im);
  Ok match m !! h with Some _ => m | None => <[h := im]> m end.
Definition must {A} (r : result A) : result A := match r with Err _ => Panic | _ => r end.

Fixpoint collect_terms (k8sVersion : string) (terms : list ImageSelectorTerm) (m : gmap string Image)
    : M S' (gmap string Image) :=
  match terms with
  | [] => mret m
  | t :: ts =>
      ims ← images_of_term k8sVersion t;
      m' ← lift (must (rfoldM add_image m ims));
      collect_terms k8sVersion ts m'
  end.

Definition GetImages (k8sVersion : string) (nodeClass : ECSNodeClass) : M S' (list Image) :=
  h ← lift (hash_image_terms (ImageSelectorTerms (nc_Spec nodeClass)));
  p ← get_prov;
  t ← now;
  match cache_get t h (im_cache p) with
  | Some images => mret images
  | None =>
      m ← collect_terms k8sVersion (ImageSelectorTerms (nc_Spec nodeClass)) ∅;
      p ← get_prov;
      t ← now;
      _ ← set_prov (MkProvider (cache_set_default t h (map_values 45 m) (im_cache p)) (versionProvider p));
      mret (map_values 46 m)
  end.

Definition on_version {A} (m : M (St version.DefaultProvider W) A) : M S' A := λ s,
  let '(r, s') := m (MkSt (versionProvider (prov s)) (env s)) in
  (r, MkSt (MkProvider (im_cache (prov s)) (prov s')) (env s')).

Definition List_ (nodeClass : ECSNodeClass) : M S' (list Image) :=
  k8sVersion ← on_version version.Get_;
  GetImages k8sVersion nodeClass.
End provider.

(** ** The system disk filter (resolver.go)

    The elements of the lists of an answer are not nil. *)

Record DiskResource := MkDiskResource { dr_Value : option string; dr_Status : option string }.
Record DiskZone := MkDiskZone {
  dz_Status : option string;
  dz_StatusCategory : option string;
  dz_AvailableResources : option (list (option (list DiskResource)));
}.
Record DiskBody := MkDiskBody { db_RequestId : option string; db_AvailableZones : option (list DiskZone) }.
Class EcsDisks (W : Type) := DescribeAvailableDisks : string → W → result (option DiskBody) * W.

(** The order in which the workers of [workqueue.ParallelizeUntil] get through
    their items.  The items have distinct type names, so they touch distinct
    cache entries and a run of one item counts as one step.  (That the workers
    stop early when the context is cancelled is left out.) *)
Class WorkQueue := {
  completion : list InstanceType → list InstanceType;
  completion_perm : ∀ its, completion its ≡ₚ its;
}.

Record DefaultResolver := MkResolver { disk_cache : cache (gset string) }.
Definition NewDefaultResolver (ttl : Z) : DefaultResolver := MkResolver (cache_new ttl).

(** [InstanceTypeAvailableSystemDisk.Compatible]. *)
Definition disks_Compatible (available : gset string) (systemDisks : list string) : bool :=
  existsb (λ d, bool_decide (d ∈ available)) systemDisks.

Definition add_disk (available : gset string) (r : DiskResource) : gset string :=
  if bool_decide (StringValue (dr_Status r) = "Available") && bool_decide (StringValue (dr_Value r) ≠ "")
  then {[StringValue (dr_Value r)]} ∪ available else available.

Definition zone_disks (available : gset string) (az : DiskZone) : result (gset string) :=
  status ← deref (dz_Status az);
  if bool_decide (status ≠ "Available") then Ok available
  else
    category ← deref (dz_StatusCategory az);
    if bool_decide (category ≠ "WithStock") then Ok available
    else match dz_AvailableResources az with
         | None => Ok available
         | Some ars => Ok (foldl add_disk available (omap id ars ≫= id))
         end.

Definition null_response : error := ErrorString "unexpected null value was returned".

Section resolver.
Context {W : Type} `{HC : !HasClock W} `{ED : !EcsDisks W} `{WQ : !WorkQueue}.
Notation S' := (St DefaultResolver W).

Definition describeAvailableSystemDisk (name : string) : M S' (gset string) :=
  output ← call (DescribeAvailableDisks name);
  match output with
  | None => fail null_response
  | Some body =>
      match db_AvailableZones body with
      | None => fail (WrapError ("requestId: " +:+ StringValue (db_RequestId body)) null_response)
      | Some zones => lift (rfoldM zone_disks ∅ zones)
      end
  end.

(** One item of the work queue: whether the type is kept.  A failed query
    drops the type and caches nothing. *)
Definition check_type (expected : list string) (it : InstanceType) : M S' bool :=
  p ← get_prov;
  t ← now;
  match cache_get t (it_Name it) (disk_cache p) with
  | Some available => mret (disks_Compatible available expected)
  | None =>
      r ← attempt (describeAvailableSystemDisk (it_Name it));
      match r with
      | inl _ => mret false
      | inr available =>
          p ← get_prov;
          t ← now;
          _ ← set_prov (MkResolver (cache_set_default t (it_Name it) available (disk_cache p)));
          mret (disks_Compatible available expected)
      end
  end.

Fixpoint filter_types (expected : list string) (its : list InstanceType) : M S' (list InstanceType) :=
  match its with
  | [] => mret []
  | it :: its' =>
      keep ← check_type expected it;
      rest ← filter_types expected its';
      mret (if keep : bool then it :: rest else rest)
  end.

Definition FilterInstanceTypesBySystemDisk (nodeClass : ECSNodeClass) (its : list InstanceType)
    : M S' (list InstanceType) :=
  match spec_SystemDisk (nc_Spec nodeClass) ≫= sd_Categories with
  | None => mret its
  | Some expected => filter_types expected (completion its)
  end.
End resolver.

(** ** Lemmas: families *)

(** The pattern of the family as a decomposition of the line. *)
Definition acl3_shape (l : string) : Prop :=
  ∃ a b c d, l = a +:+ "aliyun_3_" +:+ b +:+ "G_alibase_" +:+ c +:+ "vhd" +:+ d.

Lemma acl3_line_spec l : acl3_line l = true ↔ acl3_shape l.
Proof.
  unfold acl3_line, acl3_shape. split.
  - destruct (after_first "aliyun_3_" l) as [r1|] eqn:H1; [|done]. cbn [mbind option_bind].
    destruct (after_first "G_alibase_" r1) as [r2|] eqn:H2; [|done]. cbn [mbind option_bind].
    destruct (after_first "vhd" r2) as [r3|] eqn:H3; [|done]. intros _.
    apply after_first_Some in H1 as [a ->]. apply after_first_Some in H2 as [b ->].
    apply after_first_Some in H3 as [c ->]. by exists a, b, c, r3.
  - intros (a & b & c & d & ->).
    destruct (after_first_complete "aliyun_3_" a (b +:+ "G_alibase_" +:+ c +:+ "vhd" +:+ d)) as (r1 & e & -> & ->).
    cbn [mbind option_bind]. rewrite <- str_app_assoc.
    destruct (after_first_complete "G_alibase_" (e +:+ b) (c +:+ "vhd" +:+ d)) as (r2 & f & -> & ->).
    cbn [mbind option_bind]. rewrite <- str_app_assoc.
    by destruct (after_first_complete "vhd" (f +:+ c) d) as (r3 & g & -> & _).
Qed.

(** ** Lemmas: images *)

(** The first image of [found] with the requirements of [im]. *)
Definition first_like `{ImageHashes} (found : list Image) (h : string) : option Image :=
  lo_find (λ im, match hash_reqs (Requirements im) with Ok h' => bool_decide (h' = h) | _ => false end) found.

Section images.
Context {RT : GoRuntime} {W : Type} `{HC : !HasClock W} `{IS : !ImageServices W} `{HI : !ImageHashes}.
Context `{DI : !version.Discovery W} `{VH : !version.VersionHash}.

Lemma first_like_snoc found im h :
  first_like (found ++ [im]) h =
  match first_like found h with
  | Some x => Some x
  | None => match hash_reqs (Requirements im) with
            | Ok h' => if bool_decide (h' = h) then Some im else None
            | _ => None
            end
  end.
Proof.
  unfold first_like. induction found as [|x found IH]; cbn [app lo_find].
  - by destruct (hash_reqs (Requirements im)).
  - by destruct (match hash_reqs (Requirements x) with Ok _ => _ | _ => _ end).
Qed.

(** The map holds, under every hash, the first image with it. *)
Definition indexes (m : gmap string Image) (found : list Image) : Prop :=
  ∀ h, m !! h = first_like found h.

Lemma rfoldM_add_image ims m found :
  indexes m found → (∀ im, im ∈ ims → ∃ h, hash_reqs (Requirements im) = Ok h) →
  ∃ m', rfoldM add_image m ims = Ok m' ∧ indexes m' (found ++ ims).
Proof.
  revert m found. induction ims as [|im ims IH]; intros m found Hm Hh.
  - exists m. by rewrite app_nil_r.
  - destruct (Hh im) as [h Him]; [left|]. 
    assert (add_image m im = Ok match m !! h with Some _ => m | None => <[h:=im]> m end) as Ha
      by (unfold add_image; by rewrite Him).
    rewrite (rfoldM_cons_Ok _ _ _ _ _ Ha).
    destruct (IH (match m !! h with Some _ => m | None => <[h:=im]> m end) (found ++ [im]))
      as (m' & Hf & Hi).
    + intros h'. rewrite first_like_snoc, Him. destruct (decide (h = h')) as [<-|Hne].
      * rewrite bool_decide_true by done. destruct (m !! h) eqn:Hmh; rewrite <- Hm.
        -- by rewrite Hmh.
        -- by rewrite lookup_insert_eq, Hmh.
      * rewrite bool_decide_false by done. rewrite <- Hm.
        destruct (m !! h); [by destruct (m !! h')|]. rewrite lookup_insert_ne by done. by destruct (m !! h').
    + intros x Hx. apply Hh. by right.
    + exists m'. split; [done|]. by rewrite <- app_assoc in Hi.
Qed.

(** The images of the terms, in the order of the terms. *)
Inductive resolved (v : string) (p : DefaultProvider) : list ImageSelectorTerm → W → list Image → W → Prop :=
  | Resolved_nil w : resolved v p [] w [] w
  | Resolved_cons t ts w ims w' found w'' :
      images_of_term v t (MkSt p w) = (Ok ims, MkSt p w') →
      resolved v p ts w' found w'' → resolved v p (t :: ts) w (ims ++ found) w''.

Lemma collect_terms_complete v p ts w found w' :
  resolved v p ts w found w' → (∀ im, im ∈ found → ∃ h, hash_reqs (Requirements im) = Ok h) →
  ∀ m before, indexes m before →
  ∃ m', collect_terms v ts m (MkSt p w) = (Ok m', MkSt p w') ∧ indexes m' (before ++ found).
Proof.
  induction 1 as [w|t ts w ims w' found w'' Ht _ IH]; intros Hh m before Hm.
  - exists m. by rewrite app_nil_r.
  - cbn [collect_terms]. rewrite (M_Ok_bind _ _ _ _ _ Ht).
    destruct (rfoldM_add_image ims m before Hm) as (m1 & Hf & Hm1).
    { intros im Him. apply Hh, elem_of_app. by left. }
    destruct (IH ltac:(intros im Him; apply Hh, elem_of_app; by right) m1 (before ++ ims) Hm1) as (m2 & Hc & Hm2).
    exists m2. rewrite (M_Ok_bind _ _ _ m1 (MkSt p w')) by (unfold lift, must; by rewrite Hf).
    by rewrite app_assoc.
Qed.
End images.

(** ** Lemmas: disks *)

Section disks.
Context {W : Type} `{HC : !HasClock W} `{ED : !EcsDisks W} `{WQ : !WorkQueue}.

Lemma filter_types_subset expected its (s s' : St DefaultResolver W) l :
  filter_types expected its s = (Ok l, s') → ∀ it, it ∈ l → it ∈ its.
Proof.
  revert s s' l. induction its as [|x its IH]; intros s s' l H it Hit.
  - injection H as <- _. done.
  - cbn [filter_types] in H. apply M_bind_Ok in H as (keep & s1 & _ & H).
    apply M_bind_Ok in H as (rest & s2 & Hr & H). injection H as <- _.
    specialize (IH _ _ _ Hr it). apply elem_of_cons.
    destruct keep; [apply elem_of_cons in Hit as [->|Hit]; [by left|]|]; right; by apply IH.
Qed.

(** What the service offers: a category is on offer when some zone is available
    and in stock and lists it as available. *)
Definition offers_in (z : DiskZone) (c : string) : Prop :=
  c ≠ "" ∧ dz_Status z = Some "Available" ∧ dz_StatusCategory z = Some "WithStock" ∧
  ∃ ars srs r, dz_AvailableResources z = Some ars ∧ Some srs ∈ ars ∧ r ∈ srs ∧
    dr_Status r = Some "Available" ∧ dr_Value r = Some c.
Definition on_offer (zones : list DiskZone) (c : string) : Prop := ∃ z, z ∈ zones ∧ offers_in z c.
(** The fields of the answer that the code reads without a check are there. *)
Definition answers (a : result (option DiskBody)) : Prop :=
  match a with
  | Ok (Some (MkDiskBody _ (Some zones))) =>
      ∀ z, z ∈ zones → is_Some (dz_Status z) ∧ (dz_Status z = Some "Available" → is_Some (dz_StatusCategory z))
  | Panic => False
  | _ => True
  end.

(** The verdict on a type in its turn: by the cached categories if there are
    any; else by those on offer, which are cached; a query that fails drops the type
    and caches nothing. *)
Definition verdict (wanted : list string) (it : InstanceType) (s s' : St DefaultResolver W) (keep : bool) : Prop :=
  match cache_get (clock (env s)) (it_Name it) (disk_cache (prov s)) with
  | Some categories => s' = s ∧ (keep = true ↔ ∃ c, c ∈ wanted ∧ c ∈ categories)
  | None =>
      ∃ answer, DescribeAvailableDisks (it_Name it) (env s) = (answer, env s') ∧
      match answer with
      | Ok (Some (MkDiskBody _ (Some zones))) =>
          (keep = true ↔ ∃ c, c ∈ wanted ∧ on_offer zones c) ∧
          ∃ categories, (∀ c, c ∈ categories ↔ on_offer zones c) ∧
            prov s' = MkResolver (cache_set_default (clock (env s')) (it_Name it) categories (disk_cache (prov s)))
      | _ => keep = false ∧ prov s' = prov s
      end
  end.
(** The verdicts on the types one after the other, and the types kept. *)
Inductive judged (wanted : list string) : list InstanceType → St DefaultResolver W → list InstanceType → St DefaultResolver W → Prop :=
  | judged_nil s : judged wanted [] s [] s
  | judged_cons it its s keep s1 l s2 :
      verdict wanted it s s1 keep → judged wanted its s1 l s2 →
      judged wanted (it :: its) s (if keep then it :: l else l) s2.

Lemma disks_Compatible_spec available wanted :
  disks_Compatible available wanted = true ↔ ∃ c, c ∈ wanted ∧ c ∈ available.
Proof.
  unfold disks_Compatible. rewrite existsb_exists. setoid_rewrite bool_decide_eq_true.
  split; intros (c & Hc & Hin); exists c; (split; [by apply list_elem_of_In|done]).
Qed.
Lemma StringValue_Some (o : option string) v : v ≠ "" → StringValue o = v ↔ o = Some v.
Proof. destruct o as [x|]; cbn; naive_solver. Qed.

Lemma foldl_add_disk rs d c :
  c ∈ foldl add_disk d rs ↔
  c ∈ d ∨ c ≠ "" ∧ ∃ r, r ∈ rs ∧ dr_Status r = Some "Available" ∧ dr_Value r = Some c.
Proof.
  revert d. induction rs as [|r rs IH]; intros d; cbn [foldl]; [set_solver|].
  rewrite IH. unfold add_disk. setoid_rewrite elem_of_cons.
  destruct (bool_decide (StringValue (dr_Status r) = "Available")) eqn:Hs;
    [apply bool_decide_eq_true, StringValue_Some in Hs; [|done]
    |apply bool_decide_eq_false in Hs; rewrite StringValue_Some in Hs by done; cbn [andb]; naive_solver].
  destruct (dr_Value r) as [v|] eqn:Hv; cbn [StringValue ptr_or default andb]; [|naive_solver].
  case_bool_decide as Hne; cbn [andb]; rewrite ?elem_of_union, ?elem_of_singleton; naive_solver.
Qed.

Lemma zone_disks_spec d z :
  is_Some (dz_Status z) → (dz_Status z = Some "Available" → is_Some (dz_StatusCategory z)) →
  ∃ d', zone_disks d z = Ok d' ∧ ∀ c, c ∈ d' ↔ c ∈ d ∨ offers_in z c.
Proof.
  intros [status Hs] Hstock. unfold zone_disks, offers_in. rewrite Hs in *. cbn [deref]. rewrite result_Ok_bind.
  case_bool_decide as H1; [exists d; split; [done|]; naive_solver|]. subst status.
  destruct (Hstock eq_refl) as [category Hc]. rewrite Hc. cbn [deref]. rewrite result_Ok_bind.
  case_bool_decide as H2; [exists d; split; [done|]; naive_solver|]. subst category.
  destruct (dz_AvailableResources z) as [ars|]; [|exists d; split; [done|]; naive_solver].
  eexists. split; [done|]. intros c. rewrite foldl_add_disk.
  assert (∀ r, r ∈ omap id ars ≫= id ↔ ∃ srs, Some srs ∈ ars ∧ r ∈ srs) as Hin.
  { intros r. rewrite list_elem_of_bind. setoid_rewrite list_elem_of_omap. naive_solver. }
  setoid_rewrite Hin. naive_solver.
Qed.

Lemma zones_disks_spec zones d :
  (∀ z, z ∈ zones → is_Some (dz_Status z) ∧ (dz_Status z = Some "Available" → is_Some (dz_StatusCategory z))) →
  ∃ d', rfoldM zone_disks d zones = Ok d' ∧ ∀ c, c ∈ d' ↔ c ∈ d ∨ on_offer zones c.
Proof.
  revert d. induction zones as [|z zones IH]; intros d Hz.
  { exists d. split; [done|]. unfold on_offer. set_solver. }
  destruct (zone_disks_spec d z) as (d1 & H1 & Hd1); [apply Hz; left..|].
  destruct (IH d1) as (d2 & H2 & Hd2); [intros x Hx; apply Hz; by right|].
  exists d2. rewrite (rfoldM_cons_Ok _ _ _ _ _ H1). split; [done|]. intros c. rewrite Hd2, Hd1.
  unfold on_offer. setoid_rewrite elem_of_cons. naive_solver.
Qed.

Lemma check_type_verdict expected it (s : St DefaultResolver W) :
  answers (DescribeAvailableDisks (it_Name it) (env s)).1 →
  ∃ keep s', check_type expected it s = (Ok keep, s') ∧ verdict expected it s s' keep.
Proof.
  destruct s as [p w]. intros Hans. unfold check_type, verdict. cbn [prov env] in *.
  rewrite (M_Ok_bind _ _ _ p (MkSt p w)) by done. rewrite (M_Ok_bind now _ _ (clock w) (MkSt p w)) by done.
  destruct (cache_get _ _ _) as [d|] eqn:Hg.
  { eexists _, _. split; [reflexivity|]. split; [done|]. apply disks_Compatible_spec. }
  destruct (DescribeAvailableDisks (it_Name it) w) as [answer w1] eqn:Hcall. cbn [fst] in Hans.
  unfold mbind at 1, M_bind at 1, attempt, describeAvailableSystemDisk.
  unfold mbind at 1, M_bind at 1. rewrite (call_run _ p w _ w1 Hcall).
  destruct answer as [[[rid [zones|]]|]|e|]; cbn [db_AvailableZones];
    try (eexists false, (MkSt p w1); split; [reflexivity|]; eexists; split; [done|]; done).
  - destruct (zones_disks_spec zones ∅ Hans) as (d & Hd & Hin). unfold lift. rewrite Hd.
    eexists _, _. split; [reflexivity|]. eexists. split; [reflexivity|]. cbn [env prov].
    assert (∀ c, c ∈ d ↔ on_offer zones c) as Hd' by (intros c; rewrite Hin; set_solver).
    split; [|by exists d]. rewrite disks_Compatible_spec. by setoid_rewrite Hd'.
  - done.
Qed.

Lemma filter_types_judged expected its (s : St DefaultResolver W) :
  (∀ name w, answers (DescribeAvailableDisks name w).1) →
  ∃ l s', filter_types expected its s = (Ok l, s') ∧ judged expected its s l s'.
Proof.
  intros Hans. revert s. induction its as [|it its IH]; intros s; [eexists _, _; split; [done|constructor]|].
  destruct (check_type_verdict expected it s (Hans _ _)) as (keep & s1 & H1 & Hv).
  destruct (IH s1) as (l & s2 & H2 & Hj). exists (if keep then it :: l else l), s2.
  split; [|by econstructor]. cbn [filter_types]. rewrite (M_Ok_bind _ _ _ _ _ H1). by rewrite (M_Ok_bind _ _ _ _ _ H2).
Qed.
End disks.

(** The resolver as the instance provider sees it: a service whose state
    includes the cache of disk categories. *)
#[export] Program Instance resolver_disks {W} `{HC : !HasClock W} `{ED : !EcsDisks W} `{WQ : !WorkQueue}
    : instance.DiskResolver (St DefaultResolver W) :=
  {| instance.FilterInstanceTypesBySystemDisk := FilterInstanceTypesBySystemDisk |}.
Next Obligation.
  intros W HC ED WQ nodeClass its s l s' H it Hit. unfold FilterInstanceTypesBySystemDisk in H.
  destruct (spec_SystemDisk (nc_Spec nodeClass) ≫= sd_Categories).
  - apply (filter_types_subset _ _ _ _ _ H) in Hit. by rewrite completion_perm in Hit.
  - injection H as <- _. exact Hit.
Qed.

(** ** Properties *)

(** The image filter of Alibaba Cloud Linux 3 keeps exactly the
    images whose ID has a line of the shape aliyun_3_<any>G_alibase_<any>vhd
    (at any position of the line), and keeps their order. *)
Theorem acl3_images_spec (images : list Image) :
  ResolveImages AlibabaCloudLinux3 images `sublist_of` images ∧
  ∀ im, im ∈ ResolveImages AlibabaCloudLinux3 images ↔
    im ∈ images ∧ ∃ line, line ∈ str_split newline (ImageID im) ∧ acl3_shape line.
Proof.
  split; [apply bfilter_sublist|]. intros im. unfold ResolveImages, AlibabaCloudLinux3_ResolveImages. rewrite elem_of_bfilter.
  unfold alibabaCloudLinux3ImageIDRegex. rewrite existsb_exists. split.
  - intros [(line & Hl%list_elem_of_In & Hm%acl3_line_spec) Hin]. split; [done|]. by exists line.
  - intros [Hin (line & Hl & Hm)]. split; [|done]. exists line.
    split; [by apply list_elem_of_In | by apply acl3_line_spec].
Qed.

(** A resolution that the cache does not answer returns, for every
    set of requirements (every architecture) that some selected image has,
    exactly the first such image in the order of the selector terms, and caches
    the result. *)
Theorem GetImages_first {RT : GoRuntime} {W} `{HC : !HasClock W} `{IS : !ImageServices W} `{HI : !ImageHashes}
    `{DI : !version.Discovery W} `{VH : !version.VersionHash} v nodeClass h p (w w' : W) found :
  hash_image_terms (ImageSelectorTerms (nc_Spec nodeClass)) = Ok h →
  cache_get (clock w) h (im_cache p) = None →
  resolved v p (ImageSelectorTerms (nc_Spec nodeClass)) w found w' →
  (∀ im, im ∈ found → ∃ hr, hash_reqs (Requirements im) = Ok hr) →
  (0 ≤ clock w')%Z → (0 < defaultExpiration (im_cache p))%Z →
  ∃ l p', GetImages v nodeClass (MkSt p w) = (Ok l, MkSt p' w') ∧
    (∀ im, im ∈ l ↔ ∃ hr, first_like found hr = Some im) ∧
    ∀ w2, (clock w' ≤ clock w2 ≤ clock w' + defaultExpiration (im_cache p))%Z →
      ∃ l2, GetImages v nodeClass (MkSt p' w2) = (Ok l2, MkSt p' w2) ∧ l2 ≡ₚ l.
Proof.
  intros Hh Hmiss Hres Hhash Hclock Hd.
  destruct (collect_terms_complete v p _ w found w' Hres Hhash ∅ []) as (m & Hm & Hi); [intros ?; by rewrite lookup_empty|].
  exists (map_values 46 m), (MkProvider (cache_set_default (clock w') h (map_values 45 m) (im_cache p)) (versionProvider p)).
  split_and!.
  - unfold GetImages, lift at 1. rewrite Hh. rewrite (M_Ok_bind _ _ _ h (MkSt p w)) by done.
    rewrite (M_Ok_bind _ _ _ p (MkSt p w)) by done. rewrite (M_Ok_bind now _ _ (clock w) (MkSt p w)) by done.
    by rewrite Hmiss, (M_Ok_bind _ _ _ _ _ Hm).
  - intros im. rewrite elem_of_map_values. split; intros [hr H]; exists hr.
    + rewrite (Hi hr) in H. exact H.
    + rewrite (Hi hr). exact H.
  - intros w2 Hw2. exists (map_values 45 m). split; [|unfold map_values; by rewrite !range_map_perm].
    unfold GetImages, lift at 1. rewrite Hh. set (p' := MkProvider _ _).
    rewrite (M_Ok_bind _ _ _ h (MkSt p' w2)) by done. rewrite (M_Ok_bind _ _ _ p' (MkSt p' w2)) by done.
    rewrite (M_Ok_bind now _ _ (clock w2) (MkSt p' w2)) by done. unfold p'. cbn [im_cache].
    by rewrite cache_get_set_default_eq, (proj2 (Z.ltb_ge _ _)) by (done || lia).
Qed.

(** C32. Whatever the order in which the parallel queries complete, and
    whatever the service answers to each, errors included, as long as the zones it
    returns carry their status and the available ones their stock, the system disk filter returns, and
    keeps exactly the types whose verdict is positive in their turn: a type with
    cached categories is kept if one of them is wanted; for any other the service is
    asked then, it is kept if one of the wanted categories is on offer (some
    zone is available and in stock and lists it as available), and the categories
    on offer are cached; if the query fails it is dropped and nothing is
    cached.  Without wanted categories all types are kept and nothing is asked. *)
Theorem FilterInstanceTypesBySystemDisk_exact {W} `{HC : !HasClock W} `{ED : !EcsDisks W} `{WQ : !WorkQueue}
    nodeClass its (s : St DefaultResolver W) :
  (∀ name w, answers (DescribeAvailableDisks name w).1) →
  match spec_SystemDisk (nc_Spec nodeClass) ≫= sd_Categories with
  | None => FilterInstanceTypesBySystemDisk nodeClass its s = (Ok its, s)
  | Some wanted =>
      ∃ l s', FilterInstanceTypesBySystemDisk nodeClass its s = (Ok l, s') ∧ judged wanted (completion its) s l s'
  end.
Proof.
  intros Hans. unfold FilterInstanceTypesBySystemDisk.
  destruct (spec_SystemDisk (nc_Spec nodeClass) ≫= sd_Categories) as [wanted|]; [|done].
  by apply filter_types_judged.
Qed.

End imagefamily.

(** ** Concrete services *)

Module ImageExample.
Import imagefamily.

#[global] Instance images_clock : HasClock Z := id.
#[global] Instance images_discovery : version.Discovery Z := λ w, (Ok "v1.30.1-aliyun.1", w).
#[global] Instance images_version_hash : version.VersionHash := id.
#[global] Instance images_hashes : ImageHashes := {|
  hash_image_terms := λ ts, Ok (pretty (length ts));
  hash_reqs := λ r, Ok (if Has (Get r LabelArchStable) "arm64" then "arm" else "x86");
|}.
Definition acl3_arm : ServiceImage :=
  MkServiceImage (Some "aliyun_3_arm64_20G_alibase_20240819.vhd") (Some "acl3-arm") (Some "arm64").
Definition acl3_x86 : ServiceImage :=
  MkServiceImage (Some "aliyun_3_x64_20G_alibase_20240819.vhd") (Some "acl3") (Some "x86_64").
Definition centos : ServiceImage := MkServiceImage (Some "centos_7.vhd") (Some "centos") (Some "x86_64").
#[global] Instance images_services : ImageServices Z := {|
  DescribeKubernetesVersionMetadata := λ v w,
    (Ok (Some [Some (if bool_decide (v = "1.30.1-aliyun.1") then [Some centos; Some acl3_arm; Some acl3_x86] else [])]),
     (w + 1)%Z);
  DescribeImages := λ id w, (Ok (Some [Some (MkServiceImage (Some id) (Some "custom") (Some "arm64"))]), (w + 1)%Z);
|}.
Definition class : ECSNodeClass :=
  MkNodeClass (MkMeta "default" "uid" ∅ ∅ [] 0 None)
    (MkSpec [] "" [] [MkImageTerm "AlibabaCloudLinux3" ""; MkImageTerm "" "m-custom"] None
       (Some (MkSystemDisk (Some ["cloud_ssd"]) None None)) ∅ "")
    (MkStatus [] [] [] []).
Definition start : DefaultProvider := NewDefaultProvider Minute (version.NewDefaultProvider Minute).
Definition found : list Image :=
  [MkImage "acl3-arm" "aliyun_3_arm64_20G_alibase_20240819.vhd" (arch_requirements "arm64");
   MkImage "acl3" "aliyun_3_x64_20G_alibase_20240819.vhd" (arch_requirements "amd64");
   MkImage "custom" "m-custom" (arch_requirements "arm64")].

Lemma found_resolved :
  resolved "v1.30.1-aliyun.1" start (ImageSelectorTerms (nc_Spec class)) Second found (Second + 2)%Z.
Proof.
  apply (Resolved_cons _ _ _ _ _ (take 2 found) (Second + 1)%Z (drop 2 found)); [vm_compute; reflexivity|].
  apply (Resolved_cons _ _ _ _ _ (drop 2 found) (Second + 2)%Z []); [vm_compute; reflexivity|apply Resolved_nil].
Qed.

Lemma GetImages_first_witness :
  ∃ l p', GetImages "v1.30.1-aliyun.1" class (MkSt start Second) = (Ok l, MkSt p' (Second + 2)%Z) ∧
    (∀ im, im ∈ l ↔ ∃ hr, first_like found hr = Some im).
Proof.
  destruct (GetImages_first "v1.30.1-aliyun.1" class "2" start Second (Second + 2)%Z found)
    as (l & p' & H & Hl & _).
  - vm_compute. reflexivity.
  - reflexivity.
  - exact found_resolved.
  - intros im _. eexists. reflexivity.
  - vm_compute. discriminate.
  - vm_compute. reflexivity.
  - exists l, p'. split; [exact H | exact Hl].
Defined.

#[global] Program Instance reversed_queue : WorkQueue := {| completion its := reverse its |}.
Next Obligation. intros its. by rewrite reverse_Permutation. Qed.
#[global] Instance images_disks : EcsDisks Z := λ name w,
  (Ok (Some (MkDiskBody None (Some [
     MkDiskZone (Some "Available") (Some "WithStock")
       (Some [Some [MkDiskResource (Some (if bool_decide (name = "ecs.g6.large") then "cloud_ssd" else "cloud"))
                                   (Some "Available")]]);
     MkDiskZone (Some "SoldOut") None None]))), (w + 1)%Z).
Lemma disks_answer name w : answers (DescribeAvailableDisks name w).1.
Proof. intros z [->|[->|[]%elem_of_nil]%elem_of_cons]%elem_of_cons; (split; [by eexists|]); [by eexists|done]. Qed.

Lemma FilterInstanceTypesBySystemDisk_exact_witness :
  ∃ l s', FilterInstanceTypesBySystemDisk class [SelectExample.big; SelectExample.small]
            (MkSt (NewDefaultResolver Minute) Second) = (Ok l, s') ∧
    judged ["cloud_ssd"] [SelectExample.small; SelectExample.big] (MkSt (NewDefaultResolver Minute) Second) l s'.
Proof.
  exact (FilterInstanceTypesBySystemDisk_exact class [SelectExample.big; SelectExample.small]
    (MkSt (NewDefaultResolver Minute) Second) disks_answer).
Defined.
End ImageExample.
