(* ===== verification/KubeApi.v ===== *)
(** * The API server and the controller runtime

    What the reconcilers share: results ([reconcile.Result] and karpenter's
    [result.Min]), events, nodes with their taints and conditions, and the API
    server itself, a parameter given by one class per kind of object.  The class
    [ClaimStore] states what the reconcilers rely on of the server (lists are
    complete, a merge patch changes the keys that differ and nothing else, an
    object that was not found is not there); [ApiServer] is an executable
    server that satisfies it, used by the examples. *)

From S2P Require Import Prelude Effects Labels Scheduling CloudTypes Apis Conditions.

(** ** Reconcile results (controller-runtime, and karpenter's result.Min) *)

Record Result := MkResult { Requeue : bool; RequeueAfter : Z }.
#[export] Instance Result_eq_dec : EqDecision Result.
Proof. solve_decision. Defined.
Definition no_requeue : Result := MkResult false 0.
Definition requeue_now : Result := MkResult true 0.
Definition requeue_after (d : Z) : Result := MkResult false d.

Fixpoint result_min_from (min : Z) (acc : Result) (results : list Result) : Result :=
  match results with
  | [] => acc
  | r :: rs =>
      if bool_decide (r = no_requeue) then result_min_from min acc rs
      else if (RequeueAfter r <? min)%Z
           then result_min_from (RequeueAfter r) (MkResult true (RequeueAfter r)) rs
           else result_min_from min acc rs
  end.
Definition Result_Min (results : list Result) : Result := result_min_from MaxInt64 no_requeue results.

(** ** Work done in parallel

    [workqueue.ParallelizeUntil] and [parallel.ForEach] of lo: the pieces of work
    complete in some order; piece [i] leaves its error in entry [i].  (That the
    workers stop early when the context is cancelled is left out.) *)

Class ParallelOrder := {
  parallel : nat → list nat;
  parallel_perm : ∀ n, parallel n ≡ₚ seq 0 n;
}.

Definition parallelize `{ParallelOrder} {S} (n : nat) (piece : nat → M S (option error))
    : M S (nat → option error) :=
  dones ← mmapM (λ i, o ← piece i; mret (i, o)) (parallel n);
  mret (λ i, default None ((list_to_map dones : gmap nat (option error)) !! i)).

Lemma parallelize_respects `{PO : ParallelOrder} {S} (R : relation S) `{!PreOrder R} n piece :
  (∀ i, respects R (piece i)) → respects R (parallelize n piece).
Proof.
  intros Hp. unfold parallelize. respects_walk. apply respects_mmapM; [done|]. intros i _. respects_walk.
Qed.

(** Pieces of work that were done one after the other. *)
Inductive worked {S I A} (piece : I → M S A) : list I → S → S → Prop :=
  | worked_nil s : worked piece [] s s
  | worked_cons i l s a s1 s2 : piece i s = (Ok a, s1) → worked piece l s1 s2 → worked piece (i :: l) s s2.
Lemma worked_respects {S I A} (R : relation S) `{!PreOrder R} (piece : I → M S A) l s s' :
  (∀ i, i ∈ l → respects R (piece i)) → worked piece l s s' → R s s'.
Proof.
  intros Hp Hw. induction Hw as [|i l s a s1 s2 Hr _ IH]; [done|].
  etrans; [|apply IH; intros j Hj; apply Hp; by right].
  pose proof (Hp i ltac:(by left) s) as H. by rewrite Hr in H.
Qed.
Lemma mmapM_turn {S I A} (piece : I → M S A) l s ys s' :
  mmapM piece l s = (Ok ys, s') →
  ∀ before i after, l = before ++ i :: after → ∃ sa y sb,
    worked piece before s sa ∧ piece i sa = (Ok y, sb) ∧ worked piece after sb s' ∧ y ∈ ys.
Proof.
  intros H. assert (worked piece l s s' ∧
    ∀ before i after, l = before ++ i :: after → ∃ sa y sb,
      worked piece before s sa ∧ piece i sa = (Ok y, sb) ∧ worked piece after sb s' ∧ y ∈ ys) as [_ Hat]; [|exact Hat].
  revert s ys H. induction l as [|j l IH]; intros s ys H.
  { injection H as <- <-. split; [constructor|]. by intros []. }
  apply M_bind_Ok in H as (y & s1 & Hy & H). apply M_bind_Ok in H as (ys' & s2 & Hl & H). injection H as <- <-.
  destruct (IH _ _ Hl) as [Hw Hat].
  split; [by econstructor|]. intros [|i' pre] i post Hsplit; injection Hsplit as -> ->.
  - exists s, y, s1. split_and!; [constructor|done|done|by left].
  - destruct (Hat pre i post eq_refl) as (sa & y' & sb & Hpre & Hi & Hpost & Hin). exists sa, y', sb.
    split_and!; [by econstructor|done|done|by right].
Qed.
(** What is done with the results does not matter for the states. *)
Lemma worked_fmap {S I A B} (piece : I → M S A) (g : I → A → B) l s s' :
  worked (λ i, o ← piece i; mret (g i o)) l s s' → worked piece l s s'.
Proof.
  induction 1 as [|i l s b s1 s2 Hr _ IH]; [constructor|].
  apply M_bind_Ok in Hr as (a & s3 & Ha & Hr). injection Hr as _ <-. by econstructor.
Qed.

(** The turn of a piece in a run of them all. *)
Lemma parallelize_turn `{PO : ParallelOrder} {S} n (piece : nat → M S (option error)) s errs s' :
  parallelize n piece s = (Ok errs, s') →
  ∀ i, i < n → ∃ pre post sa sb, parallel n = pre ++ i :: post ∧
    worked piece pre s sa ∧ piece i sa = (Ok (errs i), sb) ∧ worked piece post sb s'.
Proof.
  intros H i Hi. unfold parallelize in H. apply M_bind_Ok in H as (dones & s1 & Hloop & H).
  injection H as <- <-.
  assert (i ∈ parallel n) as (pre & post & Hsplit)%list_elem_of_split by (rewrite parallel_perm; apply elem_of_seq; lia).
  destruct (mmapM_turn _ _ _ _ _ Hloop pre i post Hsplit) as (sa & y & sb & Hpre & Hrun & Hpost & Hin).
  apply M_bind_Ok in Hrun as (o & sc & Hrun & Hret). injection Hret as <- <-.
  exists pre, post, sa, sc. split_and!; [done|by eapply worked_fmap| |by eapply worked_fmap].
  rewrite Hrun. do 2 f_equal.
  assert (NoDup dones.*1) as Hnd.
  { assert (dones.*1 = parallel n) as ->; [|rewrite parallel_perm; apply NoDup_seq].
    apply mmapM_Ok_Forall2 in Hloop. clear Hin Hsplit. revert Hloop. generalize (parallel n) as l.
    induction 1 as [|x y l l' (ta & tb & Hr) _ IHl]; [done|]. rewrite fmap_cons, IHl. f_equal.
    apply M_bind_Ok in Hr as (o2 & s3 & _ & Hr). by injection Hr as <- _. }
  by rewrite (elem_of_list_to_map_1 dones i o Hnd Hin).
Qed.

(** ** Decidable equality of objects ([equality.Semantic.DeepEqual]) *)

#[export] Instance Selector_eq_dec : EqDecision Selector.
Proof. solve_decision. Defined.
#[export] Instance NodeSelectorRequirement_eq_dec : EqDecision NodeSelectorRequirement.
Proof. solve_decision. Defined.
#[export] Instance Image_eq_dec : EqDecision Image.
Proof. solve_decision. Defined.
#[export] Instance ECSNodeClassStatus_eq_dec : EqDecision ECSNodeClassStatus.
Proof. solve_decision. Defined.
#[export] Instance ObjectMeta_eq_dec : EqDecision ObjectMeta.
Proof. solve_decision. Defined.
#[export] Instance NodeClassReference_eq_dec : EqDecision NodeClassReference.
Proof. solve_decision. Defined.
#[export] Instance VSwitchSelectorTerm_eq_dec : EqDecision VSwitchSelectorTerm.
Proof. solve_decision. Defined.
#[export] Instance SecurityGroupSelectorTerm_eq_dec : EqDecision SecurityGroupSelectorTerm.
Proof. solve_decision. Defined.
#[export] Instance ImageSelectorTerm_eq_dec : EqDecision ImageSelectorTerm.
Proof. solve_decision. Defined.
#[export] Instance KubeletConfiguration_eq_dec : EqDecision KubeletConfiguration.
Proof. solve_decision. Defined.
#[export] Instance SystemDisk_eq_dec : EqDecision SystemDisk.
Proof. solve_decision. Defined.
#[export] Instance ECSNodeClassSpec_eq_dec : EqDecision ECSNodeClassSpec.
Proof. solve_decision. Defined.
#[export] Instance ECSNodeClass_eq_dec : EqDecision ECSNodeClass.
Proof. solve_decision. Defined.
#[export] Instance NodeClaim_eq_dec : EqDecision NodeClaim.
Proof. solve_decision. Defined.

(** ** Nodes *)

Record Taint := MkTaint { taint_Key : string; taint_Value : string; taint_Effect : string }.
#[export] Instance Taint_eq_dec : EqDecision Taint.
Proof. solve_decision. Defined.

Record NodeCondition := MkNodeCondition {
  ncond_Type : string;
  ncond_Status : ConditionStatus;
  ncond_Reason : string;
  ncond_LastTransitionTime : Z;
}.
#[export] Instance NodeCondition_eq_dec : EqDecision NodeCondition.
Proof. solve_decision. Defined.

Record Node := MkNode {
  node_Meta : ObjectMeta;
  node_ProviderID : string;
  node_Taints : list Taint;
  node_Conditions : list NodeCondition;
  node_Capacity : ResourceList;
}.
#[export] Instance Node_eq_dec : EqDecision Node.
Proof. solve_decision. Defined.
Definition node_Name (n : Node) : string := meta_Name (node_Meta n).
Definition node_set_Taints (ts : list Taint) (n : Node) : Node :=
  MkNode (node_Meta n) (node_ProviderID n) ts (node_Conditions n) (node_Capacity n).

Definition MatchTaint (t u : Taint) : bool :=
  bool_decide (taint_Key t = taint_Key u) && bool_decide (taint_Effect t = taint_Effect u).
Definition UnregisteredTaintKey : string := "karpenter.sh/unregistered".
Definition UnregisteredNoExecuteTaint : Taint := MkTaint UnregisteredTaintKey "" "NoExecute".

(** ** Events *)

Inductive EventObject :=
  | OnNodeClass (n : ECSNodeClass)
  | OnNodeClaim (c : NodeClaim)
  | OnNodePool (p : NodePool)
  | OnNode (n : Node).
Record Event := MkEvent {
  ev_InvolvedObject : EventObject;
  ev_Type : string;
  ev_Reason : string;
  ev_Message : string;
  ev_DedupeValues : list string;
}.

(** ** The API server *)

Definition claim_Name (c : NodeClaim) : string := meta_Name (claim_Meta c).

(** Writes of a NodeClass: the object read and the object wanted; the answer is
    the object as stored, which replaces the caller's. *)
Class NodeClassWriter (W : Type) := {
  patch_NodeClass : ECSNodeClass → ECSNodeClass → W → result ECSNodeClass * W;
  patch_NodeClassStatus : ECSNodeClass → ECSNodeClass → W → result ECSNodeClass * W;
}.

(** NodeClaims: the list of all of them, or of those that refer to a NodeClass
    ([client.MatchingFields] on spec.nodeClassRef.name). *)
Class NodeClaimApi (W : Type) := {
  list_NodeClaims : option string → W → result (list NodeClaim) * W;
  patch_NodeClaim : NodeClaim → NodeClaim → W → result NodeClaim * W;
  delete_NodeClaim : NodeClaim → W → result () * W;
}.

(** Nodes: all of them, or those that have a label ([client.HasLabels]). *)
Class NodeApi (W : Type) := {
  list_Nodes : option string → W → result (list Node) * W;
  patch_Node : Node → Node → W → result Node * W;
  delete_Node : Node → W → result () * W;
}.

Class EventRecorder (W : Type) := publish : list Event → W → W.
Definition record_events {P W} `{ER : EventRecorder W} (evs : list Event) : M (St P W) () :=
  call (λ w, (Ok (), publish evs w)).

(** ** What is relied on *)

Definition refers_to (name : string) (c : NodeClaim) : bool :=
  match claim_NodeClassRef c with Some r => bool_decide (ref_Name r = name) | None => false end.
Definition selects (sel : option string) (c : NodeClaim) : bool :=
  match sel with Some name => refers_to name c | None => true end.

(** A merge patch of a string map: the keys that differ between the object read
    and the object wanted are written, the others are left as they are. *)
Definition map_patch (stored wanted cur : gmap string string) : gmap string string :=
  filter (λ kv, stored !! kv.1 ≠ wanted !! kv.1) wanted
  ∪ filter (λ kv, stored !! kv.1 = wanted !! kv.1) cur.

Definition claim_set_Conditions (cs : list Condition) (c : NodeClaim) : NodeClaim :=
  MkNodeClaim (claim_Meta c) (claim_NodeClassRef c) (claim_Requirements c)
    (claim_Requests c) (claim_NodeName c) (claim_ProviderID c) (claim_ImageID c)
    (claim_Capacity c) (claim_Allocatable c) cs.

(** The patches the controllers send change annotations only; the status,
    which is a subresource, is not written by them. *)
Definition annotates (stored wanted : NodeClaim) : Prop :=
  ∃ a cs, wanted = claim_set_Conditions cs (claim_set_Annotations a stored).

(** A store of NodeClaims, seen by its contents between the calls of one
    reconciliation, during which no one else writes. *)
Class ClaimStore (W : Type) `{NA : NodeClaimApi W} := {
  claims : W → gmap string NodeClaim;
  claims_named : ∀ w name c, claims w !! name = Some c → claim_Name c = name;
  list_keeps : ∀ sel w r w', list_NodeClaims sel w = (r, w') → claims w' = claims w;
  list_complete : ∀ sel w l w', list_NodeClaims sel w = (Ok l, w') →
    NoDup (claim_Name <$> l) ∧
    ∀ c, c ∈ l ↔ claims w !! claim_Name c = Some c ∧ selects sel c = true;
  patch_writes : ∀ stored wanted w c' w',
    patch_NodeClaim stored wanted w = (Ok c', w') → annotates stored wanted →
    ∃ cur, claims w !! claim_Name stored = Some cur ∧
      claims w' = <[claim_Name stored := claim_set_Annotations
        (map_patch (claim_Annotations stored) (claim_Annotations wanted) (claim_Annotations cur)) cur]>
        (claims w);
  patch_fails : ∀ stored wanted w r w',
    patch_NodeClaim stored wanted w = (r, w') → (∀ c', r ≠ Ok c') → claims w' = claims w;
  patch_not_found : ∀ stored wanted w e w', patch_NodeClaim stored wanted w = (Err e, w') →
    IsNotFound e = true → claims w !! claim_Name stored = None;
  delete_marks : ∀ c w w', delete_NodeClaim c w = (Ok (), w') →
    delete (claim_Name c) (claims w') = delete (claim_Name c) (claims w) ∧
    ∀ c', claims w' !! claim_Name c = Some c' → is_Some (meta_DeletionTimestamp (claim_Meta c'));
  delete_fails : ∀ c w r w', delete_NodeClaim c w = (r, w') → r ≠ Ok () → claims w' = claims w;
  delete_not_found : ∀ c w e w', delete_NodeClaim c w = (Err e, w') →
    IsNotFound e = true → claims w !! claim_Name c = None;
}.

(** A write to a NodeClass leaves the NodeClaims alone. *)
Class KindsApart (W : Type) `{NW : NodeClassWriter W} `{CS : ClaimStore W} :=
  class_writes_keep : ∀ stored wanted w, claims (patch_NodeClass stored wanted w).2 = claims w.

(** So does an event. *)
Class EventsApart (W : Type) `{ER : EventRecorder W} `{CS : ClaimStore W} :=
  publish_claims : ∀ evs w, claims (publish evs w) = claims w.

(** ** Lemmas *)

Lemma lookup_map_patch stored wanted cur k :
  map_patch stored wanted cur !! k =
  if bool_decide (stored !! k = wanted !! k) then cur !! k else wanted !! k.
Proof.
  unfold map_patch. apply option_eq. intros v.
  rewrite lookup_union_Some_raw, map_lookup_filter_Some, map_lookup_filter_None,
    map_lookup_filter_Some. cbn [fst]. case_bool_decide as Heq; split.
  - intros [[_ Hne]|[_ [Hv _]]]; [by destruct Hne|exact Hv].
  - intros Hv. right. split; [|done]. right. intros v' _ Hne. by apply Hne.
  - intros [[Hv _]|[_ [_ He]]]; [exact Hv|by destruct Heq].
  - intros Hv. by left.
Qed.

Lemma map_patch_same stored wanted : map_patch stored wanted stored = wanted.
Proof.
  apply map_eq. intros k. rewrite lookup_map_patch. by case_bool_decide as H; [rewrite H|].
Qed.

Lemma claim_set_Annotations_Name a c : claim_Name (claim_set_Annotations a c) = claim_Name c.
Proof. done. Qed.
Lemma claim_set_Conditions_Name cs c : claim_Name (claim_set_Conditions cs c) = claim_Name c.
Proof. done. Qed.
Lemma claim_Annotations_set a c : claim_Annotations (claim_set_Annotations a c) = a.
Proof. done. Qed.
Lemma claim_Annotations_Conditions cs c :
  claim_Annotations (claim_set_Conditions cs c) = claim_Annotations c.
Proof. done. Qed.
#[export] Hint Rewrite claim_set_Annotations_Name claim_set_Conditions_Name claim_Annotations_set
  claim_Annotations_Conditions : gorw.

Lemma refers_to_Some name c :
  refers_to name c = true ↔ ∃ r, claim_NodeClassRef c = Some r ∧ ref_Name r = name.
Proof.
  unfold refers_to. destruct (claim_NodeClassRef c) as [r|].
  - rewrite bool_decide_eq_true. naive_solver.
  - naive_solver.
Qed.

(** ** An executable API server *)

Module ApiServer.

Record server := MkServer {
  sv_time : Z;
  sv_claims : gmap string NodeClaim;
  sv_nodes : gmap string Node;
  sv_events : list Event;
}.
#[export] Instance server_clock : HasClock server := sv_time.

(** The objects stored under their own name. *)
Definition named (m : gmap string NodeClaim) : gmap string NodeClaim :=
  filter (λ kc, claim_Name kc.2 = kc.1) m.

Definition set_claims (m : gmap string NodeClaim) (sv : server) : server :=
  MkServer (sv_time sv) m (sv_nodes sv) (sv_events sv).
Definition not_found {A} (name : string) : result A :=
  Err (StatusError ReasonNotFound (name +:+ " not found")).

Definition list_claims (sel : option string) (sv : server) : result (list NodeClaim) * server :=
  (Ok (bfilter (selects sel) (snd <$> map_to_list (named (sv_claims sv)))), sv).

Definition patch_claim (stored wanted : NodeClaim) (sv : server) : result NodeClaim * server :=
  match named (sv_claims sv) !! claim_Name stored with
  | None => (not_found (claim_Name stored), sv)
  | Some cur =>
      let new := claim_set_Annotations (map_patch (claim_Annotations stored) (claim_Annotations wanted)
                                          (claim_Annotations cur)) cur in
      (Ok new, set_claims (<[claim_Name stored := new]> (named (sv_claims sv))) sv)
  end.

Definition mark_deleted (t : Z) (c : NodeClaim) : NodeClaim :=
  MkNodeClaim (MkMeta (meta_Name (claim_Meta c)) (meta_UID (claim_Meta c)) (meta_Labels (claim_Meta c))
      (meta_Annotations (claim_Meta c)) (meta_Finalizers (claim_Meta c))
      (meta_CreationTimestamp (claim_Meta c)) (Some t))
    (claim_NodeClassRef c) (claim_Requirements c) (claim_Requests c) (claim_NodeName c)
    (claim_ProviderID c) (claim_ImageID c) (claim_Capacity c) (claim_Allocatable c) (claim_Conditions c).

(** An object with finalizers is marked, another is removed. *)
Definition delete_claim (c : NodeClaim) (sv : server) : result () * server :=
  match named (sv_claims sv) !! claim_Name c with
  | None => (not_found (claim_Name c), sv)
  | Some cur =>
      (Ok (), set_claims (match meta_Finalizers (claim_Meta cur) with
                          | [] => delete (claim_Name c) (named (sv_claims sv))
                          | _ => <[claim_Name c := mark_deleted (sv_time sv) cur]> (named (sv_claims sv))
                          end) sv)
  end.

#[export] Instance server_claims : NodeClaimApi server := {|
  list_NodeClaims := list_claims;
  patch_NodeClaim := patch_claim;
  delete_NodeClaim := delete_claim;
|}.

(** Writes to NodeClasses are accepted as they are. *)
#[export] Instance server_classes : NodeClassWriter server := {|
  patch_NodeClass := λ _ wanted sv, (Ok wanted, sv);
  patch_NodeClassStatus := λ _ wanted sv, (Ok wanted, sv);
|}.

Definition node_key (k : option string) (n : Node) : bool :=
  match k with Some key => bool_decide (is_Some (meta_Labels (node_Meta n) !! key)) | None => true end.
#[export] Instance server_nodes : NodeApi server := {|
  list_Nodes := λ k sv, (Ok (bfilter (node_key k) (snd <$> map_to_list (sv_nodes sv))), sv);
  patch_Node := λ _ wanted sv,
    (Ok wanted, MkServer (sv_time sv) (sv_claims sv) (<[node_Name wanted := wanted]> (sv_nodes sv)) (sv_events sv));
  delete_Node := λ n sv,
    (Ok (), MkServer (sv_time sv) (sv_claims sv) (delete (node_Name n) (sv_nodes sv)) (sv_events sv));
|}.

#[export] Instance server_events : EventRecorder server := λ evs sv,
  MkServer (sv_time sv) (sv_claims sv) (sv_nodes sv) (sv_events sv ++ evs).

Lemma named_Some m name c : named m !! name = Some c ↔ m !! name = Some c ∧ claim_Name c = name.
Proof. unfold named. by rewrite map_lookup_filter_Some. Qed.

Lemma named_id m : (∀ name c, m !! name = Some c → claim_Name c = name) → named m = m.
Proof.
  intros H. apply map_eq. intros name. apply option_eq. intros c. rewrite named_Some.
  split; [by intros []|]. intros Hc. split; [done|by apply H].
Qed.
Lemma named_insert m name c :
  claim_Name c = name → named (<[name := c]> (named m)) = <[name := c]> (named m).
Proof.
  intros Hc. apply named_id. intros name' c' [[-> ->]|[_ H]]%lookup_insert_Some; [done|].
  by apply named_Some in H as [_ H].
Qed.
Lemma named_delete m name : named (delete name (named m)) = delete name (named m).
Proof. apply named_id. by intros name' c' [_ [_ H]%named_Some]%lookup_delete_Some. Qed.

#[export] Program Instance server_store : ClaimStore server :=
  {| claims := λ sv, named (sv_claims sv) |}.
Next Obligation. by intros sv name c [_ H]%named_Some. Qed.
Next Obligation. by intros sel sv r sv' [= <- <-]. Qed.
Next Obligation.
  intros sel sv l sv' [= <- <-]. set (m := named (sv_claims sv)).
  assert (NoDup (claim_Name <$> (map_to_list m).*2)) as Hnd.
  { replace (claim_Name <$> (map_to_list m).*2) with ((map_to_list m).*1); [apply NoDup_fst_map_to_list|].
    rewrite <- list_fmap_compose. apply list_fmap_ext. intros i [k c] Hi%list_elem_of_lookup_2.
    apply elem_of_map_to_list, named_Some in Hi as [_ Hi]. by symmetry. }
  split; [by eapply sublist_NoDup, fmap_sublist_of, bfilter_sublist|].
  intros c. rewrite elem_of_bfilter, list_elem_of_fmap. split.
  - intros [Hsel ([k c'] & -> & Hc%elem_of_map_to_list)]. split; [|done]. cbn [snd] in *.
    pose proof Hc as [_ Hk]%named_Some. by rewrite Hk.
  - intros [Hc Hsel]. split; [done|]. exists (claim_Name c, c). split; [done|].
    by apply elem_of_map_to_list.
Qed.
Next Obligation.
  intros stored wanted sv c' sv' H _. cbn in H. unfold patch_claim in H.
  destruct (named (sv_claims sv) !! claim_Name stored) as [cur|] eqn:Hcur; [|done].
  injection H as <- <-. exists cur. split; [done|]. cbn [sv_claims set_claims].
  apply named_insert. by apply named_Some in Hcur as [_ Hcur].
Qed.
Next Obligation.
  intros stored wanted sv r sv' H Hr. cbn in H. unfold patch_claim in H.
  destruct (named (sv_claims sv) !! claim_Name stored) as [cur|] eqn:Hcur; [|by injection H as _ <-].
  injection H as <- <-. by destruct (Hr _ eq_refl).
Qed.
Next Obligation.
  intros stored wanted sv e sv' H _. cbn in H. unfold patch_claim in H.
  by destruct (named (sv_claims sv) !! claim_Name stored).
Qed.
Next Obligation.
  intros c sv sv' H. cbn in H. unfold delete_claim in H.
  destruct (named (sv_claims sv) !! claim_Name c) as [cur|] eqn:Hcur; [|done].
  pose proof Hcur as [_ Hname]%named_Some.
  injection H as <-. cbn [sv_claims set_claims]. destruct (meta_Finalizers (claim_Meta cur)).
  - rewrite named_delete. split; [by rewrite delete_delete_eq|]. by rewrite lookup_delete_eq.
  - rewrite named_insert by done. split; [by rewrite delete_insert_eq|].
    rewrite lookup_insert_eq. by intros ? [= <-].
Qed.
Next Obligation.
  intros c sv r sv' H Hr. cbn in H. unfold delete_claim in H.
  destruct (named (sv_claims sv) !! claim_Name c) as [cur|] eqn:Hcur; [|by injection H as _ <-].
  by injection H as <- <-.
Qed.
Next Obligation.
  intros c sv e sv' H _. cbn in H. unfold delete_claim in H.
  by destruct (named (sv_claims sv) !! claim_Name c).
Qed.

#[export] Instance server_kinds : KindsApart server.
Proof. by intros stored wanted sv. Qed.
#[export] Instance server_events_apart : EventsApart server.
Proof. by intros evs sv. Qed.
End ApiServer.
