(* ===== verification/CloudProvider.v ===== *)
(** * The cloud provider (pkg/cloudprovider)

    The entry point karpenter calls: launching a machine for a NodeClaim,
    listing and deleting machines, the instance types of a NodePool, and drift.
    It composes the instance type provider and the instance provider (which
    share the record of unavailable offerings) and reads NodePools and
    NodeClasses from the API server, which is a parameter, as is the hash of a
    NodeClass specification.  A NodeClass that is not found is reported by an
    event (pkg/cloudprovider/events). *)

From S2P Require Import Prelude Effects Floats GoCache UnavailableOfferings Labels Scheduling.
From S2P Require Import CloudTypes Apis Conditions Utils Pricing VSwitchProvider.
From S2P Require Import InstanceTypeCalc InstanceTypeProvider InstanceSelect InstanceProvider KubeApi.

(** ** Interfaces *)

Class KubeReader (W : Type) := {
  kube_NodePool : string → W → result NodePool * W;
  kube_NodeClass : string → W → result ECSNodeClass * W;
}.

(** [ECSNodeClass.Hash]: the structural hash of the specification, in decimal. *)
Class SpecHash := hash_spec : ECSNodeClassSpec → string.
Definition Hash `{SpecHash} (n : ECSNodeClass) : string := hash_spec (nc_Spec n).

Module cloudprovider.

Definition VSwitchDrift : string := "VSwitchDrift".
Definition SecurityGroupDrift : string := "SecurityGroupDrift".
Definition NodeClassDrift : string := "NodeClassDrift".

Record CloudProvider := MkCloudProvider {
  cp_types : instancetypes.DefaultProvider;
  cp_instances : instance.DefaultProvider;
}.

(** ** Pure parts *)

(** The message quotes the name ([%q]); object names need no escaping. *)
Definition quote : string := String "034"%char "".
Definition newTerminatingNodeClassError (name : string) : error :=
  StatusError ReasonNotFound ("ecsnodeclasses." +:+ Group +:+ " " +:+ quote +:+ name +:+ quote
    +:+ " is terminating, treating as not found").

Definition nonzero (l : ResourceList) : ResourceList := filter (λ kv, QIsZero kv.2 = false) l.

(** ** Events (pkg/cloudprovider/events) *)

Definition NodePoolFailedToResolveNodeClass (nodePool : NodePool) : Event :=
  MkEvent (OnNodePool nodePool) "Warning" "" "Failed resolving NodeClass" [meta_UID (pool_Meta nodePool)].
Definition NodeClaimFailedToResolveNodeClass (nodeClaim : NodeClaim) : Event :=
  MkEvent (OnNodeClaim nodeClaim) "Warning" "" "Failed resolving NodeClass" [meta_UID (claim_Meta nodeClaim)].

Section pure.
Context {RT : GoRuntime}.

Definition instanceToNodeClaim (now : Z) (i : instance.Instance) (it : option InstanceType)
    : NodeClaim :=
  let labels := GetAllSingleValuedRequirementLabels it in
  let labels := <[LabelTopologyZone := instance.Zone i]> labels in
  let labels := <[CapacityTypeLabelKey := instance.CapacityType i]> labels in
  let labels := match instance.Tags i !! NodePoolLabelKey with
                | Some v => <[NodePoolLabelKey := v]> labels
                | None => labels
                end in
  let stopping := bool_decide (instance.Status i = instance.InstanceStatusStopping)
                  || bool_decide (instance.Status i = instance.InstanceStatusStopped) in
  MkNodeClaim
    (MkMeta "" "" labels ∅ [] (instance.CreationTime i) (if stopping then Some now else None))
    None [] ∅ "" (FormatProviderID (instance.Region i) (instance.ID i)) (instance.ImageID i)
    (match it with Some t => nonzero (it_Capacity t) | None => ∅ end)
    (match it with Some t => nonzero (Allocatable t) | None => ∅ end) [].

Definition usable (nodeClaim : NodeClaim) (i : InstanceType) : bool :=
  let reqs := claim_reqs nodeClaim in
  Compatible reqs (it_Requirements i) WellKnownLabels
  && negb (bool_decide (Available (Offerings_Compatible reqs (it_Offerings i)) = []))
  && rl_fits (claim_Requests nodeClaim) (Allocatable i).

(** ** Drift *)

Definition areStaticFieldsDrifted (nodeClaim : NodeClaim) (nodeClass : ECSNodeClass) : string :=
  let a := meta_Annotations (nc_Meta nodeClass) in
  let b := claim_Annotations nodeClaim in
  match a !! AnnotationECSNodeClassHash, b !! AnnotationECSNodeClassHash,
        a !! AnnotationECSNodeClassHashVersion, b !! AnnotationECSNodeClassHashVersion with
  | Some h, Some h', Some v, Some v' =>
      if negb (bool_decide (v = v')) then ""
      else if bool_decide (h = h') then "" else NodeClassDrift
  | _, _, _, _ => ""
  end.

Definition areSecurityGroupsDrifted (i : instance.Instance) (nodeClass : ECSNodeClass) : result string :=
  let ids : gset string := list_to_set (sg_ID <$> SecurityGroups (nc_Status nodeClass)) in
  if bool_decide (ids = ∅) then Err (ErrorString "no security groups are present in the status")
  else if bool_decide (ids = list_to_set (instance.SecurityGroupIDs i)) then Ok ""
  else Ok SecurityGroupDrift.

Definition isVSwitchDrifted (i : instance.Instance) (nodeClass : ECSNodeClass) : result string :=
  match VSwitches (nc_Status nodeClass) with
  | [] => Err (ErrorString "no vswitches are discovered")
  | vs => match lo_find (λ v, bool_decide (vsw_ID v = instance.VSwitchID i)) vs with
          | Some _ => Ok ""
          | None => Ok VSwitchDrift
          end
  end.
End pure.

(** ** Operations *)

Section operations.
Context {RT : GoRuntime} {P W : Type} `{PV : !instancetypes.PricingView P} `{HC : !HasClock W}.
Context `{CN : !instancetypes.ClusterCNI W} `{TH : !instancetypes.TypeHashes}.
Context `{EI : !instance.EcsInstances W} `{LL : !instance.LaunchLimiter W}.
Context `{RS : !instance.RegisterScript W} `{DR : !instance.DiskResolver W}.
Context `{KR : !KubeReader W} `{ER : !EventRecorder W} `{SH : !SpecHash}.
(** The VM memory overhead option, the current prices, and the number of
    result pages read at most. *)
Context (pct : float64) (pr : P) (fuel : nat).
Notation S' := (St CloudProvider W).

Definition on_types {A} (m : M (St instancetypes.DefaultProvider W) A) : M S' A := λ s,
  let '(r, s') := m (MkSt (cp_types (prov s)) (env s)) in
  (r, MkSt (MkCloudProvider (prov s') (cp_instances (prov s))) (env s')).
Definition on_instances {A} (m : M (St instance.DefaultProvider W) A) : M S' A := λ s,
  let '(r, s') := m (MkSt (cp_instances (prov s)) (env s)) in
  (r, MkSt (MkCloudProvider (cp_types (prov s)) (prov s')) (env s')).

(** [instanceTypeProvider.List] with the shared unavailable offerings. *)
Definition listTypes (nodeClass : ECSNodeClass) : M S' (list InstanceType) := λ s,
  on_types (instancetypes.List_ pct (instance.unavailableOfferings (cp_instances (prov s))) pr
              (spec_KubeletConfiguration (nc_Spec nodeClass)) nodeClass) s.

(** A NodeClass that is being deleted counts as not found. *)
Definition resolveNodeClass (ref : option NodeClassReference) : M S' ECSNodeClass :=
  r ← lift (deref ref);
  nodeClass ← call (kube_NodeClass (ref_Name r));
  match meta_DeletionTimestamp (nc_Meta nodeClass) with
  | Some _ => fail (newTerminatingNodeClassError (nc_Name nodeClass))
  | None => mret nodeClass
  end.
Definition resolveNodeClassFromNodePool (nodePool : NodePool) : M S' ECSNodeClass :=
  resolveNodeClass (pool_NodeClassRef nodePool).
Definition resolveNodeClassFromNodeClaim (nodeClaim : NodeClaim) : M S' ECSNodeClass :=
  resolveNodeClass (claim_NodeClassRef nodeClaim).

Definition resolveNodePoolFromInstance (i : instance.Instance) : M S' NodePool :=
  match instance.Tags i !! NodePoolLabelKey with
  | Some name => call (kube_NodePool name)
  | None => fail (StatusError ReasonNotFound "nodepools not found")
  end.

Definition resolveNodeClassFromInstance (i : instance.Instance) : M S' ECSNodeClass :=
  np ← wrap "resolving nodepool" (resolveNodePoolFromInstance i);
  resolveNodeClassFromNodePool np.

(** [if errors.IsNotFound(err) { recorder.Publish(ev) }], and the error again. *)
Definition reporting {A} (ev : Event) (m : M S' A) : M S' A :=
  r ← attempt m;
  match r with
  | inr a => mret a
  | inl e => _ ← (if IsNotFound e then record_events [ev] else mret ()); fail e
  end.

Definition GetInstanceTypes (nodePool : NodePool) : M S' (list InstanceType) :=
  nodeClass ← reporting (NodePoolFailedToResolveNodeClass nodePool) (resolveNodeClassFromNodePool nodePool);
  listTypes nodeClass.

(** A not-found error becomes the absent value, other errors are returned. *)
Definition ignore_not_found {A} (m : M S' A) : M S' (option A) :=
  r ← attempt m;
  match r with
  | inr a => mret (Some a)
  | inl e => if IsNotFound e then mret None else fail e
  end.

Definition resolveInstanceTypeFromInstance (i : instance.Instance) : M S' (option InstanceType) :=
  np ← ignore_not_found (wrap "resolving nodepool" (resolveNodePoolFromInstance i));
  match np with
  | None => mret None
  | Some nodePool =>
      its ← ignore_not_found (wrap "resolving nodeclass" (GetInstanceTypes nodePool));
      match its with
      | None => mret None
      | Some l => mret (lo_find (λ t, bool_decide (it_Name t = instance.Type_ i)) l)
      end
  end.

Definition resolveInstanceTypes (nodeClaim : NodeClaim) (nodeClass : ECSNodeClass)
    : M S' (list InstanceType) :=
  its ← wrap "getting instance types" (listTypes nodeClass);
  mret (bfilter (usable nodeClaim) its).

(** The NodeClaim of a machine, with the type information if it resolves. *)
Definition claim_of_instance (i : instance.Instance) : M S' NodeClaim :=
  it ← wrap "resolving instance type" (resolveInstanceTypeFromInstance i);
  _ ← wrap "resolving nodeclass" (ignore_not_found (resolveNodeClassFromInstance i));
  t ← now;
  mret (instanceToNodeClaim t i it).

Definition all_unavailable : error :=
  ErrorString "all requested instance types were unavailable during launch".

Definition with_hash (nodeClass : ECSNodeClass) (c : NodeClaim) : NodeClaim :=
  claim_set_Annotations
    (lo_assign (claim_Annotations c)
       {[AnnotationECSNodeClassHash := Hash nodeClass;
         AnnotationECSNodeClassHashVersion := ECSNodeClassHashVersion]}) c.

Definition Create (nodeClaim : NodeClaim) : M S' NodeClaim :=
  r ← attempt (reporting (NodeClaimFailedToResolveNodeClass nodeClaim)
                 (resolveNodeClassFromNodeClaim nodeClaim));
  match r with
  | inl e => fail (InsufficientCapacityError (WrapError "resolving node class" e))
  | inr nodeClass =>
      t ← now;
      let ready := cond_get ConditionReady (StatusConditions t nodeClass) in
      let message := match ready with Some c => cond_Message c | None => "" end in
      if IsFalse ready then fail (NodeClassNotReadyError (ErrorString message))
      else if IsUnknown ready then
        fail (ErrorString ("resolving NodeClass readiness, NodeClass is in Ready=Unknown, " +:+ message))
      else
        its ← wrap "resolving instance types" (resolveInstanceTypes nodeClaim nodeClass);
        match its with
        | [] => fail (InsufficientCapacityError all_unavailable)
        | _ =>
            i ← wrap "creating instance" (on_instances (instance.Create nodeClass nodeClaim its));
            t ← now;
            let it := lo_find (λ t, bool_decide (it_Name t = instance.Type_ i)) its in
            mret (with_hash nodeClass (instanceToNodeClaim t i it))
        end
  end.

Definition List_ : M S' (list NodeClaim) :=
  instances ← wrap "listing instances" (on_instances (instance.List_ fuel));
  mmapM claim_of_instance instances.

Definition Get_ (providerID : string) : M S' NodeClaim :=
  id ← wrap "getting instance ID" (lift (ParseInstanceID providerID));
  i ← wrap "getting instance" (on_instances (instance.Get_ fuel id));
  claim_of_instance i.

Definition Delete (nodeClaim : NodeClaim) : M S' () :=
  id ← wrap "getting instance ID" (lift (ParseInstanceID (claim_ProviderID nodeClaim)));
  on_instances (instance.Delete fuel id).

Definition getInstance (providerID : string) : M S' instance.Instance :=
  id ← lift (ParseInstanceID providerID);
  wrap "getting instance" (on_instances (instance.Get_ fuel id)).

Definition isNodeClassDrifted (nodeClaim : NodeClaim) (nodeClass : ECSNodeClass) : M S' string :=
  let static := areStaticFieldsDrifted nodeClaim nodeClass in
  if negb (bool_decide (static = "")) then mret static
  else
    i ← getInstance (claim_ProviderID nodeClaim);
    sg ← wrap "calculating securitygroup drift" (lift (areSecurityGroupsDrifted i nodeClass));
    vs ← wrap "calculating vSwitch drift" (lift (isVSwitchDrifted i nodeClass));
    mret (if negb (bool_decide (sg = "")) then sg else vs).

Definition IsDrifted (nodeClaim : NodeClaim) : M S' string :=
  match claim_Labels nodeClaim !! NodePoolLabelKey with
  | None => mret ""
  | Some name =>
      np ← ignore_not_found (call (kube_NodePool name));
      match np with
      | None => mret ""
      | Some nodePool =>
          match pool_NodeClassRef nodePool with
          | None => mret ""
          | Some _ =>
              nc ← ignore_not_found (wrap "resolving node class"
                     (reporting (NodePoolFailedToResolveNodeClass nodePool)
                        (resolveNodeClassFromNodePool nodePool)));
              match nc with
              | None => mret ""
              | Some nodeClass => isNodeClassDrifted nodeClaim nodeClass
              end
          end
      end
  end.
End operations.

(** ** Lemmas *)

(** What makes an instance type a candidate for a NodeClaim. *)
Definition fits_claim (nodeClaim : NodeClaim) (it : InstanceType) : Prop :=
  Compatible (claim_reqs nodeClaim) (it_Requirements it) WellKnownLabels = true ∧
  (∃ o, o ∈ it_Offerings it ∧ off_Available o = true ∧
        Compatible (claim_reqs nodeClaim) (off_Requirements o) WellKnownLabels = true) ∧
  (∀ k q, claim_Requests nodeClaim !! k = Some q → (q ≤ rl_get (Allocatable it) k)%Z).

Lemma usable_fits nodeClaim it : usable nodeClaim it = true → fits_claim nodeClaim it.
Proof.
  unfold usable, rl_fits. intros Hu. go_bool. split_and!; [done| |].
  - destruct (Available _) as [|o l] eqn:Ho; [done|]. exists o.
    assert (o ∈ Available (Offerings_Compatible (claim_reqs nodeClaim) (it_Offerings it))) as Hin
      by (rewrite Ho; left).
    unfold Available, Offerings_Compatible in Hin. rewrite !elem_of_bfilter in Hin.
    unfold IsCompatible in Hin. tauto.
  - intros k q Hk. apply Z.leb_le. match goal with H : map_Forall (λ k q, _) (claim_Requests _) |- _ => exact (H k q Hk) end.
Qed.

Section lemmas.
Context {RT : GoRuntime} {P W : Type} `{PV : !instancetypes.PricingView P} `{HC : !HasClock W}.
Context `{CN : !instancetypes.ClusterCNI W} `{TH : !instancetypes.TypeHashes}.
Context `{EI : !instance.EcsInstances W} `{LL : !instance.LaunchLimiter W}.
Context `{RS : !instance.RegisterScript W} `{DR : !instance.DiskResolver W}.
Context `{KR : !KubeReader W} `{ER : !EventRecorder W} `{SH : !SpecHash}.
Context (pct : float64) (pr : P) (fuel : nat).

Lemma on_instances_Ok {A} (m : M (St instance.DefaultProvider W) A) (s s' : St CloudProvider W) a :
  on_instances m s = (Ok a, s') →
  m (MkSt (cp_instances (prov s)) (env s)) = (Ok a, MkSt (cp_instances (prov s')) (env s')).
Proof.
  unfold on_instances. destruct (m _) as [r [p w]]. by intros [= -> <-].
Qed.

Lemma resolveNodeClass_run ref (p : CloudProvider) (w w' : W) nodeClass :
  kube_NodeClass (ref_Name ref) w = (Ok nodeClass, w') →
  resolveNodeClass (Some ref) (MkSt p w) =
  (match meta_DeletionTimestamp (nc_Meta nodeClass) with
   | Some _ => Err (newTerminatingNodeClassError (nc_Name nodeClass))
   | None => Ok nodeClass
   end, MkSt p w').
Proof.
  intros H. unfold resolveNodeClass. rewrite (M_Ok_bind _ _ _ ref (MkSt p w)) by done.
  rewrite (M_Ok_bind _ _ _ _ _ (call_run _ p w _ w' H)).
  by destruct (meta_DeletionTimestamp (nc_Meta nodeClass)).
Qed.

Lemma resolveNodeClass_err ref (p : CloudProvider) (w w' : W) e :
  kube_NodeClass (ref_Name ref) w = (Err e, w') →
  resolveNodeClass (Some ref) (MkSt p w) = (Err e, MkSt p w').
Proof.
  intros H. unfold resolveNodeClass. rewrite (M_Ok_bind _ _ _ ref (MkSt p w)) by done.
  by rewrite (M_Err_bind _ _ _ _ _ (call_run _ p w _ w' H)).
Qed.

Lemma resolveNodeClass_Ok ref (s s' : St CloudProvider W) nodeClass :
  resolveNodeClass ref s = (Ok nodeClass, s') →
  ∃ r, ref = Some r ∧ kube_NodeClass (ref_Name r) (env s) = (Ok nodeClass, env s') ∧
    prov s' = prov s ∧ meta_DeletionTimestamp (nc_Meta nodeClass) = None.
Proof.
  unfold resolveNodeClass. intros H. apply M_bind_Ok in H as (r & s1 & Hr & H).
  destruct ref as [r'|]; [|done]. injection Hr as <- <-.
  apply M_bind_Ok in H as (n & s2 & Hc & H). apply call_Ok in Hc as [Hc Hp].
  destruct (meta_DeletionTimestamp (nc_Meta n)) eqn:Hd; [done|]. injection H as <- <-.
  exists r'. by rewrite Hp.
Qed.

Lemma reporting_Ok {A} ev (m : M (St CloudProvider W) A) s s' a :
  reporting ev m s = (Ok a, s') → m s = (Ok a, s').
Proof.
  unfold reporting. intros H. apply M_bind_Ok in H as ([e|a'] & s1 & Ha & H).
  - by apply M_bind_Ok in H as ([] & s2 & _ & H).
  - apply attempt_Ok in Ha. by injection H as <- <-.
Qed.
(** The environment after an error is reported. *)
Definition reported (ev : Event) (e : error) (w : W) : W := if IsNotFound e then publish [ev] w else w.
Lemma reporting_run {A} ev (m : M (St CloudProvider W) A) s p w r :
  m s = (r, MkSt p w) →
  reporting ev m s = (r, match r with Err e => MkSt p (reported ev e w) | _ => MkSt p w end).
Proof.
  intros H. unfold reporting, reported, mbind, M_bind, attempt. rewrite H.
  destruct r as [a|e|]; [done| |done]. by destruct (IsNotFound e).
Qed.

Lemma IsTrue_other c : IsFalse c = false → IsUnknown c = false → IsTrue c = true.
Proof. destruct c as [[? [] ? ? ?]|]; done. Qed.

Lemma claim_labels t i it k v :
  k ≠ NodePoolLabelKey →
  <[CapacityTypeLabelKey := instance.CapacityType i]>
    (<[LabelTopologyZone := instance.Zone i]> (GetAllSingleValuedRequirementLabels it)) !! k = Some v →
  claim_Labels (instanceToNodeClaim t i it) !! k = Some v.
Proof.
  intros Hk H. unfold claim_Labels, instanceToNodeClaim. cbn [claim_Meta meta_Labels].
  destruct (instance.Tags i !! NodePoolLabelKey); [by rewrite lookup_insert_ne by done|exact H].
Qed.
Lemma claim_zone t i it :
  claim_Labels (instanceToNodeClaim t i it) !! LabelTopologyZone = Some (instance.Zone i).
Proof.
  apply claim_labels; [decide_compute|].
  rewrite lookup_insert_ne by decide_compute. apply lookup_insert_eq.
Qed.
Lemma claim_capacity_type t i it :
  claim_Labels (instanceToNodeClaim t i it) !! CapacityTypeLabelKey = Some (instance.CapacityType i).
Proof. apply claim_labels; [decide_compute|]. apply lookup_insert_eq. Qed.

(** The steps of a [Create] that returned a NodeClaim. *)
Lemma claim_Create_steps nodeClaim (s s' : St CloudProvider W) claim :
  Create pct pr nodeClaim s = (Ok claim, s') →
  ∃ ref nodeClass w its p1 inst,
    claim_NodeClassRef nodeClaim = Some ref ∧
    kube_NodeClass (ref_Name ref) (env s) = (Ok nodeClass, w) ∧
    meta_DeletionTimestamp (nc_Meta nodeClass) = None ∧
    IsTrue (cond_get ConditionReady (StatusConditions (clock w) nodeClass)) = true ∧
    (∀ it, it ∈ its → usable nodeClaim it = true) ∧
    instance.Create nodeClass nodeClaim its p1 =
      (Ok inst, MkSt (cp_instances (prov s')) (env s')) ∧
    prov p1 = cp_instances (prov s) ∧
    claim = with_hash nodeClass (instanceToNodeClaim (clock (env s')) inst
              (lo_find (λ t, bool_decide (it_Name t = instance.Type_ inst)) its)).
Proof.
  unfold Create. intros H. apply M_bind_Ok in H as ([e|nodeClass] & s1 & Ha & H); [done|].
  apply attempt_Ok, reporting_Ok, resolveNodeClass_Ok in Ha as (ref & Href & Hk & Hp1 & Hdel).
  apply M_bind_Ok in H as (t & s2 & Ht & H). injection Ht as <- <-.
  destruct (IsFalse _) eqn:Hf; [done|]. destruct (IsUnknown _) eqn:Hu; [done|].
  apply M_bind_Ok in H as (its & s3 & Hits & H). apply wrap_Ok in Hits.
  unfold resolveInstanceTypes in Hits. apply M_bind_Ok in Hits as (all & s4 & Hl & Hits).
  injection Hits as Hits <-. apply wrap_Ok in Hl. unfold listTypes, on_types in Hl.
  destruct (instancetypes.List_ _ _ _ _ _ _) as [r [pt wt]]. injection Hl as -> <-.
  destruct its as [|it0 rest] eqn:Eits; [done|]. rewrite <- Eits in *.
  apply M_bind_Ok in H as (inst & s5 & Hi & H). apply wrap_Ok, on_instances_Ok in Hi.
  apply M_bind_Ok in H as (t & s6 & Ht & H). injection Ht as <- <-. injection H as <- <-.
  exists ref, nodeClass, (env s1), its. eexists _, inst.
  split_and!; [done..| | | exact Hi | cbn; by rewrite Hp1 | reflexivity].
  - by apply IsTrue_other.
  - intros it Hit. rewrite <- Hits in Hit. by apply elem_of_bfilter in Hit as [? _].
Qed.

Lemma with_hash_annotations nodeClass c :
  claim_Annotations (with_hash nodeClass c) !! AnnotationECSNodeClassHash = Some (Hash nodeClass) ∧
  claim_Annotations (with_hash nodeClass c) !! AnnotationECSNodeClassHashVersion
    = Some ECSNodeClassHashVersion.
Proof.
  unfold with_hash, claim_set_Annotations, claim_Annotations at 1 3.
  cbn [claim_Meta meta_Annotations meta_set_Annotations].
  rewrite !lookup_lo_assign, lookup_insert_eq, lookup_insert_ne, lookup_singleton_eq; [done|].
  decide_compute.
Qed.
End lemmas.

(** ** Relations kept by the listing *)

Section respects.
Context {RT : GoRuntime} {P W : Type} `{PV : !instancetypes.PricingView P} `{HC : !HasClock W}.
Context `{CN : !instancetypes.ClusterCNI W} `{TH : !instancetypes.TypeHashes}.
Context `{EI : !instance.EcsInstances W} `{KR : !KubeReader W} `{ER : !EventRecorder W}.
Context (R : relation W) `{!PreOrder R} (pct : float64) (pr : P) (fuel : nat).

Lemma on_instances_respects {A} (m : M (St instance.DefaultProvider W) A) :
  respects (on_env R) m → respects (on_env R) (on_instances m).
Proof.
  intros H s. specialize (H (MkSt (cp_instances (prov s)) (env s))).
  unfold on_instances. by destruct (m _) as [r [p w]].
Qed.
#[local] Hint Resolve on_instances_respects : respects.

Context (Hpool : ∀ name w, R w (kube_NodePool name w).2).
Context (Hclass : ∀ name w, R w (kube_NodeClass name w).2).
Context (Hcni : ∀ w, R w (instancetypes.GetClusterCNI w).2).
Context (Hevents : ∀ evs w, R w (publish evs w)).

Lemma listTypes_respects nodeClass : respects (on_env R) (listTypes pct pr nodeClass).
Proof.
  intros [[tp ip] w]. unfold listTypes, on_types, instancetypes.List_, on_env.
  cbn [prov env cp_types cp_instances]. specialize (Hcni w).
  destruct (instancetypes.validateState tp nodeClass); [|done..].
  destruct (cache_get _ _ _); [done|].
  destruct (instancetypes.GetClusterCNI w) as [[cni| |] w']; [|done..].
  by destruct (instancetypes.list_types _ _ _ _ _ _ _ _).
Qed.
Lemma resolveNodeClass_respects ref : respects (on_env R) (resolveNodeClass ref).
Proof. unfold resolveNodeClass. respects_walk. by apply on_env_call. Qed.
Lemma resolveNodePool_respects i : respects (on_env R) (resolveNodePoolFromInstance i).
Proof. unfold resolveNodePoolFromInstance. respects_walk. by apply on_env_call. Qed.
#[local] Hint Resolve listTypes_respects resolveNodeClass_respects resolveNodePool_respects : respects.

Lemma reporting_respects {A} ev (m : M (St CloudProvider W) A) :
  respects (on_env R) m → respects (on_env R) (reporting ev m).
Proof. intros H. unfold reporting, record_events. respects_walk. apply on_env_call. intros w. apply Hevents. Qed.
#[local] Hint Resolve reporting_respects : respects.

Lemma claim_of_instance_respects i : respects (on_env R) (claim_of_instance pct pr i).
Proof.
  unfold claim_of_instance, resolveInstanceTypeFromInstance, GetInstanceTypes, resolveNodeClassFromInstance,
    resolveNodeClassFromNodePool, ignore_not_found. respects_walk.
Qed.

Lemma fleet_List_respects :
  (∀ tag token w, R w (instance.DescribeInstances tag token w).2) →
  respects (on_env R) (List_ pct pr fuel).
Proof.
  intros Hdescribe. unfold List_. respects_walk; [by apply on_instances_respects, instance.List_respects|].
  apply respects_mmapM; [auto with respects|]. intros i _. apply claim_of_instance_respects.
Qed.
End respects.

(** ** Properties *)

(** A NodeClass carries the hash of its own specification under the current
    hash version: what the hash controller establishes. *)
Definition hash_annotated `{SpecHash} (n : ECSNodeClass) : Prop :=
  meta_Annotations (nc_Meta n) !! AnnotationECSNodeClassHash = Some (Hash n) ∧
  meta_Annotations (nc_Meta n) !! AnnotationECSNodeClassHashVersion = Some ECSNodeClassHashVersion.

(** The static drift of a NodeClaim, as a predicate: both sides carry hashes of
    the same version, and they differ. *)
Definition statically_drifted (nodeClaim : NodeClaim) (nodeClass : ECSNodeClass) : Prop :=
  ∃ h h' v, meta_Annotations (nc_Meta nodeClass) !! AnnotationECSNodeClassHash = Some h ∧
    claim_Annotations nodeClaim !! AnnotationECSNodeClassHash = Some h' ∧
    meta_Annotations (nc_Meta nodeClass) !! AnnotationECSNodeClassHashVersion = Some v ∧
    claim_Annotations nodeClaim !! AnnotationECSNodeClassHashVersion = Some v ∧ h ≠ h'.

Lemma static_drift_cases nodeClaim nodeClass :
  (statically_drifted nodeClaim nodeClass ∧ areStaticFieldsDrifted nodeClaim nodeClass = NodeClassDrift) ∨
  (¬ statically_drifted nodeClaim nodeClass ∧ areStaticFieldsDrifted nodeClaim nodeClass = "").
Proof.
  unfold statically_drifted, areStaticFieldsDrifted.
  destruct (meta_Annotations _ !! AnnotationECSNodeClassHash) as [h|]; [|right; naive_solver].
  destruct (claim_Annotations _ !! AnnotationECSNodeClassHash) as [h'|]; [|right; naive_solver].
  destruct (meta_Annotations _ !! AnnotationECSNodeClassHashVersion) as [v|]; [|right; naive_solver].
  destruct (claim_Annotations _ !! AnnotationECSNodeClassHashVersion) as [v'|]; [|right; naive_solver].
  destruct (decide (v = v')) as [->|Hv].
  - rewrite bool_decide_true by done. cbn [negb]. case_bool_decide as Hh.
    + right. split; [|done]. intros (? & ? & ? & [= <-] & [= <-] & _ & _ & Hne). done.
    + left. split; [|done]. by exists h, h', v'.
  - rewrite bool_decide_false by done. right. split; [|done].
    intros (? & ? & ? & _ & _ & [= <-] & [= <-] & _). done.
Qed.

Lemma security_group_drift_cases i nodeClass :
  SecurityGroups (nc_Status nodeClass) ≠ [] →
  let same := ∀ x, x ∈ (sg_ID <$> SecurityGroups (nc_Status nodeClass)) ↔ x ∈ instance.SecurityGroupIDs i in
  (same ∧ areSecurityGroupsDrifted i nodeClass = Ok "") ∨
  (¬ same ∧ areSecurityGroupsDrifted i nodeClass = Ok SecurityGroupDrift).
Proof.
  intros Hne same. unfold areSecurityGroupsDrifted. rewrite bool_decide_false.
  2:{ intros He. destruct (SecurityGroups (nc_Status nodeClass)) as [|g gs]; [done|]. clear -He. set_solver. }
  case_bool_decide as Hset; [left|right]; (split; [|reflexivity]).
  - intros x. apply (f_equal (λ X : gset string, x ∈ X)) in Hset.
    rewrite <- !(elem_of_list_to_set (C := gset string)). by rewrite Hset.
  - intros Hs. apply Hset. apply set_eq. intros x. by rewrite !elem_of_list_to_set.
Qed.

Lemma vswitch_drift_cases i nodeClass :
  VSwitches (nc_Status nodeClass) ≠ [] →
  let known := instance.VSwitchID i ∈ (vsw_ID <$> VSwitches (nc_Status nodeClass)) in
  (known ∧ isVSwitchDrifted i nodeClass = Ok "") ∨
  (¬ known ∧ isVSwitchDrifted i nodeClass = Ok VSwitchDrift).
Proof.
  intros Hne known. unfold isVSwitchDrifted, known.
  destruct (VSwitches (nc_Status nodeClass)) as [|v vs]; [done|]. set (l := v :: vs).
  destruct (lo_find _ l) as [x|] eqn:Hf; [left|right]; (split; [|reflexivity]).
  - apply lo_find_Some in Hf as [Hx Hid%bool_decide_eq_true]. rewrite <- Hid. by apply list_elem_of_fmap_2.
  - rewrite lo_find_None in Hf. intros (x & Hid & Hx)%list_elem_of_fmap.
    specialize (Hf x Hx). by rewrite bool_decide_true in Hf.
Qed.

Section properties.
Context {RT : GoRuntime} {P W : Type} `{PV : !instancetypes.PricingView P} `{HC : !HasClock W}.
Context `{CN : !instancetypes.ClusterCNI W} `{TH : !instancetypes.TypeHashes}.
Context `{EI : !instance.EcsInstances W} `{LL : !instance.LaunchLimiter W}.
Context `{RS : !instance.RegisterScript W} `{DR : !instance.DiskResolver W}.
Context `{KR : !KubeReader W} `{ER : !EventRecorder W} `{SH : !SpecHash}.
Context (pct : float64) (pr : P) (fuel : nat).

(** C21. A NodeClaim is refused, with no effect on the providers and
    no call but the read of the NodeClass, when the NodeClass cannot be read or
    is being deleted (an insufficient-capacity error, so karpenter tries
    another NodePool, and, when it is not there or being deleted, an event on
    the NodeClaim), when its [Ready] condition is false (a not-ready error)
    and when it is unknown (neither of the two). *)
Theorem Create_refused nodeClaim ref (p : CloudProvider) (w w' : W) r
    (ev := NodeClaimFailedToResolveNodeClass nodeClaim)
    (Href : claim_NodeClassRef nodeClaim = Some ref)
    (Hread : kube_NodeClass (ref_Name ref) w = (r, w')) :
  (∀ e, r = Err e →
     ∃ e', Create pct pr nodeClaim (MkSt p w) =
             (Err e', MkSt p (if IsNotFound e then publish [ev] w' else w')) ∧
       IsInsufficientCapacityError e' = true) ∧
  (∀ n t, r = Ok n → meta_DeletionTimestamp (nc_Meta n) = Some t →
     ∃ e', Create pct pr nodeClaim (MkSt p w) = (Err e', MkSt p (publish [ev] w')) ∧
       IsInsufficientCapacityError e' = true) ∧
  (∀ n, r = Ok n → meta_DeletionTimestamp (nc_Meta n) = None →
     let ready := cond_get ConditionReady (StatusConditions (clock w') n) in
     (IsFalse ready = true →
        ∃ e', Create pct pr nodeClaim (MkSt p w) = (Err e', MkSt p w') ∧
          IsNodeClassNotReadyError e' = true ∧ IsInsufficientCapacityError e' = false) ∧
     (IsUnknown ready = true →
        ∃ e', Create pct pr nodeClaim (MkSt p w) = (Err e', MkSt p w') ∧
          IsNodeClassNotReadyError e' = false ∧ IsInsufficientCapacityError e' = false)).
Proof.
  unfold Create, resolveNodeClassFromNodeClaim. rewrite Href. fold ev. split; [|split].
  - intros e ->. pose proof (resolveNodeClass_err ref p w w' e Hread) as Hrun.
    apply (reporting_run ev) in Hrun. unfold mbind at 1, M_bind at 1, attempt. rewrite Hrun. by eexists.
  - intros n t -> Hd. pose proof (resolveNodeClass_run ref p w w' n Hread) as Hrun. rewrite Hd in Hrun.
    apply (reporting_run ev) in Hrun. unfold mbind at 1, M_bind at 1, attempt. rewrite Hrun. by eexists.
  - intros n -> Hd. pose proof (resolveNodeClass_run ref p w w' n Hread) as Hrun. rewrite Hd in Hrun.
    apply (reporting_run ev) in Hrun. cbv zeta. set (ready := cond_get ConditionReady (StatusConditions (clock w') n)).
    split; intros Hs; unfold mbind at 1, M_bind at 1, attempt; rewrite Hrun;
      rewrite (M_Ok_bind now _ _ (clock w') (MkSt p w')) by done; cbv zeta; fold ready.
    + rewrite Hs. by eexists.
    + assert (IsFalse ready = false) as -> by by destruct ready as [[? [] ? ? ?]|].
      rewrite Hs. by eexists.
Qed.

(** C1. A NodeClaim is only answered when its NodeClass exists, is
    not being deleted and is [Ready]; the machine was launched by a request all
    of whose types are compatible with the claim, have an available offering
    that is, and allow the requested amount of every resource;
    and the answer describes the launched machine, which is the first machine of
    the first launch result in the service's response to that request: the
    provider ID is its instance ID after the region and a dot, the zone is the
    result's, the capacity type is on-demand exactly when the result's spot
    strategy is NoSpot and spot otherwise, the image is the request's, and the
    hash is that of the specification it was launched from. *)
Theorem Create_launches nodeClaim (s s' : St CloudProvider W) claim :
  Create pct pr nodeClaim s = (Ok claim, s') →
  ∃ ref nodeClass w its req w2 resp r id ids zone strategy ct,
    claim_NodeClassRef nodeClaim = Some ref ∧
    kube_NodeClass (ref_Name ref) (env s) = (Ok nodeClass, w) ∧
    meta_DeletionTimestamp (nc_Meta nodeClass) = None ∧
    IsTrue (cond_get ConditionReady (StatusConditions (clock w) nodeClass)) = true ∧
    (∀ it, it ∈ its → fits_claim nodeClaim it) ∧
    instance.sound_request nodeClass its (getCapacityType nodeClaim its)
      (getTags (instance.ip_ClusterID (cp_instances (prov s))) nodeClass nodeClaim) req ∧
    instance.CreateAutoProvisioningGroup req w2 = (Ok resp, env s') ∧
    head (instance.launch_results resp) = Some (Some r) ∧
    instance.lr_InstanceIds r = Some (Some id :: ids) ∧
    instance.lr_ZoneId r = Some zone ∧ instance.lr_SpotStrategy r = Some strategy ∧
    instance.billed_as strategy ct ∧
    claim_ProviderID claim = instance.ip_region (cp_instances (prov s)) +:+ "." +:+ id ∧
    claim_ImageID claim = instance.pg_ImageId req ∧
    claim_Labels claim !! LabelTopologyZone = Some zone ∧
    claim_Labels claim !! CapacityTypeLabelKey = Some ct ∧
    claim_Annotations claim !! AnnotationECSNodeClassHash = Some (Hash nodeClass).
Proof.
  intros H. apply claim_Create_steps in H
    as (ref & n & w & its & p1 & inst & Href & Hk & Hd & Hready & Husable & Hi & Hp1 & ->).
  destruct (instance.Create_steps _ _ _ _ _ _ Hi)
    as (its2 & req & resp & w2 & out & t & Hits & Hreq & Hcall & Hresp & Hnew).
  apply instance.NewInstanceFromProvisioningGroup_Ok in Hnew
    as ([ids Hid] & _ & Hz & Himg & _ & _ & Hreg & strategy & Hs & Hct).
  apply instance.responseHandler_Ok in Hresp as (Hhead & _).
  rewrite Hp1 in *. cbn [env] in Hcall.
  exists ref, n, w, its2, req, w2, resp, out, (instance.ID inst), ids, (instance.Zone inst), strategy,
    (instance.CapacityType inst).
  split_and!; [done|done|done|done|by intros it Hit; apply usable_fits, Husable, (proj1 (Hits it Hit))
    |exact Hreq|exact Hcall|exact Hhead|exact Hid|exact Hz|exact Hs|exact Hct|..].
  - cbn. by rewrite Hreg.
  - cbn. exact Himg.
  - exact (claim_zone _ _ _).
  - exact (claim_capacity_type _ _ _).
  - exact (proj1 (with_hash_annotations _ _)).
Qed.

(** C2. The provider ID written on a launched NodeClaim leads back to the
    machine: deleting the NodeClaim deletes the instance whose ID the launch
    returned, and reading it by its provider ID reads that instance. *)
Theorem Create_Delete_roundtrip nodeClaim (s s' : St CloudProvider W) claim :
  Create pct pr nodeClaim s = (Ok claim, s') →
  str_has_char newline (instance.ip_region (cp_instances (prov s))) = false →
  ∃ id r w resp req, instance.CreateAutoProvisioningGroup req w = (Ok resp, env s') ∧
    head (instance.launch_results resp) = Some (Some r) ∧
    (∃ ids, instance.lr_InstanceIds r = Some (Some id :: ids)) ∧
    (str_has_char newline id = false → str_has_char dot id = false → ∀ s2 : St CloudProvider W,
       Delete fuel claim s2 = on_instances (instance.Delete fuel id) s2 ∧
       Get_ pct pr fuel (claim_ProviderID claim) s2 =
         (i ← wrap "getting instance" (on_instances (instance.Get_ fuel id));
          claim_of_instance pct pr i) s2).
Proof.
  intros H Hregion. apply claim_Create_steps in H
    as (ref & n & w & its & p1 & inst & _ & _ & _ & _ & _ & Hi & Hp1 & ->).
  destruct (instance.Create_steps _ _ _ _ _ _ Hi)
    as (its2 & req & resp & w2 & out & t & _ & _ & Hcall & Hresp & Hnew).
  apply instance.NewInstanceFromProvisioningGroup_Ok in Hnew as (Hid & _ & _ & _ & _ & _ & Hreg & _).
  apply instance.responseHandler_Ok in Hresp as (Hhead & _).
  exists (instance.ID inst), out, w2, resp, req. cbn [env] in Hcall.
  split; [exact Hcall|]. split; [exact Hhead|]. split; [exact Hid|].
  intros Hnl Hdot s2.
  set (claim := with_hash n _).
  assert (ParseInstanceID (claim_ProviderID claim) = Ok (instance.ID inst)) as Hparse.
  { apply (ParseInstanceID_format (instance.Region inst)); [|done..]. by rewrite Hreg, Hp1. }
  unfold Delete, Get_. clearbody claim. rewrite Hparse. split; reflexivity.
Qed.

(** C22. Drift of a NodeClaim whose NodeClass has resolved its security
    groups and vSwitches and whose machine can be read: the first that applies
    of a specification changed under the same hash version, security groups
    that differ as sets, and a vSwitch no longer selected; otherwise none. *)
Theorem isNodeClassDrifted_decides nodeClaim nodeClass (s s' : St CloudProvider W) i
    (static := statically_drifted nodeClaim nodeClass)
    (groups := ∀ x, x ∈ (sg_ID <$> SecurityGroups (nc_Status nodeClass)) ↔ x ∈ instance.SecurityGroupIDs i)
    (known := instance.VSwitchID i ∈ (vsw_ID <$> VSwitches (nc_Status nodeClass))) :
  getInstance fuel (claim_ProviderID nodeClaim) s = (Ok i, s') →
  SecurityGroups (nc_Status nodeClass) ≠ [] → VSwitches (nc_Status nodeClass) ≠ [] →
  (static ∧ isNodeClassDrifted fuel nodeClaim nodeClass s = (Ok NodeClassDrift, s)) ∨
  (¬ static ∧ ¬ groups ∧ isNodeClassDrifted fuel nodeClaim nodeClass s = (Ok SecurityGroupDrift, s')) ∨
  (¬ static ∧ groups ∧ ¬ known ∧ isNodeClassDrifted fuel nodeClaim nodeClass s = (Ok VSwitchDrift, s')) ∨
  (¬ static ∧ groups ∧ known ∧ isNodeClassDrifted fuel nodeClaim nodeClass s = (Ok "", s')).
Proof.
  intros Hget Hsg Hvs. unfold isNodeClassDrifted.
  destruct (static_drift_cases nodeClaim nodeClass) as [[Hs ->]|[Hs ->]]; [by left|].
  rewrite (bool_decide_true ("" = "")) by done. cbn [negb].
  rewrite (M_Ok_bind _ _ _ _ _ Hget). right.
  destruct (security_group_drift_cases i nodeClass Hsg) as [[Hg ->]|[Hg ->]];
    destruct (vswitch_drift_cases i nodeClass Hvs) as [[Hv ->]|[Hv ->]].
  - right. right. done.
  - right. left. done.
  - left. done.
  - left. done.
Qed.

(** A NodeClaim just launched from a NodeClass is not drifted from
    it, and once the specification has changed (to another hash) and the hash
    controller has written the new hash, it is. *)
Theorem Create_static_drift nodeClaim (s s' : St CloudProvider W) claim :
  Create pct pr nodeClaim s = (Ok claim, s') →
  ∃ ref nodeClass w, claim_NodeClassRef nodeClaim = Some ref ∧
    kube_NodeClass (ref_Name ref) (env s) = (Ok nodeClass, w) ∧
    ∀ nodeClass', hash_annotated nodeClass' →
      areStaticFieldsDrifted claim nodeClass' =
        if bool_decide (Hash nodeClass' = Hash nodeClass) then "" else NodeClassDrift.
Proof.
  intros H. apply claim_Create_steps in H as (ref & n & w & its & p1 & inst & Href & Hk & _ & _ & _ & _ & _ & ->).
  exists ref, n, w. split; [exact Href|]. split; [exact Hk|]. intros n' [Hh Hv].
  destruct (with_hash_annotations n (instanceToNodeClaim (clock (env s')) inst
    (lo_find (λ t, bool_decide (it_Name t = instance.Type_ inst)) its))) as [Hh' Hv'].
  unfold areStaticFieldsDrifted. rewrite Hh, Hv, Hh', Hv'.
  by rewrite (bool_decide_true (ECSNodeClassHashVersion = _)) by done.
Qed.
End properties.

End cloudprovider.

(** ** A concrete cluster *)

Module CloudExample.
Import cloudprovider.

Definition world : Type := LaunchExample.world.
#[global] Instance cloud_cni : instancetypes.ClusterCNI world :=
  λ w, (Ok instancetype.ClusterCNITypeTerway, w).
#[global] Instance cloud_hash : SpecHash := λ spec, pretty (length (ImageSelectorTerms spec)).

(** The events are not looked at. *)
#[global] Instance cloud_events : EventRecorder world := λ _ w, w.

Definition ready_conditions : list Condition :=
  foldl (λ cs t, SetTrue ConditionReady nodeclass_conditions 5 t cs)
    (For ConditionReady nodeclass_conditions 5 []) nodeclass_conditions.
Definition class_with (terms : list ImageSelectorTerm) (deleted : option Z) (cs : list Condition)
    : ECSNodeClass :=
  MkNodeClass (MkMeta "default" "uid" ∅
      {[AnnotationECSNodeClassHash := pretty (length terms);
        AnnotationECSNodeClassHashVersion := ECSNodeClassHashVersion]} [] 0 deleted)
    (MkSpec [] "" [] terms None None ∅ "")
    (MkStatus [MkVSwitch "vsw-a" "cn-hangzhou-h"] [MkSecurityGroup "sg-1" "sg"]
       [SelectExample.x86_image] cs).
Definition class : ECSNodeClass := class_with [] None ready_conditions.
Definition changed : ECSNodeClass := class_with [MkImageTerm "ContainerOS" ""] None ready_conditions.
Definition unready : ECSNodeClass := class_with [] None [].
#[global] Instance cloud_kube : KubeReader world := {|
  kube_NodePool := λ n w, (Ok (MkNodePool (MkMeta n "" ∅ ∅ [] 0 None) (Some (MkRef "default"))), w);
  kube_NodeClass := λ n w,
    (if bool_decide (n = "default") then Ok class
     else if bool_decide (n = "unready") then Ok unready
     else Err (StatusError ReasonNotFound n), w);
|}.

Definition providers : CloudProvider :=
  MkCloudProvider (prov InstanceTypesExample.ready) LaunchExample.fresh.
Definition w0 : world := (Minute, true).
Definition start : St CloudProvider world := MkSt providers w0.
Definition claim_for (class : string) : NodeClaim :=
  MkNodeClaim (MkMeta "claim" "uid" {[NodePoolLabelKey := "default"]} ∅ [] 0 None) (Some (MkRef class))
    [] ∅ "" "" "" ∅ ∅ [].
Definition launched : result NodeClaim * St CloudProvider world :=
  Create InstanceTypesExample.pct SelectExample.p10 (claim_for "default") start.

Definition dummy : NodeClaim := claim_for "".
Definition launched_claim : NodeClaim := match launched.1 with Ok c => c | _ => dummy end.

Example launched_example :
  (match launched.1 with Ok _ => true | _ => false end) = true ∧
  claim_ProviderID launched_claim = "cn-hangzhou.i-new" ∧ claim_ImageID launched_claim = "img-x86".
Proof. vm_compute. repeat split; reflexivity. Qed.

Lemma launched_ok : launched = (Ok launched_claim, launched.2).
Proof.
  pose proof launched_example as [H _]. unfold launched_claim. destruct launched as [[c| |] s2]; [|done..].
  reflexivity.
Qed.

Lemma Create_launches_witness :
  ∃ id req w resp w', instance.CreateAutoProvisioningGroup req w = (Ok resp, w') ∧
    (∃ r ids, head (instance.launch_results resp) = Some (Some r) ∧
       instance.lr_InstanceIds r = Some (Some id :: ids)) ∧
    claim_ProviderID launched_claim = "cn-hangzhou." +:+ id.
Proof.
  destruct (Create_launches _ _ _ _ _ _ launched_ok)
    as (ref & n & w & its & req & w2 & resp & r & id & ids & zone & st & ct & _ & _ & _ & _ & _ & _
        & Hcall & Hhead & Hids & _ & _ & _ & Hid & _).
  exists id, req, w2, resp, (env launched.2). split; [exact Hcall|].
  split; [exists r, ids; split; [exact Hhead | exact Hids]|]. rewrite Hid.
  replace (instance.ip_region _) with "cn-hangzhou"; [reflexivity|]. vm_compute. reflexivity.
Defined.

Lemma Create_refused_witness :
  (∃ e', Create InstanceTypesExample.pct SelectExample.p10 (claim_for "missing") start =
     (Err e', MkSt providers (publish [NodeClaimFailedToResolveNodeClass (claim_for "missing")] w0)) ∧
     IsInsufficientCapacityError e' = true) ∧
  (∃ e', Create InstanceTypesExample.pct SelectExample.p10 (claim_for "unready") start = (Err e', start) ∧
     IsNodeClassNotReadyError e' = false ∧ IsInsufficientCapacityError e' = false).
Proof.
  assert (kube_NodeClass "missing" w0 = (Err (StatusError ReasonNotFound "missing"), w0)) as Hm
    by (vm_compute; reflexivity).
  assert (kube_NodeClass "unready" w0 = (Ok unready, w0)) as Hu by (vm_compute; reflexivity).
  split.
  - destruct (Create_refused InstanceTypesExample.pct SelectExample.p10 (claim_for "missing")
      (MkRef "missing") providers w0 w0 _ eq_refl Hm) as [H _].
    exact (H _ eq_refl).
  - destruct (Create_refused InstanceTypesExample.pct SelectExample.p10 (claim_for "unready")
      (MkRef "unready") providers w0 w0 _ eq_refl Hu) as (_ & _ & H).
    apply (H unready); vm_compute; reflexivity.
Defined.

Lemma Create_Delete_roundtrip_witness :
  ∃ id, Delete 5 launched_claim launched.2 = on_instances (instance.Delete 5 id) launched.2 ∧ id = "i-new".
Proof.
  destruct (Create_Delete_roundtrip _ _ 5 _ _ _ _ launched_ok)
    as (id & r & w & resp & req & Hcall & Hhead & [ids Hids] & Hrt).
  - vm_compute. reflexivity.
  - apply (f_equal fst) in Hcall. injection Hcall as <-. injection Hhead as <-.
    assert (id = "i-new") as -> by (unfold LaunchExample.result_of in Hids; destruct w.2; cbn in Hids; congruence).
    exists "i-new". split; [|reflexivity]. apply Hrt; reflexivity.
Defined.

Lemma Create_static_drift_witness :
  areStaticFieldsDrifted launched_claim class = "" ∧
  areStaticFieldsDrifted launched_claim changed = NodeClassDrift.
Proof.
  destruct (Create_static_drift _ _ _ _ _ _ launched_ok) as (ref & n & w & Href & Hk & Hd).
  injection Href as <-. injection Hk as <- _.
  split; (rewrite Hd; [vm_compute; reflexivity | split; vm_compute; reflexivity]).
Defined.

(** The machine i-1 of the service, whose vSwitch is still selected. *)
Definition claim_i1 : NodeClaim :=
  MkNodeClaim (MkMeta "c1" "uid" ∅ ∅ [] 0 None) None [] ∅ "" "cn-hangzhou.i-1" "" ∅ ∅ [].
Definition read_i1 := getInstance 5 (claim_ProviderID claim_i1) start.
Lemma isNodeClassDrifted_decides_witness :
  isNodeClassDrifted 5 claim_i1 class start = (Ok "", read_i1.2).
Proof.
  destruct (isNodeClassDrifted_decides 5 claim_i1 class start read_i1.2
    (match read_i1.1 with Ok i => i | _ => StaleExample.gone end))
    as [[Hs _]|[(_ & Hg & _)|[(_ & _ & Hv & _)|(_ & _ & _ & H)]]].
  - vm_compute. reflexivity.
  - discriminate.
  - discriminate.
  - exfalso. destruct Hs as (? & ? & ? & _ & H & _). discriminate H.
  - exfalso. apply Hg. vm_compute. done.
  - exfalso. apply Hv. decide_compute.
  - exact H.
Defined.
End CloudExample.
