(* ===== verification/Ack.v ===== *)
(** * The cluster provider (pkg/providers/ack)

    Reads the network plugin of the cluster, remembered for the life of the
    process, and the script with which a node joins it, kept in an expiring
    cache.  The script is a command line: its labels argument is replaced, the
    node configuration and karpenter's unregistered taint are appended, and the
    container runtime is set to that of the default node pool.  The cluster
    service and the decoder of the cluster's metadata are parameters.  The
    provider implements the interfaces through which the instance and the
    instance type providers call it. *)

From S2P Require Import Prelude Effects GoText GoCache Labels Scheduling CloudTypes Apis.
From S2P Require Import InstanceTypeCalc InstanceTypeProvider InstanceSelect InstanceProvider KubeApi.

Module ack.

(** ** The cluster service *)

Record NodepoolInfo := MkInfo { IsDefault : option bool }.
Record NodepoolStatus := MkStatus { HealthyNodes : option Z }.
Record KubernetesConfig := MkKubernetesConfig {
  Runtime : option string;
  RuntimeVersion : option string;
}.
Record Nodepool := MkNodepool {
  np_NodepoolInfo : option NodepoolInfo;
  np_Status : option NodepoolStatus;
  np_KubernetesConfig : option KubernetesConfig;
}.

(** The answers of the first two calls are the field that is read, [None] if it
    or what leads to it is nil; that of the third is the response. *)
Class AckApi (W : Type) := {
  DescribeClusterDetail : string → W → result (option string) * W;
  DescribeClusterNodePools : string → W → result (option (list Nodepool)) * W;
  DescribeClusterAttachScripts : string → bool → W → result (option (option string)) * W;
}.
(** [json.Unmarshal] of the metadata text: Capabilities.Network. *)
Class MetadataDecoder := unmarshal_network : string → error + string.

Record DefaultProvider := MkProvider {
  clusterID : string;
  clusterCNI : string;
  ack_cache : cache string;
}.
Definition NewDefaultProvider (clusterID : string) (c : cache string) : DefaultProvider :=
  MkProvider clusterID "" c.

(** ** Text of the script *)

Definition defaultNodeLabel : string := "k8s.aliyun.com=true".

Definition labels_pattern : pattern := [Lit "--labels"; Plus is_space; Plus non_space].
Definition runtime_pattern : pattern :=
  [Plus is_space; Lit "--runtime"; Plus is_space; Plus non_space;
   Plus is_space; Lit "--runtime-version"; Plus is_space; Plus non_space].

Definition labels_step (acc : string) (kv : string * string) : string :=
  acc +:+ "," +:+ kv.1 +:+ "=" +:+ kv.2.
Definition format_labels {RT : GoRuntime} (cluster : string) (labels : gmap string string) : string :=
  foldl labels_step (defaultNodeLabel +:+ ",ack.aliyun.com=" +:+ cluster) (range_map 50 labels).

(** [json.Marshal] of the node configuration; the encoder cannot fail on it. *)
Definition quoted (s : string) : string := String "034" (s +:+ String "034" "").
Definition node_config_json (maxPods : option Z) : string :=
  "{" +:+ quoted "kubelet_config" +:+ ":{" +:+
  match maxPods with Some n => quoted "maxPods" +:+ ":" +:+ pretty n | None => "" end +:+ "}}".
Definition convertNodeClassKubeletConfigToACKNodeConfig (kubeletCfg : KubeletConfiguration) : string :=
  EncodeToString (node_config_json (kc_MaxPods kubeletCfg)).

(** [Taint.ToString] (k8s.io/api, vendored). *)
Definition taint_ToString (t : Taint) : string :=
  if bool_decide (taint_Effect t = "") then
    if bool_decide (taint_Value t = "") then taint_Key t
    else taint_Key t +:+ "=" +:+ taint_Value t +:+ ":"
  else if bool_decide (taint_Value t = "") then taint_Key t +:+ ":" +:+ taint_Effect t
  else taint_Key t +:+ "=" +:+ taint_Value t +:+ ":" +:+ taint_Effect t.

(** The order of the node pools: the default one first, then by the number of
    healthy nodes; a pool that lacks the fields compares with none. *)
Definition nodepool_less (a b : Nodepool) : bool :=
  match np_NodepoolInfo a, np_NodepoolInfo b with
  | Some ia, Some ib =>
      let by_health :=
        match np_Status a ≫= HealthyNodes, np_Status b ≫= HealthyNodes with
        | Some ha, Some hb => (hb <? ha)%Z
        | _, _ => false
        end in
      match IsDefault ia, IsDefault ib with
      | Some true, Some false => true
      | Some false, Some true => false
      | _, _ => by_health
      end
  | _, _ => false
  end.

Section ack.
Context {RT : GoRuntime} {W : Type} `{!HasClock W, !AckApi W, !MetadataDecoder}.
Notation S' := (St DefaultProvider W).

Definition GetClusterCNI : M S' string :=
  p ← get_prov;
  if negb (bool_decide (clusterCNI p = "")) then mret (clusterCNI p)
  else
    metadata ← wrap "failed to describe cluster" (call (DescribeClusterDetail (clusterID p)));
    match metadata with
    | None => fail (ErrorString "empty cluster response")
    | Some text =>
        match unmarshal_network text with
        | inl e => fail (WrapError "failed to unmarshal cluster metadata" e)
        | inr network =>
            _ ← set_prov (MkProvider (clusterID p) network (ack_cache p));
            p' ← get_prov; mret (clusterCNI p')
        end
    end.

Definition getClusterAttachRuntimeConfiguration : M S' (string * string) :=
  p ← get_prov;
  pools ← call (DescribeClusterNodePools (clusterID p));
  match pools with
  | None => fail (ErrorString "empty describe cluster nodepools response")
  | Some nodepools =>
      match sort_slice nodepool_less nodepools with
      | [] => fail (ErrorString "no nodepool found")
      | target :: _ =>
          match np_KubernetesConfig target with
          | Some (MkKubernetesConfig (Some runtime) (Some version)) => mret (runtime, version)
          | _ => fail (ErrorString "target describe cluster nodepool is empty")
          end
      end
  end.

(** The command line before the runtime is settled. *)
Definition base_command (cluster respStr : string) (labels : gmap string string)
    (kubeletCfg : KubeletConfiguration) : string :=
  ReplaceAllString labels_pattern (ReplaceAll respStr (String "013" (String "010" "")) "")
    ("--labels " +:+ format_labels cluster labels)
  +:+ " --node-config " +:+ convertNodeClassKubeletConfigToACKNodeConfig kubeletCfg
  +:+ " --taints " +:+ taint_ToString UnregisteredNoExecuteTaint.

Definition with_runtime (command : string) (r : error + (string * string)) : string :=
  match r with
  | inl _ => command
  | inr (runtime, version) =>
      ReplaceAllString runtime_pattern command ""
      +:+ " --runtime " +:+ runtime +:+ " --runtime-version " +:+ version
  end.

Definition bash_header : string := "#!/bin/bash" +:+ String "010" (String "010" "").

Definition resolveUserData (respStr : string) (labels : gmap string string)
    (kubeletCfg : KubeletConfiguration) : M S' string :=
  p ← get_prov;
  r ← attempt getClusterAttachRuntimeConfiguration;
  mret (EncodeToString (bash_header +:+
          with_runtime (base_command (clusterID p) respStr labels kubeletCfg) r)).

Definition GetNodeRegisterScript (labels : gmap string string) (kubeletCfg : KubeletConfiguration)
    : M S' string :=
  p ← get_prov;
  t ← now;
  match cache_get t (clusterID p) (ack_cache p) with
  | Some script => resolveUserData script labels kubeletCfg
  | None =>
      resp ← call (DescribeClusterAttachScripts (clusterID p) true);
      body ← lift (deref resp);
      let s := StringValue body in
      if bool_decide (s = "") then fail (ErrorString "empty node registration script")
      else
        t' ← now;
        _ ← set_prov (MkProvider (clusterID p) (clusterCNI p)
                        (cache_set_default t' (clusterID p) s (ack_cache p)));
        resolveUserData s labels kubeletCfg
  end.

(** The provider as its clients see it: part of their environment. *)
#[export] Instance ack_cni : instancetypes.ClusterCNI S' := GetClusterCNI.
#[export] Instance ack_scripts : instance.RegisterScript S' := GetNodeRegisterScript.
End ack.

(** ** The labels argument *)

Fixpoint has_suffix (p s : string) : bool :=
  bool_decide (s = p) || match s with EmptyString => false | String _ s' => has_suffix p s' end.

Lemma has_suffix_spec p s : has_suffix p s = true ↔ ∃ x, s = x +:+ p.
Proof.
  induction s as [|a s IH]; cbn [has_suffix]; rewrite orb_true_iff, bool_decide_eq_true.
  - split; [intros [<-|?]; [by exists ""|done]|]. intros [[|b x] Hx]; [by left|done].
  - rewrite IH. split.
    + intros [->|[x ->]]; [by exists ""|by exists (String a x)].
    + intros [[|b x] Hx]; [by left|]. injection Hx as -> ->. right. by exists x.
Qed.

(** On words: the one after a word that ends in "--labels" is replaced. *)
Fixpoint relabel (L : string) (ws : list string) : list string :=
  match ws with
  | w :: ((_ :: ws') as rest) =>
      if has_suffix "--labels" w then w :: L :: relabel L ws' else w :: relabel L rest
  | _ => ws
  end.

(** A match is the option, spaces, and the word after them. *)
Lemma labels_match s m r :
  match_here labels_pattern s = Some (m, r) →
  ∃ u v, m = "--labels" +:+ u +:+ v ∧ s = m +:+ r ∧ u ≠ "" ∧ all_chars is_space u = true ∧
    is_word v = true ∧ starts_with non_space r = false.
Proof.
  intros Hm. pose proof (match_here_rest [Lit "--labels"; Plus is_space] _ _ _ _ Hm) as Hr.
  apply match_here_sound in Hm as [Hs (x & -> & u & y & Hu & Hau & -> & v & z & Hv & Hav & -> & Hz)].
  cbn [denotes] in Hz. subst z. rewrite str_app_nil in Hs. exists u, v. by rewrite str_app_nil, is_word_spec.
Qed.


Lemma labels_match_complete u v r :
  u ≠ "" → all_chars is_space u = true → is_word v = true → starts_with non_space r = false →
  match_here labels_pattern ("--labels" +:+ u +:+ v +:+ r) = Some ("--labels" +:+ u +:+ v, r).
Proof.
  intros Hu Hau Hv Hr. pose proof (proj1 (is_word_spec v) Hv) as [Hne Hall]. unfold labels_pattern.
  rewrite match_here_Lit, (match_here_Plus is_space), (match_here_Plus non_space);
    try done; [|by apply word_not_space].
  cbn. by rewrite str_app_nil.
Qed.

(** Inside a word only the option itself can start a match. *)
Lemma labels_no_match y r :
  all_chars non_space y = true → y ≠ "" → starts_with non_space r = false →
  (y = "--labels" → fields r = []) → match_here labels_pattern (y +:+ r) = None.
Proof.
  intros Hy Hne Hr Hlast. destruct (match_here _ _) as [[m r']|] eqn:Hm; [|done]. exfalso.
  apply labels_match in Hm as (u & v & -> & Heq & Hu & Hau & Hv & Hr').
  rewrite !str_app_assoc in Heq. apply word_inj in Heq as [-> ->]; [|done|done|reflexivity|].
  - specialize (Hlast eq_refl). by rewrite fields_spaces, fields_word in Hlast.
  - by apply starts_space_not, spaces_start.
Qed.

Section relabel.
Context (L : string) (HL : is_word L = true).
Notation rep := (replace labels_pattern (λ _, "--labels " +:+ L)).

Lemma rep_spaces u s : all_chars is_space u = true → rep (u +:+ s) = u +:+ rep s.
Proof.
  intros Hu. apply replace_skips. intros x [|a y] -> Hy; [done|].
  rewrite all_chars_app in Hu. cbn [all_chars] in Hu. go_bool.
  rewrite str_cons_app. cbn [match_here labels_pattern]. cbn [strip_prefix].
  rewrite bool_decide_false; [done|]. by intros <-.
Qed.

Lemma rep_starts s : starts_with non_space s = false → starts_with non_space (rep s) = false.
Proof.
  destruct s as [|a s]; [done|]. cbn [starts_with]. unfold non_space at 1. rewrite negb_false_iff. intros Ha.
  rewrite <- (str_nil_app s), <- str_cons_app, rep_spaces by (cbn; by rewrite Ha).
  rewrite str_cons_app. cbn. unfold non_space. by rewrite Ha.
Qed.

(** A word followed by another one. *)
Lemma rep_option w u v r :
  all_chars non_space w = true → has_suffix "--labels" w = true → u ≠ "" → all_chars is_space u = true →
  is_word v = true → starts_with non_space r = false →
  rep (w +:+ u +:+ v +:+ r) = w +:+ " " +:+ L +:+ rep r.
Proof.
  intros Hw [x ->]%has_suffix_spec Hu Hau Hv Hr. rewrite all_chars_app in Hw. go_bool.
  rewrite !str_app_assoc, replace_skips.
  - rewrite (replace_match _ _ _ _ r (labels_match_complete u v r Hu Hau Hv Hr)) by done.
    reflexivity.
  - intros x' y -> Hy. rewrite all_chars_app in *. go_bool.
    rewrite <- str_app_assoc. apply labels_no_match.
    + by rewrite all_chars_app, andb_true_iff.
    + by destruct y.
    + by apply starts_space_not, spaces_start.
    + intros Heq. apply (f_equal String.length) in Heq. rewrite str_length_app in Heq.
      destruct y; [done|]. cbn in Heq. lia.
Qed.

(** Any other word. *)
Lemma rep_other w r :
  all_chars non_space w = true → starts_with non_space r = false →
  (has_suffix "--labels" w = true → fields r = []) → rep (w +:+ r) = w +:+ rep r.
Proof.
  intros Hw Hr Hlast. apply replace_skips. intros x y -> Hy. rewrite all_chars_app in Hw. go_bool.
  apply labels_no_match; try done. intros ->. apply Hlast, has_suffix_spec. by exists x.
Qed.

(** The replacement in the text is the replacement of words. *)
Lemma fields_relabel s : fields (rep s) = relabel L (fields s).
Proof.
  remember (String.length s) as n eqn:Hn. revert s Hn.
  induction n as [n IH] using lt_wf_ind. intros s ->.
  destruct (fields s) as [|w ws] eqn:Hs.
  { apply fields_nil_inv in Hs. rewrite <- (str_app_nil s), rep_spaces by done. by apply fields_spaces. }
  apply fields_cons_inv in Hs as (u & r & -> & Hu & Hw & Hr & Hws).
  rewrite rep_spaces, fields_spaces by done. pose proof (proj1 (is_word_spec w) Hw) as [Hne Hall].
  assert (String.length w ≠ 0) as Hlen by (by destruct w).
  destruct ws as [|v ws].
  - rewrite rep_other by done. rewrite fields_word by (try done; by apply rep_starts).
    rewrite (IH (String.length r)), Hws; [done|rewrite !str_length_app; lia|done].
  - assert (has_suffix "--labels" w = false → rep (w +:+ r) = w +:+ rep r) as Hother
      by (intros E; apply rep_other; [done|done|by rewrite E]).
    cbn [relabel]. destruct (has_suffix "--labels" w) eqn:Hsuf.
    + apply fields_cons_inv in Hws as (u' & r' & -> & Hu' & Hv & Hr' & <-).
      assert (u' ≠ "") as Hu0 by (intros ->; rewrite str_nil_app, word_start in Hr by done; done).
      rewrite rep_option, fields_word by done. rewrite (fields_spaces " ") by done.
      rewrite fields_word by (try done; by apply rep_starts).
      rewrite (IH (String.length r')); [done|rewrite !str_length_app; lia|done].
    + rewrite Hother, fields_word by (try done; by apply rep_starts).
      rewrite (IH (String.length r)), Hws; [done|rewrite !str_length_app; lia|done].
Qed.
End relabel.

(** ** The runtime arguments *)

(** On words: the four words of a runtime setting are dropped. *)
Fixpoint drop_runtime (ws : list string) : list string :=
  match ws with
  | w :: rest =>
      match rest with
      | _ :: w' :: _ :: ws' =>
          if bool_decide (w = "--runtime" ∧ w' = "--runtime-version") then drop_runtime ws'
          else w :: drop_runtime rest
      | _ => w :: drop_runtime rest
      end
  | [] => []
  end.

(** The words start with a runtime setting. *)
Definition sets_runtime (ws rest : list string) : Prop :=
  ∃ x y, ws = "--runtime" :: x :: "--runtime-version" :: y :: rest.

Lemma drop_runtime_set ws rest : sets_runtime ws rest → drop_runtime ws = drop_runtime rest.
Proof. intros (x & y & ->). cbn [drop_runtime]. by rewrite bool_decide_true. Qed.

Lemma drop_runtime_keep w ws :
  (∀ rest, ¬ sets_runtime (w :: ws) rest) → drop_runtime (w :: ws) = w :: drop_runtime ws.
Proof.
  intros H. destruct ws as [|x [|w' [|y ws]]]; try done. cbn [drop_runtime].
  case_bool_decide as E; [|done]. destruct E as [-> ->]. exfalso. apply (H ws). by exists x, y.
Qed.

Lemma drop_runtime_cons w x w' y ws :
  drop_runtime (w :: x :: w' :: y :: ws) =
  if bool_decide (w = "--runtime" ∧ w' = "--runtime-version") then drop_runtime ws
  else w :: drop_runtime (x :: w' :: y :: ws).
Proof. done. Qed.

(** An option at the end survives when its neighbours are no runtime option. *)
Lemma drop_runtime_tail ws a c o v :
  c ≠ "--runtime-version" → o ≠ "--runtime-version" →
  ∃ ws', drop_runtime (ws ++ [a; c; o; v]) = ws' ++ [o; v].
Proof.
  intros Hc Ho. remember (length ws) as n eqn:Hn. revert ws Hn.
  induction n as [n IH] using lt_wf_ind. intros ws ->.
  destruct ws as [|w1 ws].
  { exists [a; c]. cbn. rewrite bool_decide_false; [done|]. by intros []. }
  assert (∃ ws', w1 :: drop_runtime (ws ++ [a; c; o; v]) = ws' ++ [o; v]) as Hkeep.
  { destruct (IH (length ws)) with ws as [ws' ->]; [cbn; lia|done|]. by exists (w1 :: ws'). }
  destruct ws as [|w2 [|w3 [|w4 ws]]]; cbn [app] in *; rewrite drop_runtime_cons.
  - rewrite bool_decide_false by (by intros []). exact Hkeep.
  - case_bool_decide; [by exists []|exact Hkeep].
  - case_bool_decide; [by exists [c]|exact Hkeep].
  - case_bool_decide; [|exact Hkeep]. apply (IH (length ws)); [cbn; lia|done].
Qed.

Lemma runtime_separated : separated runtime_pattern.
Proof.
  assert (∀ a, non_space a = true → is_space a = false) as H by (intros a; unfold non_space; by rewrite negb_true_iff).
  assert (∀ a, is_space a = true → non_space a = false) as H' by (intros a; unfold non_space; by intros ->).
  repeat split; auto.
Qed.

(** A match at a space is a runtime setting at the head of the words. *)
Lemma runtime_match s m r :
  match_here runtime_pattern s = Some (m, r) →
  m ≠ "" ∧ starts_with non_space r = false ∧ String.length r < String.length s ∧
  sets_runtime (fields s) (fields r).
Proof.
  intros Hm. pose proof (match_here_rest (take 7 runtime_pattern) _ _ _ _ Hm) as Hr.
  apply match_here_sound in Hm as [-> Hd].
  destruct Hd as (u1 & t1 & N1 & S1 & -> & t2 & -> & u2 & t3 & N2 & S2 & -> & x & t4 & N3 & S3 & -> &
                  u3 & t5 & N4 & S4 & -> & t6 & -> & u4 & t7 & N5 & S5 & -> & y & t8 & N6 & S6 & -> & Hz).
  cbn [denotes] in Hz. subst t8. rewrite str_app_nil.
  assert (String.length u1 ≠ 0) by (by destruct u1). split_and!; [by destruct u1|done| |].
  - rewrite !str_length_app. lia.
  - exists x, y. rewrite !str_app_assoc. rewrite fields_spaces by done.
    rewrite fields_word by (try done; by apply starts_space_not, spaces_start). rewrite fields_spaces by done.
    rewrite fields_word by (try (by apply is_word_spec); by apply starts_space_not, spaces_start).
    rewrite fields_spaces by done.
    rewrite fields_word by (try done; by apply starts_space_not, spaces_start). rewrite fields_spaces by done.
    by rewrite fields_word by (by try apply is_word_spec).
Qed.

(** Words after the first are separated from it by spaces. *)
Lemma next_word s w ws :
  starts_with non_space s = false → fields s = w :: ws →
  ∃ u r, s = u +:+ w +:+ r ∧ u ≠ "" ∧ all_chars is_space u = true ∧ is_word w = true ∧
    starts_with non_space r = false ∧ fields r = ws.
Proof.
  intros Hs (u & r & -> & Hu & Hw & Hr & Hws)%fields_cons_inv. exists u, r. split_and!; try done.
  intros ->. by rewrite str_nil_app, word_start in Hs.
Qed.

Lemma runtime_match_complete s rest :
  starts_with non_space s = false → sets_runtime (fields s) rest → match_here runtime_pattern s ≠ None.
Proof.
  intros Hs (x & y & Hf).
  apply next_word in Hf as (u1 & r1 & -> & N1 & S1 & _ & H1 & Hf); [|done].
  apply next_word in Hf as (u2 & r2 & -> & N2 & S2 & X & H2 & Hf); [|done].
  apply next_word in Hf as (u3 & r3 & -> & N3 & S3 & _ & H3 & Hf); [|done].
  apply next_word in Hf as (u4 & r4 & -> & N4 & S4 & Y & H4 & Hf); [|done].
  apply is_word_spec in X as [X1 X2]. apply is_word_spec in Y as [Y1 Y2].
  destruct (match_here_longest runtime_pattern
    (u1 +:+ "--runtime" +:+ u2 +:+ x +:+ u3 +:+ "--runtime-version" +:+ u4 +:+ y +:+ r4)
    (u1 +:+ "--runtime" +:+ u2 +:+ x +:+ u3 +:+ "--runtime-version" +:+ u4 +:+ y) r4)
    as (z & r' & Hm & _); [apply runtime_separated| |by rewrite !str_app_assoc|by rewrite Hm].
  cbn [runtime_pattern denotes].
  exists u1. eexists. split_and!; [done|done|reflexivity|]. eexists. split; [reflexivity|].
  exists u2. eexists. split_and!; [done|done|reflexivity|]. exists x. eexists. split_and!; [done|done|reflexivity|].
  exists u3. eexists. split_and!; [done|done|reflexivity|]. eexists. split; [reflexivity|].
  exists u4. eexists. split_and!; [done|done|reflexivity|]. exists y, "". by rewrite str_app_nil.
Qed.

Notation strip := (replace runtime_pattern (λ _, "")).

Lemma runtime_no_match y r :
  starts_with non_space (y +:+ r) = true → match_here runtime_pattern (y +:+ r) = None.
Proof.
  destruct (y +:+ r) as [|a s]; [done|]. cbn [starts_with]. unfold non_space. rewrite negb_true_iff. intros Ha.
  cbn [match_here runtime_pattern span]. by rewrite Ha.
Qed.

Lemma all_chars_start (p : ascii → bool) u r : u ≠ "" → all_chars p u = true → starts_with p (u +:+ r) = true.
Proof. destruct u as [|a u]; [done|]. rewrite str_cons_app. cbn. rewrite andb_true_iff. by intros _ [-> _]. Qed.

(** Words within which no match starts. *)
Lemma strip_word w r : all_chars non_space w = true → strip (w +:+ r) = w +:+ strip r.
Proof.
  intros Hw. apply replace_skips. intros x y -> Hy. rewrite all_chars_app in Hw. go_bool.
  by apply runtime_no_match, all_chars_start.
Qed.

Lemma strip_spaces u s :
  all_chars is_space u = true → (∀ rest, ¬ sets_runtime (fields s) rest) → strip (u +:+ s) = u +:+ strip s.
Proof.
  intros Hu Hno. apply replace_skips. intros x y -> Hy. rewrite all_chars_app in Hu. go_bool.
  destruct (match_here _ _) as [[m r]|] eqn:Hm; [|done]. exfalso.
  apply runtime_match in Hm as (_ & _ & _ & Hset). rewrite fields_spaces in Hset by done.
  exact (Hno _ Hset).
Qed.

Lemma fields_strip s :
  starts_with non_space s = false →
  fields (strip s) = drop_runtime (fields s) ∧ starts_with non_space (strip s) = false.
Proof.
  remember (String.length s) as n eqn:Hn. revert s Hn.
  induction n as [n IH] using lt_wf_ind. intros s -> Hs.
  destruct (match_here runtime_pattern s) as [[m r]|] eqn:Hm.
  - destruct (runtime_match _ _ _ Hm) as (Hne & Hr & Hlen & Hset).
    rewrite (replace_match _ _ _ _ _ Hm Hne), str_nil_app, (drop_runtime_set _ _ Hset). by eapply IH.
  - assert (∀ rest, ¬ sets_runtime (fields s) rest) as Hno
      by (intros rest Hset; by apply (runtime_match_complete s rest)).
    destruct (fields s) as [|w ws] eqn:Hf.
    + apply fields_nil_inv in Hf. rewrite <- (str_app_nil s), strip_spaces; [|done|by intros rest (? & ? & ?)].
      change (strip "") with "". rewrite str_app_nil. split; [|done].
      rewrite <- (str_app_nil s). by apply fields_spaces.
    + apply next_word in Hf as (u & r & -> & Hu & Su & Hw & Hr & <-); [|done].
      assert (String.length u ≠ 0) by (by destruct u).
      destruct (IH (String.length r)) with r as [Hfr Hsr]; [rewrite !str_length_app; lia|done|done|].
      rewrite strip_spaces, strip_word; [|by apply is_word_spec|done|by rewrite fields_word].
      rewrite fields_spaces, fields_word, Hfr, drop_runtime_keep by done.
      split; [done|]. by apply starts_space_not, spaces_start.
Qed.

(** Of a command line that starts with a word, that word stays. *)
Lemma fields_strip_command w r :
  is_word w = true → starts_with non_space r = false →
  fields (strip (w +:+ r)) = w :: drop_runtime (fields r).
Proof.
  intros Hw Hr. destruct (fields_strip r Hr) as [Hf Hs].
  rewrite strip_word by (by apply is_word_spec). by rewrite fields_word, Hf.
Qed.

Lemma fields_strip_text s :
  starts_with non_space s = true →
  fields (strip s) = match fields s with w :: ws => w :: drop_runtime ws | [] => [] end.
Proof.
  intros Hs. destruct (split_word s) as (u & w & r & -> & Hu & Hw & Hr & Hwr & _).
  assert (u = "") as ->.
  { destruct (decide (u = "")) as [|Hne]; [done|]. apply (spaces_start _ (w +:+ r)) in Hu; [|done].
    apply starts_space_not in Hu. congruence. }
  rewrite str_nil_app in *. assert (w ≠ "") as Hne by (intros E; rewrite E, (Hwr E) in Hs; done).
  rewrite fields_strip_command, fields_word by (by try apply is_word_spec). done.
Qed.

(** ** Words of the pieces *)


(** The characters of label keys and values, as the Kubernetes syntax of
    labels has it: no space, no separator, no template sign. *)
Definition label_char (a : ascii) : bool :=
  non_space a && negb (bool_decide (a = "$"%char)) && negb (bool_decide (a = ","%char)).
Record plain_labels (cluster : string) (labels : gmap string string) : Prop := {
  plain_cluster : all_chars label_char cluster = true;
  plain_label k v : labels !! k = Some v → all_chars label_char k = true ∧ all_chars label_char v = true;
}.

Lemma all_chars_impl (p q : ascii → bool) s :
  (∀ a, p a = true → q a = true) → all_chars p s = true → all_chars q s = true.
Proof. intros H. induction s as [|a s IH]; [done|]. cbn. rewrite !andb_true_iff. naive_solver. Qed.

Lemma no_char c s : all_chars (λ a, negb (bool_decide (a = c))) s = true ↔ str_has_char c s = false.
Proof.
  induction s as [|a s IH]; [done|]. cbn. rewrite andb_true_iff, orb_false_iff, negb_true_iff. by rewrite IH.
Qed.

Lemma str_split_nonempty c s : str_split c s ≠ [].
Proof. destruct s; [done|]. cbn. case_bool_decide; [done|]. by destruct (str_split c s). Qed.

Lemma str_split_last c s t :
  str_has_char c t = false → str_split c (s +:+ String c t) = str_split c s ++ [t].
Proof.
  intros Ht. induction s as [|a s IH].
  - rewrite str_nil_app. cbn. rewrite bool_decide_true by done. by rewrite str_split_no_char.
  - rewrite str_cons_app. cbn. rewrite IH. case_bool_decide; [done|].
    pose proof (str_split_nonempty c s). by destruct (str_split c s).
Qed.

Lemma labels_step_chars (p : ascii → bool) acc l :
  p ","%char = true → p "="%char = true → all_chars p acc = true →
  (∀ k v, (k, v) ∈ l → all_chars p k = true ∧ all_chars p v = true) →
  all_chars p (foldl labels_step acc l) = true.
Proof.
  intros Hc He. revert acc. induction l as [|[k v] l IH]; intros acc Hacc Hl; [done|]. cbn [foldl].
  destruct (Hl k v) as [Hk Hv]; [left|]. apply IH; [|intros; apply Hl; by right].
  unfold labels_step. cbn [fst snd]. rewrite !all_chars_app. cbn. by rewrite Hacc, Hc, He, Hk, Hv.
Qed.

Lemma labels_step_split acc l :
  (∀ k v, (k, v) ∈ l → str_has_char "," k = false ∧ str_has_char "," v = false) →
  str_split "," (foldl labels_step acc l) = str_split "," acc ++ ((λ kv, kv.1 +:+ "=" +:+ kv.2) <$> l).
Proof.
  revert acc. induction l as [|[k v] l IH]; intros acc Hl; [by rewrite app_nil_r|]. cbn [foldl].
  destruct (Hl k v) as [Hk Hv]; [left|]. rewrite IH by (intros; apply Hl; by right).
  unfold labels_step. cbn [fst snd]. change ("," +:+ ?x) with (String "," x).
  rewrite str_split_last; [by rewrite <- app_assoc|].
  rewrite !str_has_char_app, Hk, Hv. done.
Qed.

Section labels.
Context {RT : GoRuntime} (cluster : string) (labels : gmap string string).
Context (Hplain : plain_labels cluster labels).

Lemma format_labels_chars (p : ascii → bool) :
  (∀ a, label_char a = true → p a = true) → p ","%char = true →
  all_chars p (format_labels cluster labels) = true.
Proof.
  intros Hp Hc. destruct Hplain as [Hcl Hl]. unfold format_labels.
  assert (∀ a, label_char a || bool_decide (a = ","%char) = true → p a = true) as Hp'.
  { intros a. rewrite orb_true_iff, bool_decide_eq_true. intros [?| ->]; auto. }
  apply labels_step_chars; [done|by apply Hp| |].
  - rewrite !all_chars_app, !andb_true_iff.
    split_and!; [| |by apply (all_chars_impl label_char)];
      (eapply all_chars_impl; [exact Hp'|vm_compute; reflexivity]).
  - intros k v [Hk Hv]%elem_of_range_map%Hl. split; by apply (all_chars_impl label_char).
Qed.

Lemma labels_no_comma k v :
  (k, v) ∈ range_map 50 labels → str_has_char "," k = false ∧ str_has_char "," v = false.
Proof.
  intros [Hk Hv]%elem_of_range_map%(plain_label _ _ Hplain). rewrite <- !no_char.
  split; (eapply all_chars_impl; [|eassumption]); unfold label_char; intros a; rewrite !andb_true_iff; tauto.
Qed.

(** The label argument lists the two fixed labels and those of the claim. *)
Lemma format_labels_split :
  str_split "," (format_labels cluster labels) =
  defaultNodeLabel :: ("ack.aliyun.com=" +:+ cluster) ::
  ((λ kv, kv.1 +:+ "=" +:+ kv.2) <$> range_map 50 labels).
Proof.
  unfold format_labels. rewrite labels_step_split by exact labels_no_comma.
  change (",ack.aliyun.com=" +:+ cluster) with (String "," ("ack.aliyun.com=" +:+ cluster)).
  rewrite str_split_last; [done|]. apply no_char. rewrite all_chars_app.
  destruct Hplain as [Hcl _]. rewrite (all_chars_impl label_char _ cluster); [done| |done].
  intros a. unfold label_char. rewrite !andb_true_iff. tauto.
Qed.

(** It is one word and no template. *)
Lemma format_labels_word : is_word (format_labels cluster labels) = true.
Proof.
  apply is_word_spec. split.
  - intros E. apply (f_equal (str_split ",")) in E. by rewrite format_labels_split in E.
  - apply format_labels_chars; [|done]. intros a. unfold label_char. rewrite !andb_true_iff. tauto.
Qed.

Lemma format_labels_plain : str_has_char "$" (format_labels cluster labels) = false.
Proof.
  apply no_char, format_labels_chars; [|done]. intros a. unfold label_char. rewrite !andb_true_iff. tauto.
Qed.
End labels.

(** ** The words of the script *)

Definition CRLF : string := String "013" (String "010" "").
Definition unregistered : string := "karpenter.sh/unregistered:NoExecute".

Definition base_words {RT : GoRuntime} (cluster text : string) (labels : gmap string string)
    (kc : KubeletConfiguration) : list string :=
  relabel (format_labels cluster labels) (fields (ReplaceAll text CRLF "")) ++
  ["--node-config"; convertNodeClassKubeletConfigToACKNodeConfig kc; "--taints"; unregistered].

(** The runtime is settled on the words after the command. *)
Definition settle_runtime (ws : list string) (r : error + (string * string)) : list string :=
  match r, ws with
  | inr (runtime, version), w :: ws' =>
      w :: drop_runtime ws' ++ ["--runtime"; runtime; "--runtime-version"; version]
  | _, _ => ws
  end.
Definition plain_runtime (r : error + (string * string)) : Prop :=
  match r with inl _ => True | inr (runtime, version) => is_word runtime = true ∧ is_word version = true end.

Lemma fields_ReplaceAllString_labels {RT : GoRuntime} cluster labels s :
  plain_labels cluster labels →
  fields (ReplaceAllString labels_pattern s ("--labels " +:+ format_labels cluster labels)) =
  relabel (format_labels cluster labels) (fields s).
Proof.
  intros Hplain. rewrite <- fields_relabel by (by apply format_labels_word). f_equal.
  unfold ReplaceAllString. apply replace_ext. intros m. apply expand_plain.
  rewrite str_has_char_app, format_labels_plain by done. done.
Qed.

Lemma node_config_word kc : is_word (convertNodeClassKubeletConfigToACKNodeConfig kc) = true.
Proof. by apply Encode_is_word. Qed.

Lemma fields_base_command {RT : GoRuntime} cluster text labels kc :
  plain_labels cluster labels →
  fields (base_command cluster text labels kc) = base_words cluster text labels kc.
Proof.
  intros Hplain. unfold base_command, base_words. rewrite fields_app by done.
  rewrite fields_ReplaceAllString_labels by done. f_equal.
  change (taint_ToString UnregisteredNoExecuteTaint) with unregistered.
  rewrite <- (str_app_nil unregistered).
  exact (fields_option "--node-config" _ (" --taints " +:+ unregistered +:+ "")
    eq_refl (node_config_word kc) eq_refl).
Qed.

Lemma starts_base_command {RT : GoRuntime} cluster text labels kc :
  starts_with non_space (ReplaceAll text CRLF "") = true →
  starts_with non_space (base_command cluster text labels kc) = true.
Proof.
  unfold base_command, ReplaceAllString. fold CRLF. destruct (ReplaceAll text CRLF "") as [|a s]; [done|].
  intros Ha. unfold replace. cbn [replace_skip]. by destruct (match_here _ _) as [[m r]|].
Qed.

Lemma fields_with_runtime command r :
  starts_with non_space command = true → plain_runtime r →
  fields (with_runtime command r) = settle_runtime (fields command) r.
Proof.
  intros Hs Hr. destruct r as [e|[runtime version]]; [done|]. destruct Hr as [Hrt Hv].
  cbn [with_runtime settle_runtime]. rewrite fields_app by done.
  change (ReplaceAllString runtime_pattern command "") with (strip command).
  rewrite fields_strip_text by done.
  assert (fields (" --runtime " +:+ runtime +:+ " --runtime-version " +:+ version) =
          ["--runtime"; runtime; "--runtime-version"; version]) as ->.
  { etransitivity; [exact (fields_option "--runtime" runtime (" --runtime-version " +:+ version) eq_refl Hrt eq_refl)|].
    do 2 f_equal. rewrite <- (str_app_nil version) at 1.
    exact (fields_option "--runtime-version" version "" eq_refl Hv eq_refl). }
  destruct (fields command) as [|w ws] eqn:Hf; [|done].
  apply fields_nil_inv in Hf. exfalso. destruct command as [|a s]; [done|]. cbn in Hf, Hs.
  apply andb_true_iff in Hf as [Hf _]. unfold non_space in Hs. by rewrite Hf in Hs.
Qed.

(** ** The node pool whose runtime is used *)

(** The fields the order looks at are there. *)
Definition described (np : Nodepool) (d : bool) (h : Z) : Prop :=
  np_NodepoolInfo np = Some (MkInfo (Some d)) ∧ np_Status np = Some (MkStatus (Some h)).

Lemma nodepool_less_described a b da ha db hb :
  described a da ha → described b db hb →
  nodepool_less a b = (da && negb db) || (Bool.eqb da db && (hb <? ha)%Z).
Proof.
  intros [Ia Sa] [Ib Sb]. unfold nodepool_less. rewrite Ia, Ib, Sa, Sb. by destruct da, db.
Qed.

Lemma nodepool_less_orders l : (∀ np, np ∈ l → ∃ d h, described np d h) → orders nodepool_less l.
Proof.
  intros Hl. constructor.
  - intros a b (da & ha & Ha)%Hl (db & hb & Hb)%Hl.
    rewrite (nodepool_less_described a b da ha db hb), (nodepool_less_described b a db hb da ha) by done.
    destruct da, db; cbn; try done; rewrite Z.ltb_lt, Z.ltb_ge; lia.
  - intros a b c (da & ha & Ha)%Hl (db & hb & Hb)%Hl (dc & hc & Hc)%Hl.
    rewrite (nodepool_less_described a b da ha db hb), (nodepool_less_described b c db hb dc hc),
      (nodepool_less_described a c da ha dc hc) by done.
    destruct da, db, dc; cbn; try done; rewrite !Z.ltb_ge; lia.
Qed.

(** The pool whose runtime is used: one of those there are and, when they all
    carry the fields that are compared, a default pool if there is one, than
    which no other that is as much a default has more healthy nodes. *)
Definition chosen (pools : list Nodepool) (np : Nodepool) : Prop :=
  np ∈ pools ∧
  ((∀ np', np' ∈ pools → ∃ d h, described np' d h) →
   ∃ d h, described np d h ∧
     ∀ np' d' h', np' ∈ pools → described np' d' h' → (d' = true → d = true) ∧ (d' = d → (h' ≤ h)%Z)).
Lemma sort_slice_chosen {RT : GoRuntime} pools np ts : sort_slice nodepool_less pools = np :: ts → chosen pools np.
Proof.
  intros Hs. split.
  { assert (pools ≡ₚ np :: ts) as -> by (by rewrite <- Hs, sort_slice_perm). by left. }
  intros Hl. destruct (sort_slice_head _ _ _ _ (nodepool_less_orders pools Hl) Hs) as [Hin Hleast].
  destruct (Hl np Hin) as (d & h & Hd). exists d, h. split; [done|]. intros np' d' h' Hin' Hd'.
  specialize (Hleast np' Hin'). rewrite (nodepool_less_described np' np d' h' d h) in Hleast by done.
  destruct d', d; cbn in Hleast; try done; apply Z.ltb_ge in Hleast; (split; [done|]); intros _; lia.
Qed.

Section properties.
Context {RT : GoRuntime} {W : Type} `{!HasClock W, !AckApi W, !MetadataDecoder}.
Notation S' := (St DefaultProvider W).

(** What a read of the runtime finds: that of the chosen pool, unless the service
    fails, there is no pool, or the chosen one does not tell its runtime. *)
Definition runtime_read (s s' : S') (r : error + (string * string)) : Prop :=
  prov s' = prov s ∧ ∃ answer, DescribeClusterNodePools (clusterID (prov s)) (env s) = (answer, env s') ∧
  match answer with
  | Ok (Some (np0 :: pools)) =>
      ∃ np, chosen (np0 :: pools) np ∧
      match np_KubernetesConfig np with
      | Some (MkKubernetesConfig (Some runtime) (Some version)) => r = inr (runtime, version)
      | _ => ∃ e, r = inl e
      end
  | Ok _ | Err _ => ∃ e, r = inl e
  | Panic => False
  end.

(** Where the script comes from: the cache, or the service, whose answer is
    then cached. *)
Definition script_read (s s1 : S') (text : string) : Prop :=
  let p := prov s in
  (cache_get (clock (env s)) (clusterID p) (ack_cache p) = Some text ∧ s1 = s) ∨
  (cache_get (clock (env s)) (clusterID p) (ack_cache p) = None ∧ text ≠ "" ∧
   DescribeClusterAttachScripts (clusterID p) true (env s) = (Ok (Some (Some text)), env s1) ∧
   prov s1 = MkProvider (clusterID p) (clusterCNI p)
               (cache_set_default (clock (env s1)) (clusterID p) text (ack_cache p))).

Lemma getRuntime_read (s s' : S') r :
  attempt getClusterAttachRuntimeConfiguration s = (Ok r, s') → runtime_read s s' r.
Proof.
  unfold attempt, runtime_read, getClusterAttachRuntimeConfiguration, get_prov, gets, mbind, M_bind.
  destruct (call _ s) as [o s1] eqn:Hc. apply call_prov in Hc as [Hp Hd]. intros Hrun.
  destruct o as [[pools|]|e|]; cbn in Hrun; try (injection Hrun as <- <-; split; [done|]; eexists; split; [exact Hd|by eexists]); [|done].
  destruct (sort_slice nodepool_less pools) as [|np ts] eqn:Hs.
  - injection Hrun as <- <-. split; [done|]. exists (Ok (Some [])). split; [|by eexists].
    assert (pools = []) as <- by (apply Permutation_nil_r; by rewrite <- Hs, sort_slice_perm). done.
  - assert (prov s' = prov s ∧ env s' = env s1) as [-> ->]
      by (destruct (np_KubernetesConfig np) as [[[?|] [?|]]|]; by injection Hrun as <- <-).
    split; [done|]. eexists. split; [exact Hd|]. apply sort_slice_chosen in Hs.
    destruct pools as [|np0 pools]; [by destruct Hs as [?%elem_of_nil _]|]. exists np. split; [done|].
    destruct (np_KubernetesConfig np) as [[[rt|] [v|]]|]; injection Hrun as <- _; by try eexists.
Qed.

Lemma resolveUserData_run text labels kc (s s' : S') data :
  resolveUserData text labels kc s = (Ok data, s') →
  ∃ r, runtime_read s s' r ∧
  data = EncodeToString (bash_header +:+ with_runtime (base_command (clusterID (prov s)) text labels kc) r).
Proof.
  unfold resolveUserData. rewrite M_bind_Ok. intros (p & s1 & [= <- <-] & Hrun).
  apply M_bind_Ok in Hrun as (r & s2 & Hr & Hrun). injection Hrun as <- <-.
  exists r. split; [by apply getRuntime_read|done].
Qed.

Lemma script_words text labels kc (s : S') r :
  plain_labels (clusterID (prov s)) labels → plain_runtime r →
  starts_with non_space (ReplaceAll text CRLF "") = true →
  fields (bash_header +:+ with_runtime (base_command (clusterID (prov s)) text labels kc) r) =
  "#!/bin/bash" :: settle_runtime (base_words (clusterID (prov s)) text labels kc) r.
Proof.
  intros Hl Hr Ht. unfold bash_header. rewrite str_app_assoc, fields_word by done.
  rewrite fields_spaces by done. rewrite fields_with_runtime by (try done; by apply starts_base_command).
  by rewrite fields_base_command.
Qed.

Lemma GetNodeRegisterScript_run labels kc (s s' : S') data :
  GetNodeRegisterScript labels kc s = (Ok data, s') →
  ∃ text s1 r, script_read s s1 text ∧ runtime_read s1 s' r ∧
  data = EncodeToString (bash_header +:+ with_runtime (base_command (clusterID (prov s)) text labels kc) r).
Proof.
  unfold GetNodeRegisterScript. rewrite M_bind_Ok. intros (p & s1 & [= <- <-] & Hrun).
  apply M_bind_Ok in Hrun as (t & s2 & [= <- <-] & Hrun). unfold script_read.
  destruct (cache_get _ _ _) as [text|] eqn:Hget.
  - apply resolveUserData_run in Hrun as (r & Hr & ->). exists text, s, r. split_and!; [by left|done|done].
  - apply M_bind_Ok in Hrun as (resp & s3 & Hd & Hrun). apply call_Ok in Hd as [Hd Hp3].
    apply M_bind_Ok in Hrun as (body & s4 & Hb & Hrun). destruct resp as [b|]; [|done]. injection Hb as <- <-.
    case_bool_decide as Hne; [done|]. destruct b as [text|]; [|done]. cbn [StringValue ptr_or default] in *.
    apply M_bind_Ok in Hrun as (t' & s5 & [= <- <-] & Hrun). apply M_bind_Ok in Hrun as (u & s6 & [= <- <-] & Hrun).
    apply resolveUserData_run in Hrun as (r & Hr & ->). eexists text, _, r. split_and!; [|exact Hr|done]. by right.
Qed.

(** C16. The user data of a node is the base64 form of a bash script.  The
    cluster's registration command comes from the cache or, on a miss, from the
    service and is then cached; then the node pools are read, and the runtime
    is that of the chosen one, unless the service fails, there is no pool, or
    that one does not tell its runtime.  The words of the script are those of
    the command, with the word after each labels option replaced by the label
    argument, followed by the node configuration and the unregistered taint,
    and with the runtime options after the first word replaced by those of
    the runtime when it could be read; the label argument lists the two fixed
    labels and every label passed by the caller.  It is assumed that the labels
    and the cluster ID have no white space, comma or dollar sign; the words are
    claimed when the command does not start with white space and the
    runtime and its version, if read, are words. *)
Theorem GetNodeRegisterScript_words labels kc (s s' : S') data :
  GetNodeRegisterScript labels kc s = (Ok data, s') → plain_labels (clusterID (prov s)) labels →
  ∃ text s1 r script,
    script_read s s1 text ∧ runtime_read s1 s' r ∧ DecodeString data = Some script ∧
    (starts_with non_space (ReplaceAll text CRLF "") = true → plain_runtime r →
     fields script = "#!/bin/bash" :: settle_runtime (base_words (clusterID (prov s)) text labels kc) r) ∧
    str_split "," (format_labels (clusterID (prov s)) labels) ≡ₚ
      defaultNodeLabel :: ("ack.aliyun.com=" +:+ clusterID (prov s)) ::
      ((λ kv, kv.1 +:+ "=" +:+ kv.2) <$> map_to_list labels).
Proof.
  intros Hrun Hl. apply GetNodeRegisterScript_run in Hrun as (text & s1 & r & Hsrc & Hr & ->).
  eexists text, s1, r, _. split_and!; [done|done|by rewrite Decode_Encode|by intros; apply script_words|].
  rewrite format_labels_split by done. by rewrite range_map_perm.
Qed.

(** The taint option survives the replacement of the runtime options. *)
Lemma node_config_not_option kc : convertNodeClassKubeletConfigToACKNodeConfig kc ≠ "--runtime-version".
Proof. intros E. apply (f_equal (String.get 0)) in E. vm_compute in E. discriminate E. Qed.

Lemma fields_base_tail cluster text labels kc :
  ∃ X, starts_with non_space (base_command cluster text labels kc) = starts_with non_space X ∧
    fields (base_command cluster text labels kc) =
    fields X ++ ["--node-config"; convertNodeClassKubeletConfigToACKNodeConfig kc; "--taints"; unregistered].
Proof.
  unfold base_command. set (X := ReplaceAllString _ _ _). exists X. split.
  - rewrite starts_with_app. by case_bool_decide as HX; [rewrite HX|].
  - rewrite fields_app by done. f_equal. change (taint_ToString UnregisteredNoExecuteTaint) with unregistered.
    rewrite <- (str_app_nil unregistered).
    exact (fields_option "--node-config" _ (" --taints " +:+ unregistered +:+ "")
      eq_refl (node_config_word kc) eq_refl).
Qed.

Lemma with_runtime_tainted cluster text labels kc r :
  ∃ pre post, fields (with_runtime (base_command cluster text labels kc) r) =
    pre ++ ["--taints"; unregistered] ++ post.
Proof.
  destruct (fields_base_tail cluster text labels kc) as (X & Hs & Hf).
  set (command := base_command cluster text labels kc) in *.
  set (cfg := convertNodeClassKubeletConfigToACKNodeConfig kc) in *.
  destruct r as [e|[runtime version]]; cbn [with_runtime].
  { exists (fields X ++ ["--node-config"; cfg]), []. rewrite Hf. by rewrite <- app_assoc. }
  rewrite fields_app by done. change (ReplaceAllString runtime_pattern command "") with (strip command).
  assert (∃ pre, fields (strip command) = pre ++ ["--taints"; unregistered]) as [pre ->];
    [|eexists pre, _; by rewrite <- app_assoc].
  pose proof (node_config_not_option kc) as Hcfg. fold cfg in Hcfg.
  destruct (starts_with non_space command) eqn:Hc.
  - rewrite fields_strip_text, Hf by done. destruct (fields X) as [|w ws] eqn:HX.
    { apply fields_nil_inv in HX. destruct X as [|a X]; [done|]. cbn in HX, Hs. unfold non_space in Hs.
      by apply andb_true_iff in HX as [HX _]; rewrite HX in Hs. }
    destruct (drop_runtime_tail ws "--node-config" cfg "--taints" unregistered Hcfg) as [pre Hpre]; [done|].
    exists (w :: pre). cbn [app]. by rewrite Hpre.
  - destruct (fields_strip command Hc) as [-> _]. rewrite Hf. by apply drop_runtime_tail.
Qed.
End properties.

(** ** The launched node

    The instance provider run with this provider in its environment, beside
    the other services it calls. *)
Section launched.
Context {RT : GoRuntime} {W : Type} `{!HasClock W, !AckApi W, !MetadataDecoder}.
Notation S' := (St DefaultProvider W).
Context `{!HasClock S', !instance.EcsInstances S', !instance.LaunchLimiter S', !instance.DiskResolver S'}.

(** The labels a NodeClaim launched with this capacity type registers with. *)
Definition launch_labels (nodeClaim : NodeClaim) (capacityType : string) : gmap string string :=
  lo_assign (claim_Labels nodeClaim) {[CapacityTypeLabelKey := capacityType]}.

Lemma getProvisioningGroup_user_data nodeClass nodeClaim its zonal ct tags
    (s s' : St instance.DefaultProvider S') req :
  instance.getProvisioningGroup nodeClass nodeClaim its zonal ct tags s = (Ok req, s') →
  ∃ kept w, instance.FilterInstanceTypesBySystemDisk nodeClass its (env s) = (Ok kept, w) ∧
    GetNodeRegisterScript (launch_labels nodeClaim ct)
      (instance.resolveKubeletConfiguration nodeClass) w = (Ok (instance.pg_UserData req), env s').
Proof.
  unfold instance.getProvisioningGroup. rewrite M_bind_Ok. intros (kept & s1 & Hdisk & Hrun).
  apply call_Ok in Hdisk as [Hdisk _]. destruct kept as [|it0 rest]; [done|].
  apply M_bind_Ok in Hrun as (configs & s2 & Hconfigs & Hrun). destruct configs; [done|].
  injection Hconfigs as _ <-.
  apply M_bind_Ok in Hrun as (script & s3 & Hscript & Hrun). apply call_Ok in Hscript as [Hscript _].
  destruct (_ !! _) as [image|]; [|done]. injection Hrun as <- <-. cbn [instance.pg_UserData].
  by exists (it0 :: rest), (env s1).
Qed.

(** C15. The user data with which an instance is launched decodes to a bash
    script that, whatever registration command the cluster service hands out and
    whatever runtime is chosen, starts the node with karpenter's unregistered
    taint.  The script is made in this launch, after the instance types were
    filtered by their disks, from the registration command read from the cache or
    the service and the runtime then read from the node pools; and, if the
    labels and the cluster ID have no white space, comma or dollar sign, the command
    does not start with white space, and the runtime and its version are words, its
    words are those of that command with the word after each labels option replaced by
    the label argument, which lists every label of the NodeClaim with the
    capacity type of the launch, then the node configuration and the taint, with
    the runtime options replaced. *)
Theorem launched_node_registers nodeClass nodeClaim its zonal ct tags
    (s s' : St instance.DefaultProvider S') req :
  instance.getProvisioningGroup nodeClass nodeClaim its zonal ct tags s = (Ok req, s') →
  ∃ kept w text w1 r script pre post,
    instance.FilterInstanceTypesBySystemDisk nodeClass its (env s) = (Ok kept, w) ∧
    script_read w w1 text ∧ runtime_read w1 (env s') r ∧
    DecodeString (instance.pg_UserData req) = Some script ∧
    fields script = "#!/bin/bash" :: pre ++ ["--taints"; unregistered] ++ post ∧
    (plain_labels (clusterID (prov w)) (launch_labels nodeClaim ct) →
     plain_runtime r → starts_with non_space (ReplaceAll text CRLF "") = true →
     fields script = "#!/bin/bash" ::
       settle_runtime (base_words (clusterID (prov w)) text (launch_labels nodeClaim ct)
                         (instance.resolveKubeletConfiguration nodeClass)) r) ∧
    (plain_labels (clusterID (prov w)) (launch_labels nodeClaim ct) →
     ∀ k v, k = CapacityTypeLabelKey ∧ v = ct ∨
            k ≠ CapacityTypeLabelKey ∧ claim_Labels nodeClaim !! k = Some v →
     k +:+ "=" +:+ v ∈ str_split "," (format_labels (clusterID (prov w)) (launch_labels nodeClaim ct))).
Proof.
  intros (kept & w & Hdisk & Hrun)%getProvisioningGroup_user_data.
  apply GetNodeRegisterScript_run in Hrun as (text & w1 & r & Hsrc & Hr & ->).
  set (labels := launch_labels nodeClaim ct). set (kc := instance.resolveKubeletConfiguration nodeClass).
  destruct (with_runtime_tainted (clusterID (prov w)) text labels kc r) as (pre & post & Hf).
  eexists kept, w, text, w1, r, _, pre, post. split_and!; [done|done|done|by rewrite Decode_Encode| | |].
  - unfold bash_header. by rewrite str_app_assoc, fields_word, fields_spaces, Hf.
  - intros. by apply script_words.
  - intros Hl k v Hkv. rewrite format_labels_split by done. do 2 right.
    apply list_elem_of_fmap. exists (k, v). split; [done|]. apply elem_of_range_map.
    unfold labels, launch_labels. rewrite lookup_lo_assign. destruct Hkv as [[-> ->]|[Hk Hv]].
    + by rewrite lookup_singleton_eq.
    + by rewrite lookup_singleton_ne by congruence.
Qed.
End launched.

(** ** The network plugin *)

Section runtime.
Context {RT : GoRuntime} {W : Type} `{!HasClock W, !AckApi W, !MetadataDecoder}.
Notation S' := (St DefaultProvider W).

(** The network plugin, once read, is remembered: later calls answer the
    same without the service; a failed call changes nothing in the provider, and
    an answer is what the decoder reads from the service's metadata. *)
Theorem GetClusterCNI_remembers (s s' : S') o :
  GetClusterCNI s = (o, s') →
  match o with
  | Ok cni =>
      (clusterCNI (prov s) = cni ∧ s' = s ∨
       clusterCNI (prov s) = "" ∧ ∃ text,
         DescribeClusterDetail (clusterID (prov s)) (env s) = (Ok (Some text), env s') ∧
         unmarshal_network text = inr cni) ∧
      (cni ≠ "" → ∀ w, GetClusterCNI (MkSt (prov s') w) = (Ok cni, MkSt (prov s') w))
  | _ => prov s' = prov s
  end.
Proof.
  unfold GetClusterCNI at 1. unfold get_prov, gets, mbind, M_bind, wrap.
  case_bool_decide as Hc; cbn [negb].
  - destruct (call _ s) as [o1 s1] eqn:Hcall. apply call_prov in Hcall as [Hp Hd].
    destruct o1 as [[text|]| |]; try (by intros [= <- <-]).
    destruct (unmarshal_network text) as [e|network] eqn:Hu; [by intros [= <- <-]|].
    intros [= <- <-]. split; [right; split; [done|]; by exists text|].
    intros Hne w. unfold GetClusterCNI, get_prov, gets, mbind, M_bind. cbn [prov clusterCNI].
    by rewrite bool_decide_false.
  - intros [= <- <-]. split; [by left|]. intros _ w.
    unfold GetClusterCNI, get_prov, gets, mbind, M_bind. cbn [prov]. by rewrite bool_decide_false.
Qed.
End runtime.
End ack.

(** ** A concrete cluster *)

Module AckExample.
Import ack.

(** The environment is the clock. *)
Record world := At { instant : Z }.
#[local] Instance ack_clock : HasClock world := instant.
#[local] Instance metadata : MetadataDecoder := λ text,
  if bool_decide (text = "terway") then inr instancetype.ClusterCNITypeTerway else inl (ErrorString "invalid character").

Definition pool (default_ : bool) (healthy : Z) (runtime version : string) : Nodepool :=
  MkNodepool (Some (MkInfo (Some default_))) (Some (ack.MkStatus (Some healthy)))
    (Some (MkKubernetesConfig (Some runtime) (Some version))).
Definition pools : list Nodepool :=
  [pool false 9 "docker" "19.03"; pool true 1 "containerd" "1.6.28"; pool true 3 "containerd" "1.6.34"].
Definition attach : string :=
  "curl http://aliacs-k8s/attach.sh | bash -s -- --token t0 --labels a=b --runtime docker --runtime-version 19.03 --cluster c1"
  +:+ CRLF.
#[local] Instance cluster : AckApi world := {|
  DescribeClusterDetail := λ _ w, (Ok (Some "terway"), w);
  DescribeClusterNodePools := λ _ w, (Ok (Some pools), w);
  DescribeClusterAttachScripts := λ _ _ w, (Ok (Some (Some attach)), w);
|}.

Definition fresh : DefaultProvider := NewDefaultProvider "c1" (cache_new Minute).
Definition start : St DefaultProvider world := MkSt fresh (At Minute).
Definition labels : gmap string string := {["team" := "infra"; NodePoolLabelKey := "default"]}.
Definition kubelet : KubeletConfiguration := MkKubelet [] (Some 110%Z) None ∅ ∅ ∅ ∅ ∅ None None None None.

Example node_config_example :
  convertNodeClassKubeletConfigToACKNodeConfig kubelet = "eyJrdWJlbGV0X2NvbmZpZyI6eyJtYXhQb2RzIjoxMTB9fQ==".
Proof. vm_compute. reflexivity. Qed.

Definition registered : result string * St DefaultProvider world := GetNodeRegisterScript labels kubelet start.
Definition user_data : string := match registered.1 with Ok d => d | _ => "" end.

Example user_data_example :
  (fields <$> DecodeString user_data) = Some
    ["#!/bin/bash"; "curl"; "http://aliacs-k8s/attach.sh"; "|"; "bash"; "-s"; "--"; "--token"; "t0"; "--labels";
     format_labels "c1" labels; "--cluster"; "c1"; "--node-config";
     "eyJrdWJlbGV0X2NvbmZpZyI6eyJtYXhQb2RzIjoxMTB9fQ=="; "--taints"; "karpenter.sh/unregistered:NoExecute";
     "--runtime"; "containerd"; "--runtime-version"; "1.6.34"].
Proof. vm_compute. reflexivity. Qed.

Lemma registered_ok : registered = (Ok user_data, registered.2).
Proof. vm_compute. reflexivity. Qed.

Definition all_plain (m : gmap string string) : bool :=
  forallb (λ kv, all_chars label_char kv.1 && all_chars label_char kv.2) (map_to_list m).
Lemma plain_labels_check c m : all_chars label_char c = true → all_plain m = true → plain_labels c m.
Proof.
  unfold all_plain. rewrite forallb_forall. intros Hc Hm. constructor; [done|].
  intros k v Hk%elem_of_map_to_list%list_elem_of_In. by apply Hm, andb_true_iff in Hk.
Qed.

Lemma pools_described np : np ∈ pools → ∃ d h, described np d h.
Proof.
  unfold pools. rewrite !elem_of_cons, elem_of_nil.
  intros [-> |[-> |[-> |[]]]]; eexists _, _; split; reflexivity.
Qed.

(** All conditions hold here, and so do the words. *)
Lemma GetNodeRegisterScript_words_witness :
  ∃ script, DecodeString user_data = Some script ∧
    fields script = "#!/bin/bash" :: settle_runtime (base_words "c1" attach labels kubelet) (inr ("containerd", "1.6.34")).
Proof.
  assert (plain_labels "c1" labels) as Hl by (apply plain_labels_check; vm_compute; reflexivity).
  destruct (GetNodeRegisterScript_words labels kubelet start registered.2 user_data registered_ok Hl)
    as (text & s1 & r & script & Hsrc & Hr & Hd & Hw & _).
  exists script. split; [exact Hd|].
  assert (text = attach) as ->.
  { destruct Hsrc as [[Hhit _]|(_ & _ & Hsrv & _)]; [vm_compute in Hhit; discriminate Hhit|].
    apply (f_equal fst) in Hsrv. cbn [fst] in Hsrv. injection Hsrv as <-. reflexivity. }
  assert (r = inr ("containerd", "1.6.34")) as ->.
  { destruct Hr as (_ & answer & Hans & Hr). apply (f_equal fst) in Hans. cbn [fst] in Hans. subst answer.
    destruct Hr as (np & [Hin Hbest] & Hr).
    destruct (Hbest pools_described) as (d & h & Hdesc & Hmost).
    destruct (Hmost (pool true 3 "containerd" "1.6.34") true 3%Z) as [Hdef Hheal];
      [by repeat constructor|split; reflexivity|].
    apply elem_of_cons in Hin as [->|[->|[->|[]%elem_of_nil]%elem_of_cons]%elem_of_cons];
      destruct Hdesc as [[= <-] [= <-]].
    - discriminate (Hdef eq_refl).
    - specialize (Hheal eq_refl). lia.
    - exact Hr. }
  apply Hw; [vm_compute; reflexivity|split; vm_compute; reflexivity].
Defined.

Definition asked : result string * St DefaultProvider world := GetClusterCNI start.
Lemma GetClusterCNI_remembers_witness :
  ∀ w, GetClusterCNI (MkSt (prov asked.2) w) = (Ok instancetype.ClusterCNITypeTerway, MkSt (prov asked.2) w).
Proof.
  assert (GetClusterCNI start = (Ok instancetype.ClusterCNITypeTerway, asked.2)) as H by (vm_compute; reflexivity).
  destruct (GetClusterCNI_remembers start asked.2 (Ok instancetype.ClusterCNITypeTerway) H) as [_ Hlater].
  apply Hlater. vm_compute. discriminate.
Defined.

(** The instance provider with this cluster. *)
#[local] Program Instance every_disk : instance.DiskResolver (St DefaultProvider world) :=
  {| instance.FilterInstanceTypesBySystemDisk _ its w := (Ok its, w) |}.
Next Obligation. intros nodeClass its w l w' [= <- _] it H. exact H. Qed.

Definition requested : result instance.ProvisioningRequest * St instance.DefaultProvider (St DefaultProvider world) :=
  instance.getProvisioningGroup LaunchExample.class SelectExample.any_claim LaunchExample.its
    SelectExample.zonal CapacityTypeSpot ∅ (MkSt LaunchExample.fresh start).

Lemma launched_node_registers_witness :
  ∃ req script pre post, requested.1 = Ok req ∧ DecodeString (instance.pg_UserData req) = Some script ∧
    fields script = "#!/bin/bash" :: pre ++ ["--taints"; unregistered] ++ post.
Proof.
  assert (∃ req, requested = (Ok req, requested.2)) as [req Hreq] by (eexists; vm_compute; reflexivity).
  destruct (launched_node_registers LaunchExample.class SelectExample.any_claim LaunchExample.its
    SelectExample.zonal CapacityTypeSpot ∅ (MkSt LaunchExample.fresh start) requested.2 req Hreq)
    as (kept & w & text & w1 & r & script & pre & post & _ & _ & _ & Hd & Hf & _).
  exists req, script, pre, post. split; [by rewrite Hreq|]. split; [exact Hd|exact Hf].
Defined.
End AckExample.
