(* ===== verification/Staleness.v ===== *)
(** * How long the providers remember

    A small logic for invariants of a provider's state that may depend on the
    clock ([keeps]), and with it the invariants of the providers: what they
    cache carries the lifetime the operator gave the cache, is never kept longer
    than that, and is filed under its own name.  Each operation is shown to keep
    its provider's invariant whatever the services answer, errors and panics
    included; of the services it is only relied on that time does not go back. *)

From S2P Require Import Prelude Effects Floats GoCache UnavailableOfferings Labels Scheduling.
From S2P Require Import CloudTypes Apis Conditions Utils Version Pricing VSwitchProvider.
From S2P Require Import SecurityGroupProvider InstanceTypeCalc InstanceTypeProvider InstanceSelect.
From S2P Require Import InstanceProvider ImageFamily KubeApi CloudProvider Ack.

(** ** Invariants that depend on the clock *)

(** What holds of a state at an instant still holds of it later. *)
Class Lasting {P} (I : Z → P → Prop) :=
  lasting : ∀ t t' p, (0 ≤ t ≤ t')%Z → I t p → I t' p.

Create HintDb keeps discriminated.

Section timed.
Context {P W : Type} `{HC : !HasClock W}.

(** [E] is what is known of the environment, [T] an instant that has passed. *)
Definition holds (E : W → Prop) (I : Z → P → Prop) (T : Z) (s : St P W) : Prop :=
  (0 ≤ T ≤ clock (env s))%Z ∧ E (env s) ∧ I (clock (env s)) (prov s).
Definition keeps {A} (E : W → Prop) (I : Z → P → Prop) (T : Z) (m : M (St P W) A) : Prop :=
  ∀ s, holds E I T s → holds E I T (m s).2.

(** A call that takes no negative time and keeps what is known. *)
Definition forward {A} (E : W → Prop) (f : W → result A * W) : Prop :=
  ∀ w, (0 ≤ clock w)%Z → E w → (clock w ≤ clock (f w).2)%Z ∧ E (f w).2.

Context (E : W → Prop) (I : Z → P → Prop) `{HI : !Lasting I}.

Lemma holds_sooner T T' s : (0 ≤ T ≤ T')%Z → holds E I T' s → holds E I T s.
Proof. intros HT (Ht & He & Hi). split_and!; [lia|lia|done|done]. Qed.

Lemma keeps_same {A} T (m : M (St P W) A) : (∀ s, (m s).2 = s) → keeps E I T m.
Proof. intros H s Hs. by rewrite H. Qed.
Lemma keeps_mret {A} T (a : A) : keeps E I T (mret a).
Proof. by apply keeps_same. Qed.
Lemma keeps_fail {A} T e : keeps E I T (fail (A := A) e).
Proof. by apply keeps_same. Qed.
Lemma keeps_lift {A} T (r : result A) : keeps E I T (lift r).
Proof. by apply keeps_same. Qed.
Lemma keeps_bind {A B} T (m : M (St P W) A) (f : A → M (St P W) B) :
  keeps E I T m → (∀ a, keeps E I T (f a)) → keeps E I T (m ≫= f).
Proof.
  intros Hm Hf s Hs. apply Hm in Hs. unfold mbind, M_bind.
  destruct (m s) as [[a|e|] s1]; [|exact Hs..]. by apply Hf.
Qed.
Lemma keeps_attempt {A} T (m : M (St P W) A) : keeps E I T m → keeps E I T (attempt m).
Proof. intros Hm s Hs%Hm. unfold attempt. by destruct (m s) as [[]]. Qed.
Lemma keeps_wrap {A} T msg (m : M (St P W) A) : keeps E I T m → keeps E I T (wrap msg m).
Proof. intros Hm s Hs%Hm. unfold wrap. by destruct (m s) as [[]]. Qed.
Lemma keeps_mapM_ {A} T (f : A → M (St P W) ()) l : (∀ x, keeps E I T (f x)) → keeps E I T (mapM_ f l).
Proof.
  intros Hf. induction l as [|x l IH]; [apply keeps_mret|]. by apply keeps_bind.
Qed.
Lemma keeps_mmapM {A B} T (f : A → M (St P W) B) l : (∀ x, keeps E I T (f x)) → keeps E I T (mmapM f l).
Proof.
  intros Hf. induction l as [|x l IH]; [apply keeps_mret|].
  apply keeps_bind; [done|]. intros y. apply keeps_bind; [done|]. intros ys. apply keeps_mret.
Qed.

(** What is read of the state has the invariant, from then on. *)
Lemma keeps_get {A} T (f : P → M (St P W) A) :
  (∀ T' p, (0 ≤ T')%Z → (T ≤ T')%Z → I T' p → keeps E I T' (f p)) → keeps E I T (get_prov ≫= f).
Proof.
  intros Hf s (Ht & He & Hi). apply (holds_sooner T (clock (env s))); [lia|].
  apply (Hf (clock (env s)) (prov s)); [lia|lia|done|]. split_and!; [lia|lia|done|done].
Qed.
Lemma keeps_now {A} T (f : Z → M (St P W) A) :
  (∀ T', (0 ≤ T')%Z → (T ≤ T')%Z → keeps E I T' (f T')) → keeps E I T (now ≫= f).
Proof.
  intros Hf s (Ht & He & Hi). apply (holds_sooner T (clock (env s))); [lia|].
  apply (Hf (clock (env s))); [lia|lia|]. split_and!; [lia|lia|done|done].
Qed.
Lemma keeps_set T p : I T p → keeps E I T (set_prov p).
Proof. intros Hp s (Ht & He & Hi). split_and!; [lia|cbn; lia|done|]. by apply (lasting T). Qed.
Lemma keeps_call {A} T (f : W → result A * W) : forward E f → keeps E I T (call f).
Proof.
  intros Hf [p w] (Ht & He & Hi). cbn [env prov] in *. destruct (Hf w) as [Hc He']; [lia|done|].
  unfold call. cbn [env prov]. destruct (f w) as [r w']. cbn [snd] in *.
  split_and!; cbn [env prov]; [lia|lia|done|]. apply (lasting (clock w)); [lia|done].
Qed.
End timed.

(** An operation on a part of the state. *)
Definition part {P Q W A} (getp : P → Q) (setp : Q → P → P) (m : M (St Q W) A) : M (St P W) A := λ s,
  let '(r, s') := m (MkSt (getp (prov s)) (env s)) in (r, MkSt (setp (prov s') (prov s)) (env s')).
Lemma keeps_part {P Q W A} `{HC : !HasClock W} (E : W → Prop) (I : Z → P → Prop) (J : Z → Q → Prop)
    (getp : P → Q) (setp : Q → P → P) T (m : M (St Q W) A) :
  (∀ t p, I t p → J t (getp p)) →
  (∀ t t' p q, (0 ≤ t ≤ t')%Z → I t p → J t' q → I t' (setp q p)) →
  (∀ T, keeps E J T m) → keeps E I T (part getp setp m).
Proof.
  intros Hget Hset Hm [p w] (Ht & He & Hi). cbn [env prov] in *.
  destruct (Hm (clock w) (MkSt (getp p) w)) as (Ht' & He' & Hj).
  { split_and!; cbn [env prov]; [lia|lia|done|by apply Hget]. }
  unfold part. cbn [env prov]. destruct (m (MkSt (getp p) w)) as [r [q w']]. cbn [snd env prov] in *.
  split_and!; cbn [env prov]; [lia|lia|done|]. by apply (Hset (clock w)).
Qed.

#[export] Hint Resolve keeps_mret keeps_fail keeps_lift keeps_attempt keeps_wrap : keeps.

(** Brings what was read of the state to the present instant. *)
Ltac keeps_later :=
  repeat match goal with
         | H : ?I ?t ?p |- keeps _ ?I ?T _ =>
             assert_fails (constr_eq t T); apply (lasting t T) in H; [|lia]
         end.

(** Walks through a monadic definition; what remains are the calls and the
    states that are written. *)
Ltac keeps_walk :=
  repeat first
    [ solve [eauto with keeps]
    | match goal with
      | |- ∀ _, _ => intros ?
      | |- Lasting _ => apply _
      | |- keeps _ _ _ (get_prov ≫= _) => apply keeps_get; intros ?T ?p ? ? ?; keeps_later
      | |- keeps _ _ _ (now ≫= _) => apply keeps_now; intros ?T ? ?; keeps_later
      | |- keeps _ _ _ (_ ≫= _) => apply keeps_bind
      | |- keeps _ _ _ (attempt _) => apply keeps_attempt
      | |- keeps _ _ _ (wrap _ _) => apply keeps_wrap
      | |- keeps _ _ _ (set_prov _) => apply keeps_set
      | |- keeps _ _ _ (call _) => apply keeps_call
      | |- keeps _ _ _ (match ?x with _ => _ end) => destruct x eqn:?
      end ].

(** ** Caches *)

(** Every entry expires, at most [ttl] from now. *)
Record fresh_cache {V} (ttl now : Z) (c : cache V) : Prop := {
  fc_default : defaultExpiration c = ttl;
  fc_expires : ∀ k it, items c !! k = Some it → (0 < Expiration it ≤ now + ttl)%Z;
}.
#[export] Instance fresh_cache_lasting {V} ttl : Lasting (fresh_cache (V := V) ttl).
Proof. intros t t' c Ht [Hd He]. split; [done|]. intros k it Hk. specialize (He k it Hk). lia. Qed.

Lemma fresh_new {V} ttl now : (0 < ttl)%Z → fresh_cache ttl now (cache_new (V := V) ttl).
Proof.
  intros Ht. unfold cache_new. split; cbn.
  - by rewrite (proj2 (Z.eqb_neq ttl 0)) by lia.
  - intros k it Hk. by rewrite lookup_empty in Hk.
Qed.
Lemma fresh_set {V} ttl now k (x : V) d c :
  (0 ≤ now)%Z → (0 < ttl)%Z → d = DefaultExpiration ∨ d = ttl →
  fresh_cache ttl now c → fresh_cache ttl now (cache_set now k x d c).
Proof.
  intros Hn Ht Hd [Hdef He]. split; [done|]. unfold cache_set. cbn [items]. rewrite Hdef.
  assert ((if (d =? DefaultExpiration)%Z then ttl else d) = ttl) as ->.
  { destruct Hd as [->| ->]; [done|]. by destruct (ttl =? DefaultExpiration)%Z. }
  rewrite (proj2 (Z.ltb_lt 0 ttl)) by done.
  intros k' it [[-> <-]|[_ Hk]]%lookup_insert_Some; [cbn; lia|by eapply He].
Qed.
Lemma fresh_set_default {V} ttl now k (x : V) c :
  (0 ≤ now)%Z → (0 < ttl)%Z → fresh_cache ttl now c → fresh_cache ttl now (cache_set_default now k x c).
Proof. intros. apply fresh_set; [done|done|by left|done]. Qed.
Lemma fresh_delete {V} ttl now k (c : cache V) : fresh_cache ttl now c → fresh_cache ttl now (cache_delete k c).
Proof. intros [Hd He]. split; [done|]. cbn [items cache_delete]. intros k' it [_ Hk]%lookup_delete_Some. by eapply He. Qed.
Lemma fresh_flush {V} ttl now (c : cache V) : fresh_cache ttl now c → fresh_cache ttl now (cache_flush c).
Proof. intros [Hd He]. split; [done|]. intros k it Hk. cbn in Hk. by rewrite lookup_empty in Hk. Qed.
Lemma fresh_janitor {V} ttl now t (c : cache V) :
  fresh_cache ttl now c → fresh_cache ttl now (cache_delete_expired t c).
Proof. intros [Hd He]. split; [done|]. cbn [items cache_delete_expired]. intros k it [Hk _]%map_lookup_filter_Some. by eapply He. Qed.
Lemma fresh_monitor ttl now key hv cm :
  (0 ≤ now)%Z → (0 < ttl)%Z → fresh_cache ttl now cm → fresh_cache ttl now (HasChanged now key hv cm).2.
Proof.
  intros Hn Ht Hc. unfold HasChanged. destruct (cache_get now key cm).
  - case_bool_decide; [done|]. by apply fresh_set_default.
  - by apply fresh_set_default.
Qed.

(** No reader sees an entry later than that. *)
Lemma fresh_forgets {V} ttl now t k (c : cache V) :
  fresh_cache ttl now c → (now + ttl < t)%Z → cache_get t k c = None.
Proof.
  intros [_ He] Ht. unfold cache_get. destruct (items c !! k) as [it|] eqn:Hk; [|done].
  specialize (He k it Hk). unfold expired. by rewrite (proj2 (Z.ltb_lt _ _)), (proj2 (Z.ltb_lt _ _)) by lia.
Qed.
#[export] Hint Resolve fresh_new fresh_set_default fresh_delete fresh_flush fresh_janitor fresh_monitor : keeps.
#[export] Hint Extern 1 (0 < _)%Z => reflexivity : keeps.

Ltac solve_lasting :=
  let t := fresh in let t' := fresh in let p := fresh in let Ht := fresh in
  intros t t' p Ht; unfold lasting; intros; destruct_and?; split_and?;
  first [done | by apply (lasting t t')].

(** ** The version and the image providers *)

Definition version_inv (t : Z) (p : version.DefaultProvider) : Prop :=
  fresh_cache KubernetesVersionTTL t (version.v_cache p) ∧ fresh_cache (24 * Hour) t (version.v_cm p).
#[export] Instance version_inv_lasting : Lasting version_inv.
Proof. unfold version_inv. solve_lasting. Qed.

Definition image_inv (t : Z) (p : imagefamily.DefaultProvider) : Prop :=
  fresh_cache DefaultTTL t (imagefamily.im_cache p) ∧ version_inv t (imagefamily.versionProvider p).
#[export] Instance image_inv_lasting : Lasting image_inv.
Proof. unfold image_inv. solve_lasting. Qed.

Section images.
Context {RT : GoRuntime} {W : Type} `{HC : !HasClock W} `{IS : !imagefamily.ImageServices W}.
Context `{HI : !imagefamily.ImageHashes} `{DI : !version.Discovery W} `{VH : !version.VersionHash}.
Context (E : W → Prop) (Hversion : forward E version.ServerVersion).
Context (Hmeta : ∀ v, forward E (imagefamily.DescribeKubernetesVersionMetadata v)).
Context (Himages : ∀ id, forward E (imagefamily.DescribeImages id)).

Lemma version_Get_keeps T : keeps E version_inv T version.Get_.
Proof.
  unfold version.Get_. keeps_walk. unfold version_inv in *. destruct_and!.
  match goal with H : HasChanged ?t ?k ?v ?c = (_, ?c') |- _ =>
    assert (c' = (HasChanged t k v c).2) as -> by (by rewrite H) end.
  split; cbn [version.v_cache version.v_cm]; auto with keeps.
Qed.

Lemma on_version_keeps {A} T (m : M (St version.DefaultProvider W) A) :
  (∀ T, keeps E version_inv T m) → keeps E image_inv T (imagefamily.on_version m).
Proof.
  apply (keeps_part E image_inv version_inv imagefamily.versionProvider
    (λ v p, imagefamily.MkProvider (imagefamily.im_cache p) v)).
  - by intros t p [_ H].
  - intros t t' p q Ht [Hc _] Hq. split; [by apply (lasting t)|done].
Qed.
#[local] Hint Resolve version_Get_keeps on_version_keeps : keeps.

Lemma image_List_keeps T n : keeps E image_inv T (imagefamily.List_ n).
Proof.
  assert (∀ T v ts m, keeps E image_inv T (imagefamily.collect_terms v ts m)) as Hterms.
  { intros T0 v ts. revert T0. induction ts as [|t ts IH]; intros T0 m; cbn [imagefamily.collect_terms].
    all: unfold imagefamily.images_of_term, imagefamily.getImagesWithAlias, imagefamily.getImagesWithID.
    all: keeps_walk. }
  unfold imagefamily.List_, imagefamily.GetImages. keeps_walk.
  unfold image_inv in *. destruct_and!. split; cbn [imagefamily.im_cache]; auto with keeps.
Qed.
End images.

(** ** The vSwitch and the security group providers *)

Definition vswitch_inv (t : Z) (p : vswitch.DefaultProvider) : Prop :=
  fresh_cache DefaultTTL t (vswitch.vs_cache p) ∧
  fresh_cache AvailableIPAddressTTL t (vswitch.availableIPAddressCache p).
#[export] Instance vswitch_inv_lasting : Lasting vswitch_inv.
Proof. unfold vswitch_inv. solve_lasting. Qed.

Section vswitches.
Context {RT : GoRuntime} {W : Type} `{HC : !HasClock W} `{VA : !vswitch.VpcApi W} `{TH : !vswitch.TermsHash}.
Context (E : W → Prop) (Hdescribe : ∀ req, forward E (vswitch.DescribeVSwitches req)).

(** While a listing collects, its provider's state goes with the result. *)
Definition collecting_inv (t : Z) (pm : vswitch.DefaultProvider * gmap string vswitch.VpcVSwitch) : Prop :=
  vswitch_inv t pm.1.
#[local] Instance collecting_inv_lasting : Lasting collecting_inv.
Proof. intros t t' pm. unfold collecting_inv. apply lasting. Qed.

Lemma process_keeps T v : keeps E collecting_inv T (vswitch.process v).
Proof.
  intros [[p m] w] (Ht & He & Hc & Ha). unfold vswitch.process. cbn [env prov snd fst] in *.
  split_and!; cbn [env prov snd fst]; [lia|lia|done|]. split; [done|]. apply fresh_set_default; [lia|done|done].
Qed.
#[local] Hint Resolve process_keeps : keeps.

Lemma describeVSwitches_keeps T tags id : keeps E collecting_inv T (vswitch.describeVSwitches tags id).
Proof.
  unfold vswitch.describeVSwitches. generalize 359 1%Z. intros n.
  induction n as [|n IH]; intros page; cbn [vswitch.describe_pages]; keeps_walk.
  apply keeps_mapM_. apply process_keeps.
Qed.

Lemma vswitch_List_keeps T n : keeps E vswitch_inv T (vswitch.List_ n).
Proof.
  intros s Hs. unfold vswitch.List_. destruct (VSwitchSelectorTerms (nc_Spec n)) as [|t0 ts]; [done|].
  destruct (vswitch.hash_terms _) as [h| |]; [|done..].
  destruct (cache_get _ h _); [done|].
  set (loop := mapM_ _ _).
  assert (keeps E collecting_inv T loop) as Hloop.
  { apply keeps_mapM_. intros t. apply keeps_wrap, describeVSwitches_keeps. }
  specialize (Hloop (MkSt (prov s, ∅) (env s)) Hs). destruct (loop _) as [r [[p m] w]].
  destruct Hloop as (Ht & He & Hi). cbn [snd env prov fst] in *. unfold collecting_inv in Hi. cbn [fst] in Hi.
  destruct r; [|by split_and!; destruct_and!..]. destruct Hi as [Hc Ha].
  split_and!; cbn [env prov snd]; [lia|lia|done|]. split; [|done]. apply fresh_set_default; [lia|done|done].
Qed.

Lemma Zonal_inv now t n its ct p :
  vswitch_inv t p → vswitch_inv t (vswitch.ZonalVSwitchesForLaunch now n its ct p).2.
Proof. unfold vswitch.ZonalVSwitchesForLaunch. by destruct (VSwitches (nc_Status n)). Qed.
End vswitches.

Definition securitygroup_inv (t : Z) (p : securitygroup.DefaultProvider) : Prop :=
  fresh_cache DefaultTTL t (securitygroup.sg_cache p).
#[export] Instance securitygroup_inv_lasting : Lasting securitygroup_inv.
Proof. unfold securitygroup_inv. solve_lasting. Qed.

Section groups.
Context {RT : GoRuntime} {W : Type} `{HC : !HasClock W} `{EG : !securitygroup.EcsGroups W}.
Context `{FH : !securitygroup.FiltersHash}.
Context (E : W → Prop) (Hdescribe : ∀ f tok, forward E (securitygroup.DescribeSecurityGroups f tok)).

Definition anything {P} (t : Z) (p : P) : Prop := True.
#[local] Instance anything_lasting {P} : Lasting (anything (P := P)).
Proof. done. Qed.

Lemma describeSecurityGroups_keeps T fuel f :
  keeps E anything T (securitygroup.describeSecurityGroups fuel f).
Proof.
  unfold securitygroup.describeSecurityGroups. generalize (@None string).
  induction fuel as [|fuel IH]; intros tok; cbn [securitygroup.describe_pages]; keeps_walk.
  apply keeps_mapM_. intros g0 s Hs. exact Hs.
Qed.

Lemma securitygroup_List_keeps T fuel n : keeps E securitygroup_inv T (securitygroup.List_ fuel n).
Proof.
  unfold securitygroup.List_. keeps_walk. intros s Hs. unfold securitygroup.getSecurityGroups.
  destruct (securitygroup.hash_filters _) as [h| |]; [|done..]. destruct (cache_get _ h _); [done|].
  set (loop := mapM_ _ _).
  assert (∀ T, keeps E anything T loop) as Hloop.
  { intros T0. apply keeps_mapM_. intros t. apply keeps_wrap, describeSecurityGroups_keeps. }
  destruct Hs as (Ht & He & Hi).
  specialize (Hloop (clock (env s)) (MkSt ∅ (env s))). destruct (loop _) as [r [m w]].
  destruct Hloop as (Ht' & He' & _); [by split_and!; cbn; destruct_and!; try lia|]. cbn [snd env prov] in *.
  apply (lasting _ (clock w)) in Hi; [|lia].
  destruct r; [|by split_and!; cbn [snd env prov]; try lia..].
  split_and!; cbn [env prov snd]; [lia|lia|done|]. apply fresh_set_default; [lia|done|done].
Qed.
End groups.

(** ** The cluster service's provider and the disk resolver *)

Definition ack_inv (cluster : string) (t : Z) (p : ack.DefaultProvider) : Prop :=
  ack.clusterID p = cluster ∧ fresh_cache ClusterAttachScriptTTL t (ack.ack_cache p).
#[export] Instance ack_inv_lasting cluster : Lasting (ack_inv cluster).
Proof. unfold ack_inv. solve_lasting. Qed.

Section ack.
Context {RT : GoRuntime} {W : Type} `{HC : !HasClock W} `{AA : !ack.AckApi W} `{MD : !ack.MetadataDecoder}.
Context (E : W → Prop) (cluster : string).
Context (Hdetail : ∀ c, forward E (ack.DescribeClusterDetail c)).
Context (Hpools : ∀ c, forward E (ack.DescribeClusterNodePools c)).
Context (Hscripts : ∀ c b, forward E (ack.DescribeClusterAttachScripts c b)).

Lemma GetClusterCNI_keeps T : keeps E (ack_inv cluster) T ack.GetClusterCNI.
Proof. unfold ack.GetClusterCNI. keeps_walk. Qed.

Lemma GetNodeRegisterScript_keeps T labels kc :
  keeps E (ack_inv cluster) T (ack.GetNodeRegisterScript labels kc).
Proof.
  unfold ack.GetNodeRegisterScript, ack.resolveUserData, ack.getClusterAttachRuntimeConfiguration. keeps_walk.
  match goal with H : ack_inv _ _ _ |- _ => destruct H end.
  split; [done|]. cbn [ack.ack_cache]. auto with keeps.
Qed.
End ack.

Definition resolver_inv (t : Z) (p : imagefamily.DefaultResolver) : Prop :=
  fresh_cache InstanceTypeAvailableDiskTTL t (imagefamily.disk_cache p).
#[export] Instance resolver_inv_lasting : Lasting resolver_inv.
Proof. unfold resolver_inv. solve_lasting. Qed.

Section resolver.
Context {W : Type} `{HC : !HasClock W} `{ED : !imagefamily.EcsDisks W} `{WQ : !imagefamily.WorkQueue}.
Context (E : W → Prop) (Hdisks : ∀ name, forward E (imagefamily.DescribeAvailableDisks name)).

Lemma check_type_keeps T expected it : keeps E resolver_inv T (imagefamily.check_type expected it).
Proof.
  unfold imagefamily.check_type, imagefamily.describeAvailableSystemDisk. keeps_walk.
  unfold resolver_inv in *. cbn [imagefamily.disk_cache]. auto with keeps.
Qed.
Lemma Filter_keeps T n its : keeps E resolver_inv T (imagefamily.FilterInstanceTypesBySystemDisk n its).
Proof.
  unfold imagefamily.FilterInstanceTypesBySystemDisk. destruct (spec_SystemDisk _ ≫= _) as [expected|]; [|keeps_walk].
  generalize (imagefamily.completion its) as l. revert T.
  intros T l. revert T. induction l as [|it l IH]; intros T; cbn [imagefamily.filter_types]; keeps_walk.
  apply check_type_keeps.
Qed.
End resolver.

(** ** The instance types *)

Definition types_inv (region : string) (t : Z) (p : instancetypes.DefaultProvider) : Prop :=
  instancetypes.it_region p = region ∧ fresh_cache InstanceTypesAndZonesTTL t (instancetypes.instanceTypesCache p) ∧
  fresh_cache (24 * Hour) t (instancetypes.it_cm p).
#[export] Instance types_inv_lasting region : Lasting (types_inv region).
Proof. unfold types_inv. solve_lasting. Qed.

Section types.
Context {RT : GoRuntime} {P W : Type} `{PV : !instancetypes.PricingView P} `{HC : !HasClock W}.
Context `{CN : !instancetypes.ClusterCNI W} `{TH : !instancetypes.TypeHashes} `{EC : !instancetypes.EcsCatalogue W}.
Context (E : W → Prop) (region : string) (Hcni : forward E instancetypes.GetClusterCNI).

Lemma types_List_keeps T pct uo (pr : P) kc n :
  keeps E (types_inv region) T (instancetypes.List_ pct uo pr kc n).
Proof.
  intros s Hs. unfold instancetypes.List_. destruct (instancetypes.validateState _ _); [|done..].
  destruct (cache_get _ _ _); [done|]. destruct s as [p w], Hs as (Ht & He & Hr & Hc & Hm).
  cbn [env prov] in *. destruct (Hcni w) as [Hw He']; [lia|done|].
  set (p' := instancetypes.set_cm _ p).
  assert (types_inv region (clock (instancetypes.GetClusterCNI w).2) p') as Hp'.
  { apply (lasting (clock w)); [lia|]. split_and!; [done|done|]. apply fresh_monitor; [lia|done|done]. }
  destruct (instancetypes.GetClusterCNI w) as [[cni| |] w']; cbn [snd] in *; [|by split_and!; cbn; try lia..].
  destruct (instancetypes.list_types _ _ _ _ _ _ _ _); [|by split_and!; cbn; try lia..].
  destruct Hp' as (Hr' & Hc' & Hm'). split_and!; cbn [env prov snd]; [lia|lia|done|].
  split_and!; [done|apply fresh_set_default; [lia|done|exact Hc']|exact Hm'].
Qed.

Context (Hcat : ∀ tok, forward E (instancetypes.DescribeInstanceTypes tok)).
Context (Hstock : ∀ o, forward E (instancetypes.DescribeAvailableResource o)).

Lemma types_monitored t key hv p b c (f : instancetypes.DefaultProvider → instancetypes.DefaultProvider) :
  (0 ≤ t)%Z → (∀ q, types_inv region t q → types_inv region t (f q)) →
  types_inv region t p → HasChanged t key hv (instancetypes.it_cm p) = (b, c) →
  types_inv region t (f (instancetypes.set_cm c p)).
Proof.
  intros Ht Hf (Hr & Hc & Hm) Hh. apply Hf. split_and!; [done|done|].
  cbn [instancetypes.it_cm instancetypes.set_cm].
  assert (c = (HasChanged t key hv (instancetypes.it_cm p)).2) as -> by (by rewrite Hh).
  by apply fresh_monitor.
Qed.

Lemma UpdateInstanceTypes_keeps T fuel : keeps E (types_inv region) T (instancetypes.UpdateInstanceTypes fuel).
Proof.
  assert (∀ T tok acc, keeps E (types_inv region) T (instancetypes.instance_type_pages fuel tok acc)) as Hpages.
  { induction fuel as [|fuel IH]; intros T0 tok acc; cbn [instancetypes.instance_type_pages]; keeps_walk. }
  unfold instancetypes.UpdateInstanceTypes, instancetypes.getAllInstanceTypes. keeps_walk.
  eapply (types_monitored _ _ _ _ _ _ (λ q, instancetypes.set_infos _ (if b then instancetypes.bump_types q else q)));
    [done| |done|done].
  intros q Hq. by destruct b.
Qed.
Lemma UpdateInstanceTypeOfferings_keeps T :
  keeps E (types_inv region) T instancetypes.UpdateInstanceTypeOfferings.
Proof.
  unfold instancetypes.UpdateInstanceTypeOfferings. keeps_walk.
  eapply (types_monitored _ _ _ _ _ _ (λ q, instancetypes.set_stock _ (if b then instancetypes.bump_stock q else q)));
    [done| |done|done].
  intros q Hq. by destruct b.
Qed.
End types.

(** ** Unavailable offerings and instances *)

Definition offerings_inv (t : Z) (u : UnavailableOfferings) : Prop :=
  (0 ≤ SeqNum u < 2 ^ 64)%Z ∧ fresh_cache UnavailableOfferingsTTL t (uo_cache u).
#[export] Instance offerings_inv_lasting : Lasting offerings_inv.
Proof. unfold offerings_inv. solve_lasting. Qed.

Lemma mark_inv t i z c u : (0 ≤ t)%Z → offerings_inv t u → offerings_inv t (MarkUnavailable t i z c u).
Proof.
  intros Ht [Hs Hc]. split; [apply uint64_range|].
  apply fresh_set; [done|done|by right|done].
Qed.
Lemma janitor_inv t t' u : offerings_inv t u → offerings_inv t (Janitor t' u).
Proof.
  intros [Hs Hc]. unfold Janitor. change OnEvicted with bump.
  destruct (bump_iter (size (expired_items t' (uo_cache u))) (MkUO (cache_delete_expired t' (uo_cache u)) (SeqNum u)) Hs)
    as [Hcache Hseq]. split; [rewrite Hseq; apply uint64_range|]. rewrite Hcache. by apply fresh_janitor.
Qed.
Lemma launch_marks_inv t resp ct u :
  (0 ≤ t)%Z → offerings_inv t u → offerings_inv t (instance.updateUnavailableOfferingsCache t resp ct u).
Proof.
  intros Ht. unfold instance.updateUnavailableOfferingsCache. generalize (instance.launch_results resp) as l.
  intros l. revert u. induction l as [|r l IH]; intros u Hu; [done|]. cbn [foldl]. apply IH.
  unfold instance.mark_result. destruct r as [r|]; [|done]. destruct (_ && _); [|done]. by apply mark_inv.
Qed.

(** Every instance is filed under its own ID. *)
Definition filed (c : cache instance.Instance) : Prop :=
  ∀ k it, items c !! k = Some it → instance.ID (Object it) = k.

Definition instance_inv (region cluster : string) (t : Z) (p : instance.DefaultProvider) : Prop :=
  instance.ip_region p = region ∧ instance.ip_ClusterID p = cluster ∧ (instance.lastUpdateTime p ≤ t)%Z ∧
  fresh_cache instanceCacheExpiration t (instance.instanceCache p) ∧ filed (instance.instanceCache p) ∧
  offerings_inv t (instance.unavailableOfferings p) ∧ vswitch_inv t (instance.vSwitchProvider p).
#[export] Instance instance_inv_lasting region cluster : Lasting (instance_inv region cluster).
Proof.
  intros t t' p Ht (H1 & H2 & H3 & H4 & H5 & H6 & H7).
  split_and!; [done|done|lia|by apply (lasting t)|done|by apply (lasting t)|by apply (lasting t)].
Qed.

Section instances.
Context {RT : GoRuntime} {W : Type} `{HC : !HasClock W} `{EI : !instance.EcsInstances W}.
Context (E : W → Prop) (region cluster : string).
Context (Hdescribe : ∀ tag tok, forward E (instance.DescribeInstances tag tok)).
Notation I := (instance_inv region cluster).

Lemma sync_inv t l c :
  (0 ≤ t)%Z → fresh_cache instanceCacheExpiration t c → filed c →
  fresh_cache instanceCacheExpiration t
    (foldl (λ c i, cache_set t (instance.ID i) i DefaultExpiration c) c l) ∧
  filed (foldl (λ c i, cache_set t (instance.ID i) i DefaultExpiration c) c l).
Proof.
  intros Ht. revert c. induction l as [|i l IH]; intros c Hc Hf; [done|]. cbn [foldl]. apply IH.
  - apply fresh_set; [done|done|by left|done].
  - unfold filed, cache_set. cbn [items].
    intros k it [[<- <-]|[_ Hk]]%lookup_insert_Some; [done|by apply Hf].
Qed.
Lemma sync_keeps T l : keeps E I T (instance.syncAllInstances l).
Proof.
  intros [p w] (Ht & He & H1 & H2 & H3 & H4 & H5 & H6 & H7). unfold instance.syncAllInstances. cbn [env prov snd] in *.
  destruct (sync_inv (clock w) l (instance.instanceCache p)) as [Hc Hf]; [lia|done|done|].
  split_and!; cbn [env prov]; [lia|lia|done|]. by split_and!.
Qed.
Lemma list_keeps T fuel : keeps E I T (instance.list_ fuel).
Proof.
  unfold instance.list_. generalize (@None string) (@nil instance.Instance). revert T.
  induction fuel as [|fuel IH]; intros T tok acc; cbn [instance.list_pages]; keeps_walk.
Qed.
#[local] Hint Resolve sync_keeps list_keeps : keeps.
Lemma instance_List_keeps T fuel : keeps E I T (instance.List_ fuel).
Proof.
  unfold instance.List_. keeps_walk. unfold instance_inv in *. destruct_and!. by split_and!; try lia.
Qed.
#[local] Hint Resolve instance_List_keeps : keeps.
Lemma instance_Get_keeps T fuel id : keeps E I T (instance.Get_ fuel id).
Proof. unfold instance.Get_. keeps_walk. Qed.
#[local] Hint Resolve instance_Get_keeps : keeps.
Lemma Get_cached fuel id s i s' :
  instance.Get_ fuel id s = (Ok i, s') → cache_get (clock (env s')) id (instance.instanceCache (prov s')) = Some i.
Proof.
  unfold instance.Get_. intros H. apply M_bind_Ok in H as (p & s1 & Hp & H). injection Hp as <- <-.
  apply M_bind_Ok in H as (t & s1 & Ht & H). injection Ht as <- <-.
  destruct (cache_get _ id _) as [j|] eqn:Hg; [by injection H as <- <-|].
  apply M_bind_Ok in H as (l & s1 & _ & H). apply M_bind_Ok in H as ([] & s2 & _ & H).
  apply M_bind_Ok in H as (p & s3 & Hp & H). injection Hp as <- <-.
  apply M_bind_Ok in H as (t & s3 & Ht & H). injection Ht as <- <-.
  destruct (cache_get _ id (instance.instanceCache (prov s2))) as [j|] eqn:Hg2; [|done]. by injection H as <- <-.
Qed.
(** A machine is only ever returned for its own ID. *)
Lemma Get_own T fuel id s i s' :
  holds E I T s → instance.Get_ fuel id s = (Ok i, s') → instance.ID i = id.
Proof.
  intros Hs H. pose proof (instance_Get_keeps T fuel id s Hs) as Hs'. rewrite H in Hs'.
  destruct Hs' as (_ & _ & _ & _ & _ & _ & Hf & _). cbn [snd] in Hf.
  apply Get_cached in H. unfold cache_get in H. destruct (items _ !! id) as [it|] eqn:Hi; [|done].
  destruct (expired _ it); [done|]. injection H as <-. by apply Hf.
Qed.
Lemma instance_Delete_keeps T fuel id :
  (∀ id, forward E (instance.DeleteInstance id)) → keeps E I T (instance.Delete fuel id).
Proof.
  intros Hdelete. unfold instance.Delete. keeps_walk. unfold instance_inv in *. destruct_and!.
  split_and!; try done; cbn [instance.instanceCache instance.set_instances].
  - by apply fresh_delete.
  - unfold filed in *. cbn [items cache_delete]. intros k it [_ Hk]%lookup_delete_Some. eauto.
Qed.
Lemma instance_CreateTags_keeps T fuel id tags :
  (∀ id l, forward E (instance.AddTags id l)) → keeps E I T (instance.CreateTags fuel id tags).
Proof. intros Htags. unfold instance.CreateTags. keeps_walk. Qed.

Context `{LL : !instance.LaunchLimiter W} `{RS : !instance.RegisterScript W} `{DR : !instance.DiskResolver W}.
Context (Hlimit : forward E instance.limiter_Wait).
Context (Hscript : ∀ labels kc, forward E (instance.GetNodeRegisterScript labels kc)).
Context (Hdisks : ∀ n its, forward E (instance.FilterInstanceTypesBySystemDisk n its)).
Context (Hlaunch : ∀ req, forward E (instance.CreateAutoProvisioningGroup req)).

Lemma zonal_keeps T n its ct : keeps E I T (λ s : St instance.DefaultProvider W,
    let '(r, vp) := vswitch.ZonalVSwitchesForLaunch (clock (env s)) n its ct (instance.vSwitchProvider (prov s)) in
    (r, MkSt (instance.set_vswitches vp (prov s)) (env s))).
Proof.
  intros [p w] (Ht & He & H1 & H2 & H3 & H4 & H5 & H6 & H7). cbn [env prov] in *.
  pose proof (Zonal_inv (clock w) (clock w) n its ct _ H7) as Hv.
  destruct (vswitch.ZonalVSwitchesForLaunch _ _ _ _ _) as [r vp]. cbn [snd] in *.
  split_and!; cbn [env prov]; [lia|lia|done|]. by split_and!.
Qed.
#[local] Hint Resolve zonal_keeps : keeps.

Lemma instance_Create_keeps T n c its : keeps E I T (instance.Create n c its).
Proof.
  unfold instance.Create, instance.launchInstance, instance.getProvisioningGroup. keeps_walk.
  unfold instance_inv in *. destruct_and!. split_and!; try done. by apply launch_marks_inv.
Qed.
End instances.

(** ** The cloud provider *)

Definition cloud_inv (region cluster : string) (t : Z) (p : cloudprovider.CloudProvider) : Prop :=
  types_inv region t (cloudprovider.cp_types p) ∧ instance_inv region cluster t (cloudprovider.cp_instances p).
#[export] Instance cloud_inv_lasting region cluster : Lasting (cloud_inv region cluster).
Proof. unfold cloud_inv. solve_lasting. Qed.

Section cloud.
Context {RT : GoRuntime} {P W : Type} `{PV : !instancetypes.PricingView P} `{HC : !HasClock W}.
Context `{CN : !instancetypes.ClusterCNI W} `{TH : !instancetypes.TypeHashes}.
Context `{EI : !instance.EcsInstances W} `{LL : !instance.LaunchLimiter W}.
Context `{RS : !instance.RegisterScript W} `{DR : !instance.DiskResolver W}.
Context `{KR : !KubeReader W} `{ER : !EventRecorder W} `{SH : !SpecHash}.
Context (E : W → Prop) (region cluster : string) (pct : float64) (pr : P) (fuel : nat).
Notation I := (cloud_inv region cluster).

(** What the calls of the cloud provider keep. *)
Record cloud_calls : Prop := {
  cc_cni : forward E instancetypes.GetClusterCNI;
  cc_describe tag tok : forward E (instance.DescribeInstances tag tok);
  cc_delete id : forward E (instance.DeleteInstance id);
  cc_tag id l : forward E (instance.AddTags id l);
  cc_launch req : forward E (instance.CreateAutoProvisioningGroup req);
  cc_limit : forward E instance.limiter_Wait;
  cc_script labels kc : forward E (instance.GetNodeRegisterScript labels kc);
  cc_disks n its : forward E (instance.FilterInstanceTypesBySystemDisk n its);
  cc_pool name : forward E (kube_NodePool name);
  cc_class name : forward E (kube_NodeClass name);
  cc_publish evs : forward E (λ w, (Ok (), publish evs w));
}.
Context (Hcalls : cloud_calls).
#[local] Hint Resolve cc_cni cc_describe cc_delete cc_launch cc_limit cc_script cc_disks cc_pool cc_class
  cc_publish : keeps.

Lemma on_types_keeps {A} T (m : M (St instancetypes.DefaultProvider W) A) :
  (∀ T, keeps E (types_inv region) T m) → keeps E I T (cloudprovider.on_types m).
Proof.
  apply (keeps_part E I (types_inv region) cloudprovider.cp_types
    (λ q p, cloudprovider.MkCloudProvider q (cloudprovider.cp_instances p))).
  - by intros t p [H _].
  - intros t t' p q Ht [_ Hi] Hq. split; [done|by apply (lasting t)].
Qed.
Lemma on_instances_keeps {A} T (m : M (St instance.DefaultProvider W) A) :
  (∀ T, keeps E (instance_inv region cluster) T m) → keeps E I T (cloudprovider.on_instances m).
Proof.
  apply (keeps_part E I (instance_inv region cluster) cloudprovider.cp_instances
    (λ q p, cloudprovider.MkCloudProvider (cloudprovider.cp_types p) q)).
  - by intros t p [_ H].
  - intros t t' p q Ht [Hi _] Hq. split; [by apply (lasting t)|done].
Qed.
Lemma listTypes_keeps T n : keeps E I T (cloudprovider.listTypes pct pr n).
Proof. intros s. apply on_types_keeps. intros T'. apply types_List_keeps. by apply cc_cni. Qed.

Lemma cloud_instances_keep T :
  keeps E I T (cloudprovider.on_instances (instance.List_ fuel)) ∧
  (∀ id, keeps E I T (cloudprovider.on_instances (instance.Get_ fuel id))) ∧
  (∀ id, keeps E I T (cloudprovider.on_instances (instance.Delete fuel id))) ∧
  (∀ n c its, keeps E I T (cloudprovider.on_instances (instance.Create n c its))).
Proof.
  destruct Hcalls. split_and!; intros; apply on_instances_keeps; intros T'.
  - by apply instance_List_keeps.
  - by apply instance_Get_keeps.
  - by apply instance_Delete_keeps.
  - by apply instance_Create_keeps.
Qed.
Lemma resolveNodeClass_keeps T ref : keeps E I T (cloudprovider.resolveNodeClass ref).
Proof. unfold cloudprovider.resolveNodeClass. keeps_walk. Qed.
Lemma reporting_keeps {A} T ev (m : M (St cloudprovider.CloudProvider W) A) :
  keeps E I T m → keeps E I T (cloudprovider.reporting ev m).
Proof. intros Hm. unfold cloudprovider.reporting, record_events. keeps_walk. Qed.
#[local] Hint Resolve listTypes_keeps resolveNodeClass_keeps reporting_keeps : keeps.
Lemma GetInstanceTypes_keeps T np : keeps E I T (cloudprovider.GetInstanceTypes pct pr np).
Proof. unfold cloudprovider.GetInstanceTypes, cloudprovider.resolveNodeClassFromNodePool. keeps_walk. Qed.
#[local] Hint Resolve GetInstanceTypes_keeps : keeps.
Lemma claim_of_instance_keeps T i : keeps E I T (cloudprovider.claim_of_instance pct pr i).
Proof.
  unfold cloudprovider.claim_of_instance, cloudprovider.resolveInstanceTypeFromInstance,
    cloudprovider.resolveNodeClassFromInstance, cloudprovider.resolveNodePoolFromInstance,
    cloudprovider.resolveNodeClassFromNodePool, cloudprovider.ignore_not_found. keeps_walk.
Qed.
#[local] Hint Resolve claim_of_instance_keeps keeps_mmapM : keeps.
Lemma cloud_Create_keeps T c : keeps E I T (cloudprovider.Create pct pr c).
Proof.
  unfold cloudprovider.Create, cloudprovider.resolveNodeClassFromNodeClaim, cloudprovider.resolveInstanceTypes.
  keeps_walk. apply cloud_instances_keep.
Qed.
Lemma cloud_List_keeps T : keeps E I T (cloudprovider.List_ pct pr fuel).
Proof. unfold cloudprovider.List_. keeps_walk. apply cloud_instances_keep. Qed.
Lemma cloud_Get_keeps T id : keeps E I T (cloudprovider.Get_ pct pr fuel id).
Proof. unfold cloudprovider.Get_. keeps_walk. apply cloud_instances_keep. Qed.
Lemma cloud_Delete_keeps T c : keeps E I T (cloudprovider.Delete fuel c).
Proof. unfold cloudprovider.Delete. keeps_walk. apply cloud_instances_keep. Qed.
Lemma IsDrifted_keeps T c : keeps E I T (cloudprovider.IsDrifted fuel c).
Proof.
  unfold cloudprovider.IsDrifted, cloudprovider.ignore_not_found, cloudprovider.isNodeClassDrifted,
    cloudprovider.getInstance, cloudprovider.resolveNodeClassFromNodePool. keeps_walk.
  apply cloud_instances_keep.
Qed.
End cloud.
