(* ===== verification/GarbageCollection.v ===== *)
(** * The garbage collection controller (pkg/controllers/nodeclaim/garbagecollection)

    Deletes machines that no NodeClaim stands for.  The controller is written
    and verified against the interface [CloudProviderApi] with the laws [Fleet]:
    a deletion removes the machine it names and no other, a listing removes
    none.  [cloudprovider_api] and [cloudprovider_fleet] discharge the interface
    for the cloud provider of this repository, from what is documented of the
    ECS service ([EcsFleet]). *)

From S2P Require Import Prelude Effects Floats GoCache UnavailableOfferings Labels Scheduling.
From S2P Require Import CloudTypes Apis Conditions Utils InstanceTypeProvider InstanceSelect.
From S2P Require Import InstanceProvider CloudProvider KubeApi.

(** ** Interfaces *)

(** What the controller calls of [cloudprovider.CloudProvider]. *)
Class CloudProviderApi (P W : Type) := {
  cp_List : M (St P W) (list NodeClaim);
  cp_Delete : NodeClaim → M (St P W) ();
}.

Module garbagecollection.

Record Controller (P : Type) := MkController { cloudProvider : P; successfulCount : Z }.
Arguments MkController {P} _ _.
Arguments cloudProvider {P} _.
Arguments successfulCount {P} _.

Section controller.
Context {P W : Type} `{HC : !HasClock W} `{CP : !CloudProviderApi P W} `{NA : !NodeClaimApi W}.
Context `{ND : !NodeApi W} `{PO : !ParallelOrder}.
Notation S' := (St (Controller P) W).

Definition on_provider {A} (m : M (St P W) A) : M S' A := λ s,
  let '(r, s') := m (MkSt (cloudProvider (prov s)) (env s)) in
  (r, MkSt (MkController (prov s') (successfulCount (prov s))) (env s')).

(** The node of a deleted machine, if there is one, is deleted too. *)
Definition cleanup (nodes : list Node) (nodeClaim : NodeClaim) : M S' () :=
  match lo_find (λ n, bool_decide (node_ProviderID n = claim_ProviderID nodeClaim)) nodes with
  | Some node =>
      d ← attempt (call (delete_Node node));
      match d with
      | inl e => match IgnoreNotFound (Some e) with Some e' => fail e' | None => mret () end
      | inr _ => mret ()
      end
  | None => mret ()
  end.

Definition garbageCollect (nodes : list Node) (nodeClaim : NodeClaim) : M S' () :=
  r ← attempt (on_provider (cp_Delete nodeClaim));
  match r with
  | inl e =>
      if IsInstanceStateOperationNotSupportedError e || IsNodeClaimNotFoundError e then mret ()
      else fail e
  | inr _ => cleanup nodes nodeClaim
  end.

(** A machine without a NodeClaim, old enough not to be about to get one. *)
Definition orphan (now : Z) (resolved : gset string) (c : NodeClaim) : bool :=
  negb (bool_decide (claim_ProviderID c ∈ resolved))
  && (30 * Second <? now - meta_CreationTimestamp (claim_Meta c))%Z.

(** The piece of work with index [i]: the entry of [errs]. *)
Definition collect (resolved : gset string) (nodes : list Node) (managed : list NodeClaim) (i : nat)
    : M S' (option error) :=
  match managed !! i with
  | None => mret None
  | Some c =>
      t ← now;
      if orphan t resolved c then
        r ← attempt (garbageCollect nodes c);
        match r with
        | inl e => mret (Some e)
        | inr _ => mret None
        end
      else mret None
  end.

Definition live (c : NodeClaim) : bool := bool_decide (meta_DeletionTimestamp (claim_Meta c) = None).
Definition resolvedProviderIDs (l : list NodeClaim) : gset string :=
  list_to_set (bfilter (λ id, negb (bool_decide (id = ""))) (claim_ProviderID <$> l)).

Definition Reconcile : M S' Result :=
  retrieved ← wrap "listing cloudprovider machines" (on_provider cp_List);
  let managed := bfilter live retrieved in
  nodeClaims ← call (list_NodeClaims None);
  nodes ← call (list_Nodes None);
  errs ← parallelize (length managed) (collect (resolvedProviderIDs nodeClaims) nodes managed);
  match multierr_combine (errs <$> seq 0 (length retrieved)) with
  | Some e => fail e
  | None =>
      c ← get_prov;
      let count := uint64 (successfulCount c + 1) in
      _ ← set_prov (MkController (cloudProvider c) count);
      mret (requeue_after (if (count <=? 20)%Z then 10 * Second else Minute))
  end.
End controller.

(** ** Laws of the cloud provider *)

(** The instances a NodeClaim names: at most one. *)
Definition named (c : NodeClaim) : gset string :=
  match ParseInstanceID (claim_ProviderID c) with Ok id => {[id]} | _ => ∅ end.

Section laws.
Context {P W : Type} `{HC : !HasClock W}.

(** A run in which only instances of [D] (which may depend on the time) were
    deleted, and none was launched. *)
Definition fleet_step (machines : St P W → gset string) (D : Z → gset string) (s s' : St P W) : Prop :=
  machines s ∖ D (clock (env s')) ⊆ machines s' ∧ machines s' ⊆ machines s ∧
  (clock (env s) ≤ clock (env s'))%Z.

Class Fleet `{CP : !CloudProviderApi P W} `{NA : !NodeClaimApi W} `{ND : !NodeApi W} := {
  machines : St P W → gset string;
  cp_list_keeps : respects (fleet_step machines (λ _, ∅)) cp_List;
  cp_delete_only : ∀ c, respects (fleet_step machines (λ _, named c)) (cp_Delete c);
  cp_delete_done : ∀ c s s', cp_Delete c s = (Ok (), s') →
    ∃ id, ParseInstanceID (claim_ProviderID c) = Ok id ∧ id ∉ machines s';
  kube_list_claims_keeps : ∀ sel p w,
    fleet_step machines (λ _, ∅) (MkSt p w) (MkSt p (list_NodeClaims sel w).2);
  kube_list_nodes_keeps : ∀ k p w,
    fleet_step machines (λ _, ∅) (MkSt p w) (MkSt p (list_Nodes k w).2);
  kube_delete_node_keeps : ∀ n p w,
    fleet_step machines (λ _, ∅) (MkSt p w) (MkSt p (delete_Node n w).2);
}.

Lemma fleet_step_preorder (m : St P W → gset string) (D : Z → gset string) :
  (∀ t t', (t ≤ t')%Z → D t ⊆ D t') → PreOrder (fleet_step m D).
Proof.
  intros HD. split.
  - intros s. split_and!; [set_solver|done|lia].
  - intros s1 s2 s3 (A1 & B1 & C1) (A2 & B2 & C2).
    specialize (HD _ _ C2). split_and!; [set_solver|set_solver|lia].
Qed.

Lemma fleet_step_weaken (m : St P W → gset string) (D D' : Z → gset string) s s' :
  D (clock (env s')) ⊆ D' (clock (env s')) → fleet_step m D s s' → fleet_step m D' s s'.
Proof. intros HD (A & B & C). split_and!; [set_solver|done|done]. Qed.
End laws.
Arguments Fleet P W {HC CP NA ND}.

(** ** Lemmas *)

Section lemmas.
Context {P W : Type} `{HC : !HasClock W} `{CP : !CloudProviderApi P W} `{NA : !NodeClaimApi W}.
Context `{ND : !NodeApi W} `{PO : !ParallelOrder} `{FL : !Fleet P W}.
Notation S' := (St (Controller P) W).

(** The provider's part of the controller's state, and its fleet. *)
Definition under (s : S') : St P W := MkSt (cloudProvider (prov s)) (env s).
Definition fleet (s : S') : gset string := machines (under s).
Definition gc_step (D : Z → gset string) (s s' : S') : Prop :=
  fleet_step machines D (under s) (under s') ∧ successfulCount (prov s') = successfulCount (prov s).

Definition monotone (D : Z → gset string) : Prop := ∀ t t', (t ≤ t')%Z → D t ⊆ D t'.

Lemma gc_step_preorder D : monotone D → PreOrder (gc_step D).
Proof.
  intros HD. destruct (fleet_step_preorder machines D HD) as [Hr Ht]. split.
  - intros s. split; [apply Hr|done].
  - intros s1 s2 s3 [A1 B1] [A2 B2]. split; [by eapply Ht|by rewrite B2].
Qed.

Lemma respects_on_provider {A} D (m : M (St P W) A) :
  respects (fleet_step machines D) m → respects (gc_step D) (on_provider m).
Proof.
  intros H s. specialize (H (under s)). unfold on_provider, gc_step. fold (under s).
  by destruct (m (under s)) as [r [p w]].
Qed.

Lemma gc_step_weaken (D D' : Z → gset string) s s' :
  D (clock (env s')) ⊆ D' (clock (env s')) → gc_step D s s' → gc_step D' s s'.
Proof. intros HD [H Hn]. split; [|done]. by eapply fleet_step_weaken. Qed.

Lemma gc_step_const (X : gset string) : PreOrder (gc_step (λ _, X)).
Proof. apply gc_step_preorder. by intros ????. Qed.

Lemma respects_kube {A} D (f : W → result A * W) :
  (∀ p w, fleet_step machines (λ _, ∅) (MkSt p w) (MkSt p (f w).2)) → respects (gc_step D) (call f).
Proof.
  intros H. apply respects_call. intros p w. apply (gc_step_weaken (λ _, ∅)); [set_solver|].
  split; [|done]. apply H.
Qed.

Lemma cleanup_respects X nodes c : respects (gc_step (λ _, X)) (cleanup nodes c).
Proof.
  pose proof (gc_step_const X). unfold cleanup.
  destruct (lo_find _ nodes) as [node|]; [|auto with respects].
  apply respects_bind; [done|apply respects_attempt, respects_kube, kube_delete_node_keeps|].
  intros [e|_]; [|auto with respects]. destruct (IgnoreNotFound (Some e)); auto with respects.
Qed.

Lemma garbageCollect_respects nodes c : respects (gc_step (λ _, named c)) (garbageCollect nodes c).
Proof.
  pose proof (gc_step_const (named c)). unfold garbageCollect. apply respects_bind; [done| |].
  - apply respects_attempt, respects_on_provider, cp_delete_only.
  - intros [e|_]; [destruct (_ || _); auto with respects|]. apply cleanup_respects.
Qed.

(** The instances a reconciliation may delete, at time [t]. *)
Definition doomed (resolved : gset string) (managed : list NodeClaim) (t : Z) : gset string :=
  ⋃ (named <$> bfilter (orphan t resolved) managed).

Lemma orphan_mono t t' resolved c : (t ≤ t')%Z → orphan t resolved c = true → orphan t' resolved c = true.
Proof.
  unfold orphan. intros Ht [Hr Hage]%andb_true_iff. apply andb_true_iff. split; [done|].
  apply Z.ltb_lt in Hage. apply Z.ltb_lt. lia.
Qed.

Lemma elem_of_doomed resolved managed t id :
  id ∈ doomed resolved managed t ↔
  ∃ c, c ∈ managed ∧ orphan t resolved c = true ∧ ParseInstanceID (claim_ProviderID c) = Ok id.
Proof.
  unfold doomed. rewrite elem_of_union_list. split.
  - intros (X & (c & -> & Hc)%list_elem_of_fmap & Hid). apply elem_of_bfilter in Hc as [Ho Hc].
    exists c. split_and!; [done..|]. unfold named in Hid.
    destruct (ParseInstanceID _); [|set_solver..]. by apply elem_of_singleton in Hid as ->.
  - intros (c & Hc & Ho & Hid). exists (named c). split.
    + apply list_elem_of_fmap_2, elem_of_bfilter. by split.
    + unfold named. rewrite Hid. by apply elem_of_singleton.
Qed.

Lemma doomed_mono resolved managed : monotone (doomed resolved managed).
Proof.
  intros t t' Ht id. rewrite !elem_of_doomed. intros (c & Hc & Ho & Hid). exists c.
  split_and!; [done| |done]. by eapply orphan_mono.
Qed.

Lemma collect_respects resolved nodes managed i :
  respects (gc_step (doomed resolved managed)) (collect resolved nodes managed i).
Proof.
  pose proof (gc_step_preorder _ (doomed_mono resolved managed)) as Hpre.
  intros s. unfold collect. destruct (managed !! i) as [c|] eqn:Hi; [|reflexivity].
  rewrite (M_Ok_bind now _ s (clock (env s)) s) by done.
  destruct (orphan (clock (env s)) resolved c) eqn:Ho; [|reflexivity].
  set (m := attempt (garbageCollect nodes c) ≫= _).
  assert (respects (gc_step (λ _, named c)) m) as Hm.
  { assert (PreOrder (gc_step (λ _, named c))) by apply gc_step_const.
    apply respects_bind; [done|apply respects_attempt, garbageCollect_respects|].
    intros []; auto with respects. }
  specialize (Hm s). eapply gc_step_weaken; [|exact Hm]. intros id Hid.
  destruct Hm as [(_ & _ & Ht) _]. apply elem_of_doomed. exists c. unfold named in Hid.
  split_and!; [by eapply list_elem_of_lookup_2|by eapply orphan_mono|].
  destruct (ParseInstanceID _); [|set_solver..]. by apply elem_of_singleton in Hid as ->.
Qed.

Lemma resolvedProviderIDs_spec l id :
  id ∈ resolvedProviderIDs l ↔ id ≠ "" ∧ ∃ c, c ∈ l ∧ claim_ProviderID c = id.
Proof.
  unfold resolvedProviderIDs. rewrite elem_of_list_to_set, elem_of_bfilter, list_elem_of_fmap.
  rewrite negb_true_iff, bool_decide_eq_false. naive_solver.
Qed.

(** The steps of a reconciliation: the three listings, which delete nothing, and
    the loop; or the failure of a listing. *)
Lemma Reconcile_steps (s s' : S') r :
  Reconcile s = (r, s') →
  (gc_step (λ _, ∅) s s' ∧ ∀ res, r ≠ Ok res) ∨
  ∃ retrieved s1 nodeClaims (s2 : S') nodes s3 q s4,
    cp_List (under s) = (Ok retrieved, under s1) ∧
    list_NodeClaims None (env s1) = (Ok nodeClaims, env s2) ∧
    (list_Nodes None (env s2) = (Ok nodes, env s3) ∧ prov s3 = prov s1) ∧ gc_step (λ _, ∅) s s3 ∧
    parallelize (length (bfilter live retrieved))
      (collect (resolvedProviderIDs nodeClaims) nodes (bfilter live retrieved)) s3 = (q, s4) ∧
    under s' = under s4 ∧
    ∀ res, r = Ok res → ∃ errs, q = Ok errs ∧ (∀ i, i < length retrieved → errs i = None) ∧
      successfulCount (prov s') = uint64 (successfulCount (prov s4) + 1) ∧
      res = requeue_after (if (successfulCount (prov s') <=? 20)%Z then 10 * Second else Minute).
Proof.
  assert (PreOrder (gc_step (λ _, ∅))) as Hpre by apply gc_step_const.
  unfold Reconcile. unfold mbind at 1, M_bind at 1. intros H.
  pose proof (respects_wrap _ "listing cloudprovider machines" _ (respects_on_provider _ _ cp_list_keeps) s) as R1.
  destruct (wrap _ (on_provider cp_List) s) as [[retrieved| |] s1] eqn:H1; cbn [snd] in R1;
    [|left; by injection H as <- <-..].
  unfold mbind at 1, M_bind at 1 in H.
  pose proof (respects_kube (λ _, ∅) _ (kube_list_claims_keeps None) s1) as R2.
  destruct (call (list_NodeClaims None) s1) as [[nodeClaims| |] s2] eqn:H2; cbn [snd] in R2;
    [|left; injection H as <- <-; split; [by etransitivity|done]..].
  unfold mbind at 1, M_bind at 1 in H.
  pose proof (respects_kube (λ _, ∅) _ (kube_list_nodes_keeps None) s2) as R3.
  destruct (call (list_Nodes None) s2) as [[nodes| |] s3] eqn:H3; cbn [snd] in R3;
    [|left; injection H as <- <-; split; [by do 2 (etransitivity; [eassumption|])|done]..].
  right. unfold mbind at 1, M_bind at 1 in H.
  destruct (parallelize _ _ s3) as [q s4] eqn:H4.
  exists retrieved, s1, nodeClaims, s2, nodes, s3, q, s4. apply call_Ok in H2 as [H2 P2]. apply call_Ok in H3 as [H3 P3].
  apply wrap_Ok in H1. unfold on_provider in H1. fold (under s) in H1.
  destruct (cp_List (under s)) as [q1 [p1 w1]]. injection H1 as -> <-.
  split_and!; [done|exact H2|exact H3|congruence|by do 2 (etransitivity; [eassumption|])|exact H4| |].
  - destruct q as [dones|?|]; [|by injection H as _ <-..].
    destruct (multierr_combine _); [by injection H as _ <-|]. cbn in H. by injection H as _ <-.
  - intros res ->. destruct q as [dones|?|]; [|done..]. exists dones. split; [done|].
    destruct (multierr_combine _) eqn:Hm; [done|]. cbn in H. injection H as <- <-.
    split_and!; [|done..]. intros i Hi. rewrite multierr_combine_None in Hm. apply Hm.
    apply list_elem_of_fmap. exists i. split; [done|]. apply elem_of_seq. lia.
Qed.

Context `{CS : !ClaimStore W}.

(** C7. The collector spares every machine that has a NodeClaim, and every
    young one: whatever the outcome of a reconciliation and the order of its
    parallel deletions, a machine that is gone afterwards was listed and not
    terminating, no NodeClaim of the cluster had its provider ID after the
    machines were listed, and it was created more than thirty seconds ago. *)
Theorem Reconcile_spares (s s' : S') r id :
  Reconcile s = (r, s') → id ∈ fleet s → id ∉ fleet s' →
  ∃ retrieved sl c, cp_List (under s) = (Ok retrieved, sl) ∧ c ∈ retrieved ∧
    ParseInstanceID (claim_ProviderID c) = Ok id ∧
    meta_DeletionTimestamp (claim_Meta c) = None ∧
    (meta_CreationTimestamp (claim_Meta c) + 30 * Second < clock (env s'))%Z ∧
    ∀ name nc, claims (env sl) !! name = Some nc → claim_ProviderID nc ≠ claim_ProviderID c.
Proof.
  intros H Hin Hout. apply Reconcile_steps in H as [[[(Hkeep & _ & _) _] _]|H].
  { exfalso. unfold fleet in *. set_solver. }
  destruct H as (retrieved & s1 & ncs & s2 & nodes & s3 & q & s4 & Hl & Hc & _ & [(Hk & _ & _) _] & Hloop & Hs' & _).
  set (resolved := resolvedProviderIDs ncs) in *. set (managed := bfilter live retrieved) in *.
  pose proof (gc_step_preorder _ (doomed_mono resolved managed)) as Hpre.
  pose proof (parallelize_respects _ (length managed) _ (collect_respects resolved nodes managed) s3) as Hr. rewrite Hloop in Hr.
  destruct Hr as [(Hd & _ & _) _]. cbn [snd] in Hd.
  assert (id ∈ doomed resolved managed (clock (env s4))) as Hid.
  { destruct (decide (id ∈ doomed resolved managed (clock (env s4)))) as [|Hn]; [done|]. destruct Hout.
    unfold fleet. rewrite Hs'. apply Hd, elem_of_difference. split; [|exact Hn].
    apply Hk, elem_of_difference. split; [exact Hin|set_solver]. }
  apply elem_of_doomed in Hid as (c & Hm & Ho & Hid).
  apply elem_of_bfilter in Hm as [Hlive Hc']. apply andb_true_iff in Ho as [Hres Hage].
  apply negb_true_iff, bool_decide_eq_false in Hres. apply Z.ltb_lt in Hage.
  assert (clock (env s') = clock (env s4)) as Ht by (apply (f_equal env) in Hs'; cbn in Hs'; by rewrite Hs').
  exists retrieved, (under s1), c.
  split_and!; [done|done|done|by apply bool_decide_eq_true in Hlive|lia|].
  intros name nc Hnc Heq. apply Hres, resolvedProviderIDs_spec. split.
  - intros He. rewrite He in Hid. vm_compute in Hid. discriminate Hid.
  - exists nc. split; [|done]. destruct (list_complete _ _ _ _ Hc) as [_ Hin'].
    apply Hin'. split; [|done]. by rewrite (claims_named _ _ _ Hnc).
Qed.

(** What becomes of a machine in the turn it gets: its deletion is asked for, and
    either it is gone for good, and its node, if one was listed, is deleted too
    or not there; or the answer is one that is left to the next round. *)
Definition collected (nodes : list Node) (c : NodeClaim) (sa s' : S') : Prop :=
  ∃ answer sd, cp_Delete c (under sa) = (answer, sd) ∧
  match answer with
  | Ok _ =>
      (∃ id, ParseInstanceID (claim_ProviderID c) = Ok id ∧ id ∉ fleet s') ∧
      ∀ node, lo_find (λ n, bool_decide (node_ProviderID n = claim_ProviderID c)) nodes = Some node →
        (delete_Node node (env sd)).1 = Ok () ∨
        ∃ e, (delete_Node node (env sd)).1 = Err e ∧ IsNotFound e = true
  | Err e => IsInstanceStateOperationNotSupportedError e = true ∨ IsNodeClaimNotFoundError e = true
  | Panic => False
  end.

Lemma cleanup_deletes nodes c (s s' : S') node :
  cleanup nodes c s = (Ok (), s') →
  lo_find (λ n, bool_decide (node_ProviderID n = claim_ProviderID c)) nodes = Some node →
  (delete_Node node (env s)).1 = Ok () ∨ ∃ e, (delete_Node node (env s)).1 = Err e ∧ IsNotFound e = true.
Proof.
  unfold cleanup. intros H Hn. rewrite Hn in H. unfold mbind, M_bind, attempt in H.
  destruct (call (delete_Node node) s) as [q s1] eqn:Hc. apply call_prov in Hc as [_ Hc]. rewrite Hc. cbn.
  destruct q as [[]|e|]; [by left| |done]. right. exists e. split; [done|].
  cbn in H. by destruct (IsNotFound e).
Qed.

Lemma garbageCollect_collected D nodes c (s s1 s' : S') :
  garbageCollect nodes c s = (Ok (), s1) → gc_step D s1 s' → collected nodes c s s'.
Proof.
  unfold garbageCollect. intros H [(_ & Hlater & _) _]. apply M_bind_Ok in H as (r & s2 & Hr & H).
  unfold attempt, on_provider in Hr. fold (under s) in Hr.
  destruct (cp_Delete c (under s)) as [q sd] eqn:Hd. exists q, sd. split; [done|].
  destruct q as [[]|e|]; [|..|done].
  - injection Hr as <- <-. destruct (cp_delete_done _ _ _ Hd) as (id & Hid & Hgone). split.
    + exists id. split; [done|].
      pose proof (cleanup_respects ∅ nodes c (MkSt (MkController (prov sd) (successfulCount (prov s))) (env sd)))
        as [(_ & Hsub & _) _]. rewrite H in Hsub. cbn [snd] in Hsub.
      unfold fleet, under in *. cbn [prov env cloudProvider] in Hsub. destruct sd. set_solver.
    + intros node Hn. by apply (cleanup_deletes _ _ _ _ _ H Hn).
  - injection Hr as <- <-. destruct (_ || _) eqn:He; [|done]. by apply orb_true_iff.
Qed.

Lemma collect_collected D resolved nodes managed i c (s s1 s' : S') :
  managed !! i = Some c → orphan (clock (env s)) resolved c = true →
  collect resolved nodes managed i s = (Ok None, s1) → gc_step D s1 s' → collected nodes c s s'.
Proof.
  intros Hi Ho. unfold collect. rewrite Hi. rewrite (M_Ok_bind now _ s (clock (env s)) s) by done.
  rewrite Ho. intros H. apply M_bind_Ok in H as ([e|[]] & s2 & Hr & H); [done|]. injection H as <-.
  unfold attempt in Hr. destruct (garbageCollect nodes c s) as [[[]| |] s3] eqn:Hg; [|done..].
  injection Hr as <-. by eapply garbageCollect_collected.
Qed.

(** C25. A reconciliation without error collects every machine it should.
    After the three listings the machines get their turns in the order in which the
    parallel work completes; in the turn of a machine that was listed, not
    terminating, without a NodeClaim and more than thirty seconds old, its
    deletion is asked for, and either that succeeds, the machine is gone at the
    end and its node, if listed, was deleted or not found; or the answer is an
    unsupported state (retried by the next reconciliation) or not found.
    The next reconciliation comes in ten seconds for the first twenty, then in a
    minute, the count of the successful ones being kept modulo 2^64. *)
Theorem Reconcile_collects (s s' : S') res :
  Reconcile s = (Ok res, s') →
  ∃ retrieved (s1 s2 s3 : S') ncs nodes, cp_List (under s) = (Ok retrieved, under s1) ∧
    list_NodeClaims None (env s1) = (Ok ncs, env s2) ∧ list_Nodes None (env s2) = (Ok nodes, env s3) ∧
    prov s3 = prov s1 ∧
    (let turn := collect (resolvedProviderIDs ncs) nodes (bfilter live retrieved) in
     ∀ c, c ∈ retrieved → meta_DeletionTimestamp (claim_Meta c) = None →
       (∀ nc, nc ∈ ncs → claim_ProviderID nc ≠ claim_ProviderID c) →
       (meta_CreationTimestamp (claim_Meta c) + 30 * Second < clock (env s))%Z →
       ∃ i before after sa, parallel (length (bfilter live retrieved)) = before ++ i :: after ∧
         bfilter live retrieved !! i = Some c ∧ worked turn before s3 sa ∧ collected nodes c sa s') ∧
    (successfulCount (prov s') = uint64 (successfulCount (prov s) + 1) ∧
     res = requeue_after (if (successfulCount (prov s') <=? 20)%Z then 10 * Second else Minute)).
Proof.
  intros H. apply Reconcile_steps in H as [[_ Hno]|H]; [by destruct (Hno res)|].
  destruct H as (retrieved & s1 & ncs & s2 & nodes & s3 & q & s4 & Hl & Hc & [Hnodes Hp3] & [(_ & _ & Ht3) Hn3] & Hloop & Hs' & Hok).
  destruct (Hok res eq_refl) as (errs & -> & Hnone & Hcount & Hres).
  set (resolved := resolvedProviderIDs ncs) in *. set (managed := bfilter live retrieved) in *.
  pose proof (gc_step_preorder _ (doomed_mono resolved managed)) as Hpre.
  pose proof (collect_respects resolved nodes managed) as Hresp.
  pose proof (parallelize_respects _ (length managed) _ Hresp s3) as [_ Hn4]. rewrite Hloop in Hn4. cbn [snd] in Hn4.
  exists retrieved, s1, s2, s3, ncs, nodes.
  split_and!; [done|done|done|done| |by rewrite Hcount, Hn4, Hn3|exact Hres].
  intros turn c Hcr Hdel Hfree Hage.
  assert (c ∈ managed) as Hm by (apply elem_of_bfilter; split; [by apply bool_decide_eq_true|done]).
  apply list_elem_of_lookup in Hm as [i Hi].
  assert (i < length managed) as Hlen by by eapply lookup_lt_Some.
  destruct (parallelize_turn _ _ _ _ _ Hloop i Hlen) as (before & after & sa & sb & Hsplit & Hbefore & Hrun & Hafter).
  rewrite Hnone in Hrun.
  2:{ eapply Nat.lt_le_trans; [exact Hlen|]. apply sublist_length, bfilter_sublist. }
  exists i, before, after, sa. split_and!; [done..|].
  pose proof (worked_respects _ _ _ _ _ (λ i _, Hresp i) Hbefore) as [(_ & _ & Hta) _].
  pose proof (worked_respects _ _ _ _ _ (λ i _, Hresp i) Hafter) as Hlast.
  assert (collected nodes c sa s4) as Hs4.
  { eapply collect_collected; [exact Hi| |exact Hrun|exact Hlast].
    apply andb_true_iff. split; [|apply Z.ltb_lt; cbn in *; lia].
    apply negb_true_iff, bool_decide_eq_false.
    intros (_ & nc & Hnc & Heq)%resolvedProviderIDs_spec. by apply (Hfree nc). }
  unfold collected, fleet in *. by rewrite Hs'.
Qed.
End lemmas.
End garbagecollection.

(** ** The cloud provider of this repository discharges the interface *)

Section cloudprovider_instance.
Context {W : Type} `{HC : !HasClock W} `{EI : !instance.EcsInstances W} `{KR : !KubeReader W}.
Context `{ER : !EventRecorder W}.
Context `{CN : !instancetypes.ClusterCNI W} `{NA : !NodeClaimApi W} `{ND : !NodeApi W}.

Definition world_step (instances : W → gset string) (X : gset string) (w w' : W) : Prop :=
  instances w ∖ X ⊆ instances w' ∧ instances w' ⊆ instances w ∧ (clock w ≤ clock w')%Z.

(** What is relied on of the services: [DeleteInstance] deletes the instance it
    is given and no other, the other calls delete none, and time passes. *)
Class EcsFleet := {
  instances : W → gset string;
  describe_keeps : ∀ tag tok w, world_step instances ∅ w (instance.DescribeInstances tag tok w).2;
  delete_only : ∀ id w, world_step instances {[id]} w (instance.DeleteInstance id w).2;
  delete_done : ∀ id w w', instance.DeleteInstance id w = (Ok (), w') → id ∉ instances w';
  pool_keeps : ∀ name w, world_step instances ∅ w (kube_NodePool name w).2;
  class_keeps : ∀ name w, world_step instances ∅ w (kube_NodeClass name w).2;
  cni_keeps : ∀ w, world_step instances ∅ w (instancetypes.GetClusterCNI w).2;
  claims_keeps : ∀ sel w, world_step instances ∅ w (list_NodeClaims sel w).2;
  nodes_keeps : ∀ k w, world_step instances ∅ w (list_Nodes k w).2;
  node_keeps : ∀ n w, world_step instances ∅ w (delete_Node n w).2;
  events_keep : ∀ evs w, world_step instances ∅ w (publish evs w);
}.

Context `{EF : !EcsFleet}.

#[local] Instance world_step_preorder X : PreOrder (world_step instances X).
Proof.
  split; unfold world_step.
  - intros w. split_and!; [set_solver|done|lia].
  - intros w1 w2 w3 (A1 & B1 & C1) (A2 & B2 & C2). split_and!; [set_solver|set_solver|lia].
Qed.
Notation env_step X := (on_env (world_step instances X)).

Lemma world_step_weaken X w w' : world_step instances ∅ w w' → world_step instances X w w'.
Proof. intros (A & B & C). split_and!; [set_solver|done|done]. Qed.

Lemma world_calls X :
  (∀ tag tok w, world_step instances X w (instance.DescribeInstances tag tok w).2) ∧
  (∀ name w, world_step instances X w (kube_NodePool name w).2) ∧
  (∀ name w, world_step instances X w (kube_NodeClass name w).2) ∧
  (∀ w, world_step instances X w (instancetypes.GetClusterCNI w).2) ∧
  (∀ evs w, world_step instances X w (publish evs w)).
Proof.
  split_and!; intros; apply world_step_weaken;
    [apply describe_keeps|apply pool_keeps|apply class_keeps|apply cni_keeps|apply events_keep].
Qed.

Context {RT : GoRuntime}.

Lemma env_Delete fuel id : respects (env_step {[id]}) (instance.Delete fuel id).
Proof. apply instance.Delete_respects; [apply _|apply world_calls|apply delete_only]. Qed.

Lemma Delete_gone fuel id s s' :
  instance.Delete fuel id s = (Ok (), s') → id ∉ instances (env s').
Proof.
  unfold instance.Delete. intros H. apply M_bind_Ok in H as (i & s1 & _ & H).
  destruct (_ || _); [done|]. apply M_bind_Ok in H as ([err|[]] & s2 & Hd & H).
  - apply M_bind_Ok in H as ([] & s3 & _ & H); [done|]. apply M_bind_Ok in H as ([e|j] & s4 & _ & H); [|done].
    by destruct (IsNodeClaimNotFoundError e).
  - apply M_bind_Ok in H as (p & s3 & Hp & H). injection Hp as <- <-. injection H as <-. cbn [env].
    apply attempt_Ok, call_Ok in Hd as [Hd _]. by apply delete_done in Hd.
Qed.

Context {P : Type} `{PV : !instancetypes.PricingView P} `{TH : !instancetypes.TypeHashes}.
Context (pct : float64) (pr : P) (fuel : nat).

#[export] Instance cloudprovider_api : CloudProviderApi cloudprovider.CloudProvider W := {|
  cp_List := cloudprovider.List_ pct pr fuel;
  cp_Delete := cloudprovider.Delete fuel;
|}.

#[export] Program Instance cloudprovider_fleet : garbagecollection.Fleet cloudprovider.CloudProvider W :=
  {| garbagecollection.machines := λ s, instances (env s) |}.
Next Obligation.
  destruct (world_calls ∅) as (Hd & Hp & Hc & Hn & He).
  exact (cloudprovider.fleet_List_respects _ pct pr fuel Hp Hc Hn He Hd).
Qed.
Next Obligation.
  intros c. change (respects (env_step (garbagecollection.named c)) (cloudprovider.Delete fuel c)).
  unfold cloudprovider.Delete, garbagecollection.named. intros s.
  destruct (ParseInstanceID (claim_ProviderID c)) as [id| |]; [|reflexivity..].
  rewrite (M_Ok_bind _ _ _ id s) by done. apply (cloudprovider.on_instances_respects _ _ (env_Delete fuel id)).
Qed.
Next Obligation.
  intros c s s' H. change (cloudprovider.Delete fuel c s = (Ok (), s')) in H. unfold cloudprovider.Delete in H.
  apply M_bind_Ok in H as (id & s1 & Hid & H). apply wrap_Ok in Hid. injection Hid as Hid <-.
  exists id. split; [done|]. apply cloudprovider.on_instances_Ok, Delete_gone in H. exact H.
Qed.
Next Obligation. intros sel p w. apply claims_keeps. Qed.
Next Obligation. intros k p w. apply nodes_keeps. Qed.
Next Obligation. intros n p w. apply node_keeps. Qed.
End cloudprovider_instance.

(** ** Example: one machine with a NodeClaim, one without *)

Module GarbageExample.
Import ApiServer.

Record world := MkWorld { w_fleet : gset string; w_server : server }.
Definition on_server {A} (f : server → A * server) (w : world) : A * world :=
  let '(r, sv) := f (w_server w) in (r, MkWorld (w_fleet w) sv).
#[local] Instance world_clock : HasClock world := λ w, sv_time (w_server w).
#[local] Instance world_ecs : instance.EcsInstances world := {|
  instance.DescribeInstances := λ _ _ w,
    (Ok (Some (instance.MkInstancesPage None
       (Some ((λ id, LaunchExample.ecs id "Running") <$> elements (w_fleet w))))), w);
  instance.DeleteInstance := λ id w, (Ok (), MkWorld (w_fleet w ∖ {[id]}) (w_server w));
  instance.AddTags := λ _ _ w, (Ok (), w);
  instance.CreateAutoProvisioningGroup := λ _ w, (Ok None, w);
|}.
#[local] Instance world_kube : KubeReader world := {|
  kube_NodePool := λ name w, (not_found name, w);
  kube_NodeClass := λ name w, (not_found name, w);
|}.
#[local] Instance world_events : EventRecorder world := λ evs w, MkWorld (w_fleet w) (publish evs (w_server w)).
#[local] Instance world_cni : instancetypes.ClusterCNI world := λ w, (Ok "flannel", w).
#[local] Instance world_claims : NodeClaimApi world := {|
  list_NodeClaims := λ sel, on_server (list_NodeClaims sel);
  patch_NodeClaim := λ a b, on_server (patch_NodeClaim a b);
  delete_NodeClaim := λ c, on_server (delete_NodeClaim c);
|}.
#[local] Instance world_nodes : NodeApi world := {|
  list_Nodes := λ k, on_server (list_Nodes k);
  patch_Node := λ a b, on_server (patch_Node a b);
  delete_Node := λ n, on_server (delete_Node n);
|}.

Lemma on_server_run {A} (f : server → A * server) w r w' :
  on_server f w = (r, w') → f (w_server w) = (r, w_server w').
Proof. unfold on_server. destruct (f (w_server w)) as [r0 sv]. by intros [= <- <-]. Qed.

#[local] Program Instance world_store : ClaimStore world := {| claims := λ w, claims (w_server w) |}.
Next Obligation. intros w name c. apply claims_named. Qed.
Next Obligation. intros sel w r w' H%on_server_run. by apply list_keeps in H. Qed.
Next Obligation. intros sel w l w' H%on_server_run. by apply list_complete in H. Qed.
Next Obligation. intros a b w c' w' H%on_server_run Hann. by apply (patch_writes a b _ c'). Qed.
Next Obligation. intros a b w r w' H%on_server_run Hr. by apply (patch_fails a b _ r). Qed.
Next Obligation. intros a b w e w' H%on_server_run He. by apply (patch_not_found a b _ e _ H). Qed.
Next Obligation. intros c w w' H%on_server_run. by apply delete_marks in H. Qed.
Next Obligation. intros c w r w' H%on_server_run Hr. by apply (delete_fails c _ r). Qed.
Next Obligation. intros c w e w' H%on_server_run He. by apply (delete_not_found c _ e _ H). Qed.

#[local] Program Instance world_ecs_fleet : EcsFleet (W := world) := {| instances := w_fleet |}.
Next Obligation. intros tag tok w. split_and!; [set_solver|done|apply Z.le_refl]. Qed.
Next Obligation. intros id w. split_and!; cbn [snd w_fleet]; [done|set_solver|apply Z.le_refl]. Qed.
Next Obligation. intros id w w' [= <-]. cbn. set_solver. Qed.
Next Obligation. intros name w. split_and!; [set_solver|done|apply Z.le_refl]. Qed.
Next Obligation. intros name w. split_and!; [set_solver|done|apply Z.le_refl]. Qed.
Next Obligation. intros w. split_and!; [set_solver|done|apply Z.le_refl]. Qed.
Next Obligation. intros sel [f sv]. split_and!; [set_solver|done|apply Z.le_refl]. Qed.
Next Obligation. intros k [f sv]. split_and!; [set_solver|done|apply Z.le_refl]. Qed.
Next Obligation. intros n [f sv]. split_and!; [set_solver|done|apply Z.le_refl]. Qed.
Next Obligation. intros evs [f sv]. split_and!; [set_solver|done|apply Z.le_refl]. Qed.

#[local] Program Instance backwards : ParallelOrder := {| parallel n := reverse (seq 0 n) |}.
Next Obligation. intros n. by rewrite reverse_Permutation. Qed.

Definition kept : NodeClaim :=
  MkNodeClaim (MkMeta "kept" "" ∅ ∅ [] 0 None) None [] ∅ "" "cn-hangzhou.i-kept" "" ∅ ∅ [].
Definition an_hour_later : Z := (1727775000 * Second)%Z.
Definition w0 : world :=
  MkWorld {["i-kept"; "i-orphan"]} (MkServer an_hour_later {["kept" := kept]} ∅ []).
Definition start : St (garbagecollection.Controller cloudprovider.CloudProvider) world :=
  MkSt (garbagecollection.MkController CloudExample.providers 0) w0.
#[local] Instance provider : CloudProviderApi cloudprovider.CloudProvider world :=
  cloudprovider_api InstanceTypesExample.pct SelectExample.p10 5.
#[local] Instance provider_fleet : garbagecollection.Fleet cloudprovider.CloudProvider world :=
  cloudprovider_fleet InstanceTypesExample.pct SelectExample.p10 5.

Lemma fleet_world s : garbagecollection.fleet s = w_fleet (env s).
Proof. reflexivity. Qed.

Definition run := garbagecollection.Reconcile start.

Lemma run_deletes : w_fleet (env run.2) = {["i-kept"]}.
Proof. vm_compute. reflexivity. Qed.
Lemma gc_run_ok : run = (Ok (requeue_after (10 * Second)), run.2).
Proof. vm_compute. reflexivity. Qed.

Lemma Reconcile_spares_witness :
  ∃ c, ParseInstanceID (claim_ProviderID c) = Ok "i-orphan" ∧
    meta_DeletionTimestamp (claim_Meta c) = None ∧
    (meta_CreationTimestamp (claim_Meta c) + 30 * Second < an_hour_later)%Z.
Proof.
  destruct (garbagecollection.Reconcile_spares start run.2 _ "i-orphan" gc_run_ok)
    as (retrieved & sl & c & _ & _ & Hid & Hd & Ht & _).
  - rewrite fleet_world. cbn [env start]. decide_compute.
  - rewrite fleet_world, run_deletes. decide_compute.
  - exists c. split_and!; [exact Hid|exact Hd|exact Ht].
Defined.

(** The machine without a NodeClaim gets its turn, and is gone. *)
Lemma Reconcile_collects_witness :
  garbagecollection.successfulCount (prov run.2) = 1%Z ∧
  ∃ retrieved nodes s1, cp_List (garbagecollection.under start) = (Ok retrieved, garbagecollection.under s1) ∧
    ∀ c, c ∈ retrieved → meta_DeletionTimestamp (claim_Meta c) = None →
      claim_ProviderID c ≠ "cn-hangzhou.i-kept" →
      (meta_CreationTimestamp (claim_Meta c) + 30 * Second < an_hour_later)%Z →
      ∃ sa, garbagecollection.collected nodes c sa run.2.
Proof.
  destruct (garbagecollection.Reconcile_collects start run.2 _ gc_run_ok)
    as (retrieved & s1 & s2 & s3 & ncs & nodes & Hl & Hc & _ & _ & Hall & Hcount & _).
  split; [exact Hcount|]. exists retrieved, nodes, s1. split; [exact Hl|]. intros c Hin Hd Hne Hage.
  destruct (Hall c Hin Hd) as (i & before & after & sa & _ & _ & _ & Hcol); [|exact Hage|by exists sa].
  intros nc Hnc Heq. apply Hne. rewrite <- Heq.
  assert (claims (env s1) = {["kept" := kept]}) as Hcl.
  { pose proof (f_equal (λ r, env r.2) Hl) as E. cbn [snd env garbagecollection.under] in E.
    rewrite <- E. vm_compute. reflexivity. }
  destruct (list_complete _ _ _ _ Hc) as [_ Hcomp]. apply Hcomp in Hnc as [Hnc _].
  rewrite Hcl in Hnc. by apply lookup_singleton_Some in Hnc as [_ <-].
Defined.
End GarbageExample.
