(* ===== verification/Tagging.v ===== *)
(** * The tagging controller (pkg/controllers/nodeclaim/tagging)

    Tags the machine of a NodeClaim with the node name, the NodeClaim and the
    cluster once the node name is known, and remembers it on the NodeClaim. *)

From S2P Require Import Prelude Effects GoCache Labels Scheduling CloudTypes Apis Conditions Utils.
From S2P Require Import InstanceSelect InstanceProvider CloudProvider KubeApi GarbageCollection.

(** [time.Sleep]. *)
Class Sleeper (W : Type) := sleep : Z → W → W.

Module tagging.

(** ** controller.go *)

Definition isTaggable (nc : NodeClaim) : bool :=
  let annotation k := default "" (claim_Annotations nc !! k) in
  if bool_decide (annotation AnnotationInstanceTagged = "true")
     && bool_decide (annotation AnnotationClusterNameTaggedCompatability = "true") then false
  else if bool_decide (claim_NodeName nc = "") then false
  else bool_decide (meta_DeletionTimestamp (claim_Meta nc) = None).

Definition wanted_tags (ClusterID : string) (nc : NodeClaim) : gmap string string :=
  {[TagName := claim_NodeName nc; TagNodeClaim := claim_Name nc; ECSClusterIDTagKey := ClusterID]}.

(** [lo.OmitByKeys] with the keys of the instance's tags. *)
Definition missing_tags (ClusterID : string) (nc : NodeClaim) (i : instance.Instance) : gmap string string :=
  filter (λ kv, instance.Tags i !! kv.1 = None) (wanted_tags ClusterID nc).

Definition tagged (nc : NodeClaim) : NodeClaim :=
  claim_set_Annotations
    (lo_assign (claim_Annotations nc)
       {[AnnotationInstanceTagged := "true"; AnnotationClusterNameTaggedCompatability := "true"]}) nc.

Section controller.
Context {RT : GoRuntime} {W : Type} `{HC : !HasClock W} `{EI : !instance.EcsInstances W}.
Context `{NA : !NodeClaimApi W} `{SL : !Sleeper W}.
(** The ClusterID option, and the number of result pages read at most. *)
Context (ClusterID : string) (fuel : nat).
Notation S' := (St instance.DefaultProvider W).

(** The deferred sleep runs whether the call succeeds or not. *)
Definition tagInstance (nc : NodeClaim) (id : string) : M S' () :=
  i ← wrap "tagging nodeclaim" (instance.Get_ fuel id);
  let tags := missing_tags ClusterID nc i in
  if bool_decide (tags = ∅) then mret ()
  else
    r ← attempt (wrap "tagging nodeclaim" (instance.CreateTags fuel id tags));
    _ ← call (λ w, (Ok (), sleep Second w));
    match r with
    | inl e => fail e
    | inr _ => mret ()
    end.

Definition Reconcile (nc : NodeClaim) : M S' Result :=
  if negb (isTaggable nc) then mret no_requeue
  else
    match ParseInstanceID (claim_ProviderID nc) with
    | Err _ => mret no_requeue
    | Panic => lift Panic
    | Ok id =>
        r ← attempt (tagInstance nc id);
        match r with
        | inl e =>
            match IgnoreNodeClaimNotFoundError (Some e) with
            | Some e' => fail e'
            | None => mret no_requeue
            end
        | inr _ =>
            if bool_decide (tagged nc = nc) then mret no_requeue
            else
              p ← attempt (call (patch_NodeClaim nc (tagged nc)));
              match p with
              | inl e => match IgnoreNotFound (Some e) with Some e' => fail e' | None => mret no_requeue end
              | inr _ => mret no_requeue
              end
        end
    end.
End controller.

(** ** Lemmas *)

(** The calls of the controller that do not concern NodeClaims leave them alone. *)
Class MachinesApart (W : Type) `{EI : !instance.EcsInstances W} `{NA : !NodeClaimApi W} `{CS : !ClaimStore W}
    `{SL : !Sleeper W} := {
  describe_claims : ∀ tag token w, claims (instance.DescribeInstances tag token w).2 = claims w;
  tags_claims : ∀ id l w, claims (instance.AddTags id l w).2 = claims w;
  sleep_claims : ∀ d w, claims (sleep d w) = claims w;
}.

Lemma lookup_missing ClusterID nc i k v :
  missing_tags ClusterID nc i !! k = Some v ↔
  wanted_tags ClusterID nc !! k = Some v ∧ instance.Tags i !! k = None.
Proof. unfold missing_tags. by rewrite map_lookup_filter_Some. Qed.

Lemma tagged_lookup nc :
  claim_Annotations (tagged nc) !! AnnotationInstanceTagged = Some "true" ∧
  claim_Annotations (tagged nc) !! AnnotationClusterNameTaggedCompatability = Some "true".
Proof.
  unfold tagged. rewrite claim_Annotations_set, !lookup_lo_assign, lookup_insert_eq.
  split; [done|]. rewrite lookup_insert_ne by decide_compute. by rewrite lookup_singleton_eq.
Qed.

Lemma isTaggable_tagged c c' :
  claim_Annotations c' = claim_Annotations (tagged c) → isTaggable c' = false.
Proof.
  intros Ha. unfold isTaggable. destruct (tagged_lookup c) as [H1 H2]. rewrite Ha, H1, H2.
  reflexivity.
Qed.

Section tagging.
Context {RT : GoRuntime} {W : Type} `{HC : !HasClock W} `{EI : !instance.EcsInstances W}.
Context `{NA : !NodeClaimApi W} `{SL : !Sleeper W} `{CS : !ClaimStore W} `{MA : !MachinesApart W}.
Context (ClusterID : string) (fuel : nat).
Notation S' := (St instance.DefaultProvider W).

Definition same_claims (w w' : W) : Prop := claims w' = claims w.
#[local] Instance same_claims_preorder : PreOrder same_claims.
Proof. split; unfold same_claims; [done|]. intros w1 w2 w3 H1 H2. by rewrite H2. Qed.

Lemma tagInstance_respects nc id : respects (on_env same_claims) (tagInstance ClusterID fuel nc id).
Proof.
  unfold tagInstance. respects_walk.
  - apply instance.Get_respects; [apply _|apply describe_claims].
  - apply instance.CreateTags_respects; [apply _|apply describe_claims|apply tags_claims].
  - apply on_env_call. intros w. apply sleep_claims.
Qed.

(** What a machine is to be tagged with: the name of the node, the NodeClaim and
    the cluster, each unless the machine has a tag of that key. *)
Definition due (nc : NodeClaim) (i : instance.Instance) (kv : string * string) : Prop :=
  instance.Tags i !! kv.1 = None ∧
  (kv = ("Name", claim_NodeName nc) ∨ kv = ("karpenter.sh/nodeclaim", claim_Name nc) ∨
   kv = ("ecs:ecs-cluster-id", ClusterID)).
Lemma missing_due nc i k v : missing_tags ClusterID nc i !! k = Some v ↔ due nc i (k, v).
Proof.
  rewrite lookup_missing. unfold due, wanted_tags. cbn [fst].
  change "Name" with TagName. change "karpenter.sh/nodeclaim" with TagNodeClaim.
  change "ecs:ecs-cluster-id" with ECSClusterIDTagKey. rewrite !lookup_insert_Some, lookup_singleton_Some.
  assert (TagName ≠ TagNodeClaim ∧ TagName ≠ ECSClusterIDTagKey ∧ TagNodeClaim ≠ ECSClusterIDTagKey) as (?&?&?)
    by (split_and!; decide_compute).
  split.
  - intros [[[<- <-]|[_ [[<- <-]|[_ [<- <-]]]]] Hn]; auto.
  - intros [Hn [[= -> ->]|[[= -> ->]|[= -> ->]]]]; auto 10.
Qed.

(** The tags sent, in the world after the machine was read: those due, each once;
    none is sent when none is due. *)
Definition tags_sent (nc : NodeClaim) (id : string) (i : instance.Instance) (s1 s2 : S') : Prop :=
  ((∀ kv, ¬ due nc i kv) ∧ s2 = s1) ∨
  ∃ l w, instance.AddTags id l (env s1) = (Ok (), w) ∧ l ≠ [] ∧ NoDup l.*1 ∧ ∀ kv, kv ∈ l ↔ due nc i kv.

Lemma tagInstance_sent nc id (s s' : S') :
  tagInstance ClusterID fuel nc id s = (Ok (), s') →
  ∃ i s1, instance.Get_ fuel id s = (Ok i, s1) ∧ tags_sent nc id i s1 s'.
Proof.
  unfold tagInstance. intros H. apply M_bind_Ok in H as (i & s1 & Hget & H). apply wrap_Ok in Hget.
  exists i, s1. split; [done|]. case_bool_decide as Hm.
  { left. injection H as <-. split; [|done]. intros [k v] Hd%missing_due. by rewrite Hm, lookup_empty in Hd. }
  right. apply M_bind_Ok in H as (r & s2 & Hr & H). apply M_bind_Ok in H as ([] & s3 & _ & H).
  destruct r as [e|[]]; [done|]. apply attempt_Ok, wrap_Ok in Hr. unfold instance.CreateTags in Hr.
  apply M_bind_Ok in Hr as (a & s4 & Ha & Hr). destruct a as [e|[]].
  { by apply M_bind_Ok in Hr as ([] & s5 & _ & Hr). }
  apply attempt_Ok, call_Ok in Ha as [Ha _]. do 2 eexists. split; [exact Ha|].
  set (m := missing_tags ClusterID nc i) in *. assert (range_map 31 m ≡ₚ map_to_list m) as Hperm by apply range_map_perm. split_and!.
  - intros Hnil. apply Hm. rewrite Hnil in Hperm. apply map_to_list_empty_iff. by apply Permutation_nil_l in Hperm.
  - rewrite Hperm. apply NoDup_fst_map_to_list.
  - intros [k v]. rewrite Hperm, elem_of_map_to_list. apply missing_due.
Qed.

(** A NodeClaim to be tagged: it has a node, is not being deleted, and is not
    marked with both annotations. *)
Definition taggable (nc : NodeClaim) : Prop :=
  claim_NodeName nc ≠ "" ∧ meta_DeletionTimestamp (claim_Meta nc) = None ∧
  ¬ (claim_Annotations nc !! AnnotationInstanceTagged = Some "true" ∧
     claim_Annotations nc !! AnnotationClusterNameTaggedCompatability = Some "true").
Lemma isTaggable_spec nc : isTaggable nc = true ↔ taggable nc.
Proof.
  unfold isTaggable, taggable.
  assert (∀ o : option string, default "" o = "true" ↔ o = Some "true") as Hd
    by (intros [x|]; cbn; split; by intros [= ->] || done).
  destruct (bool_decide (default "" (claim_Annotations nc !! AnnotationInstanceTagged) = "true")
    && bool_decide (default "" (claim_Annotations nc !! AnnotationClusterNameTaggedCompatability) = "true")) eqn:Ht.
  - rewrite andb_true_iff, !bool_decide_eq_true, !Hd in Ht. split; [done|]. tauto.
  - rewrite andb_false_iff, !bool_decide_eq_false, !Hd in Ht.
    case_bool_decide; [split; [done|tauto]|]. rewrite bool_decide_eq_true. tauto.
Qed.

(** The NodeClaim with both annotations, and nothing else changed. *)
Definition marked (nc nc' : NodeClaim) : Prop :=
  nc' = claim_set_Annotations (claim_Annotations nc') nc ∧
  ∀ k, claim_Annotations nc' !! k =
    if bool_decide (k = AnnotationInstanceTagged ∨ k = AnnotationClusterNameTaggedCompatability)
    then Some "true" else claim_Annotations nc !! k.
Lemma tagged_marked nc : marked nc (tagged nc).
Proof.
  split; [unfold tagged; by rewrite claim_Annotations_set|]. intros k.
  destruct (tagged_lookup nc) as [H1 H2]. case_bool_decide as Hk; [by destruct Hk as [->| ->]|].
  unfold tagged. rewrite claim_Annotations_set, lookup_lo_assign.
  by rewrite lookup_insert_ne, lookup_singleton_ne by naive_solver.
Qed.

(** C28. A NodeClaim to be tagged (it has a node name, is not being deleted, and
    is not marked with both annotations) whose reconciliation succeeds: its
    machine is read and, in that state of the world, exactly those of
    the three tags (node name, NodeClaim, cluster) whose keys the machine lacks
    are added to it, so that no tag of the machine is overwritten, and no call is
    made when it has them all; then the NodeClaim is marked with both annotations,
    nothing else of it being changed, so that it is not tagged again.  If the machine
    is reported as not found, no NodeClaim is changed.  A NodeClaim that is not
    to be tagged, or whose provider ID names no machine, causes no call at all. *)
Theorem Reconcile_tags nc (s s' : S') res :
  claims (env s) !! claim_Name nc = Some nc → Reconcile ClusterID fuel nc s = (Ok res, s') →
  (∀ id, taggable nc → ParseInstanceID (claim_ProviderID nc) = Ok id →
     (∃ e s1, tagInstance ClusterID fuel nc id s = (Err e, s1) ∧ IsNodeClaimNotFoundError e = true ∧
        claims (env s') = claims (env s)) ∨
     ∃ i s1 s2 nc', instance.Get_ fuel id s = (Ok i, s1) ∧ tags_sent nc id i s1 s2 ∧
       tagInstance ClusterID fuel nc id s = (Ok (), s2) ∧
       claims (env s') = <[claim_Name nc := nc']> (claims (env s)) ∧ marked nc nc' ∧ ¬ taggable nc') ∧
  (¬ taggable nc ∨ (∀ id, ParseInstanceID (claim_ProviderID nc) ≠ Ok id) → s' = s) ∧ res = no_requeue.
Proof.
  intros Hnc. unfold Reconcile. destruct (isTaggable nc) eqn:Hable; cbn [negb].
  2:{ intros [= <- <-]. split_and!; [|done|done]. intros id Hno%isTaggable_spec. by rewrite Hno in Hable. }
  apply isTaggable_spec in Hable.
  destruct (ParseInstanceID (claim_ProviderID nc)) as [id|e|] eqn:Hid; [|by intros [= <- <-]|done].
  intros H. unfold mbind at 1, M_bind at 1, attempt at 1 in H.
  pose proof (tagInstance_respects nc id s) as Hsame. unfold on_env, same_claims in Hsame.
  assert (∀ X : Prop, ¬ taggable nc ∨ (∀ id', Ok (A := string) id ≠ Ok id') → X) as Hout
    by (intros X [?|Hno]; [done|by destruct (Hno id)]).
  destruct (tagInstance ClusterID fuel nc id s) as [[[]|e|] s1] eqn:Htag; cbn [snd] in Hsame; [..|done].
  2:{ cbn [IgnoreNodeClaimNotFoundError] in H. destruct (IsNodeClaimNotFoundError e) eqn:He; [|done].
      injection H as <- <-. split_and!; [|apply Hout|done]. intros id' _ [= <-]. left. by exists e, s1. }
  pose proof (tagInstance_sent _ _ _ _ Htag) as (i & s2 & Hget & Hsent).
  assert (claims (env s') = <[claim_Name nc := tagged nc]> (claims (env s)) ∧ res = no_requeue) as [Hw Hres].
  { case_bool_decide as Heq.
    { injection H as <- <-. split; [|done]. rewrite Hsame, Heq. by rewrite insert_id. }
    unfold mbind, M_bind, attempt in H. destruct s1 as [p w1].
    destruct (patch_NodeClaim nc (tagged nc) w1) as [q w2] eqn:Hp.
    rewrite (call_run _ p w1 q w2 Hp) in H. cbn [env] in *. destruct q as [c'|e|]; [..|done].
    - injection H as <- <-. split; [|done]. cbn [env].
      destruct (patch_writes _ _ _ _ _ Hp) as (cur & Hcur & ->).
      { exists (claim_Annotations (tagged nc)), (claim_Conditions nc). by destruct nc. }
      rewrite Hsame in Hcur |- *. rewrite Hnc in Hcur. injection Hcur as <-. by rewrite map_patch_same.
    - cbn [IgnoreNotFound] in H. destruct (IsNotFound e) eqn:He; [|done].
      apply (patch_not_found _ _ _ _ _ Hp) in He. congruence. }
  split_and!; [|apply Hout|exact Hres]. intros id' _ [= <-]. right. exists i, s2, s1, (tagged nc).
  split_and!; [done..|apply tagged_marked|].
  intros Hno%isTaggable_spec. by rewrite (isTaggable_tagged nc) in Hno.
Qed.
End tagging.
End tagging.

(** ** Example *)

Module TaggingExample.
Import ApiServer GarbageExample.

#[local] Existing Instances world_clock world_ecs world_claims world_store.
#[local] Instance world_sleep : Sleeper world := λ d w,
  MkWorld (w_fleet w) (MkServer (sv_time (w_server w) + d) (sv_claims (w_server w)) (sv_nodes (w_server w))
    (sv_events (w_server w))).
#[local] Program Instance world_apart : tagging.MachinesApart world := {}.
Next Obligation. done. Qed.
Next Obligation. done. Qed.
Next Obligation. done. Qed.

Definition named_claim : NodeClaim :=
  MkNodeClaim (MkMeta "kept" "" ∅ ∅ [] 0 None) None [] ∅ "node-1" "cn-hangzhou.i-kept" "" ∅ ∅ [].
Definition w1 : world := MkWorld {["i-kept"]} (MkServer an_hour_later {["kept" := named_claim]} ∅ []).
Definition start : St instance.DefaultProvider world := MkSt LaunchExample.fresh w1.
Definition run := tagging.Reconcile "c1" 5 named_claim start.

Lemma tagging_run_ok : run = (Ok no_requeue, run.2).
Proof. vm_compute. reflexivity. Qed.

(** The machine has no tags: all three are sent. *)
Lemma Reconcile_tags_witness :
  ∃ i s1 l w, instance.Get_ 5 "i-kept" start = (Ok i, s1) ∧ instance.AddTags "i-kept" l (env s1) = (Ok (), w) ∧
    ∀ kv, kv ∈ l ↔ tagging.due "c1" named_claim i kv.
Proof.
  destruct (tagging.Reconcile_tags "c1" 5 named_claim start run.2 no_requeue) as [H _];
    [vm_compute; reflexivity|exact tagging_run_ok|].
  destruct (H "i-kept") as [(e & s1 & He & _)|(i & s1 & s2 & nc' & Hget & Hsent & _)].
  - apply tagging.isTaggable_spec. vm_compute. reflexivity.
  - vm_compute. reflexivity.
  - vm_compute in He. discriminate He.
  - exists i, s1. destruct Hsent as [[Hnone _]|(l & w & Hadd & _ & _ & Hl)].
    + exfalso. apply (Hnone ("ecs:ecs-cluster-id", "c1")). split; [|by right; right].
      vm_compute in Hget. injection Hget as <- _. vm_compute. reflexivity.
    + exists l, w. split; [exact Hget|]. split; [exact Hadd|exact Hl].
Defined.
End TaggingExample.
