(* ===== verification/Interruption.v ===== *)
(** * The interruption controller (pkg/controllers/interruption)

    A spot node whose machine is being reclaimed reports the condition
    InstanceExpired.  The controller deletes the NodeClaim of the node, so that
    karpenter replaces it, and records the spot offering as unavailable. *)

From S2P Require Import Prelude Effects GoCache UnavailableOfferings Labels Scheduling CloudTypes.
From S2P Require Import Apis Conditions KubeApi.

Module interruption.

Definition ConditionTypeInstanceExpired : string := "InstanceExpired".

(** ** events/events.go *)

(** The node is given in every call. *)
Definition TerminatingOnInterruption (node : Node) (nodeClaim : NodeClaim) : list Event :=
  [MkEvent (OnNodeClaim nodeClaim) "Warning" "TerminatingOnInterruption"
     "Interruption triggered termination for the NodeClaim" [meta_UID (claim_Meta nodeClaim)];
   MkEvent (OnNode node) "Warning" "TerminatingOnInterruption"
     "Interruption triggered termination for the Node" [meta_UID (node_Meta node)]].

(** ** controller.go *)

(** The event filter of the controller. *)
Definition watched (labels : gmap string string) : bool :=
  match labels !! CapacityTypeLabelKey with
  | Some label => bool_decide (label = CapacityTypeSpot)
  | None => false
  end.

Definition expired (c : NodeCondition) : bool :=
  bool_decide (ncond_Type c = ConditionTypeInstanceExpired)
  && bool_decide (ncond_Status c = ConditionTrue).

(** What the controller reads of a NodeClaim's labels. *)
Definition claim_label (k : string) (c : NodeClaim) : string := default "" (claim_Labels c !! k).

Section controller.
Context {W : Type} `{HC : !HasClock W} `{NA : !NodeClaimApi W} `{ER : !EventRecorder W}.
Notation S' := (St UnavailableOfferings W).

Definition getNodeClaimByNodeName (nodeName : string) : M S' NodeClaim :=
  l ← call (list_NodeClaims None);
  match lo_find (λ c, bool_decide (claim_NodeName c = nodeName)) l with
  | Some c => mret c
  | None => fail (ErrorString ("no nodeclaim found for node " +:+ nodeName))
  end.

Definition deleteNodeClaim (nodeClaim : NodeClaim) (node : Node) : M S' () :=
  match meta_DeletionTimestamp (claim_Meta nodeClaim) with
  | Some _ => mret ()
  | None =>
      r ← attempt (call (delete_NodeClaim nodeClaim));
      match r with
      | inl e => match IgnoreNotFound (Some (WrapError "deleting the node on interruption message" e)) with
                 | Some e' => fail e'
                 | None => mret ()
                 end
      | inr _ => record_events (TerminatingOnInterruption node nodeClaim)
      end
  end.

Definition mark_offering (nodeClaim : NodeClaim) : M S' () :=
  let zone := claim_label LabelTopologyZone nodeClaim in
  let instanceType := claim_label LabelInstanceTypeStable nodeClaim in
  if negb (bool_decide (zone = "")) && negb (bool_decide (instanceType = "")) then
    u ← get_prov;
    t ← now;
    set_prov (MarkUnavailable t instanceType zone CapacityTypeSpot u)
  else mret ().

(** The result is returned with the error, if any. *)
Definition Reconcile (node : Node) : M S' (Result * option error) :=
  match lo_find expired (node_Conditions node) with
  | None => mret (no_requeue, None)
  | Some _ =>
      r ← attempt (getNodeClaimByNodeName (node_Name node));
      match r with
      | inl e => mret (requeue_after (5 * Second), Some e)
      | inr nodeClaim =>
          _ ← mark_offering nodeClaim;
          d ← attempt (deleteNodeClaim nodeClaim node);
          match d with
          | inl e => mret (requeue_after (5 * Second), Some e)
          | inr _ => mret (no_requeue, None)
          end
      end
  end.
End controller.

(** ** Lemmas *)

Section properties.
Context {W : Type} `{HC : !HasClock W} `{NA : !NodeClaimApi W} `{ER : !EventRecorder W}.
Context `{CS : !ClaimStore W} `{EA : !EventsApart W}.
Notation S' := (St UnavailableOfferings W).

Lemma mark_offering_run c (s : S') :
  ∃ u, mark_offering c s = (Ok (), MkSt u (env s)) ∧
    ((0 ≤ clock (env s))%Z → claim_label LabelTopologyZone c ≠ "" → claim_label LabelInstanceTypeStable c ≠ "" →
     ∀ t, (t ≤ clock (env s) + UnavailableOfferingsTTL)%Z →
       IsUnavailable t (claim_label LabelInstanceTypeStable c) (claim_label LabelTopologyZone c)
         CapacityTypeSpot u = true).
Proof.
  unfold mark_offering. destruct s as [u w]. case_bool_decide as Hz; [exists u; split; [done|by intros _ ?]|].
  case_bool_decide as Hi; [exists u; split; [done|by intros _ _ ?]|]. cbn [negb andb].
  eexists. split; [reflexivity|]. intros Hnow _ _ t Ht. by apply mark_unavailable_for.
Qed.

Lemma deleteNodeClaim_done c node (s s' : S') :
  claims (env s) !! claim_Name c = Some c → deleteNodeClaim c node s = (Ok (), s') →
  prov s' = prov s ∧
  (∀ name, name ≠ claim_Name c → claims (env s') !! name = claims (env s) !! name) ∧
  ∀ c', claims (env s') !! claim_Name c = Some c' → is_Some (meta_DeletionTimestamp (claim_Meta c')).
Proof.
  intros Hc. unfold deleteNodeClaim. destruct (meta_DeletionTimestamp (claim_Meta c)) as [t|] eqn:Hd.
  { intros [= <-]. split_and!; [done..|]. intros c'. rewrite Hc. intros [= <-]. by exists t. }
  destruct s as [u w]. destruct (delete_NodeClaim c w) as [q w1] eqn:Hdel.
  unfold mbind, M_bind, attempt. rewrite (call_run _ u w q w1 Hdel). destruct q as [[]|e|]; [..|done].
  - intros [= <-]. cbn [env prov]. rewrite publish_claims. destruct (delete_marks _ _ _ Hdel) as [Hsame Hmark].
    split_and!; [done| |exact Hmark]. intros name Hne.
    by rewrite <- (lookup_delete_ne (claims w1) (claim_Name c)), Hsame, lookup_delete_ne.
  - cbn [IgnoreNotFound]. rewrite IsNotFound_wrap. destruct (IsNotFound e) eqn:He; [|done]. intros [= <-].
    apply (delete_not_found _ _ _ _ Hdel) in He. cbn [env] in Hc. congruence.
Qed.

End properties.
End interruption.

(** ** Example *)

Module InterruptionExample.
Import ApiServer.

Definition reclaimed : Node :=
  MkNode (MkMeta "node-1" "" ∅ ∅ [] 0 None) "" []
    [MkNodeCondition "InstanceExpired" ConditionTrue "InstanceToBeTerminated" 4] ∅.
Definition claim_1 : NodeClaim :=
  MkNodeClaim (MkMeta "claim-1" "" {[LabelTopologyZone := "cn-hangzhou-a"; LabelInstanceTypeStable := "ecs.g6.large"]}
      ∅ ["karpenter.sh/termination"] 0 None) None [] ∅ "node-1" "" "" ∅ ∅ [].
Definition cluster : server := MkServer 5 {["claim-1" := claim_1]} ∅ [].
Definition start : St UnavailableOfferings server := MkSt NewUnavailableOfferings cluster.
Definition run := interruption.Reconcile reclaimed start.

Lemma interruption_run_ok : run = (Ok (no_requeue, None), run.2).
Proof. vm_compute. reflexivity. Qed.

End InterruptionExample.
