(* ===== verification/Telemetry.v ===== *)
(** * The telemetry controller (pkg/controllers/telemetry)

    Reports the resources of the cluster once per process, and each node whose
    spot machine is being reclaimed.  The reports go to a remote endpoint whose
    answer does not matter; what cannot be read is reported as zero.  The HTTP
    client, the listings of pods and metrics and the hash of the cluster's
    identifier are parameters.  The payloads are the values that are marshalled. *)

From S2P Require Import Prelude Effects GoText Labels Scheduling CloudTypes Apis Conditions KubeApi Interruption.

Module telemetry.

Definition CloudProviderName : string := "alibabacloud".
Definition LabelZoneRegion : string := "failure-domain.beta.kubernetes.io/region".
Definition LabelZoneFailureDomain : string := "failure-domain.beta.kubernetes.io/zone".
Definition karpenterInitializedKey : string := "karpenter.sh/initialized".
Definition defaultTelemetryEndpoint : string := "https://api.cloudpilot.ai/api/v1/telemetry".
Definition resourcesInfoPath (hash : string) : string := "/clusters/" +:+ hash +:+ "/resourcesInfo".
Definition interruptionEventPath (hash : string) : string := "/clusters/" +:+ hash +:+ "/interruptionEvent".

(** ** Payloads *)

Record ClusterResourcesInfo := MkInfo {
  CPUUsage : Z; MemoryUsage : Z;
  CPURequest : Z; MemoryRequest : Z;
  CPUCapacity : Z; MemoryCapacity : Z;
  InstanceTypes : list string;
}.
Record InterruptionEvent := MkInterruption {
  ev_CloudProvider : string;
  ev_Timestamp : Z;
  ev_Region : string;
  ev_Zone : string;
  ev_InstanceType : string;
  ev_InstanceCreateTimestamp : Z;
}.
Inductive Payload :=
  | ResourcesInfo (i : ClusterResourcesInfo)
  | Interrupted (e : InterruptionEvent).

(** ** Requests of pods (karpenter's pkg/utils/resources, vendored) *)

Record Container := MkContainer {
  ct_Requests : ResourceList;
  ct_Limits : ResourceList;
  ct_RestartAlways : bool;
}.
Record Pod := MkPod {
  pod_Containers : list Container;
  pod_InitContainers : list Container;
  pod_Overhead : ResourceList;
}.

Definition MergeResourceLimitsIntoRequests (c : Container) : ResourceList := ct_Requests c ∪ ct_Limits c.
Definition MaxResources (a b : ResourceList) : ResourceList :=
  union_with (λ x y, Some (if (x <? y)%Z then y else x)) a b.

(** The totals while the init containers are visited: the requests, those of
    the restartable init containers so far, and the largest need of one. *)
Definition init_step (acc : ResourceList * ResourceList * ResourceList) (c : Container)
    : ResourceList * ResourceList * ResourceList :=
  let '(requests, restartable, maxInit) := acc in
  let reqs := MergeResourceLimitsIntoRequests c in
  if ct_RestartAlways c then
    let restartable := rl_merge2 restartable reqs in
    (rl_merge2 requests reqs, restartable, MaxResources maxInit restartable)
  else (requests, restartable, MaxResources maxInit (rl_merge2 reqs restartable)).
Definition podRequests (pod : Pod) : ResourceList :=
  let containers := rl_merge (MergeResourceLimitsIntoRequests <$> pod_Containers pod) in
  let '(requests, _, maxInit) := foldl init_step (containers, ∅, ∅) (pod_InitContainers pod) in
  rl_merge2 (MaxResources requests maxInit) (pod_Overhead pod).
Definition RequestsForPods (pods : list Pod) : ResourceList :=
  <[ResourcePods := of_units (Z.of_nat (length pods))]> (rl_merge (podRequests <$> pods)).

(** ** Services *)

Class PodApi (W : Type) := list_Pods : W → result (list Pod) * W.
Class MetricsApi (W : Type) := list_NodeMetrics : W → result (list ResourceList) * W.
(** net/http: whether a request can be made for an address, and sending it. *)
Class HttpClient (W : Type) := {
  http_NewRequest : string → option error;
  http_Do : string → Payload → W → result () * W;
}.
(** [utils.Hash], the SHA-256 digest in hexadecimal. *)
Class ClusterHash := Hash : string → string.

(** ** controller.go *)

Section controller.
Context {RT : GoRuntime} {W : Type} `{HC : !HasClock W} `{NA : !NodeApi W} `{PA : !PodApi W}
  `{MA : !MetricsApi W} `{HT : !HttpClient W} `{CH : !ClusterHash} (ClusterID : string).
(** The state of the controller is whether [once] has fired. *)
Notation S' := (St bool W).

(** A sum of [int64] terms. *)
Definition sum64 {A} (f : A → Z) (l : list A) : Z := foldl (λ acc x, int64 (acc + f x)) 0%Z l.

Definition capacity_cpu (n : Node) : Z := QMilliValue (rl_get (node_Capacity n) ResourceCPU).
Definition capacity_memory (n : Node) : Z := QValue (rl_get (node_Capacity n) ResourceMemory).
Definition uninitialized (n : Node) : bool :=
  negb (bool_decide (is_Some (meta_Labels (node_Meta n) !! karpenterInitializedKey))).
Definition add_type (m : gmap string ()) (n : Node) : gmap string () :=
  match meta_Labels (node_Meta n) !! LabelInstanceTypeStable with
  | Some t => if bool_decide (t = "") then m else <[t := ()]> m
  | None => m
  end.

(** A listing that fails is logged; the named results keep their zero values. *)
Definition getClusterResourcesCapacity : M S' (Z * Z * list string) :=
  l ← attempt (call (list_Nodes None));
  match l with
  | inl _ => mret (0%Z, 0%Z, [])
  | inr items =>
      let nodes := bfilter uninitialized items in
      mret (sum64 capacity_cpu nodes, sum64 capacity_memory nodes,
            map_keys 60 (foldl add_type ∅ nodes))
  end.

Definition getClusterResourcesRequest : M S' (Z * Z) :=
  l ← attempt (call list_Pods);
  match l with
  | inl _ => mret (0%Z, 0%Z)
  | inr pods =>
      let r := RequestsForPods pods in
      mret (QMilliValue (rl_get r ResourceCPU), QValue (rl_get r ResourceMemory))
  end.

(** The conversion to the internal version of the list copies the usage. *)
Definition getNodeMetricsFromMetricsAPI : M S' (list ResourceList) := call list_NodeMetrics.
Definition getClusterResourcesUsage : M S' (Z * Z) :=
  l ← attempt getNodeMetricsFromMetricsAPI;
  match l with
  | inl _ => mret (0%Z, 0%Z)
  | inr items =>
      mret (sum64 (λ u, QMilliValue (rl_get u ResourceCPU)) items,
            sum64 (λ u, QValue (rl_get u ResourceMemory)) items)
  end.

(** A request that cannot be made is logged, and then sent all the same, which
    dereferences nil; that it cannot be delivered is logged. *)
Definition push (urlPath : string) (data : Payload) : M S' () :=
  match http_NewRequest urlPath with
  | Some _ => lift Panic
  | None => _ ← attempt (call (http_Do urlPath data)); mret ()
  end.

(** The three goroutines read different APIs and assign different variables,
    so that one order of them stands for all. *)
Definition PushTelemetryClusterResourceInfo (clusterIDHash : string) : M S' () :=
  capacity ← getClusterResourcesCapacity;
  request ← getClusterResourcesRequest;
  usage ← getClusterResourcesUsage;
  let '(cpuCapacity, memoryCapacity, instanceTypes) := capacity in
  push (defaultTelemetryEndpoint +:+ resourcesInfoPath clusterIDHash)
    (ResourcesInfo (MkInfo usage.1 usage.2 request.1 request.2 cpuCapacity memoryCapacity instanceTypes)).

Definition node_label (k : string) (n : Node) : string := default "" (meta_Labels (node_Meta n) !! k).
Definition interruption_event (t : Z) (node : Node) : InterruptionEvent :=
  MkInterruption CloudProviderName t (node_label LabelZoneRegion node)
    (node_label LabelZoneFailureDomain node) (node_label LabelInstanceTypeStable node)
    (meta_CreationTimestamp (node_Meta node)).
Definition PushInterruptionEvent (clusterIDHash : string) (node : Node) : M S' () :=
  t ← now;
  push (defaultTelemetryEndpoint +:+ interruptionEventPath clusterIDHash) (Interrupted (interruption_event t node)).

(** [sync.Once.Do]: fired even if the call panics. *)
Definition once_Do (f : M S' ()) : M S' () := λ s,
  if prov s then (Ok (), s) else let '(r, s1) := f s in (r, MkSt true (env s1)).

Definition interrupted (node : Node) : bool :=
  bool_decide (is_Some (lo_find interruption.expired (node_Conditions node))).

Definition Reconcile (node : Node) : M S' Result :=
  _ ← once_Do (PushTelemetryClusterResourceInfo (Hash ClusterID));
  if interrupted node then _ ← PushInterruptionEvent (Hash ClusterID) node; mret no_requeue
  else mret no_requeue.
End controller.

(** ** What is relied on: the hash is hexadecimal, a request can be made for an
    address that ends in it, sending hands it to the client, in order and whether
    or not it arrives; the listings return, and send nothing. *)
Definition is_hex (a : ascii) : bool :=
  let n := N_of_ascii a in ((48 <=? n)%N && (n <=? 57)%N) || ((97 <=? n)%N && (n <=? 102)%N).
Class PushLog (W : Type) `{NA : NodeApi W} `{PA : PodApi W} `{MA : MetricsApi W} `{HT : HttpClient W} `{CH : ClusterHash} := {
  pushed : W → list (string * Payload);
  Hash_hex : ∀ id, all_chars is_hex (Hash id) = true;
  request_made : ∀ h, all_chars is_hex h = true →
    http_NewRequest (defaultTelemetryEndpoint +:+ resourcesInfoPath h) = None ∧
    http_NewRequest (defaultTelemetryEndpoint +:+ interruptionEventPath h) = None;
  Do_appends : ∀ url p w, (http_Do url p w).1 ≠ Panic ∧ pushed (http_Do url p w).2 = pushed w ++ [(url, p)];
  nodes_keep : ∀ sel w, (list_Nodes sel w).1 ≠ Panic ∧ pushed (list_Nodes sel w).2 = pushed w;
  pods_keep : ∀ w, (list_Pods w).1 ≠ Panic ∧ pushed (list_Pods w).2 = pushed w;
  metrics_keep : ∀ w, (list_NodeMetrics w).1 ≠ Panic ∧ pushed (list_NodeMetrics w).2 = pushed w;
}.

(** ** Lemmas *)

Lemma int64_add_l a b : int64 (int64 a + b) = int64 (a + b).
Proof.
  unfold int64, wrap_signed. f_equal.
  replace ((a + 2 ^ (64 - 1)) `mod` 2 ^ 64 - 2 ^ (64 - 1) + b + 2 ^ (64 - 1))%Z
    with ((a + 2 ^ (64 - 1)) `mod` 2 ^ 64 + b)%Z by lia.
  rewrite Zplus_mod_idemp_l. f_equal. lia.
Qed.

(** The exact sum. *)
Definition total {A} (f : A → Z) (l : list A) : Z := foldr (λ x acc, (f x + acc)%Z) 0%Z l.

Lemma sum64_total {A} (f : A → Z) l : sum64 f l = int64 (total f l).
Proof.
  unfold sum64. assert (∀ a, foldl (λ acc x, int64 (acc + f x)) (int64 a) l = int64 (a + total f l)) as H.
  { induction l as [|x l IH]; intros a; cbn [foldl total foldr]; [by rewrite Z.add_0_r|].
    rewrite int64_add_l, IH. f_equal. unfold total. lia. }
  exact (H 0%Z).
Qed.

Lemma lookup_add_type nodes t :
  is_Some (foldl add_type ∅ nodes !! t) ↔
  t ≠ "" ∧ ∃ n, n ∈ nodes ∧ meta_Labels (node_Meta n) !! LabelInstanceTypeStable = Some t.
Proof.
  induction nodes as [|n nodes IH] using rev_ind.
  { cbn [foldl]. rewrite lookup_empty. split; [by intros [? ?]|]. by intros (_ & n & []%elem_of_nil & _). }
  rewrite foldl_app. cbn [foldl]. unfold add_type at 1.
  destruct (meta_Labels (node_Meta n) !! LabelInstanceTypeStable) as [t'|] eqn:Hl.
  - case_bool_decide as Ht.
    + subst t'. rewrite IH. setoid_rewrite elem_of_app. setoid_rewrite list_elem_of_singleton. naive_solver.
    + rewrite lookup_insert_is_Some', IH. setoid_rewrite elem_of_app. setoid_rewrite list_elem_of_singleton.
      naive_solver.
  - rewrite IH. setoid_rewrite elem_of_app. setoid_rewrite list_elem_of_singleton. naive_solver.
Qed.

Lemma attempt_call {P W A} (f : W → result A * W) (s : St P W) :
  (f (env s)).1 ≠ Panic → ∃ r, attempt (call f) s = (Ok r, MkSt (prov s) (f (env s)).2).
Proof. unfold attempt, call. destruct (f (env s)) as [[a|e|] w]; cbn; intros H; [by eexists..|done]. Qed.

Section properties.
Context {RT : GoRuntime} {W : Type} `{HC : !HasClock W} `{NA : !NodeApi W} `{PA : !PodApi W}
  `{MA : !MetricsApi W} `{HT : !HttpClient W} `{CH : !ClusterHash} `{PL : !PushLog W} (ClusterID : string).
Notation S' := (St bool W).

(** The capacity reported is that of the nodes karpenter has not initialized:
    the sums, exact while they fit 64 bits, and each instance type once. *)
Theorem getClusterResourcesCapacity_sums (s : S') items w :
  list_Nodes None (env s) = (Ok items, w) →
  let nodes := bfilter uninitialized items in
  ∃ types, getClusterResourcesCapacity s =
      (Ok (int64 (total capacity_cpu nodes), int64 (total capacity_memory nodes), types), MkSt (prov s) w) ∧
    ((0 ≤ total capacity_memory nodes < 2 ^ 63)%Z →
     int64 (total capacity_memory nodes) = total capacity_memory nodes) ∧
    NoDup types ∧
    ∀ t, t ∈ types ↔ t ≠ "" ∧ ∃ n, n ∈ items ∧
      meta_Labels (node_Meta n) !! karpenterInitializedKey = None ∧
      meta_Labels (node_Meta n) !! LabelInstanceTypeStable = Some t.
Proof.
  intros Hl nodes. eexists. split_and!.
  - unfold getClusterResourcesCapacity, mbind, M_bind, attempt, call. rewrite Hl.
    by rewrite !sum64_total.
  - intros. apply int64_id. lia.
  - apply NoDup_map_keys.
  - intros t. rewrite elem_of_map_keys, lookup_add_type. unfold nodes. setoid_rewrite elem_of_bfilter.
    unfold uninitialized. setoid_rewrite negb_true_iff. setoid_rewrite bool_decide_eq_false.
    setoid_rewrite <- eq_None_not_Some. naive_solver.
Qed.

Lemma push_run url p (s : S') :
  http_NewRequest url = None →
  ∃ w, push url p s = (Ok (), MkSt (prov s) w) ∧ pushed w = pushed (env s) ++ [(url, p)].
Proof.
  intros Hu. unfold push. rewrite Hu. destruct (Do_appends url p (env s)) as [Hd Hp].
  destruct (attempt_call (http_Do url p) s Hd) as [r Hr]. unfold mbind, M_bind. rewrite Hr. by eexists.
Qed.

Lemma Push_info_run h (s : S') :
  all_chars is_hex h = true →
  ∃ i w, PushTelemetryClusterResourceInfo h s = (Ok (), MkSt (prov s) w) ∧
    pushed w = pushed (env s) ++ [(defaultTelemetryEndpoint +:+ resourcesInfoPath h, ResourcesInfo i)].
Proof.
  intros Hh. destruct (request_made h Hh) as [Hreq _].
  unfold PushTelemetryClusterResourceInfo, getClusterResourcesCapacity, getClusterResourcesRequest,
    getClusterResourcesUsage, getNodeMetricsFromMetricsAPI, mbind, M_bind.
  destruct (nodes_keep None (env s)) as [Hn1 Hn2]. destruct (attempt_call (list_Nodes None) s Hn1) as [r1 ->].
  set (w1 := (list_Nodes None (env s)).2) in *.
  destruct (pods_keep w1) as [Hp1 Hp2].
  destruct (attempt_call list_Pods (MkSt (prov s) w1) Hp1) as [r2 Hr2].
  destruct (metrics_keep (list_Pods w1).2) as [Hm1 Hm2].
  destruct (attempt_call list_NodeMetrics (MkSt (prov s) (list_Pods w1).2) Hm1) as [r3 Hr3].
  cbn [prov env] in Hr2, Hr3.
  destruct r1 as [e1|items]; cbn [mret M_ret]; rewrite Hr2;
    destruct r2 as [e2|pods]; cbn [mret M_ret]; rewrite Hr3; destruct r3 as [e3|ms];
    (cbn [mret M_ret]; match goal with |- context [push _ (ResourcesInfo ?i) ?st] => destruct (push_run _ (ResourcesInfo i) st Hreq) as (w & Hrun & Hw) end;
     eexists _, w; split; [exact Hrun|]; rewrite Hw; cbn [env]; by rewrite Hm2, Hp2, Hn2).
Qed.

Definition resources_report (u : string * Payload) : Prop :=
  ∃ i, u = (defaultTelemetryEndpoint +:+ resourcesInfoPath (Hash ClusterID), ResourcesInfo i).
Definition interruption_report (n : Node) (u : string * Payload) : Prop :=
  ∃ t, u = (defaultTelemetryEndpoint +:+ interruptionEventPath (Hash ClusterID), Interrupted (interruption_event t n)).

Lemma telemetry_step n (s : S') :
  ∃ w info evs, Reconcile ClusterID n s = (Ok no_requeue, MkSt true w) ∧
    pushed w = pushed (env s) ++ info ++ evs ∧
    (if prov s then info = [] else ∃ u, info = [u] ∧ resources_report u) ∧
    Forall2 interruption_report (bfilter interrupted [n]) evs.
Proof.
  assert (∃ w info, once_Do (PushTelemetryClusterResourceInfo (Hash ClusterID)) s = (Ok (), MkSt true w) ∧
    pushed w = pushed (env s) ++ info ∧
    (if prov s then info = [] else ∃ u, info = [u] ∧ resources_report u)) as (w & info & Hw & Hp & Hi).
  { unfold once_Do. destruct s as [[|] w0]; cbn [prov env].
    - exists w0, []. by rewrite app_nil_r.
    - destruct (Push_info_run (Hash ClusterID) (MkSt false w0) (Hash_hex ClusterID)) as (i & w & -> & Hw).
      eexists w, _. split_and!; [done|exact Hw|]. eexists. split; [done|]. by exists i. }
  unfold Reconcile, mbind, M_bind. rewrite Hw, bfilter_cons.
  destruct (interrupted n).
  - destruct (request_made (Hash ClusterID) (Hash_hex ClusterID)) as [_ Hreq].
    destruct (push_run _ (Interrupted (interruption_event (clock w) n)) (MkSt true w) Hreq) as (w' & Hrun & Hw').
    assert (PushInterruptionEvent (Hash ClusterID) n (MkSt true w) = (Ok (), MkSt true w')) as -> by exact Hrun.
    eexists w', info, [_]. split_and!; [reflexivity| |done|].
    + rewrite Hw'. cbn [env]. by rewrite Hp, <- app_assoc.
    + repeat constructor. eexists. reflexivity.
  - exists w, info, []. by rewrite app_nil_r.
Qed.

(** C30. However many nodes are reconciled, no reconciliation fails or asks to be
    repeated, and what is sent is one report of the cluster's resources, at the
    first of them, and then one event for each interrupted node in the order
    they were seen. *)
Theorem telemetry_reports (nodes : list Node) (s : S') :
  ∃ results s' info evs,
    mmapM (Reconcile ClusterID) nodes s = (Ok results, s') ∧
    Forall (λ r, r = no_requeue) results ∧
    pushed (env s') = pushed (env s) ++ info ++ evs ∧
    (if bool_decide (nodes = []) || prov s then info = [] else ∃ u, info = [u] ∧ resources_report u) ∧
    Forall2 interruption_report (bfilter interrupted nodes) evs.
Proof.
  revert s. induction nodes as [|n nodes IH]; intros s; cbn [mmapM].
  { exists [], s, [], []. by rewrite !app_nil_r. }
  unfold mbind, M_bind.
  destruct (telemetry_step n s) as (w & info & evs & -> & Hw & Hi & He).
  destruct (IH (MkSt true w)) as (rs & s' & info' & evs' & -> & Hrs & Hp & Hi' & He').
  cbn [prov] in Hi'. rewrite orb_true_r in Hi'. subst info'.
  eexists _, s', info, (evs ++ evs'). split_and!; [reflexivity|by constructor| |done|].
  - cbn [env] in Hp. rewrite Hp, Hw. cbn [app]. by rewrite <- !app_assoc.
  - change (n :: nodes) with ([n] ++ nodes). rewrite bfilter_app. by apply Forall2_app.
Qed.
End properties.
End telemetry.

Module TelemetryExample.
Import telemetry.

(** The environment: the reports received and the nodes. *)
Record world := MkWorld { sent : list (string * Payload); present : list Node }.
#[local] Instance at_noon : HasClock world := λ _, (12 * Hour)%Z.
#[local] Instance some_nodes : NodeApi world := {|
  list_Nodes := λ _ w, (Ok (present w), w);
  patch_Node := λ _ n w, (Ok n, w);
  delete_Node := λ _ w, (Ok (), w);
|}.
#[local] Instance no_pods : PodApi world := λ w, (Ok [], w).
#[local] Instance no_metrics : MetricsApi world := λ w, (Err (ErrorString "no metrics server"), w).
#[local] Instance mailbox : HttpClient world := {|
  http_NewRequest := λ _, None;
  http_Do := λ url p w, (Ok (), MkWorld (sent w ++ [(url, p)]) (present w));
|}.
#[local] Instance plain_hash : ClusterHash := λ s, if all_chars is_hex s then s else "0".
#[local] Program Instance mailbox_log : PushLog world := {| pushed := sent |}.
Next Obligation. intros id. unfold Hash, plain_hash. by destruct (all_chars is_hex id) eqn:H. Qed.
Next Obligation. done. Qed.
Next Obligation. done. Qed.
Next Obligation. done. Qed.
Next Obligation. done. Qed.
Next Obligation. done. Qed.

Definition node (name type : string) (conditions : list NodeCondition) : Node :=
  MkNode (MkMeta name name {[LabelInstanceTypeStable := type]} ∅ [] 0 None) "" [] conditions
    {[ResourceCPU := of_units 4; ResourceMemory := of_units 8]}.
Definition healthy : Node := node "a" "ecs.g6.large" [].
Definition reclaimed : Node :=
  node "b" "ecs.c6.large" [MkNodeCondition interruption.ConditionTypeInstanceExpired ConditionTrue "" 0].
Definition start : St bool world := MkSt false (MkWorld [] [healthy; reclaimed]).

Example reports_example :
  (snd <$> sent (env (mmapM (Reconcile "c1") [healthy; reclaimed; reclaimed] start).2)) =
  [ResourcesInfo (MkInfo 0 0 0 0 8000 16 (map_keys 60 {["ecs.g6.large" := (); "ecs.c6.large" := ()]}));
   Interrupted (MkInterruption "alibabacloud" (12 * Hour) "" "" "ecs.c6.large" 0);
   Interrupted (MkInterruption "alibabacloud" (12 * Hour) "" "" "ecs.c6.large" 0)].
Proof. vm_compute. reflexivity. Qed.

Lemma telemetry_reports_witness :
  ∃ (s' : St bool world) info evs, pushed (env s') = info ++ evs ∧ (∃ u, info = [u] ∧ resources_report "c1" u) ∧
    Forall2 (interruption_report "c1") [reclaimed; reclaimed] evs.
Proof.
  destruct (telemetry_reports "c1" [healthy; reclaimed; reclaimed] start)
    as (rs & s' & info & evs & _ & _ & Hp & Hi & He).
  exists s', info, evs. split; [exact Hp|]. split; [exact Hi|exact He].
Defined.

Lemma getClusterResourcesCapacity_sums_witness :
  ∃ types, getClusterResourcesCapacity start = (Ok (8000%Z, 16%Z, types), start) ∧ NoDup types.
Proof.
  destruct (getClusterResourcesCapacity_sums start [healthy; reclaimed] (env start))
    as (types & Hrun & _ & Hnd & _); [reflexivity|].
  exists types. split; [exact Hrun|exact Hnd].
Defined.
End TelemetryExample.
