(* ===== verification/UnregisteredTaint.v ===== *)
(** * The unregistered taint controller (pkg/controllers/nodeclaim/unregisteredtaint)

    Removes karpenter's unregistered taint from registered nodes that have been
    ready for a while, in case it was left behind. *)

From S2P Require Import Prelude Effects Labels Scheduling CloudTypes Apis Conditions KubeApi Tagging.

(** A store of nodes.  A patch carries the version of the node that was read
    (optimistic lock): it is accepted only if the node has not changed. *)
Class NodeStore (W : Type) `{ND : !NodeApi W} `{HC : !HasClock W} `{SL : !Sleeper W} := {
  nodes : W → gmap string Node;
  nodes_list_keeps : ∀ k w, nodes (list_Nodes k w).2 = nodes w;
  nodes_list_complete : ∀ k w l w', list_Nodes (Some k) w = (Ok l, w') → ∀ n, n ∈ l ↔
    nodes w !! node_Name n = Some n ∧ is_Some (meta_Labels (node_Meta n) !! k);
  node_patch_writes : ∀ stored wanted w n w', patch_Node stored wanted w = (Ok n, w') →
    nodes w !! node_Name stored = Some stored ∧ nodes w' = <[node_Name stored := wanted]> (nodes w);
  node_patch_fails : ∀ stored wanted w r w', patch_Node stored wanted w = (r, w') →
    (∀ n, r ≠ Ok n) → nodes w' = nodes w;
  sleep_nodes : ∀ d w, nodes (sleep d w) = nodes w;
  clock_list : ∀ k w, (clock w ≤ clock (list_Nodes k w).2)%Z;
  clock_patch : ∀ a b w, (clock w ≤ clock (patch_Node a b w).2)%Z;
  clock_sleep : ∀ d w, (clock w ≤ clock (sleep d w))%Z;
}.

Module unregisteredtaint.

(** ** controller.go *)

Definition hasUnregisteredTaint (node : Node) : bool :=
  bool_decide (is_Some (lo_find (λ t, bool_decide (taint_Key t = UnregisteredTaintKey)) (node_Taints node))).

Definition ready_condition (now : Z) (c : NodeCondition) : bool :=
  bool_decide (ncond_Type c = "Ready") && bool_decide (ncond_Status c = ConditionTrue)
  && (15 * Second <? now - ncond_LastTransitionTime c)%Z.
Definition isNodeReady (now : Z) (node : Node) : bool :=
  bool_decide (is_Some (lo_find (ready_condition now) (node_Conditions node))).

(** The copy without the taint. *)
Definition cleaned (node : Node) : Node :=
  node_set_Taints (bfilter (λ t, negb (MatchTaint t UnregisteredNoExecuteTaint)) (node_Taints node)) node.

(** [retry.DefaultRetry]: five attempts, about ten milliseconds apart. *)
Definition DefaultRetry_Steps : nat := 5.

Section controller.
Context {W : Type} `{HC : !HasClock W} `{ND : !NodeApi W} `{SL : !Sleeper W}.
(** The jittered delay before the attempts that remain. *)
Context (backoff : nat → Z).
Notation S' := (St () W).

Fixpoint RetryOnConflict (steps : nat) (f : M S' ()) : M S' () :=
  match steps with
  | O => mret ()
  | S n =>
      r ← attempt f;
      match r with
      | inr _ => mret ()
      | inl e =>
          if IsConflict e then
            match n with
            | O => fail e
            | _ => _ ← call (λ w, (Ok (), sleep (backoff n) w)); RetryOnConflict n f
            end
          else fail e
      end
  end.

(** One turn of the loop: the error it logs, if any. *)
Definition untaint (node : Node) : M S' (option error) :=
  t ← now;
  if negb (hasUnregisteredTaint node) || negb (isNodeReady t node) then mret None
  else
    r ← attempt (RetryOnConflict DefaultRetry_Steps
                   (_ ← call (patch_Node node (cleaned node)); mret ()));
    match r with
    | inl e => mret (Some e)
    | inr _ => mret None
    end.

Definition Reconcile : M S' Result :=
  l ← call (list_Nodes (Some NodeRegisteredLabelKey));
  _ ← mmapM untaint l;
  mret (requeue_after Minute).
End controller.

(** ** Lemmas *)

(** A node that may be cleaned at time [t]. *)
Definition eligible (t : Z) (n : Node) : Prop :=
  hasUnregisteredTaint n = true ∧ isNodeReady t n = true ∧
  is_Some (meta_Labels (node_Meta n) !! NodeRegisteredLabelKey).

Lemma isNodeReady_mono t t' n : (t ≤ t')%Z → isNodeReady t n = true → isNodeReady t' n = true.
Proof.
  unfold isNodeReady. rewrite !bool_decide_eq_true. intros Ht [c Hc].
  apply lo_find_Some in Hc as [Hin Hr]. destruct (lo_find _ _) as [d|] eqn:Hf; [by eexists|].
  rewrite lo_find_None in Hf. specialize (Hf c Hin). unfold ready_condition in *.
  apply andb_true_iff in Hr as [Hr Hage]. rewrite Hr in Hf. cbn [andb] in Hf.
  apply Z.ltb_lt in Hage. apply Z.ltb_ge in Hf. lia.
Qed.

Lemma cleaned_idemp n : cleaned (cleaned n) = cleaned n.
Proof.
  unfold cleaned. cbn [node_Taints node_set_Taints]. unfold node_set_Taints. cbn. f_equal.
  set (p := λ t, _). induction (node_Taints n) as [|t ts IH]; [done|].
  rewrite (bfilter_cons p). destruct (p t) eqn:Ht; [|exact IH]. rewrite bfilter_cons, Ht. by rewrite IH.
Qed.

Section properties.
Context {W : Type} `{HC : !HasClock W} `{ND : !NodeApi W} `{SL : !Sleeper W} `{NS : !NodeStore W}.
Context (backoff : nat → Z).
Notation S' := (St () W).

(** Only eligible nodes change, and only by losing the taint. *)
Definition untaints (w w' : W) : Prop :=
  (clock w ≤ clock w')%Z ∧
  ∀ name, nodes w' !! name = nodes w !! name ∨
    ∃ n, nodes w !! name = Some n ∧ eligible (clock w') n ∧ nodes w' !! name = Some (cleaned n).

#[local] Instance untaints_preorder : PreOrder untaints.
Proof.
  split.
  - intros w. split; [lia|]. by left.
  - intros w1 w2 w3 [T1 H1] [T2 H2]. split; [lia|]. intros name.
    assert (∀ n, eligible (clock w2) n → eligible (clock w3) n) as Hmono.
    { intros n (A & B & C). split_and!; [done| |done]. by eapply isNodeReady_mono. }
    destruct (H1 name) as [E1|(n & En & Hel & E1)], (H2 name) as [E2|(m & Em & Hel2 & E2)].
    + left. congruence.
    + right. exists m. rewrite E1 in Em. naive_solver.
    + right. exists n. rewrite E2, E1. naive_solver.
    + right. exists n. rewrite E1 in Em. injection Em as <-. rewrite cleaned_idemp in E2. naive_solver.
Qed.

Lemma patch_untaints n w : eligible (clock w) n → untaints w (patch_Node n (cleaned n) w).2.
Proof.
  intros (A & B & C). pose proof (clock_patch n (cleaned n) w) as Hc. split; [done|]. intros name.
  destruct (patch_Node n (cleaned n) w) as [r w'] eqn:Hp. cbn [snd] in *.
  destruct r as [n'|e|]; [|left; by rewrite (node_patch_fails _ _ _ _ _ Hp)..].
  destruct (node_patch_writes _ _ _ _ _ Hp) as [Hn ->].
  destruct (decide (name = node_Name n)) as [->|Hne]; [|left; by rewrite lookup_insert_ne].
  right. exists n. rewrite lookup_insert_eq. split_and!; [done| |done]. split_and!; [done| |done].
  by eapply isNodeReady_mono.
Qed.

Lemma sleep_untaints d w : untaints w (sleep d w).
Proof. split; [apply clock_sleep|]. left. by rewrite sleep_nodes. Qed.

Lemma eligible_mono t t' n : (t ≤ t')%Z → eligible t n → eligible t' n.
Proof. intros Ht (A & B & C). split_and!; [done| |done]. by eapply isNodeReady_mono. Qed.

Definition try_patch (n : Node) : M S' () := _ ← call (patch_Node n (cleaned n)); mret ().

(** The attempts to clean an eligible node: each is the same patch. *)
Lemma retry_run n steps (s s' : S') r :
  eligible (clock (env s)) n → RetryOnConflict backoff (S steps) (try_patch n) s = (r, s') →
  untaints (env s) (env s') ∧ (r = Ok () → nodes (env s') !! node_Name n = Some (cleaned n)).
Proof.
  revert s. induction steps as [|steps IH]; intros [p w] Hel H;
    cbn [RetryOnConflict] in H; unfold mbind at 1, M_bind at 1, attempt at 1, try_patch in H;
    unfold mbind at 1, M_bind at 1 in H; pose proof (patch_untaints n w Hel) as Hstep;
    destruct (patch_Node n (cleaned n) w) as [q w1] eqn:Hp; cbn [snd env] in *;
    rewrite (call_run _ p w q w1 Hp) in H; destruct q as [n'|e|];
    try (cbn in H; injection H as <- <-; split; [exact Hstep|]; try done; intros _;
         destruct (node_patch_writes _ _ _ _ _ Hp) as [_ Hw]; cbn [env]; rewrite Hw; by rewrite lookup_insert_eq).
  - destruct (IsConflict e); injection H as <- <-; by split.
  - destruct (IsConflict e); [|injection H as <- <-; by split].
    assert (untaints w (sleep (backoff (S steps)) w1)) as Hs by (etransitivity; [exact Hstep|apply sleep_untaints]).
    destruct (IH (MkSt p (sleep (backoff (S steps)) w1))) as [I1 I2]; [|exact H|].
    { eapply eligible_mono; [|exact Hel]. apply Hs. }
    split; [by etransitivity|exact I2].
Qed.

Lemma untaint_respects n :
  is_Some (meta_Labels (node_Meta n) !! NodeRegisteredLabelKey) →
  respects (on_env untaints) (untaint backoff n).
Proof.
  intros Hreg s. unfold untaint. rewrite (M_Ok_bind now _ s (clock (env s)) s) by done.
  destruct (hasUnregisteredTaint n) eqn:Ht; [|reflexivity].
  destruct (isNodeReady (clock (env s)) n) eqn:Hr; [|reflexivity]. cbn [negb orb].
  fold (try_patch n). unfold mbind, M_bind, attempt.
  destruct (RetryOnConflict backoff DefaultRetry_Steps (try_patch n) s) as [q s1] eqn:H.
  destruct (retry_run n 4 s s1 q) as [Hu _]; [by split_and!|exact H|]. by destruct q.
Qed.

(** A node found eligible whose turn logged no error is clean. *)
Lemma untaint_cleans n (s s' : S') :
  eligible (clock (env s)) n → untaint backoff n s = (Ok None, s') →
  nodes (env s') !! node_Name n = Some (cleaned n).
Proof.
  intros (Ht & Hr & Hreg). unfold untaint. rewrite (M_Ok_bind now _ s (clock (env s)) s) by done.
  rewrite Ht, Hr. cbn [negb orb]. fold (try_patch n). unfold mbind, M_bind, attempt.
  destruct (RetryOnConflict backoff DefaultRetry_Steps (try_patch n) s) as [q s1] eqn:H.
  destruct (retry_run n 4 s s1 q) as [_ Hc]; [by split_and!|exact H|].
  destruct q as [[]| |]; [|done..]. intros [= <-]. by apply Hc.
Qed.

Lemma cleaned_stays n w w' :
  untaints w w' → nodes w !! node_Name n = Some (cleaned n) → nodes w' !! node_Name n = Some (cleaned n).
Proof.
  intros [_ H] Hn. destruct (H (node_Name n)) as [E|(m & Hm & _ & E)]; [congruence|].
  rewrite Hn in Hm. injection Hm as <-. by rewrite E, cleaned_idemp.
Qed.

(** The first attempt to clean a node whose turn logs an error is refused. *)
Lemma untaint_refused n (s s' : S') e :
  untaint backoff n s = (Ok (Some e), s') → ∃ e', (patch_Node n (cleaned n) (env s)).1 = Err e'.
Proof.
  unfold untaint. rewrite (M_Ok_bind now _ s (clock (env s)) s) by done.
  destruct (_ || _); [done|]. intros H. destruct s as [p w].
  unfold DefaultRetry_Steps in H. cbn [RetryOnConflict] in H.
  unfold mbind at 1, M_bind at 1, attempt at 1 in H. unfold mbind at 1, M_bind at 1, attempt at 1 in H.
  unfold mbind at 1, M_bind at 1 in H. destruct (patch_Node n (cleaned n) w) as [q w1] eqn:Hp.
  rewrite (call_run _ p w q w1 Hp) in H. cbn [env]. rewrite Hp. destruct q as [n'|e'|]; [done|by exists e'|done].
Qed.

(** A node to be cleaned at time [t]: registered, with a taint of karpenter's
    unregistered key, and ready for more than fifteen seconds. *)
Definition overdue (t : Z) (n : Node) : Prop :=
  is_Some (meta_Labels (node_Meta n) !! "karpenter.sh/registered") ∧
  (∃ taint, taint ∈ node_Taints n ∧ taint_Key taint = "karpenter.sh/unregistered") ∧
  ∃ c, c ∈ node_Conditions n ∧ ncond_Type c = "Ready" ∧ ncond_Status c = ConditionTrue ∧
    (ncond_LastTransitionTime c + 15 * 10 ^ 9 < t)%Z.
Lemma eligible_overdue t n : eligible t n ↔ overdue t n.
Proof.
  unfold eligible, overdue, hasUnregisteredTaint, isNodeReady. change NodeRegisteredLabelKey with "karpenter.sh/registered".
  assert (∀ {A} (p : A → bool) l, is_Some (lo_find p l) ↔ ∃ x, x ∈ l ∧ p x = true) as Hfind.
  { intros A p l. split; [intros [x Hx]; exists x; by apply lo_find_Some in Hx|].
    intros (x & Hx & Hp). destruct (lo_find p l) as [y|] eqn:Hn; [by eexists|].
    rewrite lo_find_None in Hn. by rewrite Hn in Hp. }
  rewrite !bool_decide_eq_true, !Hfind. unfold ready_condition. setoid_rewrite andb_true_iff. setoid_rewrite andb_true_iff.
  setoid_rewrite bool_decide_eq_true. setoid_rewrite Z.ltb_lt. change (15 * Second)%Z with (15 * 10 ^ 9)%Z.
  split.
  - intros (Ht & (c & Hc & [Hty Hst] & Ha) & Hr). split_and!; [done|done|]. exists c. split_and!; [done..|lia].
  - intros (Hr & Ht & c & Hc & Hty & Hst & Ha). split_and!; [done| |done]. exists c. split_and!; [done..|lia].
Qed.

(** The node without the unregistered taint of effect NoExecute, and nothing else
    changed. *)
Definition untainted (n : Node) : Node :=
  node_set_Taints
    (filter (λ t, ¬ (taint_Key t = "karpenter.sh/unregistered" ∧ taint_Effect t = "NoExecute")) (node_Taints n)) n.
Lemma cleaned_untainted n : cleaned n = untainted n.
Proof.
  unfold cleaned, untainted. f_equal. induction (node_Taints n) as [|t ts IH]; [done|].
  rewrite bfilter_cons, filter_cons, IH. unfold MatchTaint.
  change (taint_Key UnregisteredNoExecuteTaint) with "karpenter.sh/unregistered".
  change (taint_Effect UnregisteredNoExecuteTaint) with "NoExecute".
  case_decide as Ht; case_bool_decide; case_bool_decide; cbn; try done; exfalso; tauto.
Qed.

(** C29. A reconciliation that lists the nodes changes only nodes that are
    registered, carry a taint of karpenter's unregistered key and have been
    ready for more than fifteen seconds, and changes them only by removing the taint of
    that key with effect NoExecute; their other taints stay, also one of that
    key with another effect.  Every node that was such when they were listed loses it,
    unless its patch was refused when its turn came, in the order of the list, and
    the error was logged.  It comes back in a minute. *)
Theorem Reconcile_untaints (s s' : S') res :
  Reconcile backoff s = (Ok res, s') →
  res = requeue_after Minute ∧
  (∀ name, nodes (env s') !! name = nodes (env s) !! name ∨
     ∃ n, nodes (env s) !! name = Some n ∧ overdue (clock (env s')) n ∧
       nodes (env s') !! name = Some (untainted n)) ∧
  ∃ l s1, list_Nodes (Some NodeRegisteredLabelKey) (env s) = (Ok l, env s1) ∧
    ∀ n, nodes (env s) !! node_Name n = Some n → overdue (clock (env s)) n →
      nodes (env s') !! node_Name n = Some (untainted n) ∨
      ∃ before after sa sb e e', l = before ++ n :: after ∧ worked (untaint backoff) before s1 sa ∧
        untaint backoff n sa = (Ok (Some e), sb) ∧ (patch_Node n (untainted n) (env sa)).1 = Err e'.
Proof.
  unfold Reconcile. intros H. apply M_bind_Ok in H as (l & s1 & Hl & H).
  apply M_bind_Ok in H as (os & s2 & Hloop & H). injection H as <- <-. split; [done|].
  apply call_Ok in Hl as [Hl _].
  pose proof (nodes_list_keeps (Some NodeRegisteredLabelKey) (env s)) as Hkeep. rewrite Hl in Hkeep.
  pose proof (clock_list (Some NodeRegisteredLabelKey) (env s)) as Hclk. rewrite Hl in Hclk.
  pose proof (nodes_list_complete _ _ _ _ Hl) as Hin. cbn [snd] in *.
  assert (∀ n, n ∈ l → respects (on_env untaints) (untaint backoff n)) as Hresp.
  { intros n Hn. apply untaint_respects. by apply Hin in Hn as [_ Hreg]. }
  pose proof (respects_mmapM (on_env untaints) _ l Hresp s1) as Hall. rewrite Hloop in Hall. cbn [snd] in Hall.
  split.
  - intros name. rewrite <- Hkeep. destruct Hall as [_ Hall]. destruct (Hall name) as [?|(n & Hn & Hel & Hc)]; [by left|].
    right. exists n. by rewrite <- eligible_overdue, <- cleaned_untainted.
  - exists l, s1. split; [exact Hl|]. intros n Hn Hel. rewrite <- cleaned_untainted. apply eligible_overdue in Hel.
    assert (n ∈ l) as (before & after & Hsplit)%list_elem_of_split by (apply Hin; split; [done|apply Hel]).
    destruct (mmapM_turn _ _ _ _ _ Hloop before n after Hsplit) as (sa & o & sb & Hbefore & Hrun & Hafter & _).
    assert (on_env untaints s1 sa ∧ on_env untaints sb s2) as [Ha Hb].
    { split; (eapply worked_respects; [apply _| |eassumption]); intros m Hm; apply Hresp; rewrite Hsplit; set_solver. }
    destruct o as [e|].
    + right. destruct (untaint_refused _ _ _ _ Hrun) as [e' He']. by exists before, after, sa, sb, e, e'.
    + left. eapply cleaned_stays; [exact Hb|]. apply (untaint_cleans n sa sb); [|exact Hrun].
      eapply eligible_mono; [|exact Hel]. destruct Ha as [Ha _]. lia.
Qed.
End properties.
End unregisteredtaint.

(** ** Example *)

Module TaintExample.
Import ApiServer.

#[local] Instance server_sleep : Sleeper server := λ d sv,
  MkServer (sv_time sv + Z.max 0 d) (sv_claims sv) (sv_nodes sv) (sv_events sv).
Definition own_name (m : gmap string Node) : gmap string Node := filter (λ kn, node_Name kn.2 = kn.1) m.
#[local] Instance locked_nodes : NodeApi server := {|
  list_Nodes := λ k sv, (Ok (bfilter (node_key k) (snd <$> map_to_list (own_name (sv_nodes sv)))), sv);
  patch_Node := λ stored wanted sv,
    if bool_decide (own_name (sv_nodes sv) !! node_Name stored = Some stored ∧ node_Name wanted = node_Name stored)
    then (Ok wanted, MkServer (sv_time sv) (sv_claims sv)
            (<[node_Name stored := wanted]> (own_name (sv_nodes sv))) (sv_events sv))
    else (Err (StatusError ReasonConflict "the object has been modified"), sv);
  delete_Node := λ n sv, (Ok (), sv);
|}.
#[local] Program Instance locked_store : NodeStore server := {| nodes := λ sv, own_name (sv_nodes sv) |}.
Next Obligation. done. Qed.
Next Obligation.
  intros k sv l sv' [= <- <-] n. rewrite elem_of_bfilter, list_elem_of_fmap. unfold node_key.
  rewrite bool_decide_eq_true. split.
  - intros [Hk ([name m] & -> & Hm%elem_of_map_to_list)]. cbn [snd] in *. split; [|done].
    pose proof Hm as Hname. unfold own_name in Hname. apply map_lookup_filter_Some in Hname as [_ Hname].
    cbn in Hname. by rewrite Hname.
  - intros [Hn Hk]. split; [done|]. exists (node_Name n, n). split; [done|]. by apply elem_of_map_to_list.
Qed.
Next Obligation.
  intros stored wanted sv n sv' H. cbn in H. case_bool_decide as Hc; [|done]. injection H as <- <-.
  destruct Hc as [Hs Hw]. split; [exact Hs|]. cbn [sv_nodes]. apply map_eq. intros name.
  apply option_eq. intros m. unfold own_name at 1. rewrite map_lookup_filter_Some. split; [by intros []|].
  intros Hm. split; [done|]. apply lookup_insert_Some in Hm as [[<- <-]|[_ Hm]]; [done|].
  unfold own_name in Hm. by apply map_lookup_filter_Some in Hm as [_ Hm].
Qed.
Next Obligation.
  intros stored wanted sv r sv' H Hr. cbn in H. case_bool_decide; injection H as <- <-; [|done].
  by destruct (Hr wanted).
Qed.
Next Obligation. done. Qed.
Next Obligation. intros k sv. apply Z.le_refl. Qed.
Next Obligation. intros a b sv. cbn. case_bool_decide; apply Z.le_refl. Qed.
Next Obligation. intros d sv. unfold clock, server_clock, sleep, server_sleep. cbn [sv_time]. lia. Qed.

Definition late : Node :=
  MkNode (MkMeta "node-1" "" {[NodeRegisteredLabelKey := "true"]} ∅ [] 0 None) ""
    [MkTaint "dedicated" "gpu" "NoSchedule"; UnregisteredNoExecuteTaint]
    [MkNodeCondition "Ready" ConditionTrue "KubeletReady" 0] ∅.
Definition start : St () server := MkSt () (MkServer Minute ∅ {["node-1" := late]} []).
Definition run := unregisteredtaint.Reconcile (λ _, Second) start.

Lemma untaint_run_ok : run = (Ok (requeue_after Minute), run.2).
Proof. vm_compute. reflexivity. Qed.

(** The taint goes, the other one stays. *)
Lemma Reconcile_untaints_witness :
  nodes (env run.2) !! "node-1" = Some (unregisteredtaint.untainted late) ∧
  node_Taints (unregisteredtaint.untainted late) = [MkTaint "dedicated" "gpu" "NoSchedule"].
Proof.
  split; [|vm_compute; reflexivity].
  destruct (unregisteredtaint.Reconcile_untaints (λ _, Second) start run.2 _ untaint_run_ok) as (_ & _ & l & s1 & Hl & H).
  destruct (H late) as [Hclean|(before & after & sa & sb & e & e' & Hsplit & Hbefore & _ & Hrefused)].
  - vm_compute. reflexivity.
  - apply unregisteredtaint.eligible_overdue. split; [vm_compute; reflexivity|].
    split; [vm_compute; reflexivity|]. exists "true". vm_compute. reflexivity.
  - exact Hclean.
  - exfalso. assert (env s1 = env start) as Hs1 by exact (eq_sym (f_equal snd Hl)).
    vm_compute in Hl. injection Hl as <- _. destruct before as [|x [|]]; [|discriminate Hsplit..].
    inversion Hbefore; subst. rewrite Hs1 in Hrefused. vm_compute in Hrefused. discriminate Hrefused.
Defined.
End TaintExample.
