(* ===== verification/ProviderControllers.v ===== *)
(** * The provider refresh controllers (pkg/controllers/providers)

    Every twelve hours the instance type provider and the pricing provider are
    refreshed, each by two updates that run in parallel.  An update that fails
    does not keep the other from taking effect; the reconciliation fails if one
    of them does, and is then retried. *)

From S2P Require Import Prelude Effects Floats GoCache Labels Scheduling CloudTypes Apis Conditions.
From S2P Require Import Pricing InstanceTypeProvider KubeApi.

(** ** The two reconcilers *)

(** One piece of work: its error, if any. *)
Definition piece {S} (work : list (M S ())) (i : nat) : M S (option error) :=
  match work !! i with
  | Some m =>
      r ← attempt m;
      match r with
      | inl e => mret (Some e)
      | inr _ => mret None
      end
  | None => mret None
  end.

Definition refresh `{PO : ParallelOrder} {S} (msg : string) (work : list (M S ())) : M S Result :=
  errs ← parallelize (length work) (piece work);
  match multierr_combine (errs <$> seq 0 (length work)) with
  | Some e => fail (WrapError msg e)
  | None => mret (requeue_after (12 * Hour))
  end.

Module pricing_controller.
Definition Reconcile {W} `{HC : !HasClock W} `{PS : !PriceServer W} `{PO : !ParallelOrder}
    : M (St PricingProvider W) Result :=
  refresh "updating pricing" [UpdateSpotPricing; UpdateOnDemandPricing].
End pricing_controller.

Module instancetype_controller.
Definition Reconcile {W} `{HC : !HasClock W} `{EC : !instancetypes.EcsCatalogue W}
    `{CN : !instancetypes.ClusterCNI W} `{TH : !instancetypes.TypeHashes} `{PO : !ParallelOrder} (fuel : nat)
    : M (St instancetypes.DefaultProvider W) Result :=
  refresh "updating instancetype"
    [instancetypes.UpdateInstanceTypes fuel; instancetypes.UpdateInstanceTypeOfferings].
End instancetype_controller.

(** ** Lemmas *)

Section refresh.
Context `{PO : !ParallelOrder} {S : Type}.

Definition failure (r : result ()) : option error := match r with Err e => Some e | _ => None end.

Lemma piece_Ok (work : list (M S ())) i (m : M S ()) s o s' :
  work !! i = Some m → piece work i s = (Ok o, s') →
  ∃ r, m s = (r, s') ∧ r ≠ Panic ∧ o = failure r.
Proof.
  intros Hi H. unfold piece in H. rewrite Hi in H. apply M_bind_Ok in H as (x & s1 & Hx & H).
  unfold attempt in Hx. destruct (m s) as [r s2].
  destruct r as [[]|e|]; [..|done]; injection Hx as <- <-; injection H as <- <-;
    (eexists; split; [reflexivity|]); done.
Qed.

Lemma two_pieces (work : list (M S ())) i j (mi mj : M S ()) s l s' :
  work !! i = Some mi → work !! j = Some mj →
  mmapM (λ i, o ← piece work i; mret (i, o)) [i; j] s = (Ok l, s') →
  ∃ ri s1 rj, mi s = (ri, s1) ∧ mj s1 = (rj, s') ∧ ri ≠ Panic ∧ rj ≠ Panic ∧
    l = [(i, failure ri); (j, failure rj)].
Proof.
  intros Hi Hj H. cbn [mmapM] in H. apply M_bind_Ok in H as (x & s1 & Hx & H).
  apply M_bind_Ok in Hx as (o & s0 & Ho & Hx). injection Hx as <- <-.
  apply M_bind_Ok in H as (ys & s2 & Hy & H). injection H as <- <-.
  apply M_bind_Ok in Hy as (y & s3 & Hy & H). apply M_bind_Ok in Hy as (o' & s4 & Ho' & Hy).
  injection Hy as <- <-. injection H as <- <-.
  destruct (piece_Ok _ _ _ _ _ _ Hi Ho) as (ri & Hri & Hpi & ->).
  destruct (piece_Ok _ _ _ _ _ _ Hj Ho') as (rj & Hrj & Hpj & ->). by exists ri, s0, rj.
Qed.

(** A piece of work keeps its error in its entry. *)
Lemma pieces_no_error (work : list (M S ())) l s e s' :
  mmapM (λ i, o ← piece work i; mret (i, o)) l s ≠ (Err e, s').
Proof.
  revert s. induction l as [|i l IH]; intros s; [done|]. cbn [mmapM]. unfold mbind, M_bind, piece.
  destruct (work !! i) as [m|].
  - unfold mbind, M_bind, attempt.
    destruct (m s) as [[[]|e'|] s1]; [..|done]; cbn; specialize (IH s1);
      by destruct (mmapM _ l s1) as [[]].
  - cbn. specialize (IH s). by destruct (mmapM _ l s) as [[]].
Qed.

Lemma two_outcomes {A} msg (res : A) (ra rb : result ()) (o := multierr_combine [failure ra; failure rb]) :
  ra ≠ Panic → rb ≠ Panic →
  (match o with Some e => Err (WrapError msg e) | None => Ok res end = Ok res ↔ ra = Ok () ∧ rb = Ok ()) ∧
  ∀ res' : A, match o with Some e => Err (WrapError msg e) | None => Ok res end = Ok res' → res' = res.
Proof.
  intros Ha Hb. subst o. destruct ra as [[]|ea|], rb as [[]|eb|]; try done; split.
  all: try (intros res' H; by inversion H).
  all: split; [intros H; try done|intros [? ?]; done].
Qed.

(** The two updates run one after the other in some order, the second whether
    or not the first failed; the reconciliation fails if one of them did. *)
Lemma refresh_two msg (a b : M S ()) s r s' :
  refresh msg [a; b] s = (r, s') → r ≠ Panic →
  (∃ ra rb s1, (a s = (ra, s1) ∧ b s1 = (rb, s') ∨ b s = (rb, s1) ∧ a s1 = (ra, s')) ∧
    ra ≠ Panic ∧ rb ≠ Panic ∧
    (r = Ok (requeue_after (12 * Hour)) ↔ ra = Ok () ∧ rb = Ok ())) ∧
  ∀ res, r = Ok res → res = requeue_after (12 * Hour).
Proof.
  intros H Hp. unfold refresh, parallelize in H. cbn [length] in H.
  set (f := λ (l : list (nat * option error)) i, default None ((list_to_map l : gmap nat (option error)) !! i)) in H.
  assert (∃ l, mmapM (λ i, o ← piece [a; b] i; mret (i, o)) (parallel 2) s = (Ok l, s') ∧
    r = match multierr_combine (f l <$> [0; 1]) with
        | Some e => Err (WrapError msg e) | None => Ok (requeue_after (12 * Hour)) end) as (l & Hloop & Hr).
  { unfold mbind at 1, M_bind at 1 in H. unfold mbind at 1, M_bind at 1 in H.
    destruct (mmapM _ (parallel 2) s) as [[l|e|] s1] eqn:Hloop; cbn in H.
    - exists l. cbn [fmap list_fmap]. unfold f.
      destruct (multierr_combine [_; _]); by injection H as <- <-.
    - by destruct (pieces_no_error [a; b] (parallel 2) s e s1).
    - by injection H as <- _. }
  assert (parallel 2 = [0; 1] ∨ parallel 2 = [1; 0]) as [Ho|Ho]
    by (apply Permutation_length_2_inv; symmetry; apply (parallel_perm 2)); rewrite Ho in Hloop.
  - destruct (two_pieces [a; b] 0 1 a b s l s' eq_refl eq_refl Hloop) as (ra & s1 & rb & Ha & Hb & Hpa & Hpb & ->).
    destruct (two_outcomes msg (requeue_after (12 * Hour)) ra rb Hpa Hpb) as [Hiff Hres]. rewrite Hr.
    split; [exists ra, rb, s1; split_and!; [by left|done|done|exact Hiff]|exact Hres].
  - destruct (two_pieces [a; b] 1 0 b a s l s' eq_refl eq_refl Hloop) as (rb & s1 & ra & Hb & Ha & Hpb & Hpa & ->).
    destruct (two_outcomes msg (requeue_after (12 * Hour)) ra rb Hpa Hpb) as [Hiff Hres]. rewrite Hr.
    split; [exists ra, rb, s1; split_and!; [by right|done|done|exact Hiff]|exact Hres].
Qed.
End refresh.

(** ** The pricing refresh *)

Section pricing.
Context {W : Type} `{HC : !HasClock W} `{PS : !PriceServer W} `{PO : !ParallelOrder}.

(** The prices of [p'] are those the server listed at some point of the run. *)
Definition on_demand_refreshed (region : string) (p' : PricingProvider) : Prop :=
  ∃ prices w, price_ListInstancesDetails region w = Some prices ∧
    ∀ it, OnDemandPrice p' it = OnDemandPricePerHour <$> prices !! it.
Definition spot_refreshed (region : string) (p' : PricingProvider) : Prop :=
  ∃ prices w, price_ListInstancesDetails region w = Some prices ∧
    ∀ it zone new, (prices !! it) ≫= (λ i, SpotPricePerHour i !! zone) = Some new →
      SpotPrice p' it zone = Some new.

Definition same_on_demand (p p' : PricingProvider) : Prop := ∀ it, OnDemandPrice p' it = OnDemandPrice p it.
Definition same_spot (p p' : PricingProvider) : Prop := ∀ it zone, SpotPrice p' it zone = SpotPrice p it zone.

Lemma UpdateSpotPricing_effect (s s' : St PricingProvider W) r :
  UpdateSpotPricing s = (r, s') →
  pr_region (prov s') = pr_region (prov s) ∧ same_on_demand (prov s) (prov s') ∧
  match r with
  | Ok _ => spot_refreshed (pr_region (prov s)) (prov s')
  | _ => same_spot (prov s) (prov s')
  end.
Proof.
  intros H. apply (update_cases (λ prices p, set_spotPrices (merge update_zonal (spotPrices p) prices) p)) in H.
  unfold same_on_demand, same_spot, OnDemandPrice. destruct r as [[]|e|].
  2,3: destruct H as (-> & -> & Hs & Hu); split_and!; [done..|]; intros it zone; unfold SpotPrice; by rewrite Hs, Hu.
  destruct H as (m & p1 & (Hr & Ho & _ & _) & Hm & _ & ->). cbn [pr_region onDemandPrices set_spotPrices].
  split_and!; [done|by rewrite Ho|]. exists m, (env s'). split; [done|]. intros it zone new Hnew.
  unfold SpotPrice. cbn [spotPricingUpdated spotPrices set_spotPrices]. rewrite lookup_update_zonal.
  destruct (m !! it) as [i|]; [|done]. cbn in Hnew |- *. by rewrite lookup_lo_assign, Hnew.
Qed.

Lemma UpdateOnDemandPricing_effect (s s' : St PricingProvider W) r :
  UpdateOnDemandPricing s = (r, s') →
  pr_region (prov s') = pr_region (prov s) ∧ same_spot (prov s) (prov s') ∧
  match r with
  | Ok _ => on_demand_refreshed (pr_region (prov s)) (prov s')
  | _ => same_on_demand (prov s) (prov s')
  end.
Proof.
  intros H. apply (update_cases (λ prices p, set_onDemandPrices (OnDemandPricePerHour <$> prices) p)) in H.
  unfold same_on_demand, same_spot, SpotPrice, OnDemandPrice. destruct r as [[]|e|].
  2,3: destruct H as (-> & Ho & -> & ->); split_and!; [done..|]; by rewrite Ho.
  destruct H as (m & p1 & (Hr & _ & Hs & Hu) & Hm & _ & ->). cbn [pr_region spotPrices spotPricingUpdated set_onDemandPrices].
  split_and!; [done|by rewrite Hs, Hu|]. exists m, (env s'). split; [done|]. intros it.
  unfold OnDemandPrice. cbn [onDemandPrices set_onDemandPrices]. by rewrite lookup_fmap.
Qed.

(** Each kind of price is, after a reconciliation of the pricing controller
    and whatever the order of the two updates, either what the price server
    listed for the region or what it was before: one update never harms the
    prices of the other, and the failure of one does not undo the other.  When
    the reconciliation succeeds both are fresh, and it is repeated in twelve
    hours. *)
Theorem pricing_Reconcile_independent (s s' : St PricingProvider W) r (region := pr_region (prov s)) :
  pricing_controller.Reconcile s = (r, s') → r ≠ Panic →
  (on_demand_refreshed region (prov s') ∨ same_on_demand (prov s) (prov s')) ∧
  (spot_refreshed region (prov s') ∨ same_spot (prov s) (prov s')) ∧
  (∀ res, r = Ok res → on_demand_refreshed region (prov s') ∧ spot_refreshed region (prov s') ∧
     res = requeue_after (12 * Hour)).
Proof.
  intros H Hp. apply refresh_two in H as [(ra & rb & s1 & Hruns & Hpa & Hpb & Hiff) Hres]; [|done].
  assert ((match rb with Ok _ => on_demand_refreshed region (prov s') | _ => same_on_demand (prov s) (prov s') end) ∧
          (match ra with Ok _ => spot_refreshed region (prov s') | _ => same_spot (prov s) (prov s') end))
    as [Hod Hsp].
  { destruct Hruns as [[Ha Hb]|[Hb Ha]].
    - apply UpdateSpotPricing_effect in Ha as (R1 & O1 & S1).
      apply UpdateOnDemandPricing_effect in Hb as (R2 & S2 & O2). rewrite R1 in O2. subst region. split.
      + destruct rb; [exact O2|intros it; by rewrite O2, O1..].
      + destruct ra; [|intros it zone; by rewrite S2, S1..]. destruct S1 as (m & w & Hm & Hall).
        exists m, w. split; [done|]. intros it zone new Hnew. rewrite S2. by apply Hall.
    - apply UpdateOnDemandPricing_effect in Hb as (R1 & S1 & O1).
      apply UpdateSpotPricing_effect in Ha as (R2 & O2 & S2). rewrite R1 in S2. subst region. split.
      + destruct rb; [|intros it; by rewrite O2, O1..]. destruct O1 as (m & w & Hm & Hall).
        exists m, w. split; [done|]. intros it. by rewrite O2.
      + destruct ra; [exact S2|intros it zone; by rewrite S2, S1..]. }
  split_and!; [destruct rb; auto|destruct ra; auto|]. intros res Hr.
  pose proof (Hres res Hr) as ->. apply Hiff in Hr as [-> ->]. by split_and!.
Qed.
End pricing.

(** ** Example *)

Module RefreshExample.
Import PricingExample.

#[local] Program Instance forwards : ParallelOrder := {| parallel n := seq 0 n |}.
Next Obligation. done. Qed.
Definition run := pricing_controller.Reconcile (start true).

Lemma pricing_Reconcile_independent_witness :
  run.1 = Ok (requeue_after (12 * Hour)) ∧ on_demand_refreshed (W := world) "cn-beijing" (prov run.2).
Proof.
  assert (run = (Ok (requeue_after (12 * Hour)), run.2)) as H by (vm_compute; reflexivity).
  split; [by rewrite H|].
  destruct (pricing_Reconcile_independent (start true) run.2 _ H) as (_ & _ & Hok); [done|].
  by destruct (Hok _ eq_refl) as (Hod & _).
Defined.
End RefreshExample.
