(* ===== verification/NodeClassHash.v ===== *)
(** * The NodeClass hash controller (pkg/controllers/nodeclass/hash)

    Keeps on every NodeClass the hash of its specification, which static drift
    is decided by, and migrates the NodeClaims of a NodeClass when the version
    of the hash changes: a NodeClaim launched under another version gets the
    new one, and the new hash with it unless it was already found drifted.  The
    specification is the function [migrated] on a single NodeClaim; the theorems
    show that the reconciliation applies it to the whole store, and that a
    change of version makes no NodeClaim drift. *)

From S2P Require Import Prelude Effects Labels Scheduling CloudTypes Apis Conditions.
From S2P Require Import CloudProvider KubeApi.

(** ** The conditions of a NodeClaim (karpenter) *)

Definition ConditionTypeDrifted : string := "Drifted".
Definition claim_conditions : list string := ["Launched"; "Registered"; "Initialized"].

(** Looking a key up in a Go map: an absent key reads as the empty string. *)
Definition annotation (k : string) (a : gmap string string) : string := default "" (a !! k).

Module hash.

Section controller.
Context {RT : GoRuntime} {W : Type} `{HC : !HasClock W} `{NW : !NodeClassWriter W} `{NA : !NodeClaimApi W}.
Context `{SH : !SpecHash}.
Notation S' := (St () W).

Definition outdated (a : gmap string string) : bool :=
  negb (bool_decide (annotation AnnotationECSNodeClassHashVersion a = ECSNodeClassHashVersion)).

(** The NodeClaim as [updateNodeClaimHash] leaves it before the patch.  Asking
    for its conditions initialises the missing ones. *)
Definition rehash (now : Z) (nodeClass : ECSNodeClass) (nc : NodeClaim) : NodeClaim :=
  let nc := claim_set_Annotations
    (lo_assign (claim_Annotations nc) {[AnnotationECSNodeClassHashVersion := ECSNodeClassHashVersion]}) nc in
  let conditions := For ConditionReady claim_conditions now (claim_Conditions nc) in
  let nc := claim_set_Conditions conditions nc in
  match cond_get ConditionTypeDrifted conditions with
  | None => claim_set_Annotations
      (lo_assign (claim_Annotations nc) {[AnnotationECSNodeClassHash := Hash nodeClass]}) nc
  | Some _ => nc
  end.

(** The body of the loop: the entry of [errs]. *)
Definition migrate (nodeClass : ECSNodeClass) (nc : NodeClaim) : M S' (option error) :=
  if outdated (claim_Annotations nc) then
    t ← now;
    let nc' := rehash t nodeClass nc in
    if bool_decide (nc = nc') then mret None
    else
      r ← attempt (call (patch_NodeClaim nc nc'));
      match r with
      | inl e => mret (IgnoreNotFound (Some e))
      | inr _ => mret None
      end
  else mret None.

Definition updateNodeClaimHash (nodeClass : ECSNodeClass) : M S' () :=
  l ← call (list_NodeClaims (Some (nc_Name nodeClass)));
  errs ← mmapM (migrate nodeClass) l;
  match multierr_combine errs with
  | Some e => fail e
  | None => mret ()
  end.

Definition annotated (nodeClass : ECSNodeClass) : ECSNodeClass :=
  nc_set_Annotations
    (lo_assign (meta_Annotations (nc_Meta nodeClass))
       {[AnnotationECSNodeClassHash := Hash nodeClass;
         AnnotationECSNodeClassHashVersion := ECSNodeClassHashVersion]}) nodeClass.

Definition Reconcile (nodeClass : ECSNodeClass) : M S' Result :=
  _ ← (if outdated (meta_Annotations (nc_Meta nodeClass)) then updateNodeClaimHash nodeClass else mret ());
  let stored := nodeClass in
  let nodeClass := annotated nodeClass in
  _ ← (if bool_decide (stored = nodeClass) then mret ()
       else _ ← call (patch_NodeClass stored nodeClass); mret ());
  mret no_requeue.
End controller.

(** ** The specification: what becomes of a NodeClaim *)

Definition already_drifted (c : NodeClaim) : Prop := ConditionTypeDrifted ∈ (cond_Type <$> claim_Conditions c).
#[export] Instance already_drifted_dec c : Decision (already_drifted c) := _.

Definition migrated `{SpecHash} (nodeClass : ECSNodeClass) (c : NodeClaim) : NodeClaim :=
  if refers_to (nc_Name nodeClass) c && outdated (claim_Annotations c) then
    claim_set_Annotations
      (<[AnnotationECSNodeClassHashVersion := ECSNodeClassHashVersion]>
        (if bool_decide (already_drifted c) then claim_Annotations c
         else <[AnnotationECSNodeClassHash := Hash nodeClass]> (claim_Annotations c))) c
  else c.

(** ** Lemmas *)

Section conditions.
Context {RT : GoRuntime}.

Lemma store_types_elem now c cs cs' t :
  store now c cs = Some cs' →
  t ∈ (cond_Type <$> cs') ↔ t = cond_Type c ∨ t ∈ (cond_Type <$> cs).
Proof.
  unfold store. destruct (existsb _ _); [done|]. intros [= <-].
  rewrite sort_slice_perm, fmap_app, elem_of_app. change (cond_Type <$> [at_time now c]) with [cond_Type c].
  rewrite list_elem_of_singleton, !list_elem_of_fmap. split.
  - intros [(d & -> & Hd)| ->]; [|by left]. right. exists d. split; [done|].
    by apply elem_of_bfilter in Hd as [_ Hd].
  - intros [->|(d & -> & Hd)]; [by right|].
    destruct (decide (cond_Type d = cond_Type c)) as [He|Hne]; [by right|]. left.
    exists d. split; [done|]. apply elem_of_bfilter. split; [|done].
    by apply negb_true_iff, bool_decide_eq_false.
Qed.

(** Initialising the known conditions adds no other. *)
Lemma SetUnknown_types root deps now u cs t :
  t ≠ root → t ≠ u →
  t ∈ (cond_Type <$> SetUnknown root deps now u cs) ↔ t ∈ (cond_Type <$> cs).
Proof.
  intros Hroot Hu. unfold SetUnknown, Set_. destruct (store _ _ cs) as [cs1|] eqn:H1; [|done].
  assert (t ∈ (cond_Type <$> cs1) ↔ t ∈ (cond_Type <$> cs)) as E1
    by (rewrite (store_types_elem _ _ _ _ _ H1); cbn [cond_Type]; naive_solver).
  rewrite <- E1. unfold recomputeRootCondition. case_bool_decide; [done|].
  destruct (store _ (root_condition _ _ _) cs1) as [cs2|] eqn:H2; [|done]. cbn [default from_option id].
  rewrite (store_types_elem _ _ _ _ _ H2).
  assert (cond_Type (root_condition root deps cs1) = root) as ->
    by (unfold root_condition; by destruct (findUnhealthyDependents _ _)).
  naive_solver.
Qed.

Lemma For_types root deps now cs t :
  t ∉ root :: deps → t ∈ (cond_Type <$> For root deps now cs) ↔ t ∈ (cond_Type <$> cs).
Proof.
  intros Ht. apply not_elem_of_cons in Ht as [Hroot Hdeps]. unfold For.
  assert (t ∉ deps ++ [root]) as Hall
    by (rewrite elem_of_app, list_elem_of_singleton; naive_solver).
  revert cs Hall. generalize (deps ++ [root]) as ts. induction ts as [|u ts IH]; intros cs Hall; [done|].
  apply not_elem_of_cons in Hall as [Hu Hall]. cbn [foldl]. rewrite IH by done.
  destruct (cond_get u cs); [done|]. by apply SetUnknown_types.
Qed.
End conditions.

Section store.
Context {RT : GoRuntime} {W : Type} `{HC : !HasClock W} `{NW : !NodeClassWriter W} `{NA : !NodeClaimApi W}.
Context `{SH : !SpecHash} `{CS : !ClaimStore W}.
Notation S' := (St () W).

Lemma lo_assign_singleton (m : gmap string string) k v : lo_assign m {[k := v]} = <[k := v]> m.
Proof. unfold lo_assign. by rewrite insert_union_singleton_l. Qed.

Lemma rehash_Drifted now c :
  cond_get ConditionTypeDrifted (For ConditionReady claim_conditions now (claim_Conditions c)) = None
  ↔ ¬ already_drifted c.
Proof.
  rewrite cond_get_None. unfold already_drifted. rewrite For_types; [done|]. decide_compute.
Qed.

Lemma rehash_annotates now n c : annotates c (rehash now n c).
Proof.
  unfold annotates, rehash. cbn [claim_Conditions claim_set_Annotations].
  by destruct (cond_get ConditionTypeDrifted _); do 2 eexists.
Qed.

Lemma rehash_Annotations now n c :
  refers_to (nc_Name n) c = true → outdated (claim_Annotations c) = true →
  claim_Annotations (rehash now n c) = claim_Annotations (migrated n c).
Proof.
  intros Href Hout. unfold migrated. rewrite Href, Hout. cbn [andb].
  unfold rehash. cbn [claim_Conditions claim_set_Annotations].
  pose proof (rehash_Drifted now c) as Hd.
  destruct (cond_get ConditionTypeDrifted _) as [d|]; autorewrite with gorw; rewrite !lo_assign_singleton.
  - rewrite bool_decide_true; [done|]. destruct (decide (already_drifted c)) as [|Hn]; [done|].
    by apply Hd in Hn.
  - rewrite bool_decide_false by by apply Hd. apply insert_insert_ne. decide_compute.
Qed.

Lemma claim_set_Annotations_self c : claim_set_Annotations (claim_Annotations c) c = c.
Proof. by destruct c as [[]]. Qed.
Lemma migrated_unfold n c : migrated n c = claim_set_Annotations (claim_Annotations (migrated n c)) c.
Proof.
  unfold migrated. destruct (_ && _); [done|]. symmetry. apply claim_set_Annotations_self.
Qed.

(** One turn of the loop writes the NodeClaim it is given, or nothing. *)
Lemma migrate_step n c (s s' : S') r :
  refers_to (nc_Name n) c = true → claims (env s) !! claim_Name c = Some c →
  migrate n c s = (r, s') →
  (claims (env s') = claims (env s) ∨ claims (env s') = <[claim_Name c := migrated n c]> (claims (env s))) ∧
  (r = Ok None → claims (env s') = <[claim_Name c := migrated n c]> (claims (env s))).
Proof.
  intros Href Hc. destruct s as [p w]. cbn [env] in *. unfold migrate.
  destruct (outdated (claim_Annotations c)) eqn:Hout.
  2:{ intros [= <- <-]. cbn [env]. assert (migrated n c = c) as ->
        by (unfold migrated; by rewrite Href, Hout).
      split; [by left|]. intros _. by rewrite insert_id. }
  rewrite (M_Ok_bind now _ _ (clock w) (MkSt p w)) by done.
  pose proof (rehash_annotates (clock w) n c) as Hann.
  pose proof (rehash_Annotations (clock w) n c Href Hout) as Hra.
  case_bool_decide as Heq.
  { intros [= <- <-]. cbn [env]. rewrite <- Heq in Hra.
    rewrite migrated_unfold, <- Hra, claim_set_Annotations_self.
    split; [by left|]. intros _. by rewrite insert_id. }
  destruct (patch_NodeClaim c (rehash (clock w) n c) w) as [q w'] eqn:Hp.
  unfold mbind, M_bind, attempt. rewrite (call_run _ p w q w' Hp). destruct q as [c'|e|].
  - intros [= <- <-]. cbn [env].
    destruct (patch_writes _ _ _ _ _ Hp Hann) as (cur & Hcur & Hw'). rewrite Hc in Hcur.
    injection Hcur as <-. rewrite map_patch_same, Hra, <- migrated_unfold in Hw'.
    split; [by right|]. by intros _.
  - intros [= <- <-]. cbn [env]. assert (claims w' = claims w) as -> by (by eapply patch_fails).
    split; [by left|]. cbn [IgnoreNotFound].
    destruct (IsNotFound e) eqn:He; [|done]. intros _.
    apply (patch_not_found _ _ _ _ _ Hp) in He. congruence.
  - intros [= <- <-]. cbn [env]. assert (claims w' = claims w) as -> by (by eapply patch_fails).
    split; [by left|]. done.
Qed.

Lemma migrated_Name n c : claim_Name (migrated n c) = claim_Name c.
Proof. unfold migrated. by destruct (_ && _). Qed.

Lemma migrate_loop n l (s s' : S') r :
  NoDup (claim_Name <$> l) →
  (∀ c, c ∈ l → claims (env s) !! claim_Name c = Some c ∧ refers_to (nc_Name n) c = true) →
  mmapM (migrate n) l s = (r, s') →
  (∀ name, name ∉ (claim_Name <$> l) → claims (env s') !! name = claims (env s) !! name) ∧
  (∀ c, c ∈ l → claims (env s') !! claim_Name c = Some c ∨
                claims (env s') !! claim_Name c = Some (migrated n c)) ∧
  (∀ errs, r = Ok errs → multierr_combine errs = None →
     ∀ c, c ∈ l → claims (env s') !! claim_Name c = Some (migrated n c)).
Proof.
  revert s s' r. induction l as [|c l IH]; intros s s' r Hnd Hl H.
  { injection H as <- <-. split_and!; [done|by intros ? ?%elem_of_nil|by intros ? _ _ ? ?%elem_of_nil]. }
  rewrite fmap_cons in Hnd |- *. apply NoDup_cons in Hnd as [Hc Hnd]. destruct (Hl c) as [Hcl Href]; [left|].
  cbn [mmapM] in H. unfold mbind at 1, M_bind at 1 in H.
  destruct (migrate n c s) as [q s1] eqn:Hm. destruct (migrate_step n c s s1 q Href Hcl Hm) as [Hw Hok].
  assert (∀ name, name ≠ claim_Name c → claims (env s1) !! name = claims (env s) !! name) as Hother.
  { intros name Hne. destruct Hw as [->| ->]; [done|]. by rewrite lookup_insert_ne. }
  assert (claims (env s1) !! claim_Name c = Some c ∨
          claims (env s1) !! claim_Name c = Some (migrated n c)) as Hself.
  { destruct Hw as [->| ->]; [by left|right; by rewrite lookup_insert_eq]. }
  assert (∀ d, d ∈ l → claims (env s1) !! claim_Name d = Some d ∧ refers_to (nc_Name n) d = true) as Hrest.
  { intros d Hd. destruct (Hl d) as [Hdl Hdr]; [by right|]. split; [|done]. rewrite Hother; [done|].
    intros He. apply Hc. rewrite <- He. by apply list_elem_of_fmap_2. }
  destruct q as [o|e|].
  2,3: injection H as <- <-; split_and!;
    [intros name [Hn1 _]%not_elem_of_cons; by apply Hother
    |intros d [->|Hd]%elem_of_cons; [done|left; by apply Hrest]|done].
  - unfold mbind, M_bind in H. destruct (mmapM (migrate n) l s1) as [q s2] eqn:Hl2.
    destruct (IH s1 s2 q Hnd Hrest Hl2) as (I1 & I2 & I3).
    assert (s' = s2) as -> by (by destruct q; injection H).
    split_and!.
    + intros name [Hn1 Hn2]%not_elem_of_cons. by rewrite I1, Hother.
    + intros d [->|Hd]%elem_of_cons; [by rewrite I1|by apply I2].
    + intros errs -> Herrs. destruct q as [os|?|]; [|done..]. injection H as <-.
      rewrite multierr_combine_None in Herrs. intros d [->|Hd]%elem_of_cons.
      * rewrite I1 by done. rewrite Hok; [by rewrite lookup_insert_eq|]. f_equal. apply Herrs. left.
      * apply (I3 os); [done|apply multierr_combine_None; intros ? ?; apply Herrs; by right|done].
Qed.

Lemma updateNodeClaimHash_run n (s s' : S') r name :
  updateNodeClaimHash n s = (r, s') →
  (claims (env s') !! name = claims (env s) !! name ∨
   claims (env s') !! name = migrated n <$> claims (env s) !! name) ∧
  (r = Ok () → claims (env s') !! name = migrated n <$> claims (env s) !! name).
Proof.
  destruct s as [p w]. cbn [env]. intros H. unfold updateNodeClaimHash in H.
  destruct (list_NodeClaims (Some (nc_Name n)) w) as [q w1] eqn:Hlist.
  pose proof (list_keeps _ _ _ _ Hlist) as Hkeep.
  unfold mbind at 1, M_bind at 1 in H. rewrite (call_run _ p w q w1 Hlist) in H.
  destruct q as [l|e|]; [|injection H as <- <-; cbn [env]; rewrite Hkeep; split; [by left|done]..].
  destruct (list_complete _ _ _ _ Hlist) as [Hnd Hin].
  unfold mbind, M_bind in H. destruct (mmapM (migrate n) l (MkSt p w1)) as [q s2] eqn:Hl2.
  destruct (migrate_loop n l (MkSt p w1) s2 q Hnd) as (I1 & I2 & I3); [|exact Hl2|].
  { intros c Hc. cbn [env]. rewrite Hkeep. by apply Hin. }
  cbn [env] in *. rewrite Hkeep in *.
  assert (s' = s2) as ->.
  { destruct q as [errs|?|]; [|by injection H..]. by destruct (multierr_combine errs); injection H. }
  assert (name ∉ (claim_Name <$> l) → migrated n <$> claims w !! name = claims w !! name) as Hout.
  { intros Hn. destruct (claims w !! name) as [c|] eqn:Hc; [|done]. cbn. f_equal.
    unfold migrated. destruct (refers_to (nc_Name n) c) eqn:Href; [|done]. destruct Hn.
    pose proof (claims_named _ _ _ Hc) as <-. apply list_elem_of_fmap_2, Hin. by split. }
  assert (name ∈ (claim_Name <$> l) → ∃ c, c ∈ l ∧ claim_Name c = name ∧ claims w !! name = Some c)
    as Hmem.
  { intros (c & -> & Hc)%list_elem_of_fmap. exists c. split_and!; [done..|]. by apply Hin. }
  destruct (decide (name ∈ (claim_Name <$> l))) as [Hn|Hn].
  2:{ rewrite I1, Hout by done. split; [by left|done]. }
  destruct (Hmem Hn) as (c & Hc & <- & Hcl). rewrite Hcl. split; [by apply I2|].
  intros ->. destruct q as [errs|?|]; [|done..]. destruct (multierr_combine errs) eqn:Herrs; [done|].
  by apply (I3 errs).
Qed.

Lemma updateNodeClaimHash_all n (s s' : S') :
  updateNodeClaimHash n s = (Ok (), s') → claims (env s') = migrated n <$> claims (env s).
Proof.
  intros H. apply map_eq. intros name. rewrite lookup_fmap.
  by apply (updateNodeClaimHash_run n s s' _ name H).
Qed.

Lemma annotated_hash n : cloudprovider.hash_annotated (annotated n).
Proof.
  unfold cloudprovider.hash_annotated. change (Hash (annotated n)) with (Hash n).
  unfold annotated. cbn [nc_Meta nc_set_Annotations meta_Annotations meta_set_Annotations].
  rewrite !lookup_lo_assign. split.
  - by rewrite lookup_insert_eq.
  - rewrite lookup_insert_ne by decide_compute. by rewrite lookup_singleton_eq.
Qed.

(** A migrated NodeClaim that was not drifted has the hash of its NodeClass. *)
Lemma migrated_not_drifted n c :
  refers_to (nc_Name n) c = true → outdated (claim_Annotations c) = true → ¬ already_drifted c →
  cloudprovider.areStaticFieldsDrifted (migrated n c) (annotated n) = "".
Proof.
  intros Href Hout Hnd. destruct (annotated_hash n) as [Hh Hv]. change (Hash (annotated n)) with (Hash n) in Hh.
  unfold cloudprovider.areStaticFieldsDrifted, migrated. rewrite Href, Hout, Hh, Hv. cbn [andb].
  rewrite bool_decide_false by done. rewrite claim_Annotations_set.
  rewrite lookup_insert_ne by decide_compute. rewrite lookup_insert_eq, lookup_insert_eq.
  by rewrite !bool_decide_true.
Qed.

(** The migration of a hash version refines its specification: a run
    of [updateNodeClaimHash] without error applies [migrated] to every
    NodeClaim of the cluster (those of other NodeClasses and those of the
    current version are left alone); a run that fails has applied it to some
    of them and changed nothing else. *)
Theorem updateNodeClaimHash_migrates n (s s' : S') r :
  updateNodeClaimHash n s = (r, s') →
  (∀ name, claims (env s') !! name = claims (env s) !! name ∨
           claims (env s') !! name = migrated n <$> claims (env s) !! name) ∧
  (r = Ok () → claims (env s') = migrated n <$> claims (env s)).
Proof.
  intros H. split.
  - intros name. by apply (updateNodeClaimHash_run n s s' r name).
  - intros ->. by apply updateNodeClaimHash_all.
Qed.

Context `{KA : !KindsApart W}.

(** C14. A reconciliation without error leaves the NodeClass annotated with
    the hash of its specification under the current version (it writes the
    annotations unless they are there already); when the version has changed,
    no NodeClaim that was not drifted is drifted by the change, and one that
    was keeps its hash; when it has not, no NodeClaim is touched. *)
Theorem Reconcile_no_spurious_drift n (s s' : S') res :
  Reconcile n s = (Ok res, s') →
  res = no_requeue ∧ cloudprovider.hash_annotated (annotated n) ∧ nc_Spec (annotated n) = nc_Spec n ∧
  (n = annotated n ∨ ∃ r w, patch_NodeClass n (annotated n) w = (Ok r, env s')) ∧
  claims (env s') = (if outdated (meta_Annotations (nc_Meta n)) then migrated n <$> claims (env s)
                     else claims (env s)) ∧
  ∀ name c, claims (env s) !! name = Some c → refers_to (nc_Name n) c = true →
    outdated (meta_Annotations (nc_Meta n)) = true → outdated (claim_Annotations c) = true →
    ∃ c', claims (env s') !! name = Some c' ∧
      (already_drifted c → claim_Annotations c' !! AnnotationECSNodeClassHash =
                           claim_Annotations c !! AnnotationECSNodeClassHash) ∧
      (¬ already_drifted c → cloudprovider.areStaticFieldsDrifted c' (annotated n) = "").
Proof.
  unfold Reconcile. intros H. apply M_bind_Ok in H as ([] & s1 & Hu & H).
  apply M_bind_Ok in H as ([] & s2 & Hp & H). injection H as <- <-.
  assert (claims (env s1) = (if outdated (meta_Annotations (nc_Meta n)) then migrated n <$> claims (env s)
                             else claims (env s))) as Hc1.
  { destruct (outdated (meta_Annotations (nc_Meta n))); [|by injection Hu as <-].
    by apply (updateNodeClaimHash_all n s s1). }
  assert ((n = annotated n ∨ ∃ r w, patch_NodeClass n (annotated n) w = (Ok r, env s2)) ∧
          claims (env s2) = claims (env s1)) as [Hpatch Hc2].
  { case_bool_decide as Heq; [injection Hp as <-; by split; [left|]|].
    apply M_bind_Ok in Hp as (r & s3 & Hcall & Hret). injection Hret as <-.
    apply call_Ok in Hcall as [Hcall _]. split; [right; by exists r, (env s1)|].
    pose proof (class_writes_keep n (annotated n) (env s1)) as Hk. by rewrite Hcall in Hk. }
  split_and!; [done|apply annotated_hash|done|exact Hpatch|by rewrite Hc2|].
  intros name c Hc Href Hout Houtc. rewrite Hc2, Hc1, Hout, lookup_fmap, Hc. exists (migrated n c).
  split_and!; [done| |by apply migrated_not_drifted]. intros Hd.
  unfold migrated. rewrite Href, Houtc, bool_decide_true by done. cbn [andb].
  rewrite claim_Annotations_set. by rewrite lookup_insert_ne by decide_compute.
Qed.
End store.
End hash.

(** ** Example: a cluster launched under an older hash version *)

Module HashExample.
Import ApiServer.

#[local] Instance hash_policy : SpecHash := λ spec, VSwitchSelectionPolicy spec.
Definition old_annotations : gmap string string :=
  {[AnnotationECSNodeClassHash := "previous"; AnnotationECSNodeClassHashVersion := "v2"]}.
Definition claim_named (name class : string) (cs : list Condition) : NodeClaim :=
  MkNodeClaim (MkMeta name "" ∅ old_annotations [] 0 None) (Some (MkRef class)) [] ∅ "" "" "" ∅ ∅ cs.
Definition steady : NodeClaim := claim_named "steady" "default" [].
Definition moved : NodeClaim :=
  claim_named "moved" "default" [MkCondition ConditionTypeDrifted ConditionTrue "NodeClassDrift" "" 0].
Definition other : NodeClaim := claim_named "other" "gpu" [].
Definition old_class : ECSNodeClass :=
  MkNodeClass (MkMeta "default" "" ∅ old_annotations [] 0 None)
    (MkSpec [] "balanced" [] [] None None ∅ "") (MkStatus [] [] [] []).
Definition cluster : server :=
  MkServer 5 {["steady" := steady; "moved" := moved; "other" := other]} ∅ [].

Definition upgraded : result Result * St () server :=
  hash.Reconcile old_class (MkSt () cluster).

Lemma updateNodeClaimHash_migrates_witness :
  claims (env (hash.updateNodeClaimHash old_class (MkSt () cluster)).2) =
  hash.migrated old_class <$> claims cluster.
Proof.
  apply (hash.updateNodeClaimHash_migrates old_class (MkSt () cluster) _
    (hash.updateNodeClaimHash old_class (MkSt () cluster)).1); vm_compute; reflexivity.
Defined.

Lemma upgraded_drift :
  (claim_Annotations <$> claims (env upgraded.2) !! "moved") ≫= (.!! AnnotationECSNodeClassHash) = Some "previous" ∧
  claims (env upgraded.2) !! "other" = Some other.
Proof. split; vm_compute; reflexivity. Qed.

Lemma Reconcile_no_spurious_drift_witness :
  ∃ c', claims (env upgraded.2) !! "steady" = Some c' ∧
    cloudprovider.areStaticFieldsDrifted c' (hash.annotated old_class) = "".
Proof.
  destruct (hash.Reconcile_no_spurious_drift old_class (MkSt () cluster) upgraded.2 no_requeue)
    as (_ & _ & _ & _ & _ & H); [vm_compute; reflexivity|].
  destruct (H "steady" steady) as (c' & Hc & _ & Hd); [vm_compute; reflexivity..|].
  exists c'. split; [exact Hc|]. apply Hd. decide_compute.
Defined.
End HashExample.
