(* ===== verification/NodeClassTermination.v ===== *)
(** * The NodeClass termination controller (pkg/controllers/nodeclass/termination)

    A NodeClass that is being deleted is kept, by its finalizer, until no
    NodeClaim refers to it. *)

From S2P Require Import Prelude Effects Labels Scheduling CloudTypes Apis Conditions Utils.
From S2P Require Import KubeApi.

Module termination.

(** ** events.go *)

Definition WaitingOnNodeClaimTerminationEvent (nodeClass : ECSNodeClass) (names : list string) : Event :=
  MkEvent (OnNodeClass nodeClass) "Normal" "WaitingOnNodeClaimTermination"
    ("Waiting on NodeClaim termination for " +:+ PrettySlice names 5)
    [meta_UID (nc_Meta nodeClass)].

(** ** controller.go *)

Definition ContainsFinalizer (n : ECSNodeClass) (f : string) : bool :=
  bool_decide (f ∈ meta_Finalizers (nc_Meta n)).
Definition RemoveFinalizer (n : ECSNodeClass) (f : string) : ECSNodeClass :=
  nc_set_Finalizers (bfilter (λ x, negb (bool_decide (x = f))) (meta_Finalizers (nc_Meta n))) n.

Section controller.
Context {W : Type} `{NW : !NodeClassWriter W} `{NA : !NodeClaimApi W} `{ER : !EventRecorder W}.
Notation S' := (St () W).

(** What [finalize] does once it has listed the NodeClaims of the NodeClass. *)
Definition release (nodeClass : ECSNodeClass) (nodeClaims : list NodeClaim) : M S' Result :=
  match nodeClaims with
  | _ :: _ =>
      _ ← record_events [WaitingOnNodeClaimTerminationEvent nodeClass (claim_Name <$> nodeClaims)];
      mret (requeue_after (10 * Minute))
  | [] =>
      let stored := nodeClass in
      let nodeClass := RemoveFinalizer nodeClass TerminationFinalizer in
      if bool_decide (stored = nodeClass) then mret no_requeue
      else
        r ← attempt (call (patch_NodeClass stored nodeClass));
        match r with
        | inr _ => mret no_requeue
        | inl e =>
            if IsConflict e then mret requeue_now
            else match IgnoreNotFound (Some (WrapError "removing termination finalizer" e)) with
                 | Some e' => fail e'
                 | None => mret no_requeue
                 end
        end
  end.

Definition finalize (nodeClass : ECSNodeClass) : M S' Result :=
  if negb (ContainsFinalizer nodeClass TerminationFinalizer) then mret no_requeue
  else
    nodeClaims ← wrap "listing nodeclaims that are using nodeclass"
                   (call (list_NodeClaims (Some (nc_Name nodeClass))));
    release nodeClass nodeClaims.

Definition Reconcile (nodeClass : ECSNodeClass) : M S' Result :=
  match meta_DeletionTimestamp (nc_Meta nodeClass) with
  | Some _ => finalize nodeClass
  | None => mret no_requeue
  end.
End controller.

(** The requests enqueued when a NodeClaim is deleted: its NodeClass, which may
    have been waiting for it. *)
Definition requests_of (nc : NodeClaim) : list string :=
  match claim_NodeClassRef nc with
  | None => []
  | Some r => [ref_Name r]
  end.

(** ** Lemmas *)

Lemma RemoveFinalizer_spec n f :
  ContainsFinalizer n f = true →
  RemoveFinalizer n f ≠ n ∧ ContainsFinalizer (RemoveFinalizer n f) f = false ∧
  ∀ g, g ≠ f → ContainsFinalizer (RemoveFinalizer n f) g = ContainsFinalizer n g.
Proof.
  unfold ContainsFinalizer, RemoveFinalizer. intros Hf%bool_decide_eq_true.
  cbn [nc_Meta nc_set_Finalizers meta_Finalizers meta_set_Finalizers].
  assert (f ∉ bfilter (λ x, negb (bool_decide (x = f))) (meta_Finalizers (nc_Meta n))) as Hout.
  { rewrite elem_of_bfilter. intros [H _]. by apply negb_true_iff, bool_decide_eq_false in H. }
  split_and!.
  - intros He. apply Hout. rewrite <- He in Hf. exact Hf.
  - by apply bool_decide_eq_false.
  - intros g Hg. apply bool_decide_ext. rewrite elem_of_bfilter. split; [by intros []|]. intros Hin.
    split; [|done]. by apply negb_true_iff, bool_decide_eq_false.
Qed.

Section waiting.
Context {W : Type} `{NW : !NodeClassWriter W} `{NA : !NodeClaimApi W} `{ER : !EventRecorder W}.
Context `{CS : !ClaimStore W}.

(** The NodeClaims that keep a NodeClass. *)
Definition in_use (n : ECSNodeClass) (w : W) : Prop :=
  ∃ name c, claims w !! name = Some c ∧ refers_to (nc_Name n) c = true.

Lemma list_in_use n w l w' :
  list_NodeClaims (Some (nc_Name n)) w = (Ok l, w') → in_use n w ↔ l ≠ [].
Proof.
  intros Hl. destruct (list_complete _ _ _ _ Hl) as [_ Hin]. split.
  - intros (name & c & Hc & Href) ->. pose proof (claims_named _ _ _ Hc) as <-.
    by apply (elem_of_nil c), Hin.
  - intros Hne. destruct l as [|c l]; [done|]. destruct (proj1 (Hin c)) as [Hc Href]; [left|].
    by exists (claim_Name c), c.
Qed.

Lemma Reconcile_run n t (p : ()) (w w1 : W) q :
  meta_DeletionTimestamp (nc_Meta n) = Some t → ContainsFinalizer n TerminationFinalizer = true →
  list_NodeClaims (Some (nc_Name n)) w = (q, w1) →
  Reconcile n (MkSt p w) =
    match q with
    | Ok l => release n l (MkSt p w1)
    | Err e => (Err (WrapError "listing nodeclaims that are using nodeclass" e), MkSt p w1)
    | Panic => (Panic, MkSt p w1)
    end.
Proof.
  intros Hdel Hfin Hlist. unfold Reconcile, finalize. rewrite Hdel, Hfin. cbn [negb].
  unfold mbind at 1, M_bind at 1, wrap at 1. rewrite (call_run _ p w q w1 Hlist).
  by destruct q.
Qed.

(** C26. A NodeClass that is being deleted is released exactly when nothing uses
    it: while a NodeClaim refers to it, a reconciliation writes nothing, reports
    the NodeClaims it waits for and comes back in ten minutes (or returns the
    error of the list); when none does, it asks for the removal of its own
    finalizer and of no other. *)
Theorem Reconcile_releases n t (p : ()) (w w1 : W) q :
  meta_DeletionTimestamp (nc_Meta n) = Some t → ContainsFinalizer n TerminationFinalizer = true →
  list_NodeClaims (Some (nc_Name n)) w = (q, w1) →
  (in_use n w →
     match q with
     | Ok l => Reconcile n (MkSt p w) = (Ok (requeue_after (10 * Minute)),
                 MkSt p (publish [WaitingOnNodeClaimTerminationEvent n (claim_Name <$> l)] w1)) ∧
               ∀ name c, claims w !! name = Some c → refers_to (nc_Name n) c = true → c ∈ l
     | Err e => ∃ e', Reconcile n (MkSt p w) = (Err e', MkSt p w1)
     | Panic => Reconcile n (MkSt p w) = (Panic, MkSt p w1)
     end) ∧
  (¬ in_use n w → ∀ l, q = Ok l →
     let n' := RemoveFinalizer n TerminationFinalizer in
     ContainsFinalizer n' TerminationFinalizer = false ∧
     (∀ g, g ≠ TerminationFinalizer → ContainsFinalizer n' g = ContainsFinalizer n g) ∧
     ∀ r w2, patch_NodeClass n n' w1 = (r, w2) →
       Reconcile n (MkSt p w) =
         (match r with
          | Ok _ => Ok no_requeue
          | Err e => if IsConflict e then Ok requeue_now
                     else if IsNotFound e then Ok no_requeue
                     else Err (WrapError "removing termination finalizer" e)
          | Panic => Panic
          end, MkSt p w2)).
Proof.
  intros Hdel Hfin Hlist.
  rewrite (Reconcile_run n t p w w1 q Hdel Hfin Hlist).
  split.
  - intros Huse. destruct q as [l|e|]; [|by eexists|done].
    pose proof (proj1 (list_in_use n w l w1 Hlist) Huse) as Hne.
    destruct (list_complete _ _ _ _ Hlist) as [_ Hin].
    destruct l as [|c l]; [done|]. split; [done|].
    intros name d Hd Href. pose proof (claims_named _ _ _ Hd) as <-. by apply Hin.
  - intros Hfree l -> n'. destruct (RemoveFinalizer_spec n _ Hfin) as (Hne & Hout & Hkeep).
    split_and!; [exact Hout|exact Hkeep|]. intros r w2 Hp.
    assert (l = []) as -> by (destruct l; [done|]; by destruct Hfree; eapply list_in_use).
    cbn [release]. fold n'. rewrite bool_decide_false by by symmetry.
    unfold mbind, M_bind, attempt. rewrite (call_run _ p w1 r w2 Hp).
    destruct r as [c|e|]; [done| |done]. destruct (IsConflict e); [done|].
    cbn [IgnoreNotFound]. rewrite IsNotFound_wrap. by destruct (IsNotFound e).
Qed.

(** A NodeClass that is not being deleted, or does not carry the finalizer, is
    left alone. *)
Lemma Reconcile_ignores n (s : St () W) :
  meta_DeletionTimestamp (nc_Meta n) = None ∨ ContainsFinalizer n TerminationFinalizer = false →
  Reconcile n s = (Ok no_requeue, s).
Proof.
  unfold Reconcile, finalize. intros [->| ->]; [done|]. by destruct (meta_DeletionTimestamp (nc_Meta n)).
Qed.

(** The deletion of any NodeClaim that keeps a NodeClass wakes its
    reconciliation. *)
Lemma requests_of_in_use n c : refers_to (nc_Name n) c = true → requests_of c = [nc_Name n].
Proof. intros (r & Hr & <-)%refers_to_Some. unfold requests_of. by rewrite Hr. Qed.
End waiting.
End termination.

(** ** Example *)

Module TerminationExample.
Import ApiServer.

Definition user : NodeClaim :=
  MkNodeClaim (MkMeta "user" "" ∅ ∅ [] 0 None) (Some (MkRef "default")) [] ∅ "" "" "" ∅ ∅ [].
Definition leaving : ECSNodeClass :=
  MkNodeClass (MkMeta "default" "uid" ∅ ∅ ["other/finalizer"; TerminationFinalizer] 0 (Some 3%Z))
    (MkSpec [] "" [] [] None None ∅ "") (MkStatus [] [] [] []).
Definition used : server := MkServer 5 {["user" := user]} ∅ [].
Definition unused : server := MkServer 5 ∅ ∅ [].

Lemma Reconcile_releases_witness :
  termination.Reconcile leaving (MkSt () used) =
    (Ok (requeue_after (10 * Minute)),
     MkSt () (publish [termination.WaitingOnNodeClaimTerminationEvent leaving ["user"]] used)) ∧
  termination.Reconcile leaving (MkSt () unused) = (Ok no_requeue, MkSt () unused).
Proof.
  split.
  - destruct (termination.Reconcile_releases leaving 3 () used used (Ok [user])) as [H _];
      [done|vm_compute; reflexivity|vm_compute; reflexivity|].
    apply H. exists "user", user. split; vm_compute; reflexivity.
  - destruct (termination.Reconcile_releases leaving 3 () unused unused (Ok [])) as [_ H];
      [done|vm_compute; reflexivity|vm_compute; reflexivity|].
    destruct (H) with (l := @nil NodeClaim) as (_ & _ & Hrun); [|done|].
    { intros (name & c & Hc & _). vm_compute in Hc. discriminate Hc. }
    exact (Hrun (Ok (termination.RemoveFinalizer leaving TerminationFinalizer)) unused eq_refl).
Defined.
End TerminationExample.
