(* ===== verification/NodeClassStatus.v ===== *)
(** * The NodeClass status controller (pkg/controllers/nodeclass/status)

    Resolves the vSwitches, security groups and images a NodeClass selects and
    writes them to its status with a condition for each, from which [Ready] is
    recomputed: what the cloud provider's launches are gated by.  The three
    providers are those of their own files; the writes to the API server are a
    parameter ([NodeClassWriter]). *)

From S2P Require Import Prelude Effects GoCache Labels Scheduling CloudTypes Apis Conditions.
From S2P Require Import Version VSwitchProvider SecurityGroupProvider InstanceSelect.
From S2P Require Import ImageFamily KubeApi.

Definition nc_set_VSwitches (vs : list VSwitch) (n : ECSNodeClass) : ECSNodeClass :=
  nc_set_Status (MkStatus vs (SecurityGroups (nc_Status n)) (Images (nc_Status n)) (Conditions (nc_Status n))) n.
Definition nc_set_SecurityGroups (gs : list SecurityGroup) (n : ECSNodeClass) : ECSNodeClass :=
  nc_set_Status (MkStatus (VSwitches (nc_Status n)) gs (Images (nc_Status n)) (Conditions (nc_Status n))) n.
Definition nc_set_Images (ims : list Image) (n : ECSNodeClass) : ECSNodeClass :=
  nc_set_Status (MkStatus (VSwitches (nc_Status n)) (SecurityGroups (nc_Status n)) ims (Conditions (nc_Status n))) n.

Module status.

Record Controller := MkController {
  vSwitch : vswitch.DefaultProvider;
  securityGroup : securitygroup.DefaultProvider;
  image : imagefamily.DefaultProvider;
}.

(** What a sub-reconciler leaves: the NodeClass, its result and its error. *)
Definition outcome : Type := ECSNodeClass * Result * option error.

Section outcomes.
Context {RT : GoRuntime}.

(** [nodeClass.StatusConditions().SetTrue] and [SetFalse]. *)
Definition set_true (now : Z) (t : string) (n : ECSNodeClass) : ECSNodeClass :=
  nc_set_Conditions (SetTrue ConditionReady nodeclass_conditions now t (StatusConditions now n)) n.
Definition set_false (now : Z) (t reason message : string) (n : ECSNodeClass) : ECSNodeClass :=
  nc_set_Conditions
    (SetFalse ConditionReady nodeclass_conditions now t reason message (StatusConditions now n)) n.

(** *** vswitch.go *)

(** The count is only dereferenced by the comparison, that is when there are
    several vSwitches. *)
Definition vswitch_entry (several : bool) (v : vswitch.VpcVSwitch) : result (Z * VSwitch) :=
  n ← (if several then deref (vswitch.AvailableIpAddressCount v) else Ok 0%Z);
  id ← deref (vswitch.VSwitchId v);
  zone ← deref (vswitch.ZoneId v);
  Ok (n, MkVSwitch id zone).
Definition more_free (a b : Z * VSwitch) : bool :=
  if (a.1 =? b.1)%Z then str_ltb (vsw_ID a.2) (vsw_ID b.2) else (b.1 <? a.1)%Z.

Definition vswitch_outcome (now : Z) (listed : error + list vswitch.VpcVSwitch) (n : ECSNodeClass)
    : result outcome :=
  match listed with
  | inl e => Ok (n, requeue_after (30 * Second), Some (WrapError "getting vSwitches" e))
  | inr [] =>
      Ok (set_false now ConditionTypeVSwitchesReady "vSwitchesNotFound"
            "VSwitchSelector did not match any VSwitches" (nc_set_VSwitches [] n),
          requeue_after (15 * Second), None)
  | inr l =>
      entries ← rmapM (vswitch_entry (1 <? Z.of_nat (length l))%Z) l;
      Ok (set_true now ConditionTypeVSwitchesReady
            (nc_set_VSwitches (snd <$> sort_slice more_free entries) n),
          requeue_after Minute, None)
  end.

(** *** securitygroup.go *)

Definition group_entry (g : securitygroup.EcsSecurityGroup) : result SecurityGroup :=
  id ← deref (securitygroup.SecurityGroupId g);
  name ← deref (securitygroup.SecurityGroupName g);
  Ok (MkSecurityGroup id name).
Definition group_less (a b : SecurityGroup) : bool := str_ltb (sg_ID a) (sg_ID b).

Definition securitygroup_outcome (now : Z) (listed : error + list securitygroup.EcsSecurityGroup)
    (n : ECSNodeClass) : result outcome :=
  match listed with
  | inl e => Ok (n, requeue_after (30 * Second), Some (WrapError "getting security groups" e))
  | inr l =>
      if bool_decide (l = []) && negb (bool_decide (SecurityGroupSelectorTerms (nc_Spec n) = []))
      then Ok (set_false now ConditionTypeSecurityGroupsReady "SecurityGroupsNotFound"
                 "SecurityGroupSelector did not match any SecurityGroups" (nc_set_SecurityGroups [] n),
               requeue_after (15 * Second), None)
      else
        entries ← rmapM group_entry l;
        Ok (set_true now ConditionTypeSecurityGroupsReady
              (nc_set_SecurityGroups (sort_slice group_less entries) n),
            requeue_after (5 * Minute), None)
  end.

(** *** image.go *)

Definition shorter_key (a b : NodeSelectorRequirement) : bool :=
  if bool_decide (String.length (nsr_Key a) = String.length (nsr_Key b))
  then str_ltb (nsr_Key a) (nsr_Key b)
  else bool_decide (String.length (nsr_Key a) < String.length (nsr_Key b)).
Definition publish (im : imagefamily.Image) : Image :=
  MkImage (imagefamily.ImageID im) (imagefamily.Name im)
    (sort_slice shorter_key
       ((λ q, MkNSR (nsr_Key q) (nsr_Sel q) None)
          <$> NodeSelectorRequirements 47 (imagefamily.Requirements im))).

Definition image_outcome (now : Z) (listed : error + list imagefamily.Image) (n : ECSNodeClass)
    : outcome :=
  match listed with
  | inl e => (n, requeue_after (30 * Second), Some e)
  | inr [] =>
      (set_false now ConditionTypeImagesReady "ImagesNotFound" "ImageSelector did not match any Images"
         (nc_set_Images [] n), no_requeue, None)
  | inr l =>
      (set_true now ConditionTypeImagesReady (nc_set_Images (publish <$> l) n),
       requeue_after (5 * Minute), None)
  end.
End outcomes.

Section reconcile.
Context {RT : GoRuntime} {W : Type} `{HC : !HasClock W} `{NW : !NodeClassWriter W}.
Context `{VA : !vswitch.VpcApi W} `{TH : !vswitch.TermsHash}.
Context `{EG : !securitygroup.EcsGroups W} `{FH : !securitygroup.FiltersHash}.
Context `{IS : !imagefamily.ImageServices W} `{HI : !imagefamily.ImageHashes}.
Context `{DI : !version.Discovery W} `{VH : !version.VersionHash}.
(** The number of security group pages read at most. *)
Context (fuel : nat).
Notation S' := (St Controller W).

Definition on_vswitch {A} (m : M (St vswitch.DefaultProvider W) A) : M S' A := λ s,
  let '(r, s') := m (MkSt (vSwitch (prov s)) (env s)) in
  (r, MkSt (MkController (prov s') (securityGroup (prov s)) (image (prov s))) (env s')).
Definition on_groups {A} (m : M (St securitygroup.DefaultProvider W) A) : M S' A := λ s,
  let '(r, s') := m (MkSt (securityGroup (prov s)) (env s)) in
  (r, MkSt (MkController (vSwitch (prov s)) (prov s') (image (prov s))) (env s')).
Definition on_images {A} (m : M (St imagefamily.DefaultProvider W) A) : M S' A := λ s,
  let '(r, s') := m (MkSt (image (prov s)) (env s)) in
  (r, MkSt (MkController (vSwitch (prov s)) (securityGroup (prov s)) (prov s')) (env s')).

Definition VSwitch_Reconcile (n : ECSNodeClass) : M S' outcome :=
  listed ← attempt (on_vswitch (vswitch.List_ n));
  t ← now;
  lift (vswitch_outcome t listed n).
Definition SecurityGroup_Reconcile (n : ECSNodeClass) : M S' outcome :=
  listed ← attempt (on_groups (securitygroup.List_ fuel n));
  t ← now;
  lift (securitygroup_outcome t listed n).
Definition Image_Reconcile (n : ECSNodeClass) : M S' outcome :=
  listed ← attempt (on_images (imagefamily.List_ n));
  t ← now;
  mret (image_outcome t listed n).

(** The finalizer patch; [inl] is an early return. *)
Definition ensure_finalizer (n : ECSNodeClass) : M S' (Result * option error + ECSNodeClass) :=
  if bool_decide (TerminationFinalizer ∈ meta_Finalizers (nc_Meta n)) then mret (inr n)
  else
    r ← attempt (call (patch_NodeClass n
          (nc_set_Finalizers (meta_Finalizers (nc_Meta n) ++ [TerminationFinalizer]) n)));
    match r with
    | inr n' => mret (inr n')
    | inl e => if IsConflict e then mret (inl (requeue_now, None)) else mret (inl (no_requeue, Some e))
    end.

(** The part of [Reconcile] between the two patches. *)
Definition resolve_status (n : ECSNodeClass) : M S' outcome :=
  t ← now;
  let n := set_true t ConditionTypeInstanceRAMReady n in
  '(n, r1, e1) ← VSwitch_Reconcile n;
  '(n, r2, e2) ← SecurityGroup_Reconcile n;
  '(n, r3, e3) ← Image_Reconcile n;
  mret (n, Result_Min [r1; r2; r3],
        multierr_append (multierr_append (multierr_append None e1) e2) e3).

Definition Reconcile (n : ECSNodeClass) : M S' (Result * option error) :=
  f ← ensure_finalizer n;
  match f with
  | inl ret => mret ret
  | inr stored =>
      '(n, res, errs) ← resolve_status stored;
      if bool_decide (nc_Status stored = nc_Status n) then mret (res, errs)
      else
        w ← attempt (call (patch_NodeClassStatus stored n));
        match w with
        | inr _ => mret (res, errs)
        | inl e => if IsConflict e then mret (requeue_now, None)
                   else mret (res, multierr_append errs (IgnoreNotFound (Some e)))
        end
  end.
End reconcile.

(** ** Lemmas: conditions *)

(** The conditions of a new object, or of one the controllers have written. *)
Definition conditions_ok {RT : GoRuntime} (cs : list Condition) : Prop := cs = [] ∨ reachable_conditions cs.

(** A condition that is true has the resources it speaks of behind it. *)
Record backed {RT : GoRuntime} (n : ECSNodeClass) (cs := Conditions (nc_Status n)) : Prop := {
  bk_conditions : conditions_ok cs;
  bk_vswitches : status_of ConditionTypeVSwitchesReady cs = ConditionTrue → VSwitches (nc_Status n) ≠ [];
  bk_groups : status_of ConditionTypeSecurityGroupsReady cs = ConditionTrue →
    SecurityGroups (nc_Status n) ≠ [] ∨ SecurityGroupSelectorTerms (nc_Spec n) = [];
  bk_images : status_of ConditionTypeImagesReady cs = ConditionTrue → Images (nc_Status n) ≠ [];
}.

Section conditions.
Context {RT : GoRuntime}.

Lemma conditions_pre cs :
  conditions_ok cs → pre_consistent ConditionReady nodeclass_conditions cs.
Proof.
  intros [->|H].
  - split; [constructor|]. intros Hall. destruct (Hall ConditionTypeImagesReady) as [c Hc]; [decide_compute|]. done.
  - apply reachable_consistent in H. by split; [apply H|].
Qed.

Lemma set_condition_spec now c n (cs := Conditions (nc_Status n))
    (cs' := Set_ ConditionReady nodeclass_conditions now c (StatusConditions now n)) :
  conditions_ok cs → cond_Type c ∈ nodeclass_conditions →
  reachable_conditions cs' ∧ status_of (cond_Type c) cs' = cond_Status c ∧
  ∀ u, u ∈ nodeclass_conditions → u ≠ cond_Type c → status_of u cs' = status_of u cs.
Proof.
  intros Hcs Hc. pose proof (conditions_pre cs Hcs) as Hpre.
  destruct (For_spec ConditionReady nodeclass_conditions ready_not_dependent now cs Hpre) as [Hcons Hst].
  assert (reachable_conditions (StatusConditions now n)) as Hr.
  { unfold StatusConditions. fold cs. destruct Hcs as [->|Hr]; [apply Reach_new|by apply Reach_for]. }
  destruct (Set_pre_consistent ConditionReady nodeclass_conditions ready_not_dependent now c
    (StatusConditions now n)) as (_ & _ & _ & Hs & Hkeep); [split; [apply Hcons|done]|done|].
  split_and!; [by apply Reach_set|exact Hs|]. intros u Hu Hne.
  etransitivity; [exact (Hkeep u Hu Hne)|]. by apply Hst.
Qed.

Lemma set_true_spec now t n :
  conditions_ok (Conditions (nc_Status n)) → t ∈ nodeclass_conditions →
  let cs' := Conditions (nc_Status (set_true now t n)) in
  reachable_conditions cs' ∧ status_of t cs' = ConditionTrue ∧
  ∀ u, u ∈ nodeclass_conditions → u ≠ t → status_of u cs' = status_of u (Conditions (nc_Status n)).
Proof. intros Hcs Ht. exact (set_condition_spec now (MkCondition t ConditionTrue t "" 0) n Hcs Ht). Qed.
Lemma set_false_spec now t reason message n :
  conditions_ok (Conditions (nc_Status n)) → t ∈ nodeclass_conditions →
  let cs' := Conditions (nc_Status (set_false now t reason message n)) in
  reachable_conditions cs' ∧ status_of t cs' = ConditionFalse ∧
  ∀ u, u ∈ nodeclass_conditions → u ≠ t → status_of u cs' = status_of u (Conditions (nc_Status n)).
Proof. intros Hcs Ht. exact (set_condition_spec now (MkCondition t ConditionFalse reason message 0) n Hcs Ht). Qed.

(** What a sub-reconciler may change: its own condition [t], and with it the
    root, and its own list; the specification never. *)
Definition touches (t : string) (n n' : ECSNodeClass) : Prop :=
  nc_Spec n' = nc_Spec n ∧ nc_Meta n' = nc_Meta n ∧
  (n' = n ∨ reachable_conditions (Conditions (nc_Status n'))) ∧
  ∀ u, u ∈ nodeclass_conditions → u ≠ t →
    status_of u (Conditions (nc_Status n')) = status_of u (Conditions (nc_Status n)).

Lemma touches_ok t n n' :
  conditions_ok (Conditions (nc_Status n)) → touches t n n' → conditions_ok (Conditions (nc_Status n')).
Proof. intros H (_ & _ & [->|Hr] & _); [done|by right]. Qed.

Lemma vswitch_outcome_spec now listed n n' r e :
  conditions_ok (Conditions (nc_Status n)) → vswitch_outcome now listed n = Ok (n', r, e) →
  touches ConditionTypeVSwitchesReady n n' ∧
  SecurityGroups (nc_Status n') = SecurityGroups (nc_Status n) ∧ Images (nc_Status n') = Images (nc_Status n) ∧
  match listed with
  | inl _ => n' = n ∧ is_Some e
  | inr l => e = None ∧ length (VSwitches (nc_Status n')) = length l ∧
      status_of ConditionTypeVSwitchesReady (Conditions (nc_Status n')) =
        if bool_decide (l = []) then ConditionFalse else ConditionTrue
  end.
Proof.
  intros Hcs. unfold vswitch_outcome. destruct listed as [err|[|v l]].
  - intros [= <- _ <-]. split_and!; try done. split_and!; try done. by left.
  - intros [= <- _ <-].
    destruct (set_false_spec now ConditionTypeVSwitchesReady "vSwitchesNotFound"
      "VSwitchSelector did not match any VSwitches" (nc_set_VSwitches [] n) Hcs) as (Hr & Hs & Hk);
      [decide_compute|].
    split_and!; try done. split_and!; try done. by right.
  - rewrite bind_Ok. intros (entries & He & [= <- _ <-]).
    set (vs := snd <$> sort_slice more_free entries).
    destruct (set_true_spec now ConditionTypeVSwitchesReady (nc_set_VSwitches vs n) Hcs) as (Hr & Hs & Hk);
      [decide_compute|].
    split_and!; try done.
    + split_and!; try done. by right.
    + cbn. unfold vs. rewrite length_fmap, (Permutation_length (sort_slice_perm _ _ _)).
      by apply rmapM_Forall2, Forall2_length in He.
Qed.

Lemma securitygroup_outcome_spec now listed n n' r e :
  conditions_ok (Conditions (nc_Status n)) → securitygroup_outcome now listed n = Ok (n', r, e) →
  touches ConditionTypeSecurityGroupsReady n n' ∧
  VSwitches (nc_Status n') = VSwitches (nc_Status n) ∧ Images (nc_Status n') = Images (nc_Status n) ∧
  match listed with
  | inl _ => n' = n ∧ is_Some e
  | inr l => e = None ∧ length (SecurityGroups (nc_Status n')) = length l ∧
      status_of ConditionTypeSecurityGroupsReady (Conditions (nc_Status n')) =
        if bool_decide (l = [] ∧ SecurityGroupSelectorTerms (nc_Spec n) ≠ []) then ConditionFalse
        else ConditionTrue
  end.
Proof.
  intros Hcs. unfold securitygroup_outcome. destruct listed as [err|l].
  - intros [= <- _ <-]. split_and!; try done. split_and!; try done. by left.
  - assert (bool_decide (l = []) && negb (bool_decide (SecurityGroupSelectorTerms (nc_Spec n) = []))
      = bool_decide (l = [] ∧ SecurityGroupSelectorTerms (nc_Spec n) ≠ [])) as ->.
    { by rewrite bool_decide_and, bool_decide_not. }
    case_bool_decide as Hl.
    + intros [= <- _ <-]. destruct Hl as [-> _].
      destruct (set_false_spec now ConditionTypeSecurityGroupsReady "SecurityGroupsNotFound"
        "SecurityGroupSelector did not match any SecurityGroups" (nc_set_SecurityGroups [] n) Hcs)
        as (Hr & Hs & Hk); [decide_compute|].
      split_and!; try done. split_and!; try done. by right.
    + rewrite bind_Ok. intros (entries & He & [= <- _ <-]).
      set (gs := sort_slice group_less entries).
      destruct (set_true_spec now ConditionTypeSecurityGroupsReady (nc_set_SecurityGroups gs n) Hcs)
        as (Hr & Hs & Hk); [decide_compute|].
      split_and!; try done.
      * split_and!; try done. by right.
      * cbn. unfold gs. rewrite (Permutation_length (sort_slice_perm _ _ _)).
        by apply rmapM_Forall2, Forall2_length in He.
Qed.

Lemma image_outcome_spec now listed n n' r e :
  conditions_ok (Conditions (nc_Status n)) → image_outcome now listed n = (n', r, e) →
  touches ConditionTypeImagesReady n n' ∧
  VSwitches (nc_Status n') = VSwitches (nc_Status n) ∧
  SecurityGroups (nc_Status n') = SecurityGroups (nc_Status n) ∧
  match listed with
  | inl _ => n' = n ∧ is_Some e
  | inr l => e = None ∧ Images (nc_Status n') = (publish <$> l) ∧
      status_of ConditionTypeImagesReady (Conditions (nc_Status n')) =
        if bool_decide (l = []) then ConditionFalse else ConditionTrue
  end.
Proof.
  intros Hcs. unfold image_outcome. destruct listed as [err|[|im l]].
  - intros [= <- _ <-]. split_and!; try done. split_and!; try done. by left.
  - intros [= <- _ <-].
    destruct (set_false_spec now ConditionTypeImagesReady "ImagesNotFound"
      "ImageSelector did not match any Images" (nc_set_Images [] n) Hcs) as (Hr & Hs & Hk); [decide_compute|].
    split_and!; try done. split_and!; try done. by right.
  - intros [= <- _ <-]. set (ims := publish <$> im :: l).
    destruct (set_true_spec now ConditionTypeImagesReady (nc_set_Images ims n) Hcs) as (Hr & Hs & Hk);
      [decide_compute|].
    split_and!; try done. split_and!; try done. by right.
Qed.
End conditions.

(** ** Lemmas: the run *)

Section run.
Context {RT : GoRuntime} {W : Type} `{HC : !HasClock W} `{NW : !NodeClassWriter W}.
Context `{VA : !vswitch.VpcApi W} `{TH : !vswitch.TermsHash}.
Context `{EG : !securitygroup.EcsGroups W} `{FH : !securitygroup.FiltersHash}.
Context `{IS : !imagefamily.ImageServices W} `{HI : !imagefamily.ImageHashes}.
Context `{DI : !version.Discovery W} `{VH : !version.VersionHash}.
Context (fuel : nat).

(** The outcomes that a run of the sub-reconcilers goes through. *)
Lemma resolve_status_steps n (s s' : St Controller W) n' res errs :
  resolve_status fuel n s = (Ok (n', res, errs), s') →
  ∃ t1 l1 n1 r1 e1 t2 l2 n2 r2 e2 t3 l3 r3 e3,
    vswitch_outcome t1 l1 (set_true (clock (env s)) ConditionTypeInstanceRAMReady n) = Ok (n1, r1, e1) ∧
    securitygroup_outcome t2 l2 n1 = Ok (n2, r2, e2) ∧ image_outcome t3 l3 n2 = (n', r3, e3).
Proof.
  unfold resolve_status, VSwitch_Reconcile, SecurityGroup_Reconcile, Image_Reconcile. intros H.
  apply M_bind_Ok in H as (t & s0 & Ht & H). injection Ht as <- <-.
  apply M_bind_Ok in H as ([[n1 r1] e1] & s1 & H1 & H).
  apply M_bind_Ok in H as ([[n2 r2] e2] & s2 & H2 & H).
  apply M_bind_Ok in H as ([[n3 r3] e3] & s3 & H3 & H).
  apply M_bind_Ok in H1 as (l1 & sa & _ & H1). apply M_bind_Ok in H1 as (t1 & sb & _ & H1).
  apply M_bind_Ok in H2 as (l2 & sc & _ & H2). apply M_bind_Ok in H2 as (t2 & sd & _ & H2).
  apply M_bind_Ok in H3 as (l3 & se & _ & H3). apply M_bind_Ok in H3 as (t3 & sf & _ & H3).
  injection H1 as H1 _. injection H2 as H2 _. injection H3 as H3 _. injection H as -> _ _ _.
  by exists t1, l1, n1, r1, e1, t2, l2, n2, r2, e2, t3, l3, r3, e3.
Qed.

Lemma ram_touches now n :
  conditions_ok (Conditions (nc_Status n)) →
  touches ConditionTypeInstanceRAMReady n (set_true now ConditionTypeInstanceRAMReady n).
Proof.
  intros H. destruct (set_true_spec now ConditionTypeInstanceRAMReady n H) as (Hr & _ & Hk); [decide_compute|].
  split_and!; try done. by right.
Qed.

(** A condition another reconciler owns keeps its status. *)
Lemma touches_status t u n n' :
  touches t n n' → u ∈ nodeclass_conditions → u ≠ t →
  status_of u (Conditions (nc_Status n')) = status_of u (Conditions (nc_Status n)).
Proof. intros (_ & _ & _ & H). apply H. Qed.

Lemma touches_reachable t n n' :
  touches t n n' → reachable_conditions (Conditions (nc_Status n)) →
  reachable_conditions (Conditions (nc_Status n')).
Proof. by intros (_ & _ & [->|H] & _). Qed.

(** [run] attempts the listing of a provider. *)

Lemma status_list_run {A} (m : M (St Controller W) A) (f : Z → error + A → result outcome) s a s' o :
  m s = (Ok a, s') → f (clock (env s')) (inr a) = Ok o →
  (listed ← attempt m; t ← now; lift (f t listed)) s = (Ok o, s').
Proof.
  intros Hm Hf. rewrite (M_Ok_bind _ _ _ _ _ (attempt_inr _ _ _ _ Hm)).
  rewrite (M_Ok_bind now _ _ (clock (env s')) s') by done. unfold lift. by rewrite Hf.
Qed.

(** A run in which the three listings succeed. *)
Lemma resolve_status_run n (s s1 s2 s3 : St Controller W) vs gs ims n1 n2 n3 r1 r2 r3 e1 e2 e3
    (n0 := set_true (clock (env s)) ConditionTypeInstanceRAMReady n) :
  on_vswitch (vswitch.List_ n) s = (Ok vs, s1) →
  on_groups (securitygroup.List_ fuel n) s1 = (Ok gs, s2) →
  on_images (imagefamily.List_ n) s2 = (Ok ims, s3) →
  vswitch_outcome (clock (env s1)) (inr vs) n0 = Ok (n1, r1, e1) → nc_Spec n1 = nc_Spec n →
  securitygroup_outcome (clock (env s2)) (inr gs) n1 = Ok (n2, r2, e2) → nc_Spec n2 = nc_Spec n →
  image_outcome (clock (env s3)) (inr ims) n2 = (n3, r3, e3) →
  resolve_status fuel n s = (Ok (n3, Result_Min [r1; r2; r3],
    multierr_append (multierr_append (multierr_append None e1) e2) e3), s3).
Proof.
  intros Hl1 Hl2 Hl3 H1 E1 H2 E2 H3. unfold resolve_status.
  rewrite (M_Ok_bind now _ _ (clock (env s)) s) by done. fold n0.
  rewrite (M_Ok_bind (VSwitch_Reconcile n0) _ s (n1, r1, e1) s1)
    by exact (status_list_run _ (λ t l, vswitch_outcome t l n0) _ _ _ _ Hl1 H1).
  assert (on_groups (securitygroup.List_ fuel n1) s1 = (Ok gs, s2)) as Hl2'
    by (rewrite <- Hl2; unfold securitygroup.List_; by rewrite E1).
  rewrite (M_Ok_bind (SecurityGroup_Reconcile fuel n1) _ s1 (n2, r2, e2) s2)
    by exact (status_list_run _ (λ t l, securitygroup_outcome t l n1) _ _ _ _ Hl2' H2).
  assert (on_images (imagefamily.List_ n2) s2 = (Ok ims, s3)) as Hl3'
    by (rewrite <- Hl3; unfold imagefamily.List_, imagefamily.GetImages; by rewrite E2).
  rewrite (M_Ok_bind (Image_Reconcile n2) _ s2 (n3, r3, e3) s3); [done|].
  rewrite <- H3. exact (status_list_run _ (λ t l, Ok (image_outcome t l n2)) _ _ _ _ Hl3' eq_refl).
Qed.
End run.

Lemma reachable_ready {RT : GoRuntime} cs :
  reachable_conditions cs →
  status_of ConditionReady cs =
    if bool_decide (Exists (λ t, status_of t cs = ConditionFalse) nodeclass_conditions) then ConditionFalse
    else if bool_decide (Forall (λ t, status_of t cs = ConditionTrue) nodeclass_conditions) then ConditionTrue
    else ConditionUnknown.
Proof. intros Hr. apply reachable_consistent in Hr as [_ _ _ ->]. done. Qed.

Lemma ready_all_true {RT : GoRuntime} cs t :
  reachable_conditions cs → status_of ConditionReady cs = ConditionTrue →
  t ∈ nodeclass_conditions → status_of t cs = ConditionTrue.
Proof.
  intros Hr. rewrite reachable_ready by done. case_bool_decide; [done|].
  case_bool_decide as HF; [|done]. intros _ Ht. rewrite Forall_forall in HF. by apply HF.
Qed.

(** The readiness of a set of conditions of which none is unknown. *)
Lemma ready_decided {RT : GoRuntime} cs (P : Prop) `{!Decision P} :
  reachable_conditions cs →
  (P → ∀ t, t ∈ nodeclass_conditions → status_of t cs = ConditionTrue) →
  (¬ P → ∃ t, t ∈ nodeclass_conditions ∧ status_of t cs = ConditionFalse) →
  status_of ConditionReady cs = if bool_decide P then ConditionTrue else ConditionFalse.
Proof.
  intros Hr HP HN. rewrite reachable_ready by done. destruct (bool_decide_reflect P) as [H|H].
  - rewrite bool_decide_false, bool_decide_true; [done| |].
    + apply Forall_forall. by apply HP.
    + intros (t & Ht & Hf)%Exists_exists. by rewrite (HP H t Ht) in Hf.
  - rewrite bool_decide_true; [done|]. apply Exists_exists. destruct (HN H) as (t & ? & ?). by exists t.
Qed.

(** The readiness the four conditions amount to, each set from a listing. *)
Lemma ready_of_lists {RT : GoRuntime} {A B C D} cs (vs : list A) (gs : list B) (ims : list C) (terms : list D)
    `{!EqDecision D} :
  reachable_conditions cs →
  status_of ConditionTypeInstanceRAMReady cs = ConditionTrue →
  status_of ConditionTypeVSwitchesReady cs = (if bool_decide (vs = []) then ConditionFalse else ConditionTrue) →
  status_of ConditionTypeSecurityGroupsReady cs =
    (if bool_decide (gs = [] ∧ terms ≠ []) then ConditionFalse else ConditionTrue) →
  status_of ConditionTypeImagesReady cs = (if bool_decide (ims = []) then ConditionFalse else ConditionTrue) →
  status_of ConditionReady cs =
    if bool_decide (vs ≠ [] ∧ ims ≠ [] ∧ (gs ≠ [] ∨ terms = [])) then ConditionTrue else ConditionFalse.
Proof.
  intros Hr SR S1 S2 S3. apply ready_decided; [done| |].
  - intros (Hv & Hi & Hg) t Ht. rewrite bool_decide_false in S1, S2, S3 by naive_solver.
    unfold nodeclass_conditions in Ht. rewrite !elem_of_cons, elem_of_nil in Ht.
    destruct Ht as [->|[->|[->|[->|[]]]]]; done.
  - intros HN. destruct (decide (vs = [])) as [Hv|Hv].
    { exists ConditionTypeVSwitchesReady. rewrite bool_decide_true in S1 by done. split; [decide_compute|done]. }
    destruct (decide (ims = [])) as [Hi|Hi].
    { exists ConditionTypeImagesReady. rewrite bool_decide_true in S3 by done. split; [decide_compute|done]. }
    exists ConditionTypeSecurityGroupsReady. split; [decide_compute|]. rewrite bool_decide_true in S2; [done|].
    destruct gs; [|naive_solver]. split; [done|]. naive_solver.
Qed.

(** ** Lemmas: orders *)

Lemma more_free_true a b :
  more_free a b = true ↔ (b.1 < a.1)%Z ∨ (a.1 = b.1 ∧ str_ltb (vsw_ID a.2) (vsw_ID b.2) = true).
Proof.
  unfold more_free. destruct (Z.eqb_spec a.1 b.1) as [Heq|Hne].
  - split; [by right|]. intros [?|[_ ?]]; [lia|done].
  - rewrite Z.ltb_lt. split; [by left|]. intros [?|[? _]]; [done|congruence].
Qed.
#[export] Instance more_free_swo : StrictWeakOrder more_free.
Proof.
  split.
  - intros x y Hxy. apply not_true_iff_false. rewrite more_free_true in *. intros Hyx.
    destruct Hxy as [?|[? Hxy]], Hyx as [?|[? Hyx]]; try lia.
    apply swo_asym in Hxy. congruence.
  - intros x y z Hxy Hyz. apply not_true_iff_false. rewrite more_free_true.
    rewrite <- not_true_iff_false, more_free_true in Hxy, Hyz. intros [Hlt|[Heq Hl]].
    + assert (¬ (y.1 < x.1)%Z) as ? by tauto. assert (¬ (z.1 < y.1)%Z) as ? by tauto. lia.
    + assert (x.1 = y.1) as Exy by (destruct (Z.lt_trichotomy x.1 y.1) as [?|[?|?]]; [|done|tauto]; exfalso; apply Hyz; left; lia).
      assert (y.1 = z.1) as Eyz by congruence.
      assert (str_ltb (vsw_ID x.2) (vsw_ID y.2) = false) as Hf by (apply not_true_iff_false; tauto).
      assert (str_ltb (vsw_ID y.2) (vsw_ID z.2) = false) as Hg by (apply not_true_iff_false; tauto).
      by rewrite (swo_neg_trans _ _ _ Hf Hg) in Hl.
Qed.

(** ** Lemmas: complete answers *)

Definition complete_vswitch (v : vswitch.VpcVSwitch) : Prop :=
  is_Some (vswitch.VSwitchId v) ∧ is_Some (vswitch.ZoneId v) ∧ is_Some (vswitch.AvailableIpAddressCount v).
Definition complete_group (g : securitygroup.EcsSecurityGroup) : Prop :=
  is_Some (securitygroup.SecurityGroupId g) ∧ is_Some (securitygroup.SecurityGroupName g).
Definition entry_of (v : vswitch.VpcVSwitch) : Z * VSwitch :=
  (IntValue (vswitch.AvailableIpAddressCount v),
   MkVSwitch (StringValue (vswitch.VSwitchId v)) (StringValue (vswitch.ZoneId v))).
Definition group_of (g : securitygroup.EcsSecurityGroup) : SecurityGroup :=
  MkSecurityGroup (StringValue (securitygroup.SecurityGroupId g)) (StringValue (securitygroup.SecurityGroupName g)).

Section complete.
Context {RT : GoRuntime}.

(** Complete answers are published: all of them, the vSwitch with the most free
    addresses first. *)
Lemma vswitch_outcome_complete now vs n :
  Forall complete_vswitch vs →
  ∃ n' r entries, vswitch_outcome now (inr vs) n = Ok (n', r, None) ∧
    (0 < RequeueAfter r ≤ Minute)%Z ∧
    VSwitches (nc_Status n') = snd <$> entries ∧ entries ≡ₚ (entry_of <$> vs) ∧
    StronglySorted (not_after more_free) entries.
Proof.
  intros Hall. destruct vs as [|v [|v2 vs]].
  - eexists _, _, []. split; [reflexivity|]. split_and!; try done. constructor.
  - apply Forall_singleton in Hall as ([id Hid] & [zone Hz] & _).
    eexists _, _, [entry_of v]. split.
    { cbn. unfold vswitch_entry. by rewrite Hid, Hz. }
    split_and!; [done|done| |done|repeat constructor].
    cbn. assert (sort_slice more_free [(0%Z, MkVSwitch id zone)] = [(0%Z, MkVSwitch id zone)]) as ->.
    { apply Permutation_singleton_r, sort_slice_perm. }
    unfold entry_of. by rewrite Hid, Hz.
  - set (l := v :: v2 :: vs) in *. set (entries := sort_slice more_free (entry_of <$> l)).
    eexists _, _, entries. split.
    { cbn [vswitch_outcome l]. fold l. assert ((1 <? Z.of_nat (length l))%Z = true) as -> by (apply Z.ltb_lt; simpl; lia).
      rewrite (rmapM_Ok _ entry_of); [reflexivity|]. intros x Hx. rewrite Forall_forall in Hall.
      destruct (Hall x Hx) as ([id Hid] & [zone Hz] & [c Hc]). unfold vswitch_entry, entry_of.
      by rewrite Hid, Hz, Hc. }
    split_and!; [done|done|done|apply sort_slice_perm|]. apply sort_slice_sorted. apply _.
Qed.

Lemma securitygroup_outcome_complete now gs n :
  Forall complete_group gs →
  ∃ n' r, securitygroup_outcome now (inr gs) n = Ok (n', r, None) ∧ (0 < RequeueAfter r)%Z ∧
    SecurityGroups (nc_Status n') ≡ₚ (group_of <$> gs).
Proof.
  intros Hall. unfold securitygroup_outcome. destruct (_ && _) eqn:He.
  - apply andb_true_iff in He as [->%bool_decide_eq_true _]. eexists _, _. split; [reflexivity|]. done.
  - rewrite (rmapM_Ok _ group_of).
    + eexists _, _. split; [reflexivity|]. split; [done|]. apply sort_slice_perm.
    + intros g Hg. rewrite Forall_forall in Hall. destruct (Hall g Hg) as ([id Hid] & [name Hn]).
      unfold group_entry, group_of. by rewrite Hid, Hn.
Qed.

Lemma image_outcome_complete now ims n :
  ∃ n' r, image_outcome now (inr ims) n = (n', r, None) ∧ (0 ≤ RequeueAfter r)%Z.
Proof. destruct ims; eexists _, _; (split; [reflexivity|done]). Qed.
End complete.

Lemma Result_Min_bound r1 r2 r3 d :
  (0 < RequeueAfter r1 ≤ d)%Z → (d < MaxInt64)%Z →
  (0 ≤ RequeueAfter r2)%Z → (0 ≤ RequeueAfter r3)%Z →
  let r := Result_Min [r1; r2; r3] in Requeue r = true ∧ (0 ≤ RequeueAfter r ≤ d)%Z.
Proof.
  intros H1 Hd H2 H3. unfold Result_Min. cbn [result_min_from].
  rewrite (bool_decide_false (r1 = no_requeue)) by (intros ->; simpl in H1; lia).
  rewrite (proj2 (Z.ltb_lt _ _)) by lia.
  repeat case_bool_decide; repeat match goal with |- context [(?x <? ?y)%Z] => destruct (Z.ltb_spec x y) end;
    cbn; (split; [done|lia]).
Qed.

(** ** Properties *)

Section properties.
Context {RT : GoRuntime} {W : Type} `{HC : !HasClock W} `{NW : !NodeClassWriter W}.
Context `{VA : !vswitch.VpcApi W} `{TH : !vswitch.TermsHash}.
Context `{EG : !securitygroup.EcsGroups W} `{FH : !securitygroup.FiltersHash}.
Context `{IS : !imagefamily.ImageServices W} `{HI : !imagefamily.ImageHashes}.
Context `{DI : !version.Discovery W} `{VH : !version.VersionHash}.
Context (fuel : nat).

(** C5. Whatever the services answer, errors included, the status that
    a reconciliation computes keeps the invariant that a true condition has its
    resources behind it; in particular it is [Ready] only with at least one
    vSwitch, one image, and one security group if any is selected. *)
Theorem resolve_status_backed n (s s' : St Controller W) n' res errs :
  backed n → resolve_status fuel n s = (Ok (n', res, errs), s') →
  backed n' ∧ nc_Spec n' = nc_Spec n ∧
  (status_of ConditionReady (Conditions (nc_Status n')) = ConditionTrue →
     VSwitches (nc_Status n') ≠ [] ∧ Images (nc_Status n') ≠ [] ∧
     (SecurityGroups (nc_Status n') ≠ [] ∨ SecurityGroupSelectorTerms (nc_Spec n') = [])).
Proof.
  intros [Hok Hv Hg Hi] Hrun.
  apply resolve_status_steps in Hrun
    as (t1 & l1 & n1 & r1 & e1 & t2 & l2 & n2 & r2 & e2 & t3 & l3 & r3 & e3 & H1 & H2 & H3).
  set (n0 := set_true _ _ n) in H1. pose proof (ram_touches (clock (env s)) n Hok) as T0. fold n0 in T0.
  pose proof (touches_ok _ _ _ Hok T0) as Hok0.
  apply vswitch_outcome_spec in H1 as (T1 & G1 & I1 & L1); [|done]. pose proof (touches_ok _ _ _ Hok0 T1) as Hok1.
  apply securitygroup_outcome_spec in H2 as (T2 & V2 & I2 & L2); [|done]. pose proof (touches_ok _ _ _ Hok1 T2) as Hok2.
  apply image_outcome_spec in H3 as (T3 & V3 & G3 & L3); [|done]. pose proof (touches_ok _ _ _ Hok2 T3) as Hok3.
  assert (nc_Spec n' = nc_Spec n) as Hspec.
  { destruct T0 as (E0 & _), T1 as (E1 & _), T2 as (E2 & _), T3 as (E3 & _). congruence. }
  assert (reachable_conditions (Conditions (nc_Status n'))) as Hreach.
  { destruct (set_true_spec (clock (env s)) ConditionTypeInstanceRAMReady n Hok) as (R0 & _); [decide_compute|].
    fold n0 in R0.
    by apply (touches_reachable _ _ _ T3), (touches_reachable _ _ _ T2), (touches_reachable _ _ _ T1). }
  assert (backed n') as Hb.
  { split; [done| | |].
    - rewrite (touches_status _ _ _ _ T3), (touches_status _ _ _ _ T2) by decide_compute.
      rewrite V3, V2. destruct l1 as [e|l].
      + destruct L1 as [-> _]. rewrite (touches_status _ _ _ _ T0) by decide_compute. exact Hv.
      + destruct L1 as (_ & Hlen & ->). case_bool_decide; [done|]. intros _ Hnil.
        rewrite Hnil in Hlen. by destruct l.
    - rewrite (touches_status _ _ _ _ T3) by decide_compute. rewrite G3, Hspec. destruct l2 as [e|l].
      + destruct L2 as [-> _]. rewrite (touches_status _ _ _ _ T1), (touches_status _ _ _ _ T0) by decide_compute.
        rewrite G1. exact Hg.
      + assert (nc_Spec n1 = nc_Spec n) as E1 by (destruct T0 as (E0 & _), T1 as (E1 & _); congruence).
        destruct L2 as (_ & Hlen & ->). rewrite E1. case_bool_decide as Hl; [done|]. intros _.
        destruct l as [|g l]; [right; destruct (SecurityGroupSelectorTerms (nc_Spec n)); [done|naive_solver]|].
        left. intros Hnil. by rewrite Hnil in Hlen.
    - destruct l3 as [e|l].
      + destruct L3 as [-> _]. rewrite (touches_status _ _ _ _ T2), (touches_status _ _ _ _ T1),
          (touches_status _ _ _ _ T0) by decide_compute. rewrite I2, I1. exact Hi.
      + destruct L3 as (_ & -> & ->). case_bool_decide; [done|]. intros _ Hnil%fmap_nil_inv. done. }
  split_and!; [done|done|]. intros Hr.
  split_and!; [apply Hb|apply Hb|apply Hb]; (apply ready_all_true; [done|done|decide_compute]).
Qed.

End properties.


(** ** Images through the status *)

(** The requirements of an image survive their publication: an
    instance type is compatible with the image read back from the status exactly
    when it is with the image the provider resolved. *)
Theorem publish_roundtrip {RT : GoRuntime} name id arch it :
  let im := imagefamily.MkImage name id (imagefamily.arch_requirements arch) in
  NewNodeSelectorRequirements (img_Requirements (publish im)) = imagefamily.Requirements im ∧
  img_ID (publish im) = id ∧
  image_fits it (publish im) = Compatible (it_Requirements it) (imagefamily.Requirements im) WellKnownLabels.
Proof.
  set (q := NewRequirement LabelArchStable (SelIn [arch])).
  assert (normalize_key (Key q) = Key q) as Hk by (vm_compute; reflexivity).
  assert (imagefamily.arch_requirements arch = {[Key q := q]}) as Hreq by reflexivity.
  intros im.
  assert (NewNodeSelectorRequirements (img_Requirements (publish im)) = imagefamily.Requirements im) as Hback.
  { unfold im, publish. cbn [img_Requirements imagefamily.Requirements]. rewrite Hreq.
    unfold NodeSelectorRequirements, map_values.
    assert (range_map 47 {[Key q := q]} = [(Key q, q)]) as ->.
    { apply Permutation_singleton_r. rewrite range_map_perm. by rewrite map_to_list_singleton. }
    cbn [fmap list_fmap snd].
    assert (∀ x, sort_slice shorter_key [x] = [x]) as -> by (intros x; apply Permutation_singleton_r, sort_slice_perm).
    unfold NewNodeSelectorRequirements. cbn [foldl nsr_Key nsr_Sel].
    change None with (nsr_MinValues (NodeSelectorRequirement_of q)).
    rewrite (NodeSelectorRequirement_back q) by done. reflexivity. }
  split; [exact Hback|]. split; [reflexivity|]. unfold image_fits. by rewrite Hback.
Qed.

End status.

(** ** A concrete run *)

Module StatusExample.
Import status.

#[global] Instance status_clock : HasClock Z := id.
#[global] Instance accept_all : NodeClassWriter Z := {|
  patch_NodeClass := λ _ n w, (Ok n, w);
  patch_NodeClassStatus := λ _ n w, (Ok n, w);
|}.
Definition class : ECSNodeClass :=
  MkNodeClass (MkMeta "default" "uid" ∅ ∅ [TerminationFinalizer] 0 None)
    (MkSpec (VSwitchSelectorTerms (nc_Spec VSwitchExample.example_class)) ""
       (SecurityGroupSelectorTerms (nc_Spec SecurityGroupExample.class))
       (ImageSelectorTerms (nc_Spec ImageExample.class)) None None ∅ "")
    (MkStatus [] [] [] []).
Definition controller : Controller :=
  MkController VSwitchExample.fresh SecurityGroupExample.start ImageExample.start.
Definition start : St Controller Z := MkSt controller Second.
Definition run : result outcome * St Controller Z := resolve_status 5 class start.
Definition class' : ECSNodeClass := match run.1 with Ok (n, _, _) => n | _ => class end.

Example run_example :
  (match run.1 with Ok (_, _, None) => true | _ => false end) = true ∧
  length (VSwitches (nc_Status class')) = 60 ∧
  status_of ConditionReady (Conditions (nc_Status class')) = ConditionTrue.
Proof. vm_compute. repeat split; reflexivity. Qed.

Definition result_of (r : result outcome) : Result := match r with Ok (_, res, _) => res | _ => no_requeue end.
Lemma status_run_ok : run = (Ok (class', result_of run.1, None), run.2).
Proof.
  pose proof run_example as [H _]. unfold class'.
  destruct run as [[[[n r] [e|]]| |] s2]; try done.
Qed.

Lemma class_backed : backed class.
Proof. split; [by left | done..]. Qed.

Lemma resolve_status_backed_witness : backed class' ∧ Images (nc_Status class') ≠ [].
Proof.
  destruct (resolve_status_backed 5 class start run.2 class' (result_of run.1) None class_backed status_run_ok)
    as (Hb & _ & Hready).
  split; [exact Hb|]. apply Hready. vm_compute. reflexivity.
Defined.

Definition ok_list {A} (r : result (list A)) : list A := match r with Ok l => l | _ => [] end.
Definition vs := on_vswitch (vswitch.List_ class) start.
Definition gs := on_groups (securitygroup.List_ 5 class) vs.2.
Definition ims := on_images (imagefamily.List_ class) gs.2.

End StatusExample.
