(* ===== verification/Operator.v ===== *)
(** * The operator (pkg/operator, pkg/controllers/controllers.go, cmd/controller)

    [NewOperator] makes the providers and [NewControllers] the controllers that
    the options ask for; the program then serves karpenter's calls of the cloud
    provider, its own reconciliations and the sweeps of the caches, in any order.
    The providers are shared: the cloud provider, the status controller, the
    tagging and the interruption controllers all work on the one operator, whose
    parts their states are views of.  Here the interfaces between the components
    are discharged by the components themselves: the cluster's network type and
    the registration script by the ACK provider, the disk filter by the resolver. *)

From S2P Require Import Prelude Effects Floats GoCache UnavailableOfferings Labels Scheduling Options.
From S2P Require Import CloudTypes Apis Conditions Utils Version Pricing VSwitchProvider.
From S2P Require Import SecurityGroupProvider InstanceTypeCalc InstanceTypeProvider InstanceSelect.
From S2P Require Import InstanceProvider ImageFamily KubeApi CloudProvider Ack Staleness.
From S2P Require Import GarbageCollection Tagging Interruption ProviderControllers NodeClassStatus.
From stdpp Require Import relations.

Module operator.
#[local] Existing Instance instancetypes.pricing_provider_view.

(** ** operator.go *)

(** The unavailable offerings and the vSwitch provider are those of the instance
    provider, the version provider that of the image provider. *)
Record Operator := MkOperator {
  PricingProvider_ : PricingProvider;
  SecurityGroupProvider_ : securitygroup.DefaultProvider;
  ImageProvider_ : imagefamily.DefaultProvider;
  ImageResolver_ : imagefamily.DefaultResolver;
  AckProvider_ : ack.DefaultProvider;
  InstanceTypeProvider_ : instancetypes.DefaultProvider;
  InstanceProvider_ : instance.DefaultProvider;
}.
Definition UnavailableOfferingsCache (o : Operator) : UnavailableOfferings :=
  instance.unavailableOfferings (InstanceProvider_ o).
Definition VSwitchProvider_ (o : Operator) : vswitch.DefaultProvider :=
  instance.vSwitchProvider (InstanceProvider_ o).
Definition VersionProvider_ (o : Operator) : version.DefaultProvider :=
  imagefamily.versionProvider (ImageProvider_ o).

(** What the constructors of the clients return: the profile with its region and
    the credential it gives, the ECS client made from a configuration, with its
    region (a pointer), the VPC and the ACK clients, and the client of the price
    server. *)
Record Clients := MkClients {
  cl_profile : error + string;
  cl_credential : error + ();
  cl_ecs : string → error + option string;
  cl_vpc : error + ();
  cl_ack : error + ();
  cl_prices : error + ();
}.
Definition or_exit {A} (r : error + A) : result A := match r with inl e => Err e | inr a => Ok a end.

(** pkg/utils/client: the configuration is the region, with the credential. *)
Definition NewClientConfig (clients : Clients) : result string :=
  RegionId ← or_exit (cl_profile clients);
  if bool_decide (RegionId = "") then Err (ErrorString "regionId must be set in the config file") else
  _ ← or_exit (cl_credential clients);
  Ok RegionId.

(** The providers, once the clients are there. *)
Definition providers (opts : options.Options) (initialOnDemandPrices : gmap string (gmap string price))
    (region : string) : Operator :=
  let clusterID := options.ClusterID opts in
  let pricingProvider := NewDefaultProvider initialOnDemandPrices region in
  let versionProvider := version.NewDefaultProvider KubernetesVersionTTL in
  let vSwitchProvider := vswitch.NewDefaultProvider DefaultTTL AvailableIPAddressTTL in
  let securityGroupProvider := securitygroup.NewDefaultProvider DefaultTTL in
  let imageProvider := imagefamily.NewDefaultProvider DefaultTTL versionProvider in
  let imageResolver := imagefamily.NewDefaultResolver InstanceTypeAvailableDiskTTL in
  let ackProvider := ack.NewDefaultProvider clusterID (cache_new ClusterAttachScriptTTL) in
  let unavailableOfferingsCache := NewUnavailableOfferings in
  let instanceTypeProvider := instancetypes.NewDefaultProvider region in
  let instanceProvider :=
    instance.NewDefaultProvider region clusterID unavailableOfferingsCache vSwitchProvider in
  MkOperator pricingProvider securityGroupProvider imageProvider imageResolver ackProvider
    instanceTypeProvider instanceProvider.

(** A client that cannot be made is logged and ends the process; that is the
    error here. *)
Definition NewOperator (opts : options.Options) (initialOnDemandPrices : gmap string (gmap string price))
    (clients : Clients) : result Operator :=
  clientConfig ← NewClientConfig clients;
  regionId ← or_exit (cl_ecs clients clientConfig);
  _ ← or_exit (cl_vpc clients);
  _ ← or_exit (cl_ack clients);
  region ← deref regionId;
  _ ← or_exit (cl_prices clients);
  Ok (providers opts initialOnDemandPrices region).

(** ** controllers.go *)

Inductive controller :=
  | HashController | StatusController | TerminationController | PricingController
  | GarbageCollectionController | UnregisteredTaintController | TaggingController
  | InstanceTypeController | InterruptionController | TelemetryController.
#[export] Instance controller_eq_dec : EqDecision controller.
Proof. solve_decision. Defined.

Definition NewControllers (opts : options.Options) : list controller :=
  let controllers :=
    [HashController; StatusController; TerminationController; PricingController;
     GarbageCollectionController; UnregisteredTaintController; TaggingController; InstanceTypeController] in
  let controllers := if options.Interruption opts then controllers ++ [InterruptionController] else controllers in
  if options.TelemetryShare opts then controllers ++ [TelemetryController] else controllers.

(** ** The providers behind the cloud provider's interfaces *)

(** What the cloud provider calls besides its own two providers. *)
Record Backends := MkBackends { b_ack : ack.DefaultProvider; b_resolver : imagefamily.DefaultResolver }.
Definition set_ack (a : ack.DefaultProvider) (b : Backends) : Backends := MkBackends a (b_resolver b).
Definition set_resolver (r : imagefamily.DefaultResolver) (b : Backends) : Backends := MkBackends (b_ack b) r.

Section backends.
Context {RT : GoRuntime} {W : Type} `{HC : !HasClock W} `{AA : !ack.AckApi W} `{MD : !ack.MetadataDecoder}.
Context `{ED : !imagefamily.EcsDisks W} `{WQ : !imagefamily.WorkQueue}.
Notation W' := (St Backends W).

#[export] Instance backends_clock : HasClock W' := λ w, clock (env w).
#[export] Instance backends_cni : instancetypes.ClusterCNI W' := part b_ack set_ack ack.GetClusterCNI.
#[export] Instance backends_script : instance.RegisterScript W' := λ labels kc,
  part b_ack set_ack (ack.GetNodeRegisterScript labels kc).
#[export] Program Instance backends_disks : instance.DiskResolver W' :=
  {| instance.FilterInstanceTypesBySystemDisk := λ n its,
       part b_resolver set_resolver (imagefamily.FilterInstanceTypesBySystemDisk n its) |}.
Next Obligation.
  intros n its w l w' H. unfold part in H.
  destruct (imagefamily.FilterInstanceTypesBySystemDisk n its _) as [r s'] eqn:Hf. injection H as -> _.
  exact (@instance.Filter_subset _ imagefamily.resolver_disks n its _ l s' Hf).
Qed.
#[export] Instance backends_ecs `{EI : !instance.EcsInstances W} : instance.EcsInstances W' := {|
  instance.DescribeInstances := λ tag tok, call (instance.DescribeInstances tag tok);
  instance.DeleteInstance := λ id, call (instance.DeleteInstance id);
  instance.AddTags := λ id l, call (instance.AddTags id l);
  instance.CreateAutoProvisioningGroup := λ req, call (instance.CreateAutoProvisioningGroup req);
|}.
#[export] Instance backends_limiter `{LL : !instance.LaunchLimiter W} : instance.LaunchLimiter W' :=
  call instance.limiter_Wait.
#[export] Instance backends_kube `{KR : !KubeReader W} : KubeReader W' := {|
  kube_NodePool := λ n, call (kube_NodePool n);
  kube_NodeClass := λ n, call (kube_NodeClass n);
|}.
#[export] Instance backends_events `{ER : !EventRecorder W} : EventRecorder W' := λ evs w,
  MkSt (prov w) (publish evs (env w)).
#[export] Instance backends_claims `{NA : !NodeClaimApi W} : NodeClaimApi W' := {|
  list_NodeClaims := λ sel, call (list_NodeClaims sel);
  patch_NodeClaim := λ a b, call (patch_NodeClaim a b);
  delete_NodeClaim := λ c, call (delete_NodeClaim c);
|}.
#[export] Instance backends_nodes `{ND : !NodeApi W} : NodeApi W' := {|
  list_Nodes := λ k, call (list_Nodes k);
  patch_Node := λ a b, call (patch_Node a b);
  delete_Node := λ n, call (delete_Node n);
|}.
#[export] Instance backends_catalogue `{EC : !instancetypes.EcsCatalogue W} : instancetypes.EcsCatalogue W' := {|
  instancetypes.DescribeInstanceTypes := λ tok, call (instancetypes.DescribeInstanceTypes tok);
  instancetypes.DescribeAvailableResource := λ o, call (instancetypes.DescribeAvailableResource o);
|}.
End backends.

(** ** The running program *)

(** The operator and what the garbage collection controller counts. *)
Record System := MkSystem { sys_operator : Operator; sys_collections : Z }.

(** The views the components have of the operator. *)
Definition status_view (o : Operator) : status.Controller :=
  status.MkController (VSwitchProvider_ o) (SecurityGroupProvider_ o) (ImageProvider_ o).
Definition set_status (c : status.Controller) (o : Operator) : Operator :=
  MkOperator (PricingProvider_ o) (status.securityGroup c) (status.image c) (ImageResolver_ o) (AckProvider_ o)
    (InstanceTypeProvider_ o) (instance.set_vswitches (status.vSwitch c) (InstanceProvider_ o)).
Definition set_instances (p : instance.DefaultProvider) (o : Operator) : Operator :=
  MkOperator (PricingProvider_ o) (SecurityGroupProvider_ o) (ImageProvider_ o) (ImageResolver_ o)
    (AckProvider_ o) (InstanceTypeProvider_ o) p.
Definition set_offerings (u : UnavailableOfferings) (o : Operator) : Operator :=
  set_instances (instance.set_unavailable u (InstanceProvider_ o)) o.
Definition set_pricing (p : PricingProvider) (o : Operator) : Operator :=
  MkOperator p (SecurityGroupProvider_ o) (ImageProvider_ o) (ImageResolver_ o) (AckProvider_ o)
    (InstanceTypeProvider_ o) (InstanceProvider_ o).
Definition cloud_view (o : Operator) : cloudprovider.CloudProvider :=
  cloudprovider.MkCloudProvider (InstanceTypeProvider_ o) (InstanceProvider_ o).
Definition set_cloud (c : cloudprovider.CloudProvider) (b : Backends) (o : Operator) : Operator :=
  MkOperator (PricingProvider_ o) (SecurityGroupProvider_ o) (ImageProvider_ o) (b_resolver b) (b_ack b)
    (cloudprovider.cp_types c) (cloudprovider.cp_instances c).
Definition collector_view (s : System) : garbagecollection.Controller cloudprovider.CloudProvider :=
  garbagecollection.MkController (cloud_view (sys_operator s)) (sys_collections s).

Section system.
Context {RT : GoRuntime} {W : Type} `{HC : !HasClock W}.
Context `{AA : !ack.AckApi W} `{MD : !ack.MetadataDecoder} `{ED : !imagefamily.EcsDisks W} `{WQ : !imagefamily.WorkQueue}.
Context `{EI : !instance.EcsInstances W} `{LL : !instance.LaunchLimiter W} `{EC : !instancetypes.EcsCatalogue W}.
Context `{VA : !vswitch.VpcApi W} `{EG : !securitygroup.EcsGroups W} `{IS : !imagefamily.ImageServices W}.
Context `{DI : !version.Discovery W} `{PS : !PriceServer W}.
Context `{KR : !KubeReader W} `{ER : !EventRecorder W} `{NW : !NodeClassWriter W} `{NA : !NodeClaimApi W}.
Context `{ND : !NodeApi W} `{SL : !Sleeper W}.
Context `{TT : !instancetypes.TypeHashes} `{TH : !vswitch.TermsHash} `{FH : !securitygroup.FiltersHash}.
Context `{HI : !imagefamily.ImageHashes} `{VH : !version.VersionHash} `{SH : !SpecHash} `{PO : !ParallelOrder}.
(** The options, and the number of result pages read at most. *)
Context (opts : options.Options) (fuel : nat).
Notation W' := (St Backends W).
Notation S' := (St System W).

Definition on_operator {A} (m : M (St Operator W) A) : M S' A :=
  part sys_operator (λ o s, MkSystem o (sys_collections s)) m.

(** A run of the garbage collection controller, whose state holds the cloud
    provider, next to the providers behind it. *)
Definition on_collector {A} (m : M (St (garbagecollection.Controller cloudprovider.CloudProvider) W') A)
    : M S' A := λ s,
  let o := sys_operator (prov s) in
  let '(r, s') := m (MkSt (collector_view (prov s)) (MkSt (MkBackends (AckProvider_ o) (ImageResolver_ o)) (env s))) in
  (r, MkSt (MkSystem (set_cloud (garbagecollection.cloudProvider (prov s')) (prov (env s')) o)
                     (garbagecollection.successfulCount (prov s'))) (env (env s'))).
(** A call of the cloud provider. *)
Definition on_cloud {A} (m : M (St cloudprovider.CloudProvider W') A) : M S' A :=
  on_collector (garbagecollection.on_provider m).

Definition pct : float64 := options.VMMemoryOverheadPercent opts.

(** What the program is asked to do: karpenter calls the cloud provider, events
    and timers start reconciliations, and each cache sweeps its expired
    entries. *)
Inductive swept :=
  | Versions | Images | VSwitches_ | Addresses | Groups | Disks | Scripts | Types | Machines | Offerings_.
Inductive request :=
  | Create (c : NodeClaim)
  | Get_ (providerID : string)
  | List_
  | Delete (c : NodeClaim)
  | GetInstanceTypes (np : NodePool)
  | IsDrifted (c : NodeClaim)
  | ReconcileStatus (n : ECSNodeClass)
  | ReconcilePricing
  | ReconcileGarbage
  | ReconcileTagging (c : NodeClaim)
  | ReconcileInstanceTypes
  | ReconcileInterruption (n : Node)
  | Sweep (which : swept).

Definition served_by (r : request) : option controller :=
  match r with
  | ReconcileStatus _ => Some StatusController
  | ReconcilePricing => Some PricingController
  | ReconcileGarbage => Some GarbageCollectionController
  | ReconcileTagging _ => Some TaggingController
  | ReconcileInstanceTypes => Some InstanceTypeController
  | ReconcileInterruption _ => Some InterruptionController
  | _ => None
  end.
Definition enabled (r : request) : Prop := ∀ c, served_by r = Some c → c ∈ NewControllers opts.

Definition sweep (which : swept) (t : Z) (o : Operator) : Operator :=
  let '(MkOperator pr sg im res ak ty ins) := o in
  let vs := instance.vSwitchProvider ins in
  match which with
  | Versions =>
      let v := imagefamily.versionProvider im in
      MkOperator pr sg (imagefamily.MkProvider (imagefamily.im_cache im)
        (version.MkProvider (cache_delete_expired t (version.v_cache v)) (version.v_cm v))) res ak ty ins
  | Images =>
      MkOperator pr sg (imagefamily.MkProvider (cache_delete_expired t (imagefamily.im_cache im))
        (imagefamily.versionProvider im)) res ak ty ins
  | VSwitches_ =>
      MkOperator pr sg im res ak ty (instance.set_vswitches
        (vswitch.set_cache (cache_delete_expired t (vswitch.vs_cache vs)) vs) ins)
  | Addresses =>
      MkOperator pr sg im res ak ty (instance.set_vswitches
        (vswitch.MkProvider (vswitch.vs_cache vs) (cache_delete_expired t (vswitch.availableIPAddressCache vs))
           (vswitch.inflightIPs vs)) ins)
  | Groups => MkOperator pr (securitygroup.MkProvider (cache_delete_expired t (securitygroup.sg_cache sg))) im res ak ty ins
  | Disks => MkOperator pr sg im (imagefamily.MkResolver (cache_delete_expired t (imagefamily.disk_cache res))) ak ty ins
  | Scripts =>
      MkOperator pr sg im res (ack.MkProvider (ack.clusterID ak) (ack.clusterCNI ak)
        (cache_delete_expired t (ack.ack_cache ak))) ty ins
  | Types =>
      MkOperator pr sg im res ak (instancetypes.set_types_cache
        (cache_delete_expired t (instancetypes.instanceTypesCache ty)) ty) ins
  | Machines =>
      MkOperator pr sg im res ak ty (instance.set_instances (cache_delete_expired t (instance.instanceCache ins)) ins)
  | Offerings_ =>
      MkOperator pr sg im res ak ty (instance.set_unavailable (Janitor t (instance.unavailableOfferings ins)) ins)
  end.

(** The state in which a request leaves the program. *)
Definition serve (r : request) (s : S') : S' :=
  let pr := PricingProvider_ (sys_operator (prov s)) in
  match r with
  | Create c => (on_cloud (cloudprovider.Create pct pr c) s).2
  | Get_ id => (on_cloud (cloudprovider.Get_ pct pr fuel id) s).2
  | List_ => (on_cloud (cloudprovider.List_ pct pr fuel) s).2
  | Delete c => (on_cloud (cloudprovider.Delete fuel c) s).2
  | GetInstanceTypes np => (on_cloud (cloudprovider.GetInstanceTypes pct pr np) s).2
  | IsDrifted c => (on_cloud (cloudprovider.IsDrifted fuel c) s).2
  | ReconcileStatus n => (on_operator (part status_view set_status (status.Reconcile fuel n)) s).2
  | ReconcilePricing => (on_operator (part PricingProvider_ set_pricing pricing_controller.Reconcile) s).2
  | ReconcileGarbage =>
      (on_collector (garbagecollection.Reconcile (CP := cloudprovider_api pct pr fuel)) s).2
  | ReconcileTagging c =>
      (on_operator (part InstanceProvider_ set_instances (tagging.Reconcile (options.ClusterID opts) fuel c)) s).2
  | ReconcileInstanceTypes =>
      (on_cloud (cloudprovider.on_types (instancetype_controller.Reconcile fuel)) s).2
  | ReconcileInterruption n =>
      (on_operator (part UnavailableOfferingsCache set_offerings (interruption.Reconcile n)) s).2
  | Sweep which => MkSt (MkSystem (sweep which (clock (env s)) (sys_operator (prov s))) (sys_collections (prov s))) (env s)
  end.

(** Between requests, and while a controller that keeps no state of the operator
    runs, the rest of the world changes. *)
Inductive system_step : S' → S' → Prop :=
  | Serve r s : enabled r → system_step s (serve r s)
  | Elsewhere s w : (clock (env s) ≤ clock w)%Z → system_step s (MkSt (prov s) w).

(** The program was started for a region, and has served requests since. *)
Definition reachable (prices : gmap string (gmap string price)) (region : string) (s : S') : Prop :=
  ∃ clients config o w, NewClientConfig clients = Ok config ∧ cl_ecs clients config = inr (Some region) ∧
    NewOperator opts prices clients = Ok o ∧
    (0 ≤ clock w)%Z ∧ rtc system_step (MkSt (MkSystem o 0) w) s.

(** Serving requests one after the other. *)
Lemma served_reachable prices region rs s :
  Forall enabled rs → reachable prices region s → reachable prices region (foldl (λ s r, serve r s) s rs).
Proof.
  intros Hrs (cl & cfg & o & w & Hcfg & Hcl & Ho & Hw & Hs). exists cl, cfg, o, w. split_and!; [done..|]. revert s Hs.
  induction Hrs as [|r rs Hr _ IH]; intros s Hs; [done|]. apply IH.
  eapply rtc_r; [exact Hs|]. by apply Serve.
Qed.

(** ** What is relied on of the world: time does not go back *)

Notation passes f := (forward (λ _ : W, True) f).
Class TimePasses : Prop := {
  tp_detail c : passes (ack.DescribeClusterDetail c);
  tp_pools c : passes (ack.DescribeClusterNodePools c);
  tp_scripts c b : passes (ack.DescribeClusterAttachScripts c b);
  tp_disks name : passes (imagefamily.DescribeAvailableDisks name);
  tp_describe tag tok : passes (instance.DescribeInstances tag tok);
  tp_delete id : passes (instance.DeleteInstance id);
  tp_tag id l : passes (instance.AddTags id l);
  tp_launch req : passes (instance.CreateAutoProvisioningGroup req);
  tp_limit : passes instance.limiter_Wait;
  tp_types tok : passes (instancetypes.DescribeInstanceTypes tok);
  tp_stock o : passes (instancetypes.DescribeAvailableResource o);
  tp_vswitches req : passes (vswitch.DescribeVSwitches req);
  tp_groups f tok : passes (securitygroup.DescribeSecurityGroups f tok);
  tp_meta v : passes (imagefamily.DescribeKubernetesVersionMetadata v);
  tp_images id : passes (imagefamily.DescribeImages id);
  tp_version : passes version.ServerVersion;
  tp_prices : passes price_Sync;
  tp_pool name : passes (kube_NodePool name);
  tp_class name : passes (kube_NodeClass name);
  tp_publish evs : passes (λ w, (Ok (), publish evs w));
  tp_patch_class a b : passes (patch_NodeClass a b);
  tp_patch_status a b : passes (patch_NodeClassStatus a b);
  tp_claims sel : passes (list_NodeClaims sel);
  tp_patch_claim a b : passes (patch_NodeClaim a b);
  tp_delete_claim c : passes (delete_NodeClaim c);
  tp_nodes k : passes (list_Nodes k);
  tp_delete_node n : passes (delete_Node n);
  tp_sleep d : passes (λ w, (Ok (), sleep d w));
}.
Context `{TP : !TimePasses} (region : string).
Notation cluster := (options.ClusterID opts).

(** ** The invariant *)

Definition backends_inv (t : Z) (b : Backends) : Prop :=
  ack_inv cluster t (b_ack b) ∧ resolver_inv t (b_resolver b).
#[local] Instance backends_inv_lasting : Lasting backends_inv.
Proof. unfold backends_inv. solve_lasting. Qed.
Definition behind (w : W') : Prop := backends_inv (clock w) (prov w).

Definition operator_inv (t : Z) (o : Operator) : Prop :=
  pr_region (PricingProvider_ o) = region ∧ securitygroup_inv t (SecurityGroupProvider_ o) ∧
  image_inv t (ImageProvider_ o) ∧ backends_inv t (MkBackends (AckProvider_ o) (ImageResolver_ o)) ∧
  cloud_inv region cluster t (cloud_view o).
#[local] Instance operator_inv_lasting : Lasting operator_inv.
Proof.
  intros t t' o Ht (H1 & H2 & H3 & H4 & H5).
  split_and!; [done|by apply (lasting t)|by apply (lasting t)|by apply (lasting t)|by apply (lasting t)].
Qed.
Definition system_inv (t : Z) (s : System) : Prop := operator_inv t (sys_operator s).
#[local] Instance system_inv_lasting : Lasting system_inv.
Proof. intros t t' s. unfold system_inv. apply lasting. Qed.

(** *** Through the providers behind the cloud provider *)

Lemma behind_call {A} (f : W → result A * W) : passes f → forward behind (call f : W' → result A * W').
Proof.
  intros Hf [b w] Ht Hb. cbn in Ht. destruct (Hf w Ht I) as [Hc _].
  unfold call, behind, clock, backends_clock in *. cbn [env prov] in *. destruct (f w) as [r w']. cbn [snd env prov] in *.
  split; [done|]. apply (lasting (clock w)); [done|exact Hb].
Qed.
Lemma behind_keeps {A} (m : M W' A) : (∀ T, keeps (λ _, True) backends_inv T m) → forward behind m.
Proof.
  intros Hm w Ht Hb. destruct (Hm (clock (env w)) w) as (Hc & _ & Hb').
  { split_and!; [exact Ht|done|done|exact Hb]. }
  split; [exact (proj2 Hc)|exact Hb'].
Qed.

Lemma ack_behind {A} (m : M (St ack.DefaultProvider W) A) :
  (∀ T, keeps (λ _, True) (ack_inv cluster) T m) → forward behind (part b_ack set_ack m).
Proof.
  intros Hm. apply behind_keeps. intros T. apply (keeps_part _ backends_inv (ack_inv cluster)); [..|exact Hm].
  - by intros t b [H _].
  - intros t t' b a Ht [_ Hr] Ha. split; [done|by apply (lasting t)].
Qed.

Lemma behind_calls : cloud_calls (W := W') behind.
Proof.
  split; intros; try (apply behind_call; destruct TP; auto; fail).
  - apply ack_behind. intros T. apply GetClusterCNI_keeps; apply TP.
  - apply ack_behind. intros T. apply GetNodeRegisterScript_keeps; apply TP.
  - apply behind_keeps. intros T. apply (keeps_part _ backends_inv resolver_inv).
    + by intros t b [_ H].
    + intros t t' b r Ht [Ha _] Hr. split; [by apply (lasting t)|done].
    + intros T'. apply Filter_keeps; apply TP.
  - exact (behind_call (λ w, (Ok (), publish evs w)) (tp_publish evs)).
Qed.

(** *** The requests *)

Notation everything := (λ _ : W, True).
Definition collector_inv (t : Z) (c : garbagecollection.Controller cloudprovider.CloudProvider) : Prop :=
  cloud_inv region cluster t (garbagecollection.cloudProvider c).
#[local] Instance collector_inv_lasting : Lasting collector_inv.
Proof. intros t t' c. unfold collector_inv. apply lasting. Qed.

Lemma on_collector_keeps {A} T (m : M (St (garbagecollection.Controller cloudprovider.CloudProvider) W') A) :
  (∀ T, keeps behind collector_inv T m) → keeps everything system_inv T (on_collector m).
Proof.
  intros Hm [sy w] (Ht & _ & H1 & H2 & H3 & H4 & H5). cbn [env prov] in *. unfold on_collector. cbn [env prov].
  set (b := MkBackends _ _) in *.
  destruct (Hm (clock w) (MkSt (collector_view sy) (MkSt b w))) as (Ht' & Hb & Hc).
  { split_and!; [lia|exact (Z.le_refl _)|exact H4|exact H5]. }
  destruct (m _) as [r [c [b' w']]]. cbn [snd env prov] in *. unfold behind in Hb. cbn [prov] in Hb.
  assert (clock w ≤ clock w')%Z as Hww by exact (proj2 Ht').
  split_and!; cbn [env prov]; [lia|lia|done|]. split_and!; [exact H1|by apply (lasting (clock w)); [lia|]..|exact Hb|exact Hc].
Qed.

Lemma on_cloud_keeps {A} T (m : M (St cloudprovider.CloudProvider W') A) :
  (∀ T, keeps behind (cloud_inv region cluster) T m) → keeps everything system_inv T (on_cloud m).
Proof.
  intros Hm. apply on_collector_keeps. intros T'.
  apply (keeps_part behind collector_inv (cloud_inv region cluster) garbagecollection.cloudProvider
    (λ p c, garbagecollection.MkController p (garbagecollection.successfulCount c))); [done|done|exact Hm].
Qed.

Lemma on_operator_keeps {Q A} T (J : Z → Q → Prop) getp setp (m : M (St Q W) A) :
  (∀ t o, operator_inv t o → J t (getp o)) →
  (∀ t t' o q, (0 ≤ t ≤ t')%Z → operator_inv t o → J t' q → operator_inv t' (setp q o)) →
  (∀ T, keeps everything J T m) → keeps everything system_inv T (on_operator (part getp setp m)).
Proof.
  intros Hget Hset Hm. unfold on_operator. apply (keeps_part _ system_inv operator_inv); [done|by intros|].
  intros T'. by apply (keeps_part _ operator_inv J).
Qed.

Lemma parallelize_keeps {P V} `{HV : !HasClock V} (E : V → Prop) (J : Z → P → Prop) T n
    (piece : nat → M (St P V) (option error)) :
  (∀ i, keeps E J T (piece i)) → keeps E J T (parallelize n piece).
Proof.
  intros Hp. unfold parallelize. keeps_walk. apply keeps_mmapM. intros i. keeps_walk.
Qed.

Lemma garbage_keeps T pr :
  keeps behind collector_inv T (garbagecollection.Reconcile (CP := cloudprovider_api pct pr fuel)).
Proof.
  assert (∀ A T (m : M (St cloudprovider.CloudProvider W') A), (∀ T, keeps behind (cloud_inv region cluster) T m) →
    keeps behind collector_inv T (garbagecollection.on_provider m)) as Hon.
  { intros A T0 m. apply (keeps_part behind collector_inv (cloud_inv region cluster) garbagecollection.cloudProvider
      (λ p c, garbagecollection.MkController p (garbagecollection.successfulCount c))); done. }
  unfold garbagecollection.Reconcile. keeps_walk.
  - apply Hon. intros T'. apply cloud_List_keeps, behind_calls.
  - apply behind_call, tp_claims.
  - apply behind_call, tp_nodes.
  - apply parallelize_keeps. intros i. unfold garbagecollection.collect, garbagecollection.garbageCollect,
      garbagecollection.cleanup. keeps_walk.
    + apply Hon. intros T'. apply cloud_Delete_keeps, behind_calls.
    + apply behind_call, tp_delete_node.
Qed.

Lemma refresh_keeps {P V} `{HV : !HasClock V} (E : V → Prop) (J : Z → P → Prop) T msg (work : list (M (St P V) ())) :
  Forall (keeps E J T) work → keeps E J T (refresh msg work).
Proof.
  intros Hw. unfold refresh. keeps_walk. apply parallelize_keeps. intros i. unfold piece.
  destruct (work !! i) as [m|] eqn:Hm; keeps_walk. rewrite Forall_lookup in Hw. by apply (Hw i).
Qed.

Lemma types_refresh_keeps T : keeps behind (types_inv region) T (instancetype_controller.Reconcile (W := W') fuel).
Proof.
  apply refresh_keeps. constructor; [|constructor; [|constructor]].
  - apply UpdateInstanceTypes_keeps; [apply behind_calls|]. intros tok. apply behind_call, tp_types.
  - apply UpdateInstanceTypeOfferings_keeps. intros o. apply behind_call, tp_stock.
Qed.

Definition pricing_inv (t : Z) (p : PricingProvider) : Prop := pr_region p = region.
#[local] Instance pricing_inv_lasting : Lasting pricing_inv.
Proof. intros t t' p _ Hp. exact Hp. Qed.
Lemma pricing_refresh_keeps T : keeps everything pricing_inv T pricing_controller.Reconcile.
Proof.
  assert (∀ T, keeps everything pricing_inv T syncPricingData) as Hsync.
  { intros T0. unfold syncPricingData. keeps_walk; apply tp_prices. }
  assert (∀ T, keeps everything pricing_inv T listDetails) as Hlist.
  { intros T0 s Hs. unfold listDetails. destruct (price_ListInstancesDetails _ _); [|done]. by case_bool_decide. }
  apply refresh_keeps. constructor; [|constructor; [|constructor]].
  - unfold UpdateSpotPricing. keeps_walk.
  - unfold UpdateOnDemandPricing. keeps_walk.
Qed.

Definition status_inv (t : Z) (c : status.Controller) : Prop :=
  vswitch_inv t (status.vSwitch c) ∧ securitygroup_inv t (status.securityGroup c) ∧ image_inv t (status.image c).
#[local] Instance status_inv_lasting : Lasting status_inv.
Proof. unfold status_inv. solve_lasting. Qed.
Lemma status_keeps T n : keeps everything status_inv T (status.Reconcile fuel n).
Proof.
  unfold status.Reconcile, status.ensure_finalizer, status.resolve_status, status.VSwitch_Reconcile,
    status.SecurityGroup_Reconcile, status.Image_Reconcile. keeps_walk.
  - apply tp_patch_class.
  - apply (keeps_part everything status_inv vswitch_inv status.vSwitch
      (λ q c, status.MkController q (status.securityGroup c) (status.image c))).
    + by intros ? c0 (Hpart & _).
    + intros t1 t2 c0 q Ht (_ & Hs & Hi) Hq. split_and!; [done|by apply (lasting t1)|by apply (lasting t1)].
    + intros T'. apply vswitch_List_keeps, tp_vswitches.
  - apply (keeps_part everything status_inv securitygroup_inv status.securityGroup
      (λ q c, status.MkController (status.vSwitch c) q (status.image c))).
    + by intros ? c0 (_ & Hpart & _).
    + intros t1 t2 c0 q Ht (Hv & _ & Hi) Hq. split_and!; [by apply (lasting t1)|done|by apply (lasting t1)].
    + intros T'. apply securitygroup_List_keeps, tp_groups.
  - apply (keeps_part everything status_inv image_inv status.image
      (λ q c, status.MkController (status.vSwitch c) (status.securityGroup c) q)).
    + by intros ? c0 (_ & _ & Hpart).
    + intros t1 t2 c0 q Ht (Hv & Hs & _) Hq. split_and!; [by apply (lasting t1)|by apply (lasting t1)|done].
    + intros T'. apply image_List_keeps; apply TP.
  - apply tp_patch_status.
Qed.

Lemma tagging_keeps T c : keeps everything (instance_inv region cluster) T (tagging.Reconcile cluster fuel c).
Proof.
  unfold tagging.Reconcile, tagging.tagInstance. keeps_walk.
  - apply instance_Get_keeps, tp_describe.
  - apply instance_CreateTags_keeps; apply TP.
  - apply tp_sleep.
  - apply tp_patch_claim.
Qed.

Lemma interruption_keeps T n : keeps everything offerings_inv T (interruption.Reconcile n).
Proof.
  unfold interruption.Reconcile, interruption.getNodeClaimByNodeName, interruption.mark_offering,
    interruption.deleteNodeClaim, record_events. keeps_walk.
  - apply tp_claims.
  - by apply mark_inv.
  - apply tp_delete_claim.
  - apply tp_publish.
Qed.

Lemma sweep_inv which t t' o : operator_inv t o → operator_inv t (sweep which t' o).
Proof.
  destruct o as [pr sg im res ak ty ins].
  intros (H1 & H2 & [H3 [H4 H5]] & [[H6 H7] H8] & [H9 [H10 H11]] & (H12 & H13 & H14 & H15 & H16 & H17 & [H18 H19])).
  destruct which; cbn [sweep]; unfold operator_inv, image_inv, version_inv, backends_inv, cloud_inv, types_inv,
    instance_inv, vswitch_inv, ack_inv; split_and!;
    first [exact H1 | assumption | by apply fresh_janitor | by apply janitor_inv | idtac].
  unfold filed in *. cbn [items cache_delete_expired instance.instanceCache instance.set_instances].
  intros k it [Hk _]%map_lookup_filter_Some. eauto.
Qed.

Lemma serve_keeps r T s : holds everything system_inv T s → holds everything system_inv T (serve r s).
Proof.
  intros Hs. destruct r; cbn [serve].
  all: try (apply on_cloud_keeps; [intros T'|exact Hs]).
  - apply (cloud_Create_keeps _ _ _ _ _ fuel), behind_calls.
  - apply cloud_Get_keeps, behind_calls.
  - apply cloud_List_keeps, behind_calls.
  - apply cloud_Delete_keeps, behind_calls.
  - apply GetInstanceTypes_keeps, behind_calls.
  - apply IsDrifted_keeps, behind_calls.
  - apply (on_operator_keeps T status_inv); [..|exact Hs].
    + intros t o (_ & Hsg & Hi & _ & _ & Hins). by split_and!; [apply Hins| |].
    + intros t t' o c Ht (Hpr & _ & _ & Hb & Hty & Hins) (Hv & Hg & Hi).
      split_and!; [done|done|done|by apply (lasting t)|]. split; [by apply (lasting t)|].
      apply (lasting t t') in Hins; [|done]. unfold instance_inv in *. by destruct_and!; split_and!.
    + intros T'. apply status_keeps.
  - apply (on_operator_keeps T pricing_inv); [..|exact Hs].
    + by intros t o (H & _).
    + intros t t' o p Ht (_ & H) Hp. split; [exact Hp|]. destruct_and!. by split_and!; apply (lasting t).
    + intros T'. apply pricing_refresh_keeps.
  - apply on_collector_keeps; [intros T'; apply garbage_keeps|exact Hs].
  - apply (on_operator_keeps T (instance_inv region cluster)); [..|exact Hs].
    + by intros t o (_ & _ & _ & _ & _ & H).
    + intros t t' o p Ht (Hpr & Hsg & Hi & Hb & Hty & _) Hp.
      by split_and!; [done|apply (lasting t)..|split; [apply (lasting t)|]].
    + intros T'. apply tagging_keeps.
  - apply on_types_keeps. intros T''. apply types_refresh_keeps.
  - apply (on_operator_keeps T offerings_inv); [..|exact Hs].
    + intros t o (_ & _ & _ & _ & _ & H). apply H.
    + intros t t' o u Ht Ho Hu. apply (lasting t t') in Ho; [|done].
      destruct Ho as (Hpr & Hsg & Hi & Hb & Hty & Hins). split_and!; [done..|]. split; [done|].
      unfold instance_inv in *. by destruct_and!; split_and!.
    + intros T'. apply interruption_keeps.
  - destruct Hs as (Ht & _ & Hi). split_and!; [lia|cbn; lia|done|]. by apply sweep_inv.
Qed.

(** ** Reachable states *)

Lemma started_inv prices w :
  (0 ≤ clock w)%Z → holds everything system_inv 0 (MkSt (MkSystem (providers opts prices region) 0) w).
Proof.
  intros Hw. split_and!; [lia|done|done|]. unfold providers. cbn [prov sys_operator].
  assert (∀ V ttl, (0 < ttl)%Z → fresh_cache ttl (clock w) (cache_new (V := V) ttl)) as Hnew by (intros; by apply fresh_new).
  split_and!; [done|by apply Hnew|split; [by apply Hnew|split; by apply Hnew]
    |split; [split; [done|by apply Hnew]|by apply Hnew]|].
  split; [split_and!; [done|by apply Hnew..]|].
  assert (zeroTime ≤ 0)%Z as Hzero by (vm_compute; discriminate).
  split_and!; [done|done|exact (Z.le_trans _ _ _ Hzero Hw)|by apply Hnew| |split; [done|by apply Hnew]
    |split; by apply Hnew].
  intros k it Hk. cbn in Hk. by rewrite lookup_empty in Hk.
Qed.

Lemma reachable_inv prices s : reachable prices region s → holds everything system_inv 0 s.
Proof.
  intros (cl & cfg & o & w & Hcfg & Hcl & Ho & Hw & Hr). unfold NewOperator in Ho.
  rewrite Hcfg in Ho. cbn in Ho. rewrite Hcl in Ho.
  assert (o = providers opts prices region) as ->.
  { destruct (cl_vpc cl), (cl_ack cl), (cl_prices cl); by inversion Ho. }
  pose proof (started_inv prices w Hw) as Hi. revert Hi.
  induction Hr as [|s s1 s2 Hstep _ IH]; intros Hi; [done|]. apply IH. destruct Hstep as [r s _|s w' Hc].
  - by apply serve_keeps.
  - destruct Hi as (Ht & _ & Hi). cbn [env prov]. split_and!; [lia|cbn; lia|done|]. apply (lasting (clock (env s))); [cbn; lia|done].
Qed.

(** ** Properties *)

(** No reader of the cache sees, later than [ttl] from now, what is in it now. *)
Definition forgets {V} (ttl now : Z) (c : cache V) : Prop := ∀ t k, (now + ttl < t)%Z → cache_get t k c = None.

(** C3. Whatever requests the program has served, in whatever order, and
    whatever the services answered: nothing it remembers outlives the lifetime
    that pkg/cache gives it (counted from now, so an entry that is written again
    lives on), and every provider still works for the region and the cluster the
    operator was started for. *)
Theorem system_staleness prices s (o := sys_operator (prov s)) (t := clock (env s)) :
  reachable prices region s →
  forgets KubernetesVersionTTL t (version.v_cache (VersionProvider_ o)) ∧
  forgets DefaultTTL t (imagefamily.im_cache (ImageProvider_ o)) ∧
  forgets DefaultTTL t (securitygroup.sg_cache (SecurityGroupProvider_ o)) ∧
  forgets DefaultTTL t (vswitch.vs_cache (VSwitchProvider_ o)) ∧
  forgets AvailableIPAddressTTL t (vswitch.availableIPAddressCache (VSwitchProvider_ o)) ∧
  forgets InstanceTypeAvailableDiskTTL t (imagefamily.disk_cache (ImageResolver_ o)) ∧
  forgets ClusterAttachScriptTTL t (ack.ack_cache (AckProvider_ o)) ∧
  forgets InstanceTypesAndZonesTTL t (instancetypes.instanceTypesCache (InstanceTypeProvider_ o)) ∧
  forgets instanceCacheExpiration t (instance.instanceCache (InstanceProvider_ o)) ∧
  (∀ t' it zone ct, (t + UnavailableOfferingsTTL < t')%Z →
     IsUnavailable t' it zone ct (UnavailableOfferingsCache o) = false) ∧
  ack.clusterID (AckProvider_ o) = cluster ∧ instance.ip_ClusterID (InstanceProvider_ o) = cluster ∧
  instance.ip_region (InstanceProvider_ o) = region ∧ instancetypes.it_region (InstanceTypeProvider_ o) = region ∧
  pr_region (PricingProvider_ o) = region.
Proof.
  intros (_ & _ & H1 & H2 & [H3 [H4 _]] & [[H6 H7] H8] & [H9 [H10 _]] &
    (H12 & H13 & _ & H15 & _ & [_ H17] & [H18 H19]))%reachable_inv.
  assert (∀ V ttl (c : cache V), fresh_cache ttl t c → forgets ttl t c) as Hf.
  { intros V ttl c Hc t' k Ht'. by apply (fresh_forgets ttl t). }
  split_and!; try done; try by apply Hf. intros t' it zone ct Ht'. unfold IsUnavailable.
  apply bool_decide_false. intros [x Hx]. by rewrite (fresh_forgets _ _ _ _ _ H17 Ht') in Hx.
Qed.


(** C4. Karpenter is never told of another machine: in every state the
    program can reach, the NodeClaim returned for a provider ID describes the
    machine whose ID that is. *)
Theorem system_Get_own prices s s' providerID claim (pr := PricingProvider_ (sys_operator (prov s))) :
  reachable prices region s →
  on_cloud (cloudprovider.Get_ pct pr fuel providerID) s = (Ok claim, s') →
  ∃ i t it, ParseInstanceID providerID = Ok (instance.ID i) ∧
    claim = cloudprovider.instanceToNodeClaim t i it ∧
    claim_ProviderID claim = FormatProviderID (instance.Region i) (instance.ID i).
Proof.
  intros (Ht & _ & H1 & H2 & H3 & H4 & H5)%reachable_inv H.
  unfold on_cloud, on_collector, garbagecollection.on_provider in H. cbn [env prov] in H.
  set (s0 := MkSt (garbagecollection.cloudProvider _) _) in H.
  destruct (cloudprovider.Get_ pct pr fuel providerID s0) as [r s1] eqn:Hget. injection H as -> _.
  unfold cloudprovider.Get_ in Hget. apply M_bind_Ok in Hget as (id & s2 & Hid & Hget).
  apply wrap_Ok in Hid. injection Hid as Hid <-. apply M_bind_Ok in Hget as (i & s3 & Hi & Hget).
  apply wrap_Ok, cloudprovider.on_instances_Ok in Hi.
  assert (instance.ID i = id) as Hown.
  { apply (Get_own behind region cluster) with (T := clock (env s)) in Hi; [done|apply behind_calls|].
    split_and!; [lia|exact (Z.le_refl _)|exact H4|]. exact (proj2 H5). }
  unfold cloudprovider.claim_of_instance in Hget. apply M_bind_Ok in Hget as (it & s4 & _ & Hget).
  apply M_bind_Ok in Hget as (o & s5 & _ & Hget). apply M_bind_Ok in Hget as (t & s6 & _ & Hget).
  injection Hget as <- _. exists i, t, it. split; [by rewrite Hown|]. split; reflexivity.
Qed.
End system.
End operator.
