(* ===== verification/OperatorExample.v ===== *)
(** * The whole program on a small cluster

    A world that answers every call of the program: one NodeClass, which the
    status controller writes, a zone with stock, and an ECS service that
    remembers what was launched.  The program is started, refreshes its
    providers, resolves the NodeClass, launches a machine for a NodeClaim and
    reads it back. *)

From S2P Require Import Prelude Effects Floats GoCache UnavailableOfferings Labels Scheduling Options.
From S2P Require Import CloudTypes Apis Conditions Utils Version Pricing VSwitchProvider.
From S2P Require Import SecurityGroupProvider InstanceTypeCalc InstanceTypeProvider InstanceSelect.
From S2P Require Import InstanceProvider ImageFamily KubeApi CloudProvider Ack Staleness.
From S2P Require Import GarbageCollection Tagging ProviderControllers NodeClassStatus Operator.
From stdpp Require Import relations.

Module OperatorExample.
Import operator.
#[local] Existing Instance instancetypes.pricing_provider_view.

Definition zone : string := "cn-hangzhou-h".
Record world := MkWorld { w_time : Z; w_class : ECSNodeClass; w_machines : list instance.EcsInstance }.

(** Every call takes a millisecond. *)
Definition tick (w : world) : world := MkWorld (w_time w + 1000000) (w_class w) (w_machines w).
Definition answer {A} (a : A) (w : world) : result A * world := (Ok a, tick w).

#[local] Instance ex_clock : HasClock world := w_time.
#[local] Instance ex_ack : ack.AckApi world := {|
  ack.DescribeClusterDetail := λ _, answer (Some "terway");
  ack.DescribeClusterNodePools := λ _, answer (Some AckExample.pools);
  ack.DescribeClusterAttachScripts := λ _ _, answer (Some (Some AckExample.attach));
|}.
#[local] Instance ex_metadata : ack.MetadataDecoder := λ _, inr instancetype.ClusterCNITypeTerway.
#[local] Instance ex_disks : imagefamily.EcsDisks world := λ _, answer None.
#[local] Instance ex_types : instancetypes.EcsCatalogue world := {|
  instancetypes.DescribeInstanceTypes := λ _,
    answer (Some (instancetypes.MkTypesPage None (Some [InstanceTypesExample.tiny; InstanceTypesExample.g6_xlarge])));
  instancetypes.DescribeAvailableResource := λ _, answer (Some (InstanceTypesExample.stock_body zone "ecs.g6.xlarge"));
|}.
#[local] Instance ex_vpc : vswitch.VpcApi world := λ _,
  answer (Some (vswitch.MkBody None (Some 1%Z) (Some [vswitch.MkVpcVSwitch (Some "vsw-1") (Some zone) (Some 200%Z)]))).
#[local] Instance ex_groups : securitygroup.EcsGroups world := λ _ _,
  answer (Some (securitygroup.MkGroupsBody None None (Some [SecurityGroupExample.group "a"]))).
#[local] Instance ex_images : imagefamily.ImageServices world := {|
  imagefamily.DescribeKubernetesVersionMetadata := λ _,
    answer (Some [Some [Some ImageExample.centos; Some ImageExample.acl3_x86]]);
  imagefamily.DescribeImages := λ _, answer None;
|}.
#[local] Instance ex_version : version.Discovery world := answer "v1.30.1-aliyun.1".
#[local] Instance ex_prices : PriceServer world := {|
  price_Sync := answer ();
  price_ListInstancesDetails := λ _ _,
    Some {["ecs.g6.xlarge" := MkITPrice SelectExample.p50 {[zone := SelectExample.p10]}]};
|}.

Definition machine (id : string) (req : instance.ProvisioningRequest) : instance.EcsInstance :=
  instance.MkEcsInstance (Some "2024-10-01T08:30Z") (Some "Running") (Some id) (Some (instance.pg_ImageId req))
    (instance.cfg_InstanceType <$> head (instance.pg_LaunchTemplateConfig req)) (Some "cn-hangzhou") (Some zone)
    (Some "SpotAsPriceGo") (Some (Some <$> instance.pg_SecurityGroupIds req)) (Some (Some "vsw-1"))
    (Some ((λ kv, (Some kv.1, Some kv.2)) <$> instance.pg_GroupTags req)).
Definition launch_result (id : string) (req : instance.ProvisioningRequest) : instance.LaunchResult :=
  instance.MkLaunchResult None None (instance.cfg_InstanceType <$> head (instance.pg_LaunchTemplateConfig req))
    (Some zone) (Some "SpotAsPriceGo") (Some [Some id]).
#[local] Instance ex_ecs : instance.EcsInstances world := {|
  instance.DescribeInstances := λ _ _ w, answer (Some (instance.MkInstancesPage None (Some (w_machines w)))) w;
  instance.DeleteInstance := λ id w, (Ok (), MkWorld (w_time w) (w_class w)
    (bfilter (λ m, negb (bool_decide (instance.ei_InstanceId m = Some id))) (w_machines w)));
  instance.AddTags := λ _ _, answer ();
  instance.CreateAutoProvisioningGroup := λ req w,
    let id := "i-" +:+ pretty (length (w_machines w)) in
    (Ok (Some (instance.MkProvisioningResponse (Some 200%Z)
       (Some (instance.MkProvisioningBody (Some "req") (Some [Some (launch_result id req)]))))),
     MkWorld (w_time w) (w_class w) (machine id req :: w_machines w));
|}.
#[local] Instance ex_limiter : instance.LaunchLimiter world := answer ().
#[local] Instance ex_sleep : Sleeper world := λ d w, MkWorld (w_time w + Z.max 0 d) (w_class w) (w_machines w).

Definition not_there {A} (name : string) (w : world) : result A * world := (Err (StatusError ReasonNotFound name), tick w).
#[local] Instance ex_kube : KubeReader world := {|
  kube_NodePool := λ n, answer (MkNodePool (MkMeta n "" ∅ ∅ [] 0 None) (Some (MkRef "default")));
  kube_NodeClass := λ n w, if bool_decide (n = "default") then answer (w_class w) w else not_there n w;
|}.
#[local] Instance ex_events : EventRecorder world := λ _ w, w.
#[local] Instance ex_writer : NodeClassWriter world := {|
  patch_NodeClass := λ _ n w, (Ok n, MkWorld (w_time w) n (w_machines w));
  patch_NodeClassStatus := λ _ n w, (Ok n, MkWorld (w_time w) n (w_machines w));
|}.
#[local] Instance ex_claims : NodeClaimApi world := {|
  list_NodeClaims := λ _, answer [];
  patch_NodeClaim := λ _ c, answer c;
  delete_NodeClaim := λ c, not_there (claim_Name c);
|}.
#[local] Instance ex_nodes : NodeApi world := {|
  list_Nodes := λ _, answer [];
  patch_Node := λ _ n, answer n;
  delete_Node := λ n, not_there (node_Name n);
|}.
#[local] Program Instance ex_order : ParallelOrder := {| parallel n := reverse (seq 0 n) |}.
Next Obligation. intros n. by rewrite reverse_Permutation. Qed.
#[local] Instance ex_spec_hash : SpecHash := λ spec, pretty (length (ImageSelectorTerms spec)).

#[local] Instance ex_time : TimePasses.
Proof.
  split; intros; intros w Hw _; split; try done; unfold clock, ex_clock in *; cbn in *;
    try case_bool_decide; cbn; lia.
Qed.

(** ** A run *)

Definition opts : options.Options := options.MkOptions "c1" (decimal 65 1000) true false 100.
Definition prices : gmap string (gmap string price) := {["cn-hangzhou" := ∅]}.
Definition class : ECSNodeClass :=
  MkNodeClass (MkMeta "default" "uid" ∅ ∅ [] 0 None)
    (MkSpec [MkVSwitchTerm {["env" := "*"]} ""] "" [MkSGTerm {["karpenter" := "*"]} "" ""]
       [MkImageTerm "AlibabaCloudLinux3" ""] None None ∅ "")
    (MkStatus [] [] [] []).
Definition w0 : world := MkWorld (1727775000 * Second) class [].
Definition claim : NodeClaim :=
  MkNodeClaim (MkMeta "claim" "uid" {[NodePoolLabelKey := "default"]} ∅ [] 0 None) (Some (MkRef "default"))
    [] ∅ "" "" "" ∅ ∅ [].

Definition clients : Clients :=
  MkClients (inr "cn-hangzhou") (inr ()) (λ config, inr (Some config)) (inr ()) (inr ()) (inr ()).
Definition boot : St System world := MkSt (MkSystem (providers opts prices "cn-hangzhou") 0) w0.
Definition requests : list request := [ReconcileInstanceTypes; ReconcilePricing; ReconcileStatus class].
Definition warm : St System world := foldl (λ s r, serve opts 5 r s) boot requests.
Definition create (s : St System world) : result NodeClaim * St System world :=
  on_cloud (cloudprovider.Create (pct opts) (PricingProvider_ (sys_operator (prov s))) claim) s.
Definition get (s : St System world) : result NodeClaim * St System world :=
  on_cloud (cloudprovider.Get_ (pct opts) (PricingProvider_ (sys_operator (prov s))) 5 "cn-hangzhou.i-0") s.
Notation launched := (create warm).
Notation read := (get (create warm).2).

Definition describe (r : result NodeClaim) : option (string * string * option string * option string) :=
  match r with
  | Ok c => Some (claim_ProviderID c, claim_ImageID c, claim_Labels c !! LabelTopologyZone,
                  claim_Labels c !! CapacityTypeLabelKey)
  | _ => None
  end.

(** The machine is launched in the zone with stock, from the image of the
    NodeClass, at the spot price; read back, it is the same machine. *)
Example program_example :
  describe launched.1 = Some ("cn-hangzhou.i-0", "aliyun_3_x64_20G_alibase_20240819.vhd", Some zone, Some "spot") ∧
  describe read.1 = describe launched.1 ∧
  size (items (instance.instanceCache (InstanceProvider_ (sys_operator (prov read.2))))) = 1.
Proof. vm_compute. repeat split; reflexivity. Qed.

Lemma warm_reachable : reachable opts 5 prices "cn-hangzhou" warm.
Proof.
  apply served_reachable.
  2:{ exists clients, "cn-hangzhou", (providers opts prices "cn-hangzhou"), w0. split_and!; [done|done|done|vm_compute; discriminate|constructor]. }
  constructor; [intros c [= <-]; decide_compute|]. constructor; [intros c [= <-]; decide_compute|].
  constructor; [intros c [= <-]; decide_compute|constructor].
Qed.
Lemma serve_create s : serve opts 5 (Create claim) s = (create s).2.
Proof. unfold serve, create. reflexivity. Qed.
Lemma get_on_cloud s :
  get s = on_cloud (cloudprovider.Get_ (pct opts) (PricingProvider_ (sys_operator (prov s))) 5 "cn-hangzhou.i-0") s.
Proof. unfold get. reflexivity. Qed.
Lemma launched_reachable : reachable opts 5 prices "cn-hangzhou" launched.2.
Proof.
  destruct warm_reachable as (cl & cfg & o & w & Hcfg & Hcl & Ho & Hw & Hr). exists cl, cfg, o, w. split_and!; [exact Hcfg|exact Hcl|exact Ho|exact Hw|].
  eapply rtc_r; [exact Hr|].
  rewrite <- serve_create. by apply Serve.
Qed.

Lemma system_staleness_witness :
  reachable opts 5 prices "cn-hangzhou" launched.2 ∧
  forgets ClusterAttachScriptTTL (clock (env launched.2)) (ack.ack_cache (AckProvider_ (sys_operator (prov launched.2)))).
Proof.
  split; [exact launched_reachable|].
  destruct (system_staleness opts 5 "cn-hangzhou" prices launched.2 launched_reachable)
    as (_ & _ & _ & _ & _ & _ & H & _).
  exact H.
Defined.

Lemma system_Get_own_witness :
  ∃ i c, read.1 = Ok c ∧ instance.ID i = "i-0" ∧ claim_ProviderID c = FormatProviderID (instance.Region i) "i-0".
Proof.
  pose proof program_example as (Hl & Hr & _). rewrite Hl in Hr. clear Hl.
  assert (∃ c, read = (Ok c, read.2)) as [c Hc].
  { generalize dependent read. intros [[c| |] s] Hr; [by exists c|discriminate Hr..]. }
  pose proof Hc as Hget. rewrite get_on_cloud in Hget.
  destruct (system_Get_own opts 5 "cn-hangzhou" prices launched.2 _ "cn-hangzhou.i-0" c launched_reachable Hget)
    as (i & t & it & Hid & _ & Hp).
  assert (ParseInstanceID "cn-hangzhou.i-0" = Ok "i-0") as Hparse by (vm_compute; reflexivity).
  rewrite Hparse in Hid. injection Hid as Hi. symmetry in Hi.
  exists i, c. split; [by rewrite Hc|]. split; [exact Hi|]. rewrite <- Hi. exact Hp.
Defined.
End OperatorExample.
