(* ===== verification/WorkQueue.v ===== *)
(** * The work queue of a controller (client-go's util/workqueue)

    A controller works off the names of objects that need a reconciliation.  The
    queue holds each name at most once, never hands out a name that is being
    worked on, and remembers a name that is added meanwhile; around it are a
    queue of delayed additions and a rate limiter that counts failures. *)

From S2P Require Import Prelude Effects GoCache.

(** The item of a queue: [reconcile.Request], which for an object without a
    namespace is its name; the request of a singleton is empty. *)
Notation Request := string.

(** ** queue.go *)

Record Queue := MkQueue {
  queue : list Request;
  dirty : gset Request;
  processing : gset Request;
  shuttingDown : bool;
}.
Definition NewQueue : Queue := MkQueue [] ∅ ∅ false.

Definition Add (item : Request) (q : Queue) : Queue :=
  if shuttingDown q then q
  else if bool_decide (item ∈ dirty q) then q
  else if bool_decide (item ∈ processing q)
       then MkQueue (queue q) ({[item]} ∪ dirty q) (processing q) (shuttingDown q)
       else MkQueue (queue q ++ [item]) ({[item]} ∪ dirty q) (processing q) (shuttingDown q).

(** [Get] waits while there is nothing to hand out, unless the queue is being
    shut down. *)
Inductive got := Waits | Ends | Item (item : Request) (q : Queue).
Definition Get (q : Queue) : got :=
  match queue q with
  | [] => if shuttingDown q then Ends else Waits
  | item :: rest => Item item (MkQueue rest (dirty q ∖ {[item]}) ({[item]} ∪ processing q) (shuttingDown q))
  end.

Definition Done (item : Request) (q : Queue) : Queue :=
  let processing' := processing q ∖ {[item]} in
  if bool_decide (item ∈ dirty q)
  then MkQueue (queue q ++ [item]) (dirty q) processing' (shuttingDown q)
  else MkQueue (queue q) (dirty q) processing' (shuttingDown q).

Definition ShutDown (q : Queue) : Queue := MkQueue (queue q) (dirty q) (processing q) true.

(** ** delaying_queue.go *)

(** The channel of new entries, and those the loop has taken in: the heap of
    entries by time, with one entry per item.  (The channel holds a thousand
    entries; a worker that finds it full waits for the loop, which always takes
    the next one, so the channel is a list here.) *)
Record Delayed := MkDelayed { waitingForAddCh : list (Request * Z); waitingEntryByData : gmap Request Z }.
Definition NewDelayed : Delayed := MkDelayed [] ∅.

(** An entry that exists is moved only to an earlier time. *)
Definition insert_entry (item : Request) (readyAt : Z) (m : gmap Request Z) : gmap Request Z :=
  match m !! item with
  | Some t => if (readyAt <? t)%Z then <[item := readyAt]> m else m
  | None => <[item := readyAt]> m
  end.

Definition AddAfter (now : Z) (item : Request) (duration : Z) (s : Queue * Delayed) : Queue * Delayed :=
  let '(q, d) := s in
  if shuttingDown q then s
  else if (duration <=? 0)%Z then (Add item q, d)
  else (q, MkDelayed (waitingForAddCh d ++ [(item, now + duration)%Z]) (waitingEntryByData d)).

(** The loop takes the next entry from the channel. *)
Definition receive (now : Z) (s : Queue * Delayed) : option (Queue * Delayed) :=
  let '(q, d) := s in
  match waitingForAddCh d with
  | [] => None
  | (item, readyAt) :: rest =>
      Some (if (now <? readyAt)%Z
            then (q, MkDelayed rest (insert_entry item readyAt (waitingEntryByData d)))
            else (Add item q, MkDelayed rest (waitingEntryByData d)))
  end.
(** The loop adds an entry whose time has come, the earliest first. *)
Definition fire (now : Z) (item : Request) (s : Queue * Delayed) : option (Queue * Delayed) :=
  let '(q, d) := s in
  match waitingEntryByData d !! item with
  | Some readyAt =>
      if (readyAt <=? now)%Z && bool_decide (map_Forall (λ _ t, (readyAt ≤ t)%Z) (waitingEntryByData d))
      then Some (Add item q, MkDelayed (waitingForAddCh d) (delete item (waitingEntryByData d)))
      else None
  | None => None
  end.

(** ** default_rate_limiters.go *)

(** The token bucket that limits all retries together, of which only the delay
    of a reservation is used. *)
Class TokenBucket (B : Type) := {
  reserve : Z → B → Z * B;
  reserve_delay : ∀ t b, (0 ≤ (reserve t b).1)%Z;
}.

Record RateLimiter (B : Type) := MkLimiter {
  failures : gmap Request nat;
  baseDelay : Z;
  maxDelay : Z;
  bucket : B;
}.
Arguments MkLimiter {B} _ _ _ _.
Arguments failures {B} _.
Arguments baseDelay {B} _.
Arguments maxDelay {B} _.
Arguments bucket {B} _.

(** The delay doubles with every failure.  Doubling a float64 is exact, so the
    product is that of the integers; one above the range of a duration is cut
    before it is converted. *)
Definition exponential (base max : Z) (failed : nat) : Z :=
  let backoff := (base * 2 ^ Z.of_nat failed)%Z in
  if (MaxInt64 <? backoff)%Z then max else if (max <? backoff)%Z then max else backoff.

Section limiter.
Context {B : Type} `{TB : !TokenBucket B}.

(** [MaxOfRateLimiter]: both limiters are asked, the longer delay counts. *)
Definition When (now : Z) (item : Request) (r : RateLimiter B) : Z * RateLimiter B :=
  let failed := default 0 (failures r !! item) in
  let '(delay, b) := reserve now (bucket r) in
  (Z.max (exponential (baseDelay r) (maxDelay r) failed) delay,
   MkLimiter (<[item := S failed]> (failures r)) (baseDelay r) (maxDelay r) b).
Definition Forget (item : Request) (r : RateLimiter B) : RateLimiter B :=
  MkLimiter (delete item (failures r)) (baseDelay r) (maxDelay r) (bucket r).
Definition NumRequeues (item : Request) (r : RateLimiter B) : nat := default 0 (failures r !! item).
End limiter.

(** client-go's default, and operatorpkg's [reasonable.RateLimiter]. *)
Definition Millisecond : Z := 1000000.
Definition DefaultControllerRateLimiter {B} (b : B) : RateLimiter B := MkLimiter ∅ (5 * Millisecond) (1000 * Second) b.
Definition reasonable_RateLimiter {B} (b : B) : RateLimiter B := MkLimiter ∅ (100 * Millisecond) Minute b.

(** ** The queue against its specification

    What a queue promises is said with two sets: the names that wait, and the
    names in work.  Any name may be added; a name that waits and is not in work
    may be taken into work; a name in work may be done. *)

Record well_formed (q : Queue) : Prop := {
  wf_nodup : NoDup (queue q);
  wf_queue k : k ∈ queue q ↔ k ∈ dirty q ∧ k ∉ processing q;
}.

Lemma new_well_formed : well_formed NewQueue.
Proof. split; [constructor|]. intros k. cbn. set_solver. Qed.

Lemma Add_well_formed k q : well_formed q → well_formed (Add k q).
Proof.
  intros [Hnd Hq]. unfold Add. destruct (shuttingDown q); [done|].
  case_bool_decide as Hd; [done|]. case_bool_decide as Hp; split; cbn.
  - done.
  - intros j. rewrite Hq. set_solver.
  - apply NoDup_app. split_and!; [done| |apply NoDup_singleton]. intros j Hj ->%list_elem_of_singleton.
    apply Hd. by apply Hq in Hj as [].
  - intros j. rewrite elem_of_app, list_elem_of_singleton, Hq. set_solver.
Qed.

Lemma Get_well_formed k q q' : well_formed q → Get q = Item k q' →
  well_formed q' ∧ k ∈ dirty q ∧ k ∉ processing q ∧
  dirty q' = dirty q ∖ {[k]} ∧ processing q' = {[k]} ∪ processing q.
Proof.
  intros [Hnd Hq]. unfold Get. destruct (queue q) as [|j rest] eqn:He; [by destruct (shuttingDown q)|].
  intros [= -> <-]. apply NoDup_cons in Hnd as [Hk Hnd].
  destruct (proj1 (Hq k)) as [Hd Hp]; [left|].
  split_and!; [split; cbn; [done|]|done|done|done|done].
  intros j. specialize (Hq j). rewrite elem_of_cons in Hq. set_solver.
Qed.

Lemma Done_well_formed k q : well_formed q → k ∈ processing q → well_formed (Done k q).
Proof.
  intros [Hnd Hq] Hk. unfold Done. case_bool_decide as Hd; split; cbn.
  - apply NoDup_app. split_and!; [done| |apply NoDup_singleton]. intros j Hj ->%list_elem_of_singleton.
    by apply Hq in Hj as [].
  - intros j. rewrite elem_of_app, list_elem_of_singleton, Hq. destruct (decide (j = k)) as [->|]; set_solver.
  - done.
  - intros j. rewrite Hq. destruct (decide (j = k)) as [->|]; set_solver.
Qed.

Lemma ShutDown_well_formed q : well_formed q → well_formed (ShutDown q).
Proof. by intros []. Qed.

Lemma Add_dirty k q : shuttingDown q = false → dirty (Add k q) = {[k]} ∪ dirty q.
Proof.
  intros Hs. unfold Add. rewrite Hs. case_bool_decide; [set_solver|]. by case_bool_decide.
Qed.
Lemma Add_processing k q : processing (Add k q) = processing q.
Proof. unfold Add. destruct (shuttingDown q); [done|]. case_bool_decide; [done|]. by case_bool_decide. Qed.
Lemma Add_shuttingDown k q : shuttingDown (Add k q) = shuttingDown q.
Proof. unfold Add. destruct (shuttingDown q) eqn:H; [done|]. case_bool_decide; [done|]. by case_bool_decide. Qed.
Lemma Done_dirty k q : dirty (Done k q) = dirty q.
Proof. unfold Done. by case_bool_decide. Qed.
Lemma Done_processing k q : processing (Done k q) = processing q ∖ {[k]}.
Proof. unfold Done. by case_bool_decide. Qed.
Lemma Done_shuttingDown k q : shuttingDown (Done k q) = shuttingDown q.
Proof. unfold Done. by case_bool_decide. Qed.
#[export] Hint Rewrite Add_processing Add_shuttingDown Done_dirty Done_processing Done_shuttingDown : gorw.

(** ** Bounds of the back-off *)

Lemma exponential_bounds base max failed :
  (0 < base ≤ max)%Z → (max ≤ MaxInt64)%Z → (base ≤ exponential base max failed ≤ max)%Z.
Proof.
  intros Hb Hm. unfold exponential.
  pose proof (Z.pow_pos_nonneg 2 (Z.of_nat failed)).
  destruct (Z.ltb_spec MaxInt64 (base * 2 ^ Z.of_nat failed)); [lia|].
  destruct (Z.ltb_spec max (base * 2 ^ Z.of_nat failed)); nia.
Qed.
