(* ===== verification/ControllerRuntime.v ===== *)
(** * A running controller (controller-runtime's internal/controller)

    The workers of a controller take requests from its work queue, call the
    reconciler and, by what it returns, forget the request, add it again after a
    delay, or add it again with back-off.  Requests come from watches, whose
    events are on their way for a while, and from the delayed queue.  The file
    shows that no request is lost on any of these ways: what needs a
    reconciliation stays owed one. *)

From stdpp Require Import relations.
From S2P Require Import Prelude Effects GoCache Labels Scheduling CloudTypes Apis Conditions KubeApi WorkQueue.

(** What a reconciler returns: a result with an error, or a panic. *)
Definition outcome : Type := option (Result * option error).

(** The reconcilers that return their error alone. *)
Definition as_outcome (r : result Result) : outcome :=
  match r with
  | Ok res => Some (res, None)
  | Err e => Some (no_requeue, Some e)
  | Panic => None
  end.
Definition as_outcome_both (r : result (Result * option error)) : outcome :=
  match r with
  | Ok re => Some re
  | Err e => Some (no_requeue, Some e)
  | Panic => None
  end.

(** A worker has taken a request, or has also run the reconciler. *)
Inductive phase := Started | Ran (r : Result) (e : option error).

(** What a step does: someone else acts or time passes, the watch, the delayed
    queue or the workers do. *)
Inductive label :=
  | Others | Delivers | Receives | Fires | Starts | Runs (req : Request) | Finishes (req : Request).
#[export] Instance label_eq_dec : EqDecision label.
Proof. solve_decision. Defined.

Record Runtime (B : Type) := MkRuntime {
  rt_queue : Queue;
  rt_delayed : Delayed;
  rt_limiter : RateLimiter B;
  rt_workers : list (Request * phase);
  rt_watch : list Request;
}.
Arguments MkRuntime {B} _ _ _ _ _.
Arguments rt_queue {B} _.
Arguments rt_delayed {B} _.
Arguments rt_limiter {B} _.
Arguments rt_workers {B} _.
Arguments rt_watch {B} _.

(** Whether a request comes back after its reconciliation. *)
Definition retries (r : Result) (e : option error) : bool :=
  match e with Some _ => true | None => (0 <? RequeueAfter r)%Z || Requeue r end.

Section runtime.
Context {B W : Type} `{TB : !TokenBucket B} `{HC : !HasClock W}.
(** The number of workers, the reconciler, and the requests that the watches
    make of a change of the world. *)
Context (MaxConcurrentReconciles : nat) (Reconcile : Request → W → outcome * W) (woken : W → W → list Request).
Notation S' := (St (Runtime B) W).

(** ** What is done with a result *)

Definition AddRateLimited (now : Z) (req : Request) (rt : Runtime B) : Runtime B :=
  let '(delay, limiter) := When now req (rt_limiter rt) in
  let '(q, d) := AddAfter now req delay (rt_queue rt, rt_delayed rt) in
  MkRuntime q d limiter (rt_workers rt) (rt_watch rt).
Definition forgetting (req : Request) (rt : Runtime B) : Runtime B :=
  MkRuntime (rt_queue rt) (rt_delayed rt) (Forget req (rt_limiter rt)) (rt_workers rt) (rt_watch rt).
Definition adding_after (now : Z) (req : Request) (delay : Z) (rt : Runtime B) : Runtime B :=
  let '(q, d) := AddAfter now req delay (rt_queue rt, rt_delayed rt) in
  MkRuntime q d (rt_limiter rt) (rt_workers rt) (rt_watch rt).

(** The result is ignored when there is an error.  (A [TerminalError], which is
    not retried, is returned by none of the reconcilers.) *)
Definition reconcileHandler (now : Z) (req : Request) (r : Result) (e : option error) (rt : Runtime B) : Runtime B :=
  match e with
  | Some _ => AddRateLimited now req rt
  | None =>
      if (0 <? RequeueAfter r)%Z then adding_after now req (RequeueAfter r) (forgetting req rt)
      else if Requeue r then AddRateLimited now req rt
      else forgetting req rt
  end.

(** The end of [processNextWorkItem]: the deferred [Done] comes last. *)
Definition finish (now : Z) (i : nat) (req : Request) (r : Result) (e : option error) (rt : Runtime B) : Runtime B :=
  let rt := reconcileHandler now req r e rt in
  MkRuntime (Done req (rt_queue rt)) (rt_delayed rt) (rt_limiter rt) (delete i (rt_workers rt)) (rt_watch rt).

Definition set_queue (q : Queue) (rt : Runtime B) : Runtime B :=
  MkRuntime q (rt_delayed rt) (rt_limiter rt) (rt_workers rt) (rt_watch rt).
Definition set_both (qd : Queue * Delayed) (rt : Runtime B) : Runtime B :=
  MkRuntime qd.1 qd.2 (rt_limiter rt) (rt_workers rt) (rt_watch rt).
Definition set_workers (ws : list (Request * phase)) (rt : Runtime B) : Runtime B :=
  MkRuntime (rt_queue rt) (rt_delayed rt) (rt_limiter rt) ws (rt_watch rt).
Definition set_watch (l : list Request) (rt : Runtime B) : Runtime B :=
  MkRuntime (rt_queue rt) (rt_delayed rt) (rt_limiter rt) (rt_workers rt) l.

(** ** Steps

    Each step is labelled with what is done.  A panic of a reconciler ends the
    process; there is no step for it. *)
Inductive does : label → S' → S' → Prop :=
  | Elsewhere rt w w' :
      (clock w ≤ clock w')%Z →
      does Others (MkSt rt w) (MkSt (set_watch (rt_watch rt ++ woken w w') rt) w')
  | Deliver rt w req rest :
      rt_watch rt = req :: rest →
      does Delivers (MkSt rt w) (MkSt (set_watch rest (set_queue (Add req (rt_queue rt)) rt)) w)
  | Receive rt w qd :
      receive (clock w) (rt_queue rt, rt_delayed rt) = Some qd →
      does Receives (MkSt rt w) (MkSt (set_both qd rt) w)
  | Fire rt w req qd :
      fire (clock w) req (rt_queue rt, rt_delayed rt) = Some qd →
      does Fires (MkSt rt w) (MkSt (set_both qd rt) w)
  | Start rt w req q :
      length (rt_workers rt) < MaxConcurrentReconciles → Get (rt_queue rt) = Item req q →
      does Starts (MkSt rt w) (MkSt (set_workers (rt_workers rt ++ [(req, Started)]) (set_queue q rt)) w)
  | Run rt w i req r e w' :
      rt_workers rt !! i = Some (req, Started) → Reconcile req w = (Some (r, e), w') →
      does (Runs req) (MkSt rt w)
        (MkSt (set_watch (rt_watch rt ++ woken w w') (set_workers (<[i := (req, Ran r e)]> (rt_workers rt)) rt)) w')
  | Finish rt w i req r e :
      rt_workers rt !! i = Some (req, Ran r e) →
      does (Finishes req) (MkSt rt w) (MkSt (finish (clock w) i req r e rt) w).
Definition step (s s' : S') : Prop := ∃ l, does l s s'.

(** A controller starts with nothing in its queue and the first events of its
    watches on their way. *)
Definition boot (limiter : RateLimiter B) (first : list Request) : Runtime B :=
  MkRuntime NewQueue NewDelayed limiter [] first.
Definition running (limiter : RateLimiter B) (first : W → list Request) (s : S') : Prop :=
  ∃ w, rtc step (MkSt (boot limiter (first w)) w) s.

(** ** Schedules

    The steps as a function of what is done next, to run a controller. *)
Inductive action := ElsewhereA (f : W → W) | DeliverA | ReceiveA | FireA (req : Request) | StartA | RunA (i : nat) | FinishA (i : nat).

Definition act (a : action) (s : S') : option S' :=
  let '(MkSt rt w) := s in
  match a with
  | ElsewhereA f =>
      if (clock w <=? clock (f w))%Z then Some (MkSt (set_watch (rt_watch rt ++ woken w (f w)) rt) (f w)) else None
  | DeliverA =>
      match rt_watch rt with
      | req :: rest => Some (MkSt (set_watch rest (set_queue (Add req (rt_queue rt)) rt)) w)
      | [] => None
      end
  | ReceiveA => (λ qd, MkSt (set_both qd rt) w) <$> receive (clock w) (rt_queue rt, rt_delayed rt)
  | FireA req => (λ qd, MkSt (set_both qd rt) w) <$> fire (clock w) req (rt_queue rt, rt_delayed rt)
  | StartA =>
      match Get (rt_queue rt) with
      | Item req q =>
          if length (rt_workers rt) <? MaxConcurrentReconciles
          then Some (MkSt (set_workers (rt_workers rt ++ [(req, Started)]) (set_queue q rt)) w) else None
      | _ => None
      end
  | RunA i =>
      match rt_workers rt !! i with
      | Some (req, Started) =>
          match Reconcile req w with
          | (Some (r, e), w') => Some (MkSt (set_watch (rt_watch rt ++ woken w w')
              (set_workers (<[i := (req, Ran r e)]> (rt_workers rt)) rt)) w')
          | (None, _) => None
          end
      | _ => None
      end
  | FinishA i =>
      match rt_workers rt !! i with
      | Some (req, Ran r e) => Some (MkSt (finish (clock w) i req r e rt) w)
      | _ => None
      end
  end.

Lemma act_step a s s' : act a s = Some s' → step s s'.
Proof.
  destruct s as [rt w], a as [f| | |k| |i|i]; cbn [act].
  - destruct (Z.leb_spec (clock w) (clock (f w))); [|done]. intros [= <-]. eexists. by apply Elsewhere.
  - destruct (rt_watch rt) eqn:Hw; [done|]. intros [= <-]. eexists. by apply Deliver.
  - intros (qd & Hr & ->)%fmap_Some. eexists. by apply Receive.
  - intros (qd & Hr & ->)%fmap_Some. eexists. by eapply Fire.
  - destruct (Get (rt_queue rt)) eqn:Hg; [done..|]. destruct (Nat.ltb_spec (length (rt_workers rt)) MaxConcurrentReconciles); [|done].
    intros [= <-]. eexists. by apply Start.
  - destruct (rt_workers rt !! i) as [[k []]|] eqn:Hi; [|done..].
    destruct (Reconcile k w) as [[[r e]|] w'] eqn:Hr; [|done]. intros [= <-]. eexists. by eapply Run.
  - destruct (rt_workers rt !! i) as [[k []]|] eqn:Hi; [done| |done]. intros [= <-]. eexists. by apply Finish.
Qed.

Definition schedule (l : list action) (s : S') : option S' := foldl (λ o a, o ≫= act a) (Some s) l.
Lemma schedule_runs l s s' : schedule l s = Some s' → rtc step s s'.
Proof.
  unfold schedule. revert s. induction l as [|a l IH]; intros s; cbn; [intros [= ->]; apply rtc_refl|].
  destruct (act a s) as [s1|] eqn:Ha; [|clear; by induction l].
  intros H. eapply rtc_l; [by eapply act_step|by apply IH].
Qed.

(** ** Workers exclude each other *)

Record exclusive (rt : Runtime B) : Prop := {
  ex_queue : well_formed (rt_queue rt);
  ex_open : shuttingDown (rt_queue rt) = false;
  ex_workers : NoDup (rt_workers rt).*1;
  ex_processing : processing (rt_queue rt) = list_to_set (rt_workers rt).*1;
  ex_bound : length (rt_workers rt) ≤ MaxConcurrentReconciles;
}.

(** The queue after an addition, at once or delayed. *)
Lemma AddAfter_queue now k d q de q' de' :
  AddAfter now k d (q, de) = (q', de') → q' = q ∨ q' = Add k q.
Proof.
  unfold AddAfter. destruct (shuttingDown q); [intros [= <- <-]; by left|].
  destruct (d <=? 0)%Z; intros [= <- <-]; [by right|by left].
Qed.
Lemma receive_queue now q de q' de' :
  receive now (q, de) = Some (q', de') → q' = q ∨ ∃ k, q' = Add k q.
Proof.
  unfold receive. destruct (waitingForAddCh de) as [|[k t] rest]; [done|].
  destruct (now <? t)%Z; intros [= <- <-]; [by left|right; by exists k].
Qed.
Lemma fire_queue now k q de q' de' : fire now k (q, de) = Some (q', de') → q' = Add k q.
Proof.
  unfold fire. destruct (waitingEntryByData de !! k) as [t|]; [|done]. destruct (_ && _); [|done].
  by intros [= <- <-].
Qed.
Lemma handler_shape now k r e rt rt' :
  reconcileHandler now k r e rt = rt' →
  rt_workers rt' = rt_workers rt ∧ rt_watch rt' = rt_watch rt ∧
  (rt_queue rt' = rt_queue rt ∨ rt_queue rt' = Add k (rt_queue rt)).
Proof.
  intros <-. assert (∀ rt : Runtime B, rt_workers (AddRateLimited now k rt) = rt_workers rt ∧
    rt_watch (AddRateLimited now k rt) = rt_watch rt ∧
    (rt_queue (AddRateLimited now k rt) = rt_queue rt ∨ rt_queue (AddRateLimited now k rt) = Add k (rt_queue rt))) as Hlim.
  { intros rt'. unfold AddRateLimited. destruct (When _ _ _) as [d l].
    destruct (AddAfter _ _ _ _) as [q de] eqn:Ha. cbn. split_and!; [done..|]. by eapply AddAfter_queue. }
  unfold reconcileHandler. destruct e as [e|]; [apply Hlim|].
  destruct (0 <? RequeueAfter r)%Z; [|destruct (Requeue r); [apply Hlim|cbn; by auto]].
  unfold adding_after. destruct (AddAfter _ _ _ _) as [q de] eqn:Ha. cbn. split_and!; [done..|].
  by apply AddAfter_queue in Ha.
Qed.

Lemma exclusive_queue q rt :
  exclusive rt → q = rt_queue rt ∨ (∃ k, q = Add k (rt_queue rt)) →
  well_formed q ∧ shuttingDown q = false ∧ processing q = list_to_set (rt_workers rt).*1.
Proof.
  intros [Hq Ho Hw Hp Hb] [->|[k ->]]; [done|]. autorewrite with gorw.
  split_and!; [by apply Add_well_formed|done|done].
Qed.

Lemma NoDup_delete_fst (ws : list (Request * phase)) i k p :
  NoDup ws.*1 → ws !! i = Some (k, p) →
  NoDup (delete i ws).*1 ∧ (list_to_set (delete i ws).*1 : gset Request) = list_to_set ws.*1 ∖ {[k]}.
Proof.
  intros Hnd Hi. pose proof (delete_Permutation ws i (k, p) Hi) as Hperm.
  apply (fmap_Permutation fst) in Hperm. cbn in Hperm. rewrite Hperm in Hnd. apply NoDup_cons in Hnd as [Hk Hnd].
  split; [done|]. rewrite Hperm. cbn. apply set_eq. intros j. rewrite !elem_of_difference, elem_of_union, elem_of_list_to_set, elem_of_singleton.
  destruct (decide (j = k)) as [->|]; [|naive_solver]. split; [done|]. naive_solver.
Qed.

Lemma step_exclusive s s' : step s s' → exclusive (prov s) → exclusive (prov s').
Proof.
  intros [l Hs] Hex. pose proof Hex as [Hq Ho Hw Hp Hb].
  destruct Hs as [rt w w' _|rt w k rest _|rt w [q de] Hr|rt w k [q de] Hr|rt w k q Hlen Hget
    |rt w i k r e w' Hi _|rt w i k r e Hi]; cbn [prov] in *.
  - by split.
  - destruct (exclusive_queue (Add k (rt_queue rt)) rt Hex) as (?&?&?); [by eauto|]. by split.
  - apply receive_queue in Hr. destruct (exclusive_queue q rt Hex) as (?&?&?); [by destruct Hr; eauto|]. by split.
  - apply fire_queue in Hr. destruct (exclusive_queue q rt Hex) as (?&?&?); [by eauto|]. by split.
  - destruct (Get_well_formed _ _ _ Hq Hget) as (Hq' & _ & Hk & _ & Hp').
    assert (k ∉ (rt_workers rt).*1) as Hnew by (by rewrite Hp, elem_of_list_to_set in Hk).
    assert (shuttingDown q = false) as Ho'.
    { unfold Get in Hget. destruct (queue (rt_queue rt)); [by rewrite Ho in Hget|]. by injection Hget as _ <-. }
    split; cbn; [done|done| | |rewrite length_app; cbn; lia]; rewrite fmap_app; cbn.
    + apply NoDup_app. split_and!; [done| |apply NoDup_singleton]. intros j Hj ->%list_elem_of_singleton. done.
    + rewrite Hp', Hp. apply set_eq. intros j. rewrite list_to_set_app. set_solver.
  - assert ((<[i:=(k, Ran r e)]> (rt_workers rt)).*1 = (rt_workers rt).*1) as Heq.
    { rewrite list_fmap_insert. apply list_insert_id. by rewrite list_lookup_fmap, Hi. }
    split; cbn; [done|done|by rewrite Heq|by rewrite Heq|by rewrite length_insert].
  - unfold finish. destruct (handler_shape (clock w) k r e rt _ eq_refl) as (Hws & _ & Hqu).
    set (rt' := reconcileHandler (clock w) k r e rt) in *.
    destruct (exclusive_queue (rt_queue rt') rt Hex) as (Hq1 & Ho1 & Hp1); [by destruct Hqu; eauto|].
    rewrite <- Hws in *. destruct (NoDup_delete_fst _ _ _ _ Hw Hi) as [Hnd Hset].
    split; cbn; autorewrite with gorw; [| done|done|by rewrite Hp1, Hset|].
    + apply Done_well_formed; [done|]. rewrite Hp1. apply elem_of_list_to_set, list_elem_of_fmap.
      exists (k, Ran r e). split; [done|]. by eapply list_elem_of_lookup_2.
    + rewrite length_delete by by eexists. lia.
Qed.

Lemma running_exclusive limiter first s : running limiter first s → exclusive (prov s).
Proof.
  intros [w Hr]. remember (MkSt (boot limiter (first w)) w) as s0 eqn:H0.
  assert (exclusive (prov s0)) as Hi.
  { rewrite H0. split; cbn; [apply new_well_formed|done|constructor|done|lia]. }
  clear H0. induction Hr as [|s1 s2 s3 Hs _ IH]; [done|]. apply IH. by eapply step_exclusive.
Qed.

(** ** What is owed a reconciliation *)

Definition delayed (rt : Runtime B) (k : Request) : Prop :=
  (∃ t, (k, t) ∈ waitingForAddCh (rt_delayed rt)) ∨ is_Some (waitingEntryByData (rt_delayed rt) !! k).
(** The request has not run yet, or it comes back. *)
Definition in_work (rt : Runtime B) (k : Request) : Prop :=
  ∃ p, (k, p) ∈ rt_workers rt ∧ match p with Started => True | Ran r e => retries r e = true end.
Definition owed (rt : Runtime B) (k : Request) : Prop :=
  k ∈ rt_watch rt ∨ k ∈ dirty (rt_queue rt) ∨ delayed rt k ∨ in_work rt k.

(** Nothing is lost from the queue and the delayed additions. *)
Definition held (q : Queue) (d : Delayed) (k : Request) : Prop :=
  k ∈ dirty q ∨ (∃ t, (k, t) ∈ waitingForAddCh d) ∨ is_Some (waitingEntryByData d !! k).

Lemma held_Add j q d k : shuttingDown q = false → held q d k → held (Add j q) d k.
Proof. intros Ho [H|H]; [left; rewrite Add_dirty by done; set_solver|by right]. Qed.
Lemma held_added q d k : shuttingDown q = false → held (Add k q) d k.
Proof. intros Ho. left. rewrite Add_dirty by done. set_solver. Qed.

Lemma AddAfter_held now j dur q d q' d' k :
  shuttingDown q = false → AddAfter now j dur (q, d) = (q', d') → held q d k ∨ k = j → held q' d' k.
Proof.
  intros Ho. unfold AddAfter. rewrite Ho. destruct (dur <=? 0)%Z; intros [= <- <-] [Hk| ->].
  - by apply held_Add.
  - by apply held_added.
  - destruct Hk as [?|[[t Ht]|?]]; [by left| |by right; right]. right. left. exists t. cbn. apply elem_of_app. by left.
  - right. left. eexists. cbn. apply elem_of_app. right. by left.
Qed.

Lemma insert_entry_keeps j t (m : gmap Request Z) k :
  is_Some (m !! k) ∨ k = j → is_Some (insert_entry j t m !! k).
Proof.
  unfold insert_entry. destruct (m !! j) as [t'|] eqn:Hj.
  - intros [Hk| ->]; [|destruct (t <? t')%Z; [by rewrite lookup_insert_eq|by rewrite Hj]].
    destruct (t <? t')%Z; [|done]. rewrite lookup_insert_is_Some'. by right.
  - rewrite lookup_insert_is_Some'. intros [?| ->]; by auto.
Qed.

Lemma receive_held now q d q' d' k :
  shuttingDown q = false → receive now (q, d) = Some (q', d') → held q d k → held q' d' k.
Proof.
  intros Ho. unfold receive. destruct (waitingForAddCh d) as [|[j t] rest] eqn:Hch; [done|].
  intros [= Hr] Hk. unfold held in Hk. rewrite Hch in Hk.
  assert (held q (MkDelayed rest (waitingEntryByData d)) k ∨ k = j) as Hrest.
  { destruct Hk as [?|[[t' [?|Ht]%elem_of_cons]|?]]; [by left; left|right; by simplify_eq| |by left; right; right].
    left. right. left. by exists t'. }
  destruct (now <? t)%Z; injection Hr as <- <-.
  - destruct Hrest as [[?|[?|?]]| ->]; [by left|by right; left| |]; right; right; apply insert_entry_keeps; by auto.
  - destruct Hrest as [?| ->]; [by apply held_Add|by apply held_added].
Qed.

Lemma fire_held now j q d q' d' k :
  shuttingDown q = false → fire now j (q, d) = Some (q', d') → held q d k → held q' d' k.
Proof.
  intros Ho. unfold fire. destruct (waitingEntryByData d !! j) as [t|] eqn:Hj; [|done].
  destruct (_ && _); [|done]. intros [= <- <-] [?|[?|?]].
  - left. rewrite Add_dirty by done. set_solver.
  - by right; left.
  - destruct (decide (k = j)) as [->|]; [by apply held_added|]. right. right. cbn. by rewrite lookup_delete_ne.
Qed.

(** A request that comes back is held when its worker is done. *)
Lemma handler_held now k r e rt j :
  shuttingDown (rt_queue rt) = false →
  held (rt_queue rt) (rt_delayed rt) j ∨ (j = k ∧ retries r e = true) →
  let rt' := reconcileHandler now k r e rt in held (rt_queue rt') (rt_delayed rt') j.
Proof.
  intros Ho Hj. assert (∀ rt : Runtime B, shuttingDown (rt_queue rt) = false →
    held (rt_queue rt) (rt_delayed rt) j ∨ j = k →
    held (rt_queue (AddRateLimited now k rt)) (rt_delayed (AddRateLimited now k rt)) j) as Hlim.
  { intros rt' Ho' Hj'. unfold AddRateLimited. destruct (When _ _ _) as [d l].
    destruct (AddAfter _ _ _ _) as [q de] eqn:Ha. cbn. by eapply AddAfter_held. }
  unfold reconcileHandler, retries in *. destruct e as [e|]; [apply Hlim; naive_solver|].
  destruct (0 <? RequeueAfter r)%Z.
  - unfold adding_after. destruct (AddAfter _ _ _ _) as [q de] eqn:Ha. cbn.
    eapply AddAfter_held; [|exact Ha|]; [done|]. naive_solver.
  - destruct (Requeue r); [apply Hlim; naive_solver|]. cbn. destruct Hj as [?|[_ Hn]]; [done|discriminate Hn].
Qed.

Lemma owed_held rt k :
  owed rt k ↔ k ∈ rt_watch rt ∨ held (rt_queue rt) (rt_delayed rt) k ∨ in_work rt k.
Proof. clear. unfold owed, held, delayed. tauto. Qed.

(** A step keeps what is owed, unless it runs the request. *)
Lemma step_owed s s' k :
  exclusive (prov s) → step s s' → owed (prov s) k →
  owed (prov s') k ∨
  ∃ i r e, rt_workers (prov s) !! i = Some (k, Started) ∧ Reconcile k (env s) = (Some (r, e), env s') ∧
    retries r e = false ∧ ∀ j, j ∈ woken (env s) (env s') → j ∈ rt_watch (prov s').
Proof.
  intros Hex [l Hs]. rewrite !owed_held. pose proof (ex_open _ Hex) as Ho.
  destruct Hs as [rt w w' _|rt w j rest Hwatch|rt w [q de] Hr|rt w j [q de] Hr|rt w j q Hlen Hget
    |rt w i j r e w' Hi Hrun|rt w i j r e Hi]; cbn [prov env] in *; intros Hk.
  - left. cbn. rewrite elem_of_app. unfold in_work in *. cbn. tauto.
  - left. cbn. rewrite Hwatch, elem_of_cons in Hk. unfold in_work in *. cbn.
    destruct Hk as [[->|?]|[?|?]]; [right; left; by apply held_added|by left|right; left; by apply held_Add|by right; right].
  - left. cbn. destruct Hk as [?|[?|?]]; [by left| |by right; right]. right. left. by eapply receive_held.
  - left. cbn. destruct Hk as [?|[?|?]]; [by left| |by right; right]. right. left. by eapply fire_held.
  - left. cbn. destruct (Get_well_formed _ _ _ (ex_queue _ Hex) Hget) as (_ & _ & _ & Hd & _).
    unfold in_work, held in *. cbn. rewrite Hd. destruct (decide (k = j)) as [->|Hne].
    + right. right. exists Started. split; [|done]. apply elem_of_app. right. by left.
    + destruct Hk as [?|[[?|?]|(p & Hp & ?)]]; [by left|right; left; left; set_solver|by right; left; right|].
      right. right. exists p. split; [|done]. apply elem_of_app. by left.
  - destruct Hk as [?|[?|(p & Hp & Hret)]]; [left; left; cbn; apply elem_of_app; by left|by left; right; left|].
    apply list_elem_of_lookup in Hp as [i' Hi']. destruct (decide (i' = i)) as [->|Hne].
    + assert (k = j) as -> by congruence. destruct (retries r e) eqn:Hre; [|].
      2:{ right. exists i, r, e. split_and!; [done..|]. intros j0 Hj. cbn. apply elem_of_app. by right. }
      left. right. right. exists (Ran r e). split; [|done]. cbn. apply list_elem_of_lookup. exists i.
      apply list_lookup_insert_eq. by eapply lookup_lt_Some.
    + left. right. right. exists p. split; [|done]. cbn. apply list_elem_of_lookup. exists i'.
      by rewrite list_lookup_insert_ne.
  - left. unfold finish. destruct (handler_shape (clock w) j r e rt _ eq_refl) as (Hws & Hwa & _).
    assert (held (rt_queue rt) (rt_delayed rt) k ∨ (k = j ∧ retries r e = true) ∨
      k ∈ rt_watch rt ∨ ∃ i' p, i' ≠ i ∧ rt_workers rt !! i' = Some (k, p) ∧
        match p with Started => True | Ran r e => retries r e = true end) as Hcases.
    { destruct Hk as [?|[?|(p & (i' & Hi')%list_elem_of_lookup & Hret)]]; [by auto..|].
      destruct (decide (i' = i)) as [->|]; [|by eauto 10]. right. left. simplify_eq. by split. }
    destruct Hcases as [Hh|[Hh|[?|(i' & p & Hne & Hi' & Hret)]]].
    1,2: right; left; cbn; pose proof (handler_held (clock w) j r e rt k Ho) as [?|?]; [by auto| |by right];
      left; by autorewrite with gorw.
    + left. cbn. by rewrite Hwa.
    + right. right. exists p. split; [|done]. cbn. rewrite Hws. apply list_elem_of_lookup.
      destruct (decide (i' < i)); [exists i'; by rewrite list_lookup_delete_lt by lia|].
      exists (pred i'). rewrite list_lookup_delete_ge by lia. by replace (S (pred i')) with i' by lia.
Qed.

(** ** What needs a reconciliation is owed one *)

(** A need that the watches notice when it arises, and that the reconciler either
    meets or answers with a retry. *)
Class Tended (needs : W → Request → Prop) : Prop := {
  needs_dec w k : needs w k ∨ ¬ needs w k;
  needs_wakes w w' k : needs w' k → ¬ needs w k → k ∈ woken w w';
  needs_kept k w r e w' : Reconcile k w = (Some (r, e), w') → needs w' k → retries r e = true ∨ k ∈ woken w w';
}.

(** The requests that a step puts on their way. *)
Lemma step_wakes s s' k : step s s' → k ∈ woken (env s) (env s') → env s' = env s ∨ owed (prov s') k.
Proof. intros [l Hs] Hk. destruct Hs; cbn in *; try (by left); right; left; cbn; apply elem_of_app; by right. Qed.

Lemma step_tended needs `{!Tended needs} s s' k :
  exclusive (prov s) → step s s' → (needs (env s) k → owed (prov s) k) → needs (env s') k → owed (prov s') k.
Proof.
  intros Hex Hs Hk Hn. destruct (needs_dec (env s) k) as [Hold|Hnew].
  - destruct (step_owed _ _ k Hex Hs (Hk Hold)) as [?|(i & r & e & Hi & Hrun & Hre & Hwatch)]; [done|].
    destruct (needs_kept k _ r e _ Hrun Hn) as [Hre'|Hw]; [by rewrite Hre in Hre'|]. left. by apply Hwatch.
  - destruct (step_wakes _ _ k Hs (needs_wakes _ _ k Hn Hnew)) as [He|?]; [|done]. by rewrite He in Hn.
Qed.

(** Whatever happens in which order, a request that needs a reconciliation is on
    its way to one. *)
Lemma running_tended needs `{!Tended needs} limiter first s k :
  (∀ w k, needs w k → k ∈ first w) → running limiter first s → needs (env s) k → owed (prov s) k.
Proof.
  intros Hfirst [w Hr]. remember (MkSt (boot limiter (first w)) w) as s0 eqn:H0.
  assert (exclusive (prov s0)) as Hex.
  { rewrite H0. split; cbn; [apply new_well_formed|done|constructor|done|lia]. }
  assert (needs (env s0) k → owed (prov s0) k) as Hk by (rewrite H0; cbn; left; by apply Hfirst).
  clear H0. induction Hr as [|s1 s2 s3 Hs _ IH]; [done|].
  apply IH; [by eapply step_exclusive|by apply (step_tended needs s1)].
Qed.

End runtime.
