(* ===== verification/FairRuns.v ===== *)
(** * Fair runs of a controller

    A run is an endless sequence of steps of a controller.  It is fair when the
    watch, the delayed queue and the workers each get their turn: a step that
    stays possible is taken.  In a fair run in which time passes and no round
    panics, every request that is owed a reconciliation is reconciled, whatever
    the others do meanwhile and in whatever order the steps come.  Fair runs
    exist: taking turns is one. *)

From stdpp Require Import relations.
From S2P Require Import Prelude Effects GoCache Labels Scheduling CloudTypes Apis Conditions KubeApi WorkQueue ControllerRuntime.

Section fair.
Context {B W : Type} `{TB : !TokenBucket B} `{HC : !HasClock W}.
Context (MaxConcurrentReconciles : nat) (Reconcile : Request → W → outcome * W) (woken : W → W → list Request).
Notation S' := (St (Runtime B) W).
Notation doing := (does MaxConcurrentReconciles Reconcile woken).
Notation watched s := (rt_watch (prov s)).
Notation queued s := (queue (rt_queue (prov s))).
Notation dirt s := (dirty (rt_queue (prov s))).
Notation channel s := (waitingForAddCh (rt_delayed (prov s))).
Notation entries s := (waitingEntryByData (rt_delayed (prov s))).
Notation workers s := (rt_workers (prov s)).

Definition enabled (l : label) (s : S') : Prop := ∃ s', doing l s s'.

(** Weak fairness: again and again, a kind of step is taken or not possible. *)
Record fair (run : nat → S') (lbl : nat → label) : Prop := {
  fair_step n : doing (lbl n) (run n) (run (S n));
  fair_turn l n : l ≠ Others → ∃ m, n ≤ m ∧ (lbl m = l ∨ ¬ enabled l (run m));
  fair_alive n k : (k, Started) ∈ workers (run n) → is_Some (Reconcile k (env (run n))).1;
  fair_time T : ∃ N, ∀ m, N ≤ m → (T ≤ clock (env (run m)))%Z;
}.

(** ** What a step does to each part *)

Lemma Add_prefix k q : queue q `prefix_of` queue (Add k q).
Proof.
  unfold Add. destruct (shuttingDown q); [done|]. case_bool_decide; [done|]. case_bool_decide; [done|].
  cbn. by apply prefix_app_r.
Qed.
Lemma Done_prefix k q : queue q `prefix_of` queue (Done k q).
Proof. unfold Done. case_bool_decide; cbn; [by apply prefix_app_r|done]. Qed.
Lemma finish_prefix now i k r e (rt : Runtime B) : queue (rt_queue rt) `prefix_of` queue (rt_queue (finish now i k r e rt)).
Proof.
  unfold finish. cbn. destruct (handler_shape now k r e rt _ eq_refl) as (_ & _ & Hq).
  etrans; [|apply Done_prefix]. destruct Hq as [->| ->]; [done|apply Add_prefix].
Qed.

(** The handler adds to the channel and leaves the entries alone. *)
Lemma AddAfter_delayed now k d q de q' de' :
  AddAfter now k d (q, de) = (q', de') →
  waitingForAddCh de `prefix_of` waitingForAddCh de' ∧ waitingEntryByData de' = waitingEntryByData de.
Proof.
  unfold AddAfter. destruct (shuttingDown q); [by intros [= <- <-]|].
  destruct (d <=? 0)%Z; intros [= <- <-]; [done|]. split; [|done]. cbn. by apply prefix_app_r.
Qed.
Lemma handler_delayed now k r e (rt : Runtime B) :
  let rt' := reconcileHandler now k r e rt in
  waitingForAddCh (rt_delayed rt) `prefix_of` waitingForAddCh (rt_delayed rt') ∧
  waitingEntryByData (rt_delayed rt') = waitingEntryByData (rt_delayed rt).
Proof.
  assert (∀ rt : Runtime B, let rt' := AddRateLimited now k rt in
    waitingForAddCh (rt_delayed rt) `prefix_of` waitingForAddCh (rt_delayed rt') ∧
    waitingEntryByData (rt_delayed rt') = waitingEntryByData (rt_delayed rt)) as Hlim.
  { intros rt'. unfold AddRateLimited. destruct (When _ _ _) as [d l].
    destruct (AddAfter _ _ _ _) as [q de] eqn:Ha. by apply AddAfter_delayed in Ha. }
  unfold reconcileHandler. destruct e as [e|]; [apply Hlim|].
  destruct (0 <? RequeueAfter r)%Z; [|destruct (Requeue r); [apply Hlim|done]].
  unfold adding_after. destruct (AddAfter _ _ _ _) as [q de] eqn:Ha. by apply AddAfter_delayed in Ha.
Qed.

(** The two queues and the channel: one kind of step takes the head, the others
    only append. *)
Lemma does_watch l s s' :
  shuttingDown (rt_queue (prov s)) = false → doing l s s' →
  (l = Delivers ∧ ∃ k, watched s = k :: watched s' ∧ k ∈ dirt s') ∨ (l ≠ Delivers ∧ watched s `prefix_of` watched s').
Proof.
  intros Ho Hs. destruct Hs as [rt w w' _|rt w k rest Hw|rt w qd Hr|rt w k qd Hr|rt w k q Hlen Hget
    |rt w i k r e w' Hi _|rt w i k r e Hi]; [right|left|right..]; (split; [done|]); cbn [prov] in *.
  - by apply prefix_app_r.
  - exists k. split; [done|]. cbn. rewrite Add_dirty by done. set_solver.
  - done.
  - done.
  - done.
  - by apply prefix_app_r.
  - unfold finish. cbn. by destruct (handler_shape (clock w) k r e rt _ eq_refl) as (_ & -> & _).
Qed.

Lemma does_queue l s s' :
  doing l s s' →
  (l = Starts ∧ ∃ k, queued s = k :: queued s' ∧ (k, Started) ∈ workers s') ∨ (l ≠ Starts ∧ queued s `prefix_of` queued s').
Proof.
  intros Hs. destruct Hs as [rt w w' _|rt w k rest Hw|rt w [q de] Hr|rt w k [q de] Hr|rt w k q Hlen Hget
    |rt w i k r e w' Hi _|rt w i k r e Hi]; [right..|left|right|right]; (split; [done|]); cbn [prov] in *.
  - done.
  - apply Add_prefix.
  - apply receive_queue in Hr as [->|[k ->]]; [done|apply Add_prefix].
  - apply fire_queue in Hr as ->. apply Add_prefix.
  - exists k. unfold Get in Hget. destruct (queue (rt_queue rt)) as [|j rest]; [by destruct (shuttingDown _)|].
    injection Hget as <- <-. split; [done|]. cbn. apply elem_of_app. right. by left.
  - done.
  - apply finish_prefix.
Qed.

Lemma does_channel l s s' :
  shuttingDown (rt_queue (prov s)) = false → doing l s s' →
  (l = Receives ∧ ∃ x, channel s = x :: channel s' ∧ (x.1 ∈ dirt s' ∨ is_Some (entries s' !! x.1))) ∨
  (l ≠ Receives ∧ channel s `prefix_of` channel s').
Proof.
  intros Ho Hs. destruct Hs as [rt w w' _|rt w k rest Hw|rt w [q de] Hr|rt w k [q de] Hr|rt w k q Hlen Hget
    |rt w i k r e w' Hi _|rt w i k r e Hi]; [right|right|left|right..]; cbn [prov] in *.
  1,2,5,6: done.
  - split; [done|]. unfold receive in Hr. destruct (waitingForAddCh (rt_delayed rt)) as [|[j t] rest]; [done|].
    exists (j, t). destruct (_ <? _)%Z; injection Hr as <- <-; (split; [done|]); cbn.
    + right. apply insert_entry_keeps. by right.
    + left. rewrite Add_dirty by done. set_solver.
  - split; [done|]. unfold fire in Hr. destruct (_ !! k); [|done]. destruct (_ && _); [|done].
    by injection Hr as <- <-.
  - split; [done|]. unfold finish. cbn. apply handler_delayed.
Qed.

(** A worker keeps its request and what it has of it. *)
Lemma does_worker l s s' k p :
  doing l s s' → (k, p) ∈ workers s →
  (k, p) ∈ workers s' ∨ (p = Started ∧ l = Runs k) ∨ (p ≠ Started ∧ l = Finishes k).
Proof.
  intros Hs [i' Hi']%list_elem_of_lookup.
  destruct Hs as [rt w w' _|rt w j rest Hw|rt w qd Hr|rt w j qd Hr|rt w j q Hlen Hget
    |rt w i j r e w' Hi _|rt w i j r e Hi]; cbn [prov] in *; try (left; by eapply list_elem_of_lookup_2).
  - left. apply elem_of_app. left. by eapply list_elem_of_lookup_2.
  - destruct (decide (i' = i)) as [->|Hne]; [right; left; by simplify_eq|]. left. cbn.
    apply list_elem_of_lookup. exists i'. by rewrite list_lookup_insert_ne.
  - destruct (decide (i' = i)) as [->|Hne]; [right; right; by simplify_eq|]. left. unfold finish. cbn.
    destruct (handler_shape (clock w) j r e rt _ eq_refl) as (-> & _). apply list_elem_of_lookup.
    destruct (decide (i' < i)); [exists i'; by rewrite list_lookup_delete_lt by lia|].
    exists (pred i'). rewrite list_lookup_delete_ge by lia. by replace (S (pred i')) with i' by lia.
Qed.

(** Only [Starts] takes a worker. *)
Lemma does_length l s s' :
  doing l s s' → l ≠ Starts → length (workers s') ≤ length (workers s) ∧
  (∀ k, l = Finishes k → length (workers s') < length (workers s)).
Proof.
  intros Hs. destruct Hs as [rt w w' _|rt w j rest Hw|rt w qd Hr|rt w j qd Hr|rt w j q Hlen Hget
    |rt w i j r e w' Hi _|rt w i j r e Hi]; cbn [prov] in *; intros Hl; cbn; try (split; [lia|done]).
  - done.
  - rewrite length_insert. by split; [lia|].
  - unfold finish. cbn. destruct (handler_shape (clock w) j r e rt _ eq_refl) as (-> & _).
    apply lookup_lt_Some in Hi as Hlt. rewrite length_delete by by eexists. split; [lia|]. intros _ _. lia.
Qed.

(** A request that waits while it is in work waits until the worker is done. *)
Lemma does_dirty l s s' k :
  exclusive MaxConcurrentReconciles (prov s) → doing l s s' → k ∈ (workers s).*1 → k ∈ dirt s → k ∈ dirt s'.
Proof.
  intros Hex Hs Hw Hd. pose proof (ex_open _ _ Hex) as Ho.
  destruct Hs as [rt w w' _|rt w j rest _|rt w [q de] Hr|rt w j [q de] Hr|rt w j q Hlen Hget
    |rt w i j r e w' Hi _|rt w i j r e Hi]; cbn [prov] in *; cbn.
  - done.
  - rewrite Add_dirty by done. set_solver.
  - apply receive_queue in Hr as [->|[j ->]]; [done|]. rewrite Add_dirty by done. set_solver.
  - apply fire_queue in Hr as ->. rewrite Add_dirty by done. set_solver.
  - destruct (Get_well_formed _ _ _ (ex_queue _ _ Hex) Hget) as (_ & _ & Hp & -> & _).
    rewrite (ex_processing _ _ Hex), elem_of_list_to_set in Hp. set_solver.
  - done.
  - rewrite Done_dirty. destruct (handler_shape (clock w) j r e rt _ eq_refl) as (_ & _ & [->| ->]); [done|].
    rewrite Add_dirty by done. set_solver.
Qed.

(** The entries: one whose time is not after the present is not moved; only
    [Fires] takes one out, the earliest. *)
Lemma insert_entry_lookup k j t (m : gmap Request Z) u :
  m !! k = Some u → ∃ u', insert_entry j t m !! k = Some u' ∧ (u' = u ∨ (k = j ∧ u' = t ∧ (t < u)%Z)).
Proof.
  intros Hk. unfold insert_entry. destruct (m !! j) as [v|] eqn:Hj.
  - destruct (Z.ltb_spec t v); [|by eauto]. destruct (decide (k = j)) as [->|].
    + rewrite lookup_insert_eq. exists t. simplify_eq. by eauto.
    + rewrite lookup_insert_ne by done. by eauto.
  - rewrite lookup_insert_ne by (intros ->; congruence). by eauto.
Qed.
Lemma insert_entry_inv k j t (m : gmap Request Z) u :
  insert_entry j t m !! k = Some u → m !! k = Some u ∨ (k = j ∧ u = t).
Proof.
  unfold insert_entry. destruct (m !! j) as [v|]; [destruct (t <? v)%Z; [|by left]|];
    intros [[<- <-]|[_ ?]]%lookup_insert_Some; by auto.
Qed.
Lemma does_entries l s s' :
  shuttingDown (rt_queue (prov s)) = false → doing l s s' →
  (l ≠ Fires ∧ entries s' = entries s) ∨
  (l = Receives ∧ ∃ j t, (clock (env s) < t)%Z ∧ entries s' = insert_entry j t (entries s)) ∨
  (l = Fires ∧ ∃ j t, entries s !! j = Some t ∧ map_Forall (λ _ u, (t ≤ u)%Z) (entries s) ∧
     entries s' = delete j (entries s) ∧ j ∈ dirt s').
Proof.
  intros Ho Hs. destruct Hs as [rt w w' _|rt w k rest Hw|rt w [q de] Hr|rt w k [q de] Hr|rt w k q Hlen Hget
    |rt w i k r e w' Hi _|rt w i k r e Hi]; cbn [prov env] in *; try (by left).
  - unfold receive in Hr. destruct (waitingForAddCh (rt_delayed rt)) as [|[j t] rest]; [done|].
    destruct (Z.ltb_spec (clock w) t); injection Hr as <- <-; [|by left].
    right. left. split; [done|]. by exists j, t.
  - right. right. split; [done|]. unfold fire in Hr. destruct (waitingEntryByData _ !! k) as [t|] eqn:Hk; [|done].
    destruct (_ && _) eqn:Hb; [|done]. injection Hr as <- <-. apply andb_true_iff in Hb as [_ Hb%bool_decide_eq_true].
    exists k, t. split_and!; [done..|]. cbn. rewrite Add_dirty by done. set_solver.
  - left. split; [done|]. unfold finish. cbn. apply handler_delayed.
Qed.

(** ** What is owed is reconciled *)

Lemma earliest (m : gmap Request Z) :
  m ≠ ∅ → ∃ j t, m !! j = Some t ∧ map_Forall (λ _ t', (t ≤ t')%Z) m.
Proof.
  induction m as [|j t m Hj IH] using map_ind; [done|]. intros _.
  destruct (decide (m = ∅)) as [->|Hne].
  { exists j, t. rewrite lookup_insert_eq. split; [done|]. intros j' t' [[_ <-]|[_ H]]%lookup_insert_Some; [lia|].
    by rewrite lookup_empty in H. }
  destruct (IH Hne) as (j1 & t1 & H1 & Hall). destruct (decide (t ≤ t1)%Z).
  - exists j, t. rewrite lookup_insert_eq. split; [done|].
    intros j' t' [[_ <-]|[_ H]]%lookup_insert_Some; [lia|]. apply Hall in H. lia.
  - exists j1, t1. rewrite lookup_insert_ne by (intros ->; congruence). split; [done|].
    intros j' t' [[_ <-]|[_ H]]%lookup_insert_Some; [lia|]. by apply Hall in H.
Qed.

Section progress.
Context (run : nat → S') (lbl : nat → label) (HF : fair run lbl) (Hmax : 0 < MaxConcurrentReconciles).
Context (Hboot : exclusive MaxConcurrentReconciles (prov (run 0))).

Lemma run_exclusive n : exclusive MaxConcurrentReconciles (prov (run n)).
Proof.
  induction n as [|n IH]; [done|]. eapply step_exclusive; [|exact IH]. eexists. apply (fair_step _ _ HF).
Qed.
Lemma run_open n : shuttingDown (rt_queue (prov (run n))) = false.
Proof. apply (ex_open _ _ (run_exclusive n)). Qed.

(** What only steps of one kind end lasts until the next of them. *)
Lemma lasts (I : S' → Prop) l n m :
  n ≤ m → lbl m = l ∨ ¬ I (run m) →
  (∀ j, n ≤ j → I (run j) → lbl j ≠ l → I (run (S j))) → I (run n) →
  ∃ j, n ≤ j ∧ lbl j = l ∧ I (run j).
Proof.
  intros Hnm Hm Hkeep. remember (m - n) as d eqn:Hd. revert n Hnm Hkeep Hd.
  induction d as [|d IH]; intros n Hnm Hkeep Hd Hn; destruct (decide (lbl n = l)) as [Hl|Hl]; try (by exists n).
  - replace m with n in Hm by lia. by destruct Hm.
  - destruct (IH (S n)) as (j & Hj & H); [lia| |lia|by apply Hkeep|].
    + intros j Hj. apply Hkeep. lia.
    + exists j. split; [lia|done].
Qed.
(** What makes a step possible until it is taken leads to it. *)
Lemma taken (I : S' → Prop) l n :
  l ≠ Others → (∀ j, n ≤ j → I (run j) → enabled l (run j)) →
  (∀ j, n ≤ j → I (run j) → lbl j ≠ l → I (run (S j))) → I (run n) →
  ∃ j, n ≤ j ∧ lbl j = l ∧ I (run j).
Proof.
  intros Hl Hen Hkeep Hn. destruct (fair_turn _ _ HF l n Hl) as (m & Hm & Hturn).
  apply (lasts I l n m); [done| |done|done]. destruct Hturn as [?|Hdis]; [by left|right].
  intros HI. by apply Hdis, Hen.
Qed.

(** First in, first out: what is in a list whose head one kind of step takes, and
    that is not left alone while it has one, is taken. *)
Lemma fifo {A} (content : S' → list A) (after : A → S' → Prop) l :
  (∀ n, (lbl n = l ∧ ∃ x, content (run n) = x :: content (run (S n)) ∧ after x (run (S n))) ∨
        (lbl n ≠ l ∧ content (run n) `prefix_of` content (run (S n)))) →
  (∀ n, content (run n) ≠ [] → ∃ m, n ≤ m ∧ lbl m = l) →
  ∀ n x, x ∈ content (run n) → ∃ m, n ≤ m ∧ after x (run m).
Proof.
  intros Hstep Htaken n x [i Hi]%list_elem_of_lookup.
  assert (∀ i n, content (run n) !! i = Some x → ∃ j, n ≤ j ∧ lbl j = l ∧ content (run j) !! i = Some x) as Htake.
  { clear i n Hi. intros i n Hi. destruct (Htaken n) as (m & Hm & Hl); [by intros He; rewrite He in Hi|].
    apply (lasts (λ s, content s !! i = Some x) l n m Hm (or_introl Hl)); [|done].
    intros j _ Hj Hne. destruct (Hstep j) as [[? _]|[_ Hpre]]; [done|]. by eapply prefix_lookup_Some. }
  revert n Hi. induction i as [|i IH]; intros n Hi; destruct (Htake _ n Hi) as (j & Hj & Hl & Hx);
    (destruct (Hstep j) as [(_ & z & Hz & Haft)|[? _]]; [|done]); rewrite Hz in Hx; cbn in Hx.
  - injection Hx as ->. exists (S j). split; [lia|done].
  - destruct (IH _ Hx) as (m & Hm & H). exists m. split; [lia|done].
Qed.

(** A worker that has started runs, one that has run finishes. *)
Lemma started_runs n k : (k, Started) ∈ workers (run n) → ∃ m, n ≤ m ∧ lbl m = Runs k.
Proof.
  intros Hn. destruct (taken (λ s, (k, Started) ∈ workers s) (Runs k) n) as (m & Hm & Hl & _); [done| | |done|by exists m].
  - intros j _ Hj. destruct (fair_alive _ _ HF j k Hj) as [[r e] Hr]. apply list_elem_of_lookup in Hj as [i Hi].
    destruct (run j) as [rt w]. cbn [prov env] in *. destruct (Reconcile k w) as [o w'] eqn:Hrec. cbn in Hr. subst o.
    eexists. by apply (Run _ _ _ rt w i k r e w').
  - intros j _ Hj Hne. destruct (does_worker _ _ _ _ _ (fair_step _ _ HF j) Hj) as [?|[[_ ?]|[? _]]]; done.
Qed.
Lemma ran_finishes (I : S' → Prop) n k r e :
  (∀ j, (k, Ran r e) ∈ workers (run j) → I (run j) → I (run (S j))) →
  (k, Ran r e) ∈ workers (run n) → I (run n) →
  ∃ m, n ≤ m ∧ lbl m = Finishes k ∧ (k, Ran r e) ∈ workers (run m) ∧ I (run m).
Proof.
  intros HI Hn HIn. apply (taken (λ s, (k, Ran r e) ∈ workers s ∧ I s) (Finishes k) n); [done| | |done].
  - intros j _ [[i Hi]%list_elem_of_lookup _]. destruct (run j) as [rt w]. eexists. by apply (Finish _ _ _ rt w i k r e).
  - intros j _ [Hj HIj] Hne. split; [|by apply HI].
    destruct (does_worker _ _ _ _ _ (fair_step _ _ HF j) Hj) as [?|[[? _]|[_ ?]]]; done.
Qed.
Lemma runs_ran m k : lbl m = Runs k → ∃ r e, (k, Ran r e) ∈ workers (run (S m)).
Proof.
  intros Hl. pose proof (fair_step _ _ HF m) as Hs. rewrite Hl in Hs.
  remember (Runs k) as l eqn:El. destruct Hs as [| | | | |rt w i j r e w' Hi Hrec|]; try discriminate El.
  injection El as ->. exists r, e. cbn. apply list_elem_of_lookup. exists i.
  apply list_lookup_insert_eq. by eapply lookup_lt_Some.
Qed.

(** A queue with something in it is taken from: there is a free worker, or one
    runs and finishes. *)
Lemma free_starts n :
  queued (run n) ≠ [] → length (workers (run n)) < MaxConcurrentReconciles → ∃ m, n ≤ m ∧ lbl m = Starts.
Proof.
  intros Hq Hfree.
  destruct (taken (λ s, queued s ≠ [] ∧ length (workers s) < MaxConcurrentReconciles) Starts n)
    as (m & Hm & Hl & _); [done| | |done|by exists m].
  - intros j _ [Hj Hlen]. destruct (run j) as [rt w]. cbn [prov] in *.
    destruct (queue (rt_queue rt)) as [|k rest] eqn:He; [done|].
    eexists. eapply Start; [done|]. unfold Get. by rewrite He.
  - intros j _ [Hj Hlen] Hne. destruct (does_queue _ _ _ (fair_step _ _ HF j)) as [[? _]|[_ Hpre]]; [done|].
    destruct (does_length _ _ _ (fair_step _ _ HF j) Hne) as [Hle _]. split; [|lia].
    intros He. rewrite He in Hpre. by apply prefix_nil_inv in Hpre.
Qed.
Lemma worker_finishes n : 0 < length (workers (run n)) → ∃ m k, n ≤ m ∧ lbl m = Finishes k.
Proof.
  intros Hlen. assert (∀ n k r e, (k, Ran r e) ∈ workers (run n) → ∃ m, n ≤ m ∧ lbl m = Finishes k) as Hfin.
  { intros n' k r e Hk. destruct (ran_finishes (λ _, True) n' k r e) as (m & Hm & Hl & _); [done..|by exists m]. }
  destruct (workers (run n)) as [|[k [|r e]] ws] eqn:Hw; [cbn in Hlen; lia|..].
  - destruct (started_runs n k) as (m & Hm & Hl); [rewrite Hw; by left|].
    destruct (runs_ran m k Hl) as (r & e & Hr). destruct (Hfin _ _ _ _ Hr) as (m2 & Hm2 & Hl2).
    exists m2, k. split; [lia|done].
  - destruct (Hfin n k r e) as (m & Hm & Hl); [rewrite Hw; by left|]. by exists m, k.
Qed.
Lemma queue_starts n : queued (run n) ≠ [] → ∃ m, n ≤ m ∧ lbl m = Starts.
Proof.
  intros Hq. destruct (decide (length (workers (run n)) < MaxConcurrentReconciles)) as [|Hfull]; [by apply free_starts|].
  destruct (worker_finishes n) as (m & k & Hm & Hl); [lia|].
  pose proof (λ j, does_queue _ _ _ (fair_step _ _ HF j)) as Hqueue.
  assert ((∃ j, n ≤ j ∧ lbl j = Starts) ∨ queued (run (S m)) ≠ []) as [?|Hq']; [|done|].
  - assert (∀ d, (∃ j, n ≤ j ∧ lbl j = Starts) ∨ queued (run (n + d)) ≠ []) as Hall.
    { induction d as [|d [?|Hd]]; [rewrite Nat.add_0_r; by right|by left|].
      destruct (Hqueue (n + d)) as [[Hs _]|[_ Hpre]]; [left; exists (n + d); split; [lia|done]|right].
      rewrite Nat.add_succ_r. intros He. rewrite He in Hpre. by apply prefix_nil_inv in Hpre. }
    specialize (Hall (S m - n)). by replace (n + (S m - n)) with (S m) in Hall by lia.
  - destruct (free_starts (S m) Hq') as (j & Hj & Hlj); [|exists j; split; [lia|done]].
    destruct (does_length _ _ _ (fair_step _ _ HF m)) as [_ Hlt]; [by rewrite Hl|].
    specialize (Hlt k Hl). pose proof (ex_bound _ _ (run_exclusive m)). lia.
Qed.

Lemma queued_runs n k : k ∈ queued (run n) → ∃ m, n ≤ m ∧ lbl m = Runs k.
Proof.
  intros Hk. destruct (fifo (λ s, queued s) (λ k s, (k, Started) ∈ workers s) Starts) with (n := n) (x := k)
    as (m & Hm & Hst); [|exact queue_starts|exact Hk|].
  - intros j. exact (does_queue _ _ _ (fair_step _ _ HF j)).
  - destruct (started_runs m k Hst) as (m2 & Hm2 & Hl). exists m2. split; [lia|done].
Qed.

(** The request that a worker finishes is the one it ran, and is in work no more. *)
Lemma finishes_at m k r e :
  lbl m = Finishes k → (k, Ran r e) ∈ workers (run m) →
  ∃ i, run (S m) = MkSt (finish (clock (env (run m))) i k r e (prov (run m))) (env (run m)).
Proof.
  intros Hl Hk. pose proof (fair_step _ _ HF m) as Hs. rewrite Hl in Hs.
  pose proof (ex_workers _ _ (run_exclusive m)) as Hnd. remember (Finishes k) as l eqn:El.
  destruct Hs as [| | | | | |rt w i j r' e' Hi]; try discriminate El. injection El as ->. cbn [prov env] in *.
  exists i. apply list_elem_of_lookup in Hk as [i' Hi'].
  assert (i = i') as ->.
  { apply (NoDup_lookup _ _ _ k Hnd); by rewrite list_lookup_fmap, ?Hi, ?Hi'. }
  by simplify_eq.
Qed.

Lemma dirty_runs n k : k ∈ dirt (run n) → ∃ m, n ≤ m ∧ lbl m = Runs k.
Proof.
  intros Hk. destruct (decide (k ∈ processing (rt_queue (prov (run n))))) as [Hp|Hp].
  2:{ apply queued_runs. by apply (wf_queue _ (ex_queue _ _ (run_exclusive n))). }
  rewrite (ex_processing _ _ (run_exclusive n)), elem_of_list_to_set in Hp.
  apply list_elem_of_fmap in Hp as ([k' [|r e]] & -> & Hw); cbn in *; [by apply started_runs|].
  destruct (ran_finishes (λ s, k' ∈ dirt s) n k' r e) as (m & Hm & Hl & Hran & Hd); [|done|done|].
  - intros j Hj. apply (does_dirty _ _ _ _ (run_exclusive j) (fair_step _ _ HF j)).
    by apply (list_elem_of_fmap_2 fst) in Hj.
  - destruct (finishes_at m k' r e Hl Hran) as [i Hi].
    destruct (queued_runs (S m) k') as (m2 & Hm2 & H2); [|exists m2; split; [lia|done]].
    apply (wf_queue _ (ex_queue _ _ (run_exclusive (S m)))). rewrite Hi. unfold finish. cbn.
    rewrite Done_dirty, Done_processing. split; [|set_solver].
    destruct (handler_shape (clock (env (run m))) k' r e (prov (run m)) _ eq_refl) as (_ & _ & [->| ->]); [done|].
    rewrite Add_dirty by apply run_open. set_solver.
Qed.

(** An entry stays until it is added, and is moved only to an earlier time. *)
Lemma entry_lasts n k t m :
  entries (run n) !! k = Some t → n ≤ m →
  (∃ j, n ≤ j ∧ k ∈ dirt (run j)) ∨ ∃ t', (t' ≤ t)%Z ∧ entries (run m) !! k = Some t'.
Proof.
  intros Hk Hm. induction Hm as [|m Hm [?|(t' & Ht' & Hk')]]; [right; by exists t|by left|].
  destruct (does_entries _ _ _ (run_open m) (fair_step _ _ HF m)) as [[_ He]|[(_ & j & u & _ & He)|(_ & j & u & _ & _ & He & Hd)]].
  - right. exists t'. by rewrite He.
  - right. rewrite He. destruct (insert_entry_lookup k j u _ _ Hk') as (u' & Hu & Hle).
    exists u'. split; [|done]. destruct Hle as [->|(_ & -> & ?)]; lia.
  - destruct (decide (k = j)) as [->|]; [left; exists (S m); split; [lia|done]|].
    right. exists t'. split; [done|]. by rewrite He, lookup_delete_ne.
Qed.

(** An entry that is due is added: only those due before it come first, and
    there are no more and more of them. *)
Notation early t s := (filter (λ kt : Request * Z, (kt.2 ≤ t)%Z) (entries s)).
Lemma due_fires c n k t :
  (∀ m, n ≤ m → (t ≤ clock (env (run m)))%Z) → entries (run n) !! k = Some t → size (early t (run n)) ≤ c →
  ∃ m, n ≤ m ∧ k ∈ dirt (run m).
Proof.
  revert n. induction c as [|c IH]; intros n Hdue Hk Hc.
  { assert (early t (run n) = ∅) as He by (apply map_size_empty_inv; lia).
    assert (early t (run n) !! k = Some t) as Hek by by apply map_lookup_filter_Some.
    by rewrite He, lookup_empty in Hek. }
  destruct (taken (λ s, entries s !! k = Some t ∧ early t s ⊆ early t (run n)) Fires n)
    as (m & Hm & Hl & Hkm & Hsub); [done| | |done|].
  - intros j Hj [Hkj _]. destruct (earliest (entries (run j))) as (x & u & Hx & Hmin).
    { intros He. by rewrite He, lookup_empty in Hkj. }
    pose proof (Hmin _ _ Hkj) as Hu. pose proof (Hdue j Hj) as Hclock. cbn in Hu.
    destruct (run j) as [rt w]. cbn [prov env] in *. eexists. eapply (Fire _ _ _ rt w x). unfold fire. rewrite Hx.
    rewrite bool_decide_true by done. by rewrite (proj2 (Z.leb_le _ _)) by lia.
  - intros j Hj [Hkj Hsub] Hne. pose proof (Hdue j Hj) as Hclock.
    destruct (does_entries _ _ _ (run_open j) (fair_step _ _ HF j)) as [[_ He]|[(_ & x & u & Hu & He)|(? & _)]]; [|..|done].
    + by rewrite He.
    + rewrite He. split.
      * destruct (insert_entry_lookup k x u _ _ Hkj) as (u' & -> & [->|(_ & -> & ?)]); [done|lia].
      * etrans; [|exact Hsub]. apply map_subseteq_spec. intros y v [Hy Hv]%map_lookup_filter_Some. cbn in Hv.
        apply map_lookup_filter_Some. split; [|done]. apply insert_entry_inv in Hy as [?|[-> ->]]; [done|lia].
  - destruct (does_entries _ _ _ (run_open m) (fair_step _ _ HF m)) as [[? _]|[(? & _)|(_ & x & u & Hx & Hmin & He & Hd)]];
      [congruence..|].
    destruct (decide (k = x)) as [->|Hne]; [exists (S m); split; [lia|done]|].
    destruct (IH (S m)) as (m' & Hm' & H'); [intros; apply Hdue; lia|by rewrite He, lookup_delete_ne| |exists m'; split; [lia|done]].
    assert (early t (run m) !! x = Some u) as Hxe.
    { apply map_lookup_filter_Some. split; [done|]. by apply (Hmin k t). }
    rewrite He, map_filter_delete, map_size_delete_Some by by eexists.
    apply map_subseteq_size in Hsub. lia.
Qed.

Lemma entry_runs n k : is_Some (entries (run n) !! k) → ∃ m, n ≤ m ∧ lbl m = Runs k.
Proof.
  intros [t Hk]. destruct (fair_time _ _ HF t) as [N HN].
  assert (∃ m, n ≤ m ∧ k ∈ dirt (run m)) as (m & Hm & Hd).
  { destruct (entry_lasts n k t (n `max` N) Hk) as [?|(t' & Ht' & Hk')]; [lia|done|].
    destruct (due_fires (size (early t' (run (n `max` N)))) (n `max` N) k t') as (m & Hm & Hd); [|done|lia|].
    - intros m Hm. specialize (HN m). lia.
    - exists m. split; [lia|done]. }
  destruct (dirty_runs m k Hd) as (m2 & Hm2 & Hl). exists m2. split; [lia|done].
Qed.

Lemma channel_runs n k t : (k, t) ∈ channel (run n) → ∃ m, n ≤ m ∧ lbl m = Runs k.
Proof.
  intros Hk. destruct (fifo (λ s, channel s) (λ x s, x.1 ∈ dirt s ∨ is_Some (entries s !! x.1)) Receives)
    with (n := n) (x := (k, t)) as (m & Hm & Haft); [| |exact Hk|].
  - intros j. exact (does_channel _ _ _ (run_open j) (fair_step _ _ HF j)).
  - intros j Hj. destruct (taken (λ s, channel s ≠ []) Receives j) as (m & Hm & Hl & _); [done| | |done|by exists m].
    + intros i _ Hi. destruct (run i) as [rt w]. cbn [prov] in *.
      destruct (waitingForAddCh (rt_delayed rt)) as [|[x u] rest] eqn:He; [done|].
      eexists. eapply Receive. unfold receive. by rewrite He.
    + intros i _ Hi Hne. destruct (does_channel _ _ _ (run_open i) (fair_step _ _ HF i)) as [[? _]|[_ Hpre]]; [done|].
      intros He. rewrite He in Hpre. by apply prefix_nil_inv in Hpre.
  - cbn in Haft. assert (∃ m2, m ≤ m2 ∧ lbl m2 = Runs k) as (m2 & Hm2 & Hl)
      by (destruct Haft; [by apply dirty_runs|by apply entry_runs]).
    exists m2. split; [lia|done].
Qed.

Lemma watched_runs n k : k ∈ watched (run n) → ∃ m, n ≤ m ∧ lbl m = Runs k.
Proof.
  intros Hk. destruct (fifo (λ s, watched s) (λ k s, k ∈ dirt s) Delivers) with (n := n) (x := k)
    as (m & Hm & Hd); [| |exact Hk|].
  - intros j. exact (does_watch _ _ _ (run_open j) (fair_step _ _ HF j)).
  - intros j Hj. destruct (taken (λ s, watched s ≠ []) Delivers j) as (m & Hm & Hl & _); [done| | |done|by exists m].
    + intros i _ Hi. destruct (run i) as [rt w]. cbn [prov] in *.
      destruct (rt_watch rt) as [|x rest] eqn:He; [done|]. eexists. by eapply Deliver.
    + intros i _ Hi Hne. destruct (does_watch _ _ _ (run_open i) (fair_step _ _ HF i)) as [[? _]|[_ Hpre]]; [done|].
      intros He. rewrite He in Hpre. by apply prefix_nil_inv in Hpre.
  - destruct (dirty_runs m k Hd) as (m2 & Hm2 & Hl). exists m2. split; [lia|done].
Qed.

Lemma held_runs n k :
  held (rt_queue (prov (run n))) (rt_delayed (prov (run n))) k → ∃ m, n ≤ m ∧ lbl m = Runs k.
Proof. intros [?|[[t Ht]|?]]; [by apply dirty_runs|by eapply channel_runs|by apply entry_runs]. Qed.

(** Every request that is owed a reconciliation is reconciled. *)
Lemma owed_runs n k : owed (prov (run n)) k → ∃ m, n ≤ m ∧ lbl m = Runs k.
Proof.
  intros Hk. apply owed_held in Hk as [Hk|[Hk|(p & Hp & Hret)]]; [by apply watched_runs|by apply held_runs|].
  destruct p as [|r e]; [by apply started_runs|].
  destruct (ran_finishes (λ _, True) n k r e) as (m & Hm & Hl & Hran & _); [done..|].
  destruct (finishes_at m k r e Hl Hran) as [i Hi].
  destruct (held_runs (S m) k) as (m2 & Hm2 & H2); [|exists m2; split; [lia|done]]. rewrite Hi. unfold finish. cbn.
  pose proof (handler_held Reconcile (clock (env (run m))) k r e (prov (run m)) k (run_open m)) as [?|?]; [by right| |by right].
  left. by rewrite Done_dirty.
Qed.
(** A run that goes on from a state of the running controller stays in such
    states. *)
Lemma run_running limiter first n :
  running MaxConcurrentReconciles Reconcile woken limiter first (run 0) →
  running MaxConcurrentReconciles Reconcile woken limiter first (run n).
Proof.
  intros [w Hw]. exists w. induction n as [|n IH]; [done|]. eapply rtc_r; [exact IH|]. eexists. apply (fair_step _ _ HF).
Qed.
(** The round that runs is the reconciler's, on the world of that moment. *)
Lemma runs_round m k : lbl m = Runs k → ∃ r e, Reconcile k (env (run m)) = (Some (r, e), env (run (S m))).
Proof.
  intros Hl. pose proof (fair_step _ _ HF m) as Hs. rewrite Hl in Hs. remember (Runs k) as l eqn:El.
  destruct Hs as [| | | | |rt w i j r e w' Hi Hrec|]; try discriminate El. injection El as ->. by exists r, e.
Qed.
End progress.

(** ** Fair runs exist

    Take turns: deliver, receive, fire, start, run, finish, let time pass.  Where
    there is nothing to do, time passes. *)

Section turns.
(** A property of the world that lasts while only the controller writes and time
    passes, and under which no round panics. *)
Record quiet (P : W → Prop) (advance : W → W) : Prop := {
  quiet_run k w : P w → ∃ r e w', Reconcile k w = (Some (r, e), w') ∧ P w' ∧ (clock w ≤ clock w')%Z;
  quiet_advance w : P w → P (advance w) ∧ (clock w < clock (advance w))%Z;
}.
Context (P : W → Prop) (advance : W → W) (HQ : quiet P advance) (Hmax : 0 < MaxConcurrentReconciles).

Definition idle (s : S') : label * S' :=
  (Others, MkSt (set_watch (watched s ++ woken (env s) (advance (env s))) (prov s)) (advance (env s))).
Definition first_due (now : Z) (qd : Queue * Delayed) : option (Queue * Delayed) :=
  head (omap (λ kt, fire now kt.1 qd) (map_to_list (waitingEntryByData qd.2))).
Definition turn (slot : nat) (s : S') : label * S' :=
  let '(MkSt rt w) := s in
  match slot with
  | 0 => match rt_watch rt with
         | req :: rest => (Delivers, MkSt (set_watch rest (set_queue (Add req (rt_queue rt)) rt)) w)
         | [] => idle s
         end
  | 1 => match receive (clock w) (rt_queue rt, rt_delayed rt) with
         | Some qd => (Receives, MkSt (set_both qd rt) w)
         | None => idle s
         end
  | 2 => match first_due (clock w) (rt_queue rt, rt_delayed rt) with
         | Some qd => (Fires, MkSt (set_both qd rt) w)
         | None => idle s
         end
  | 3 => match Get (rt_queue rt) with
         | Item req q => (Starts, MkSt (set_workers (rt_workers rt ++ [(req, Started)]) (set_queue q rt)) w)
         | _ => idle s
         end
  | 4 => match rt_workers rt with
         | (req, Started) :: _ =>
             match Reconcile req w with
             | (Some (r, e), w') => (Runs req, MkSt (set_watch (rt_watch rt ++ woken w w')
                 (set_workers (<[0 := (req, Ran r e)]> (rt_workers rt)) rt)) w')
             | (None, _) => idle s
             end
         | _ => idle s
         end
  | 5 => match rt_workers rt with
         | (req, Ran r e) :: _ => (Finishes req, MkSt (finish (clock w) 0 req r e rt) w)
         | _ => idle s
         end
  | _ => idle s
  end.

(** The one worker that is used, by the turn. *)
Definition shape (slot : nat) (s : S') : Prop :=
  workers s = [] ∨ ∃ k p, workers s = [(k, p)] ∧ ((slot = 4 ∧ p = Started) ∨ (slot = 5 ∧ p ≠ Started)).

Lemma idle_does s : P (env s) → doing (idle s).1 s (idle s).2.
Proof. destruct s as [rt w]. intros HP. apply Elsewhere. destruct (quiet_advance _ _ HQ w HP). cbn. lia. Qed.
Lemma first_due_fires now qd qd' : first_due now qd = Some qd' → ∃ k, fire now k qd = Some qd'.
Proof. intros ([k t] & _ & H)%head_Some_elem_of%list_elem_of_omap. by exists k. Qed.
Lemma first_due_none now k q d qd : first_due now (q, d) = None → fire now k (q, d) ≠ Some qd.
Proof.
  unfold first_due. intros Hn Hf. destruct (waitingEntryByData d !! k) as [t|] eqn:Hk; [|unfold fire in Hf; by rewrite Hk in Hf].
  assert (qd ∈ omap (λ kt, fire now kt.1 (q, d)) (map_to_list (waitingEntryByData d))) as Hin.
  { apply list_elem_of_omap. exists (k, t). split; [by apply elem_of_map_to_list|done]. }
  destruct (omap _ _) in Hn, Hin; [by apply elem_of_nil in Hin|discriminate Hn].
Qed.

(** Each turn is a step, keeps the property, and leaves the worker as the next
    turn expects it. *)
Lemma turn_does slot s : P (env s) → shape slot s → doing (turn slot s).1 s (turn slot s).2.
Proof.
  intros HP Hsh. pose proof (idle_does s HP) as Hidle. destruct s as [rt w].
  destruct slot as [|[|[|[|[|[|slot]]]]]]; cbn [turn]; [..|done].
  - destruct (rt_watch rt) eqn:Hw; [done|]. by apply Deliver.
  - destruct (receive _ _) eqn:Hr; [|done]. by apply Receive.
  - destruct (first_due _ _) eqn:Hr; [|done]. apply first_due_fires in Hr as [k Hr]. by eapply Fire.
  - destruct (Get _) eqn:Hg; [done..|]. apply Start; [|done].
    destruct Hsh as [Hsh|(k & p & _ & [[? _]|[? _]])]; [|done..]. cbn in Hsh. by rewrite Hsh.
  - destruct (rt_workers rt) as [|[k []] ws] eqn:Hw; [done| |done].
    destruct (Reconcile k w) as [[[r e]|] w'] eqn:Hr; [|done]. rewrite <- Hw. eapply Run; [by rewrite Hw|done].
  - destruct (rt_workers rt) as [|[k []] ws] eqn:Hw; [done..|]. apply Finish. by rewrite Hw.
Qed.
Lemma turn_quiet slot s :
  P (env s) → P (env (turn slot s).2) ∧ (clock (env s) ≤ clock (env (turn slot s).2))%Z ∧
  (slot = 6 → (clock (env s) < clock (env (turn slot s).2))%Z).
Proof.
  intros HP. destruct (quiet_advance _ _ HQ _ HP) as [HA Hlt]. destruct s as [rt w]. cbn [env] in *.
  destruct slot as [|[|[|[|[|[|slot]]]]]]; cbn [turn]; [repeat case_match; cbn; (split_and!; [done|lia|done])..| | |].
  - destruct (rt_workers rt) as [|[k []] ws]; cbn; try (split_and!; [done|lia|done]).
    destruct (quiet_run _ _ HQ k w HP) as (r & e & w' & -> & HP' & Hc). cbn. by split_and!.
  - repeat case_match; cbn; (split_and!; [done|lia|done]).
  - cbn. split_and!; [done|lia|]. intros _. done.
Qed.
Lemma turn_shape slot s : slot < 7 → P (env s) → shape slot s → shape (S slot mod 7) (turn slot s).2.
Proof.
  intros Hslot HP Hsh. destruct s as [rt w]. unfold shape in *. cbn [prov env] in *.
  destruct Hsh as [Hw|(k & p & Hw & Hp)].
  - destruct slot as [|[|[|[|[|[|[|]]]]]]]; [..|lia]; cbn [turn]; try rewrite Hw; try (left; exact Hw);
      try (repeat case_match; left; exact Hw).
    destruct (Get (rt_queue rt)) as [| |j q]; [left; exact Hw..|]. right. exists j, Started. split; [done|by left].
  - destruct Hp as [[-> ->]|[-> Hp]]; cbn [turn]; rewrite Hw.
    + destruct (quiet_run _ _ HQ k w HP) as (r & e & w' & -> & _). right. exists k, (Ran r e). split; [done|].
      right. by split.
    + destruct p as [|r e]; [done|]. left. unfold finish. cbn.
      destruct (handler_shape (clock w) k r e rt _ eq_refl) as (-> & _). by rewrite Hw.
Qed.

(** Each kind of step has a turn at which it is taken or not possible. *)
Lemma turn_taken l :
  l ≠ Others → ∃ slot, slot < 7 ∧ ∀ s, shape slot s → (turn slot s).1 = l ∨ ¬ enabled l s.
Proof.
  intros Hl. assert (∀ s : S', shape 0 s → workers s = []) as Hnone.
  { intros s [?|(k & p & _ & [[? _]|[? _]])]; done. }
  destruct l as [| | | | |k|k]; [done|exists 0|exists 1|exists 2|exists 3|exists 0|exists 0]; (split; [lia|]);
    intros [rt w] Hsh; cbn [turn].
  - destruct (rt_watch rt) eqn:Hw; [right|by left]. intros [s' H]. inversion H; subst. congruence.
  - destruct (receive _ _) eqn:Hr; [by left|right]. intros [s' H]. inversion H; subst. congruence.
  - destruct (first_due _ _) eqn:Hr; [by left|right]. intros [s' H]. inversion H; subst. by eapply first_due_none.
  - destruct (Get _) eqn:Hg; [right..|by left]; intros [s' H]; inversion H; subst; congruence.
  - right. intros [s' H]. inversion H; subst. apply Hnone in Hsh. cbn in Hsh. by rewrite Hsh in *.
  - right. intros [s' H]. inversion H; subst. apply Hnone in Hsh. cbn in Hsh. by rewrite Hsh in *.
Qed.

Fixpoint taking_turns (s : S') (n : nat) : S' :=
  match n with 0 => s | S n => (turn (n mod 7) (taking_turns s n)).2 end.
Definition turn_labels (s : S') (n : nat) : label := (turn (n mod 7) (taking_turns s n)).1.

Context (s : S') (Hs : P (env s)) (Hidle : workers s = []).

Lemma turns_kept n : P (env (taking_turns s n)) ∧ shape (n mod 7) (taking_turns s n).
Proof.
  induction n as [|n [HP Hsh]]; cbn [taking_turns]; [split; [done|by left]|].
  split; [by apply turn_quiet|]. rewrite <- Nat.add_1_r, <- Nat.Div0.add_mod_idemp_l, Nat.add_1_r.
  apply turn_shape; [by apply Nat.mod_upper_bound|done|done].
Qed.
Lemma turns_clock n m : n ≤ m → (clock (env (taking_turns s n)) ≤ clock (env (taking_turns s m)))%Z.
Proof.
  induction 1 as [|m _ IH]; [lia|]. cbn [taking_turns].
  destruct (turn_quiet (m mod 7) (taking_turns s m)) as (_ & Hle & _); [apply turns_kept|lia].
Qed.
Lemma slot_at n c : c < 7 → (n * 7 + c) mod 7 = c.
Proof. intros Hc. rewrite Nat.add_comm, Nat.Div0.mod_add. by apply Nat.mod_small. Qed.
Lemma turns_pass n : (clock (env s) + Z.of_nat n ≤ clock (env (taking_turns s (n * 7))))%Z.
Proof.
  induction n as [|n IH]; [cbn; lia|].
  destruct (turn_quiet 6 (taking_turns s (n * 7 + 6))) as (_ & _ & Hlt); [apply turns_kept|]. specialize (Hlt eq_refl).
  pose proof (turns_clock (n * 7) (n * 7 + 6)) as Hle. replace (S n * 7) with (S (n * 7 + 6)) by lia.
  cbn [taking_turns]. rewrite slot_at by lia. lia.
Qed.

(** Taking turns from a state in which no worker is busy is a fair run, in which
    the property holds throughout. *)
Lemma turns_fair : fair (taking_turns s) (turn_labels s) ∧ ∀ n, P (env (taking_turns s n)).
Proof.
  split; [|intros n; apply turns_kept]. split.
  - intros n. cbn [taking_turns]. apply turn_does; apply turns_kept.
  - intros l n Hl. destruct (turn_taken l Hl) as (c & Hc & Htaken). exists (n * 7 + c). split; [lia|].
    unfold turn_labels. rewrite slot_at by done. apply Htaken. rewrite <- (slot_at n c Hc) at 1. apply turns_kept.
  - intros n k _. destruct (quiet_run _ _ HQ k (env (taking_turns s n))) as (r & e & w' & -> & _); [apply turns_kept|done].
  - intros T. set (n := Z.to_nat (T - clock (env s))). exists (n * 7). intros m Hm.
    pose proof (turns_pass n). pose proof (turns_clock (n * 7) m Hm). lia.
Qed.
End turns.
End fair.
