(* ===== verification/Registration.v ===== *)
(** * The registrations of the controllers

    Each [Register] method says which objects a controller watches, which of
    their events it heeds, what requests it makes of them, how many workers it
    has and how it backs off.  Here a registration is a value, and the requests
    an event leads to are computed from it, as controller-runtime's builder and
    event handlers do. *)

From stdpp Require Import relations.
From S2P Require Import Prelude Effects GoCache Labels Scheduling Options CloudTypes Apis Conditions.
From S2P Require Import KubeApi WorkQueue ControllerRuntime InstanceProvider Tagging Interruption.
From S2P Require Import NodeClassTermination NodeClassStatus SecurityGroupProvider VSwitchProvider ImageFamily.
From S2P Require Import CloudProvider Operator.
Import operator.

Module registration.

(** ** Events, predicates and sources *)

Inductive object :=
  | NodeClassObj (n : ECSNodeClass)
  | NodeClaimObj (c : NodeClaim)
  | NodeObj (n : Node).
Inductive kind := ECSNodeClassKind | NodeClaimKind | NodeKind.
#[export] Instance kind_eq_dec : EqDecision kind.
Proof. solve_decision. Defined.
Definition kind_of (o : object) : kind :=
  match o with NodeClassObj _ => ECSNodeClassKind | NodeClaimObj _ => NodeClaimKind | NodeObj _ => NodeKind end.
Definition GetName (o : object) : string :=
  match o with NodeClassObj n => nc_Name n | NodeClaimObj c => claim_Name c | NodeObj n => node_Name n end.
Definition GetLabels (o : object) : gmap string string :=
  match o with
  | NodeClassObj n => meta_Labels (nc_Meta n)
  | NodeClaimObj c => claim_Labels c
  | NodeObj n => meta_Labels (node_Meta n)
  end.

(** Both objects of an update have the kind and the name. *)
Inductive event :=
  | CreateEvent (o : object)
  | UpdateEvent (ObjectOld ObjectNew : object)
  | DeleteEvent (o : object).
Definition current (ev : event) : object :=
  match ev with CreateEvent o | UpdateEvent _ o | DeleteEvent o => o end.

(** [predicate.Funcs]; a function that is not given lets everything pass. *)
Definition predicate : Type := event → bool.
Definition everything_passes : predicate := λ _, true.
Definition NewPredicateFuncs (filter : object → bool) : predicate := λ ev, filter (current ev).

Inductive source :=
  | For (k : kind)
  | Watches (k : kind) (toRequests : object → list Request) (predicates : predicate)
  | Singleton.

Record Registration := MkRegistration {
  Named : string;
  sources : list source;
  eventFilter : predicate;
  MaxConcurrentReconciles : nat;
  baseDelay_ : Z;
  maxDelay_ : Z;
}.

(** The defaults of controller-runtime: one worker, the default rate limiter. *)
Definition NewControllerManagedBy (name : string) (srcs : list source) (filter : predicate) : Registration :=
  MkRegistration name srcs filter 1 (5 * Millisecond) (1000 * Second).
Definition WithOptions (workers : nat) (r : Registration) : Registration :=
  MkRegistration (Named r) (sources r) (eventFilter r) workers (100 * Millisecond) Minute.

(** The requests an event leads to: for the kind a controller is [For], the
    object's name (of the new object, after an update); for another kind it
    watches, those of its function, for the old and the new object. *)
Definition handle (r : Registration) (ev : event) (s : source) : list Request :=
  match s with
  | For k => if bool_decide (kind_of (current ev) = k) && eventFilter r ev then [GetName (current ev)] else []
  | Watches k toRequests predicates =>
      if bool_decide (kind_of (current ev) = k) && (eventFilter r ev && predicates ev)
      then match ev with
           | UpdateEvent old new => remove_dups (toRequests old ++ toRequests new)
           | _ => toRequests (current ev)
           end
      else []
  | Singleton => []
  end.
Definition requests (r : Registration) (ev : event) : list Request := mjoin (handle r ev <$> sources r).

(** The first requests: one for a singleton; else the watches list what exists,
    each object as created. *)
Definition first_requests (r : Registration) (existing : list object) : list Request :=
  mjoin ((λ s, match s with Singleton => [""] | _ => [] end) <$> sources r)
  ++ mjoin ((λ o, requests r (CreateEvent o)) <$> existing).

(** ** The Register methods *)

Definition hash_Register : Registration :=
  WithOptions 10 (NewControllerManagedBy "nodeclass.hash" [For ECSNodeClassKind] everything_passes).
Definition status_Register : Registration :=
  WithOptions 10 (NewControllerManagedBy "nodeclass.status" [For ECSNodeClassKind] everything_passes).

(** The NodeClass a NodeClaim refers to. *)
Definition claim_requests (o : object) : list Request :=
  match o with NodeClaimObj c => termination.requests_of c | _ => [] end.
Definition deletions : predicate := λ ev, match ev with DeleteEvent _ => true | _ => false end.
Definition termination_Register : Registration :=
  WithOptions 10 (NewControllerManagedBy "nodeclass.termination"
    [For ECSNodeClassKind; Watches NodeClaimKind claim_requests deletions] everything_passes).

Definition tagging_Register : Registration :=
  WithOptions 1 (NewControllerManagedBy "nodeclaim.tagging" [For NodeClaimKind]
    (NewPredicateFuncs (λ o, match o with NodeClaimObj c => tagging.isTaggable c | _ => false end))).
Definition interruption_Register : Registration :=
  NewControllerManagedBy "interruption" [For NodeKind] (NewPredicateFuncs (λ o, interruption.watched (GetLabels o))).
Definition telemetry_Register : Registration := NewControllerManagedBy "telemetry" [For NodeKind] everything_passes.
Definition garbagecollection_Register : Registration :=
  NewControllerManagedBy "instance.garbagecollection" [Singleton] everything_passes.
Definition unregisteredtaint_Register : Registration :=
  NewControllerManagedBy "node.unregisteredtaint" [Singleton] everything_passes.
Definition pricing_Register : Registration := NewControllerManagedBy "providers.pricing" [Singleton] everything_passes.
Definition instancetype_Register : Registration :=
  NewControllerManagedBy "providers.instancetype" [Singleton] everything_passes.

Definition Register (c : controller) : Registration :=
  match c with
  | HashController => hash_Register
  | StatusController => status_Register
  | TerminationController => termination_Register
  | PricingController => pricing_Register
  | GarbageCollectionController => garbagecollection_Register
  | UnregisteredTaintController => unregisteredtaint_Register
  | TaggingController => tagging_Register
  | InstanceTypeController => instancetype_Register
  | InterruptionController => interruption_Register
  | TelemetryController => telemetry_Register
  end.

(** ** Reconcilers of objects

    [reconcile.AsReconciler] reads the object a request names; one that is gone
    is not an error. *)
Definition AsReconciler {S A R} (get : Request → M S A) (gone : R) (rec : A → M S R) (req : Request) : M S R :=
  o ← attempt (get req);
  match o with
  | inl e => match IgnoreNotFound (Some e) with Some e' => fail e' | None => mret gone end
  | inr a => rec a
  end.

(** ** Events of a change *)

Definition change {A} `{EqDecision A} (mk : A → object) (old new : gmap string A) (k : string) : list event :=
  match old !! k, new !! k with
  | None, Some n => [CreateEvent (mk n)]
  | Some o, None => [DeleteEvent (mk o)]
  | Some o, Some n => if bool_decide (o = n) then [] else [UpdateEvent (mk o) (mk n)]
  | None, None => []
  end.
Definition changes {A} `{EqDecision A} (mk : A → object) (old new : gmap string A) : list event :=
  mjoin (change mk old new <$> elements (dom old ∪ dom new)).

Lemma elem_of_changes {A} `{EqDecision A} (mk : A → object) (old new : gmap string A) ev :
  ev ∈ changes mk old new ↔ ∃ k, ev ∈ change mk old new k.
Proof.
  unfold changes. rewrite list_elem_of_join. split.
  - intros (l & Hev & (k & -> & _)%list_elem_of_fmap). by exists k.
  - intros [k Hk]. exists (change mk old new k). split; [done|]. apply list_elem_of_fmap. exists k. split; [done|].
    apply elem_of_elements, elem_of_union. rewrite !elem_of_dom. unfold change in Hk.
    destruct (old !! k); [by left; eexists|]. destruct (new !! k); [by right; eexists|]. by apply elem_of_nil in Hk.
Qed.

(** A change of the object itself is an event whose current object is the new
    one, or the last one. *)
Lemma change_event {A} `{EqDecision A} (mk : A → object) (old new : gmap string A) k :
  old !! k ≠ new !! k →
  ∃ ev, ev ∈ changes mk old new ∧ ∃ a, current ev = mk a ∧ (new !! k = Some a ∨ old !! k = Some a).
Proof.
  intros Hne. assert (∃ ev, ev ∈ change mk old new k ∧ ∃ a, current ev = mk a ∧ (new !! k = Some a ∨ old !! k = Some a))
    as (ev & Hev & Ha).
  { unfold change. destruct (old !! k) as [o|], (new !! k) as [n|]; [|..].
    - rewrite bool_decide_false by congruence. eexists. split; [by left|]. exists n. by auto.
    - eexists. split; [by left|]. exists o. by auto.
    - eexists. split; [by left|]. exists n. by auto.
    - done. }
  exists ev. split; [|done]. apply elem_of_changes. by exists k.
Qed.

Lemma requests_For r ev k :
  For k ∈ sources r → kind_of (current ev) = k → eventFilter r ev = true → GetName (current ev) ∈ requests r ev.
Proof.
  intros Hs Hk Hf. unfold requests. apply list_elem_of_join. exists (handle r ev (For k)). split.
  - cbn. rewrite bool_decide_true by done. rewrite Hf. by left.
  - apply list_elem_of_fmap. by exists (For k).
Qed.
End registration.
