(* ===== verification/Manager.v ===== *)
(** * The controllers at work

    The reconcilers of the repository put into the runtime that runs them, with
    the requests their registrations ask for.  The periodic controllers and the
    status controller never stop; a NodeClass that is being deleted is never
    forgotten, and is released once nothing refers to it. *)

From stdpp Require Import relations.
From S2P Require Import Prelude Effects Floats GoCache UnavailableOfferings Labels Scheduling Options.
From S2P Require Import CloudTypes Apis Conditions Utils Version Pricing VSwitchProvider.
From S2P Require Import SecurityGroupProvider InstanceTypeCalc InstanceTypeProvider InstanceSelect.
From S2P Require Import InstanceProvider ImageFamily KubeApi CloudProvider Ack Staleness.
From S2P Require Import GarbageCollection Tagging UnregisteredTaint ProviderControllers NodeClassHash.
From S2P Require Import NodeClassTermination NodeClassStatus Operator WorkQueue ControllerRuntime FairRuns Registration.
Import operator registration.

Module manager.
#[local] Existing Instance instancetypes.pricing_provider_view.

(** The world of a controller: its own state, and the rest. *)
#[local] Instance provider_clock {P W} `{HasClock W} : HasClock (St P W) := λ s, clock (env s).

(** A reconciler as the runtime calls it. *)
Definition calling {S} (m : Request → M S (Result * option error)) (req : Request) (s : S) : outcome * S :=
  let '(r, s') := m req s in (as_outcome_both r, s').
Definition result_only {S} (m : M S Result) : M S (Result * option error) := r ← m; mret (r, None).

(** ** The periodic controllers *)

Section periodic.
Context {RT : GoRuntime} {W : Type} `{HC : !HasClock W}.
Context `{AA : !ack.AckApi W} `{MD : !ack.MetadataDecoder} `{ED : !imagefamily.EcsDisks W} `{WQ : !imagefamily.WorkQueue}.
Context `{EI : !instance.EcsInstances W} `{LL : !instance.LaunchLimiter W} `{EC : !instancetypes.EcsCatalogue W}.
Context `{PS : !PriceServer W} `{KR : !KubeReader W} `{ER : !EventRecorder W} `{NA : !NodeClaimApi W}.
Context `{ND : !NodeApi W} `{SL : !Sleeper W} `{TT : !instancetypes.TypeHashes} `{PO : !ParallelOrder}.
Context (opts : options.Options) (fuel : nat) (backoff : nat → Z).
Notation S' := (St System W).

(** The reconcilers of the four singletons, on the one operator. *)
Definition periodic (c : controller) : option (M S' Result) :=
  match c with
  | PricingController => Some (on_operator (part PricingProvider_ set_pricing pricing_controller.Reconcile))
  | InstanceTypeController => Some (on_cloud (cloudprovider.on_types (instancetype_controller.Reconcile fuel)))
  | GarbageCollectionController => Some (λ s,
      on_collector (garbagecollection.Reconcile
        (CP := cloudprovider_api (pct opts) (PricingProvider_ (sys_operator (prov s))) fuel)) s)
  | UnregisteredTaintController => Some (part (λ _, ()) (λ _ s, s) (unregisteredtaint.Reconcile backoff))
  | _ => None
  end.

Definition periodic_Reconcile (m : M S' Result) : Request → S' → outcome * S' := calling (λ _, result_only m).

Lemma refresh_returns {S} msg (work : list (M S ())) s r s' :
  refresh msg work s = (Ok r, s') → r = requeue_after (12 * Hour).
Proof.
  unfold refresh. intros (errs & s1 & _ & H)%M_bind_Ok. destruct (multierr_combine _); [discriminate H|].
  by injection H as <- _.
Qed.
Lemma part_Ok {P Q A} (getp : P → Q) (setp : Q → P → P) (m : M (St Q W) A) s a s' :
  part getp setp m s = (Ok a, s') → ∃ s1, m (MkSt (getp (prov s)) (env s)) = (Ok a, s1).
Proof. unfold part. destruct (m _) as [r s1]. intros [= -> _]. by exists s1. Qed.
Lemma on_collector_Ok {A} (m : M (St (garbagecollection.Controller cloudprovider.CloudProvider) (St Backends W)) A) s a s' :
  on_collector m s = (Ok a, s') → ∃ s0 s1, m s0 = (Ok a, s1).
Proof. unfold on_collector. destruct (m _) as [r s1] eqn:Hm. intros [= -> _]. by eauto. Qed.

(** A round that succeeds asks for the next one. *)
Lemma periodic_returns c m s r s' : periodic c = Some m → m s = (Ok r, s') → (0 < RequeueAfter r)%Z.
Proof.
  destruct c; try discriminate; intros [= <-] H.
  - apply part_Ok in H as [s1 H]. apply part_Ok in H as [s2 H]. by apply refresh_returns in H as ->.
  - apply on_collector_Ok in H as (s0 & s1 & H). unfold garbagecollection.Reconcile in H.
    apply M_bind_Ok in H as (? & ? & _ & H). apply M_bind_Ok in H as (? & ? & _ & H).
    apply M_bind_Ok in H as (? & ? & _ & H). apply M_bind_Ok in H as (? & ? & _ & H).
    destruct (multierr_combine _); [discriminate H|]. apply M_bind_Ok in H as (? & ? & _ & H).
    apply M_bind_Ok in H as (? & ? & _ & H). injection H as <- _. by case_match.
  - apply part_Ok in H as [s1 H]. unfold unregisteredtaint.Reconcile in H.
    apply M_bind_Ok in H as (? & ? & _ & H). apply M_bind_Ok in H as (? & ? & _ & H). by injection H as <- _.
  - apply on_collector_Ok in H as (s0 & s1 & H). unfold garbagecollection.on_provider in H.
    destruct (cloudprovider.on_types _ _) as [q s2] eqn:Ht in H. injection H as -> _.
    unfold cloudprovider.on_types in Ht. destruct (instancetype_controller.Reconcile _ _) as [q s3] eqn:Hr in Ht.
    injection Ht as -> _. by apply refresh_returns in Hr as ->.
Qed.

#[local] Instance periodic_tended c m : periodic c = Some m →
  Tended (periodic_Reconcile m) (λ _ _, []) (λ _ k, k = "").
Proof.
  intros Hm. split.
  - intros _ k. destruct (decide (k = "")); by auto.
  - done.
  - intros k s r e s' H _. left. unfold periodic_Reconcile, calling, result_only in H.
    destruct (_ ≫= _) as [q s1] eqn:Hb in H. destruct q as [[r0 e0]|e0|]; cbn in H; [injection H as <- <- <-|by injection H as <- <- _|done].
    apply M_bind_Ok in Hb as (r1 & s2 & Hr & Hret). injection Hret as <- <- _.
    apply (periodic_returns c m s r1 s2) in Hr; [|done]. cbn. apply Z.ltb_lt in Hr. by rewrite Hr.
Qed.

(** C10. The refresh of prices and of the catalogue, garbage collection and the
    removal of the unregistered taint never stop.  Whatever the rounds return,
    errors included, in every state of the running controller the next round is
    queued, delayed, or in work by its one worker; and in every run from there
    that is fair to its steps, in which time passes and no round panics, there is
    a round after every moment, whatever the others do meanwhile. *)
Theorem periodic_never_stops {B} `{TB : !TokenBucket B} c m limiter (s : St (Runtime B) S')
    (reg := Register c) (max := MaxConcurrentReconciles reg) :
  periodic c = Some m →
  running max (periodic_Reconcile m) (λ _ _, []) limiter (λ _, first_requests reg []) s →
  owed (prov s) "" ∧ length (rt_workers (prov s)) ≤ 1 ∧
  ∀ run lbl, fair max (periodic_Reconcile m) (λ _ _, []) run lbl → run 0 = s →
    ∀ n, ∃ j r e, n ≤ j ∧ lbl j = Runs "" ∧ periodic_Reconcile m "" (env (run j)) = (Some (r, e), env (run (S j))).
Proof.
  intros Hm Hr. pose proof (periodic_tended c m Hm) as Ht.
  assert (∀ s, running max (periodic_Reconcile m) (λ _ _, []) limiter (λ _, first_requests reg []) s →
    owed (prov s) "") as Howed.
  { intros s' Hr'. eapply (running_tended _ _ _ (λ _ k, k = "")); [|exact Hr'|done].
    intros _ k ->. subst reg. destruct c; try discriminate Hm; by left. }
  pose proof (running_exclusive _ _ _ _ _ _ Hr) as Hex.
  assert (max = 1) as H1 by (subst max reg; by destruct c).
  split_and!; [by apply Howed|pose proof (ex_bound _ _ Hex); lia|]. intros run lbl HF H0 n. rewrite <- H0 in *.
  destruct (owed_runs _ _ _ run lbl HF ltac:(lia) Hex n "") as (j & Hj & Hl); [by eapply Howed, run_running|].
  destruct (runs_round _ _ _ run lbl HF j "" Hl) as (r & e & Hround). by exists j, r, e.
Qed.
End periodic.

(** ** NodeClasses in the API server *)

(** The NodeClasses stored, and what is relied on of reads and of patches that
    change the finalizers: a read is current, a patch that is accepted leaves the
    finalizers it asks for, on the object if that is still there. *)
Class ClassStore (W : Type) `{KR : KubeReader W} `{NW : NodeClassWriter W} := {
  classes : W → gmap string ECSNodeClass;
  classes_named : ∀ w k n, classes w !! k = Some n → nc_Name n = k;
  get_keeps : ∀ k w r w', kube_NodeClass k w = (r, w') → classes w' = classes w;
  get_current : ∀ k w n w', kube_NodeClass k w = (Ok n, w') → classes w !! k = Some n;
  get_not_found : ∀ k w e w', kube_NodeClass k w = (Err e, w') → IsNotFound e = true → classes w !! k = None;
  class_patched : ∀ stored wanted w n' w', patch_NodeClass stored wanted w = (Ok n', w') →
    meta_Finalizers (nc_Meta stored) ≠ meta_Finalizers (nc_Meta wanted) →
    ∀ n, classes w' !! nc_Name stored = Some n → meta_Finalizers (nc_Meta n) = meta_Finalizers (nc_Meta wanted);
  class_patch_not_found : ∀ stored wanted w e w', patch_NodeClass stored wanted w = (Err e, w') →
    IsNotFound e = true → classes w' !! nc_Name stored = None;
}.

(** The requests of a controller for the changes of the NodeClasses. *)
Definition class_requests (reg : Registration) (old new : gmap string ECSNodeClass) : list Request :=
  mjoin (requests reg <$> changes NodeClassObj old new).
Lemma class_requests_changed reg old new k :
  For ECSNodeClassKind ∈ sources reg → (∀ ev, eventFilter reg ev = true) →
  (∀ m n, m = old ∨ m = new → m !! k = Some n → nc_Name n = k) →
  old !! k ≠ new !! k → k ∈ class_requests reg old new.
Proof.
  intros Hfor Hfilter Hname Hne. destruct (change_event NodeClassObj old new k Hne) as (ev & Hev & n & Hcur & Hn).
  unfold class_requests. apply list_elem_of_join. exists (requests reg ev). split; [|by apply list_elem_of_fmap_2].
  assert (nc_Name n = k) as <- by (destruct Hn as [Hn|Hn]; [apply (Hname new)|apply (Hname old)]; auto).
  change (nc_Name n) with (GetName (NodeClassObj n)). rewrite <- Hcur.
  apply (requests_For reg ev ECSNodeClassKind); [done|by rewrite Hcur|done].
Qed.

(** The first events ask for every NodeClass. *)
Lemma first_class {W} `{CL : ClassStore W} reg (w : W) k n :
  For ECSNodeClassKind ∈ sources reg → (∀ ev, eventFilter reg ev = true) → classes w !! k = Some n →
  k ∈ first_requests reg (NodeClassObj <$> (map_to_list (classes w)).*2).
Proof.
  intros Hfor Hfilter Hn. unfold first_requests. apply elem_of_app. right. apply list_elem_of_join.
  exists (requests reg (CreateEvent (NodeClassObj n))). split.
  - rewrite <- (classes_named _ _ _ Hn). change (nc_Name n) with (GetName (NodeClassObj n)).
    by apply (requests_For reg (CreateEvent (NodeClassObj n)) ECSNodeClassKind).
  - apply list_elem_of_fmap. exists (NodeClassObj n). split; [done|]. apply list_elem_of_fmap_2.
    apply list_elem_of_fmap. exists (k, n). split; [done|]. by apply elem_of_map_to_list.
Qed.

(** A read of a NodeClass that is reconciled, and the round after it. *)
Lemma AsReconciler_class {P W R} `{CL : ClassStore W} (gone : R) (rec : ECSNodeClass → M (St P W) R) k (s s' : St P W) q :
  AsReconciler (λ k, call (kube_NodeClass k)) gone rec k s = (q, s') →
  (∃ n s1, prov s1 = prov s ∧ kube_NodeClass k (env s) = (Ok n, env s1) ∧ classes (env s) !! k = Some n ∧ classes (env s1) = classes (env s) ∧ rec n s1 = (q, s')) ∨
  (classes (env s') !! k = None ∧ q = Ok gone) ∨ (∃ e, q = Err e) ∨ q = Panic.
Proof.
  unfold AsReconciler, mbind, M_bind, attempt. destruct (call _ s) as [g s1] eqn:Hg.
  apply call_prov in Hg as [Hp Hg]. pose proof (get_keeps _ _ _ _ Hg) as Hkeep.
  destruct g as [n|e|]; [|destruct (IgnoreNotFound (Some e)) as [e'|] eqn:Hi|]; intros H.
  - left. exists n, s1. split_and!; [done|done|by eapply get_current|done|done].
  - right. right. left. injection H as <- _. by exists e'.
  - right. left. injection H as <- <-. split; [|done]. rewrite Hkeep.
    eapply get_not_found; [exact Hg|]. cbn in Hi. by destruct (IsNotFound e).
  - right. right. right. by injection H as <- _.
Qed.

(** ** The status controller *)

Section status.
Context {RT : GoRuntime} {W : Type} `{HC : !HasClock W} `{NW : !NodeClassWriter W} `{KR : !KubeReader W} `{CL : !ClassStore W}.
Context `{VA : !vswitch.VpcApi W} `{TH : !vswitch.TermsHash}.
Context `{EG : !securitygroup.EcsGroups W} `{FH : !securitygroup.FiltersHash}.
Context `{IS : !imagefamily.ImageServices W} `{HI : !imagefamily.ImageHashes}.
Context `{DI : !version.Discovery W} `{VH : !version.VersionHash} (fuel : nat).
Notation S' := (St status.Controller W).

Definition status_Reconcile : Request → S' → outcome * S' :=
  calling (AsReconciler (λ k, call (kube_NodeClass k)) (no_requeue, None) (status.Reconcile fuel)).
Definition status_woken (s s' : S') : list Request :=
  class_requests status_Register (classes (env s)) (classes (env s')).

Lemma Result_Min_requeues r1 r2 r3 :
  (0 < RequeueAfter r1 < MaxInt64)%Z → Requeue (Result_Min [r1; r2; r3]) = true.
Proof.
  intros H1. unfold Result_Min. cbn [result_min_from].
  rewrite (bool_decide_false (r1 = no_requeue)) by (intros ->; simpl in H1; lia).
  rewrite (proj2 (Z.ltb_lt _ _)) by lia. by repeat case_match.
Qed.

Lemma vswitch_outcome_requeues t listed n n' r e :
  status.vswitch_outcome t listed n = Ok (n', r, e) → (0 < RequeueAfter r < MaxInt64)%Z.
Proof.
  unfold status.vswitch_outcome. destruct listed as [e'|[|v l]]; [by intros [= _ <- _]..|].
  destruct (rmapM _ _); [|done..]. by intros [= _ <- _].
Qed.

(** Each round of the status controller asks for another. *)
Lemma status_retries n (s s' : S') r e : status.Reconcile fuel n s = (Ok (r, e), s') → retries r e = true.
Proof.
  unfold status.Reconcile. intros (f & s1 & Hf & H)%M_bind_Ok. destruct f as [[r0 e0]|stored].
  - injection H as <- <- _. unfold status.ensure_finalizer in Hf. case_bool_decide; [discriminate Hf|].
    apply M_bind_Ok in Hf as (p & s2 & _ & Hf). destruct p as [e1|]; [|discriminate Hf].
    destruct (IsConflict e1); by injection Hf as <- <- _.
  - apply M_bind_Ok in H as ([[n1 res] errs] & s2 & Hres & H).
    assert (Requeue res = true) as Hreq.
    { unfold status.resolve_status in Hres. apply M_bind_Ok in Hres as (t & s3 & _ & Hres).
      apply M_bind_Ok in Hres as ([[n2 r1] e1] & s4 & Hv & Hres).
      apply M_bind_Ok in Hres as ([[n3 r2] e2] & s5 & _ & Hres).
      apply M_bind_Ok in Hres as ([[n4 r3] e3] & s6 & _ & Hres). injection Hres as _ <- _ _.
      apply Result_Min_requeues. unfold status.VSwitch_Reconcile in Hv. apply M_bind_Ok in Hv as (l & s7 & _ & Hv).
      apply M_bind_Ok in Hv as (t' & s8 & _ & Hv). injection Hv as Hv _. by eapply vswitch_outcome_requeues. }
    assert (∀ e0, retries res e0 = true) as Hret by (intros [e0|]; cbn; [done|by rewrite Hreq, orb_true_r]).
    case_bool_decide; [injection H as <- <- _; apply Hret|]. apply M_bind_Ok in H as (p & s3 & _ & H).
    destruct p as [e1|]; [|injection H as <- <- _; apply Hret].
    destruct (IsConflict e1); injection H as <- <- _; [done|apply Hret].
Qed.

#[local] Instance status_tended : Tended status_Reconcile status_woken (λ s k, is_Some (classes (env s) !! k)).
Proof.
  split.
  - intros s k. destruct (classes (env s) !! k); [by left; eexists|right; by intros []].
  - intros s s' k Hn Ho. apply class_requests_changed; [by left|done| |].
    + intros m n [->| ->]; apply classes_named.
    + intros He. apply Ho. by rewrite He.
  - intros k s r e s' H [n Hn]. left. unfold status_Reconcile, calling in H.
    destruct (AsReconciler _ _ _ _ _) as [q s1] eqn:Hq in H. injection H as Hout <-.
    apply AsReconciler_class in Hq as [(n0 & s2 & _ & _ & _ & _ & Hrec)|[[Hnone ->]|[[e0 ->]| ->]]].
    + destruct q as [[r0 e0]|e0|]; cbn in Hout; [|by injection Hout as <- <-|done]. injection Hout as <- <-.
      by eapply status_retries.
    + by rewrite Hn in Hnone.
    + by injection Hout as <- <-.
    + done.
Qed.

(** C9. The status of every NodeClass is kept up: whatever was found, and
    whatever failed, in every state of the running controller each NodeClass
    that exists is owed another round by one of its ten workers, and no two of
    them are on the same NodeClass.  In every run from there that is fair to its
    steps, in which time passes and no round panics, whenever the NodeClass
    exists a round for it follows, whatever the others do meanwhile. *)
Theorem status_kept_up {B} `{TB : !TokenBucket B} limiter (s : St (Runtime B) S') k
    (max := MaxConcurrentReconciles status_Register)
    (first := λ w : S', first_requests status_Register (NodeClassObj <$> (map_to_list (classes (env w))).*2)) :
  running max status_Reconcile status_woken limiter first s → is_Some (classes (env (env s)) !! k) →
  owed (prov s) k ∧ NoDup (rt_workers (prov s)).*1 ∧ length (rt_workers (prov s)) ≤ 10 ∧
  ∀ run lbl, fair max status_Reconcile status_woken run lbl → run 0 = s →
    ∀ n, is_Some (classes (env (env (run n))) !! k) →
    ∃ j r e, n ≤ j ∧ lbl j = Runs k ∧ status_Reconcile k (env (run j)) = (Some (r, e), env (run (S j))).
Proof.
  intros Hr Hk. pose proof (running_exclusive _ _ _ _ _ _ Hr) as Hex.
  assert (∀ s, running max status_Reconcile status_woken limiter first s →
    is_Some (classes (env (env s)) !! k) → owed (prov s) k) as Howed.
  { intros s' Hr' Hk'. eapply (running_tended _ _ _ (λ (w : S') k, is_Some (classes (env w) !! k))); [|exact Hr'|exact Hk'].
    intros w j [n Hn]. eapply first_class; [by left|done|exact Hn]. }
  split_and!; [by apply Howed|by apply (ex_workers _ _ Hex)|exact (ex_bound _ _ Hex)|].
  intros run lbl HF H0 n Hn. rewrite <- H0 in *. assert (0 < max) as Hmax by (subst max; cbn; lia).
  destruct (owed_runs _ _ _ run lbl HF Hmax Hex n k) as (j & Hj & Hl); [by eapply Howed; [eapply run_running|]|].
  destruct (runs_round _ _ _ run lbl HF j k Hl) as (r & e & Hround). by exists j, r, e.
Qed.
End status.

(** ** The termination controller *)

Section termination.
Context {W : Type} `{HC : !HasClock W} `{NW : !NodeClassWriter W} `{KR : !KubeReader W} `{NA : !NodeClaimApi W}.
Context `{ER : !EventRecorder W} `{CL : !ClassStore W} `{CS : !ClaimStore W}.
Notation S' := (St () W).

(** NodeClaims and NodeClasses are apart: what is done with the one leaves the
    other alone. *)
Class StoresApart : Prop := {
  claims_list_classes : ∀ sel w r w', list_NodeClaims sel w = (r, w') → classes w' = classes w;
  publish_classes : ∀ evs w, classes (publish evs w) = classes w;
  get_claims : ∀ k w r w', kube_NodeClass k w = (r, w') → claims w' = claims w;
  patch_claims : ∀ a b w r w', patch_NodeClass a b w = (r, w') → claims w' = claims w;
  publish_keeps_claims : ∀ evs w, claims (publish evs w) = claims w;
}.
Context `{SA : !StoresApart}.

Definition termination_Reconcile : Request → S' → outcome * S' :=
  calling (λ k, result_only (AsReconciler (λ k, call (kube_NodeClass k)) no_requeue termination.Reconcile k)).
(** Changes of the NodeClasses and of the NodeClaims. *)
Definition termination_woken (s s' : S') : list Request :=
  class_requests termination_Register (classes (env s)) (classes (env s')) ++
  mjoin (requests termination_Register <$> changes NodeClaimObj (claims (env s)) (claims (env s'))).

(** A NodeClass that is being deleted and is kept by the finalizer. *)
Definition held_back (n : ECSNodeClass) : Prop :=
  is_Some (meta_DeletionTimestamp (nc_Meta n)) ∧ termination.ContainsFinalizer n TerminationFinalizer = true.
#[local] Instance held_back_dec n : Decision (held_back n).
Proof. unfold held_back. apply _. Defined.
Definition terminating (s : S') (k : Request) : Prop := ∃ n, classes (env s) !! k = Some n ∧ held_back n.
(** No NodeClaim refers to the NodeClass. *)
Definition unused (k : Request) (s : S') : Prop :=
  ∀ name c, claims (env s) !! name = Some c → refers_to k c = false.

Lemma held_back_released n :
  held_back n → meta_Finalizers (nc_Meta n) ≠ meta_Finalizers (nc_Meta (termination.RemoveFinalizer n TerminationFinalizer)) ∧
  termination.ContainsFinalizer (termination.RemoveFinalizer n TerminationFinalizer) TerminationFinalizer = false.
Proof.
  intros [_ Hf]. destruct (termination.RemoveFinalizer_spec n _ Hf) as (_ & Hout & _). split; [|done].
  intros He. unfold termination.ContainsFinalizer in *. rewrite <- He in Hout. congruence.
Qed.

(** A round on a NodeClass that stays held back comes back. *)
Lemma termination_retries n (s s1 s' : S') r :
  classes (env s) !! nc_Name n = Some n → classes (env s1) = classes (env s) →
  termination.Reconcile n s1 = (Ok r, s') → terminating s' (nc_Name n) → retries r None = true.
Proof.
  intros Hn Hsame H (n' & Hn' & Hback). destruct (decide (held_back n)) as [Hb|Hb].
  - destruct s1 as [p w]. destruct Hb as [[t Ht] Hf].
    destruct (list_NodeClaims (Some (nc_Name n)) w) as [q w1] eqn:Hl.
    rewrite (termination.Reconcile_run n t p w w1 q Ht Hf Hl) in H. destruct q as [l|e|]; [|discriminate H..].
    destruct l as [|c l]; cbn [termination.release] in H.
    + destruct (held_back_released n) as [Hne Hout]; [by split; [exists t|]|].
      rewrite bool_decide_false in H by (intros He; apply Hne; by rewrite <- He).
      apply M_bind_Ok in H as (p1 & s2 & Hp & H). unfold attempt in Hp.
      destruct (call _ _) as [pr s3] eqn:Hc in Hp. apply call_prov in Hc as [_ Hc]. cbn [env] in Hc.
      destruct pr as [n2|e|]; [|..|done]; injection Hp as <- <-.
      * injection H as <- <-. pose proof (class_patched _ _ _ _ _ Hc Hne n' Hn') as He.
        destruct Hback as [_ Hf']. unfold termination.ContainsFinalizer in *. rewrite He in Hf'. congruence.
      * destruct (IsConflict e); [by injection H as <- _|]. destruct (IgnoreNotFound _) as [e'|] eqn:Hi; [discriminate H|].
        injection H as _ <-. cbn [IgnoreNotFound] in Hi. rewrite IsNotFound_wrap in Hi.
        destruct (IsNotFound e) eqn:Hnf; [|discriminate Hi].
        by rewrite (class_patch_not_found _ _ _ _ _ Hc Hnf) in Hn'.
    + apply M_bind_Ok in H as (? & ? & _ & H). by injection H as <- _.
  - rewrite termination.Reconcile_ignores in H.
    + injection H as _ <-. rewrite Hsame, Hn in Hn'. by simplify_eq.
    + unfold held_back in Hb. destruct (meta_DeletionTimestamp (nc_Meta n)); [right|by left].
      destruct (termination.ContainsFinalizer _ _) eqn:Hf; [|done]. by destruct Hb.
Qed.

#[local] Instance termination_tended : Tended termination_Reconcile termination_woken terminating.
Proof.
  split.
  - intros s k. unfold terminating. destruct (classes (env s) !! k) as [n|]; [|right; naive_solver].
    destruct (decide (held_back n)); [left; by exists n|right; naive_solver].
  - intros s s' k (n & Hn & Hb) Ho. apply elem_of_app. left. apply class_requests_changed; [by left|done| |].
    + intros m n' [->| ->]; apply classes_named.
    + intros He. apply Ho. exists n. by rewrite He.
  - intros k s r e s' H Hn. left. unfold termination_Reconcile, calling, result_only in H.
    destruct (_ ≫= _) as [q s1] eqn:Hb in H. injection H as Hout <-.
    unfold mbind, M_bind in Hb. destruct (AsReconciler _ _ _ _ _) as [q0 s2] eqn:Hq in Hb.
    apply AsReconciler_class in Hq as [(n0 & s3 & _ & _ & Hn0 & Hsame & Hrec)|[[Hnone ->]|[[e0 ->]| ->]]].
    + destruct q0 as [r0|e0|]; injection Hb as <- <-; cbn in Hout; [|by injection Hout as <- <-|done].
      injection Hout as <- <-. pose proof (classes_named _ _ _ Hn0) as <-. by eapply termination_retries.
    + injection Hb as <- <-. destruct Hn as (n & Hn & _). by rewrite Hn in Hnone.
    + injection Hb as <- <-. by injection Hout as <- <-.
    + by injection Hb as <- <-.
Qed.

(** A server that answers: what exists is read, lists are returned, a patch of
    the object as it is is accepted. *)
Class Responsive : Prop := {
  answers_get : ∀ k w, (∃ n, (kube_NodeClass k w).1 = Ok n) ∨
    classes w !! k = None ∧ ∃ e, (kube_NodeClass k w).1 = Err e;
  answers_list : ∀ sel w, ∃ l, (list_NodeClaims sel w).1 = Ok l;
  answers_patch : ∀ stored wanted w, classes w !! nc_Name stored = Some stored →
    ∃ n, (patch_NodeClass stored wanted w).1 = Ok n;
}.
Context `{RS : !Responsive}.

(** What a round does to a NodeClass as it is stored. *)
Lemma termination_round n (s : S') :
  classes (env s) !! nc_Name n = Some n →
  ∃ r s', termination.Reconcile n s = (Ok r, s') ∧ claims (env s') = claims (env s) ∧
    (unused (nc_Name n) s → ¬ terminating s' (nc_Name n)).
Proof.
  intros Hn. destruct (decide (held_back n)) as [Hb|Hb].
  2:{ exists no_requeue, s. rewrite termination.Reconcile_ignores.
      - split_and!; [done|done|]. intros _ (n' & Hn' & Hback). by simplify_eq.
      - unfold held_back in Hb. destruct (meta_DeletionTimestamp (nc_Meta n)); [right|by left].
        destruct (termination.ContainsFinalizer _ _) eqn:Hf; [|done]. by destruct Hb. }
  destruct s as [p w]. cbn [env] in *. pose proof Hb as [[t Ht] Hf].
  destruct (list_NodeClaims (Some (nc_Name n)) w) as [q w1] eqn:Hl.
  destruct (answers_list (Some (nc_Name n)) w) as [l Hok]. rewrite Hl in Hok. cbn in Hok. subst q.
  rewrite (termination.Reconcile_run n t p w w1 _ Ht Hf Hl).
  pose proof (KubeApi.list_keeps _ _ _ _ Hl) as Hcl. pose proof (claims_list_classes _ _ _ _ Hl) as Hcc.
  destruct l as [|c l]; cbn [termination.release].
  - destruct (held_back_released n Hb) as [Hne Hout].
    rewrite bool_decide_false by (intros He; apply Hne; by rewrite <- He).
    set (n1 := termination.RemoveFinalizer n TerminationFinalizer) in *.
    destruct (answers_patch n n1 w1) as [n2 Hp]; [by rewrite Hcc|].
    destruct (patch_NodeClass n n1 w1) as [pr w2] eqn:Hpatch. cbn in Hp. subst pr.
    exists no_requeue, (MkSt p w2). unfold mbind, M_bind, attempt. rewrite (call_run _ p w1 _ w2 Hpatch).
    split_and!; [done|cbn; by rewrite (patch_claims _ _ _ _ _ Hpatch)|].
    intros _ (n' & Hn' & [_ Hf']). pose proof (class_patched _ _ _ _ _ Hpatch Hne n' Hn') as He.
    unfold termination.ContainsFinalizer in *. rewrite He in Hf'. congruence.
  - eexists _, _. split; [reflexivity|]. cbn [env]. split; [by rewrite publish_keeps_claims|].
    intros Hun _. destruct (list_complete _ _ _ _ Hl) as [_ Hin].
    destruct (proj1 (Hin c)) as [Hc Href]; [by left|]. cbn in Href. by rewrite (Hun _ _ Hc) in Href.
Qed.

(** A round for any request ends, leaves the NodeClaims alone, and releases the
    NodeClass if nothing uses it. *)
Lemma termination_round_of k (s : S') :
  ∃ r e s', termination_Reconcile k s = (Some (r, e), s') ∧ claims (env s') = claims (env s) ∧
    (unused k s → ¬ terminating s' k).
Proof.
  unfold termination_Reconcile, calling, result_only, mbind, M_bind, AsReconciler, attempt.
  destruct s as [p w]. destruct (kube_NodeClass k w) as [g w1] eqn:Hg.
  pose proof (get_claims _ _ _ _ Hg) as Hc. pose proof (get_keeps _ _ _ _ Hg) as Hk.
  unfold mbind, M_bind. rewrite (call_run _ p w g w1 Hg).
  destruct (answers_get k w) as [[n Hok]|[Hnone [e He]]]; rewrite Hg in *; cbn in *; subst g.
  - pose proof (get_current _ _ _ _ Hg) as Hn. pose proof (classes_named _ _ _ Hn) as Hname.
    destruct (termination_round n (MkSt p w1)) as (r & s' & Hr & Hcl & Hrel); [cbn; by rewrite Hk, Hname|].
    rewrite Hr. exists r, None, s'. split_and!; [done|cbn in Hcl; by rewrite Hcl|]. rewrite <- Hname. intros Hun.
    apply Hrel. intros name c Hnc. cbn in Hnc. rewrite Hc in Hnc. by eapply Hun.
  - destruct (IsNotFound e); eexists _, _, _; (split; [reflexivity|]); cbn; (split; [done|]);
      intros _ (n & Hn & _); cbn in Hn; by rewrite Hk, Hnone in Hn.
Qed.

(** C8. A NodeClass that is being deleted is never forgotten: whatever
    happened, in every state of the running controller it is owed a round.  And
    it is released, given a server that answers: in every run from there that is
    fair to the steps of the controller, in which time passes and no round panics,
    if it is held back and from then on no NodeClaim refers to it, a round for it
    follows, and that round takes its finalizer away if it is still there. *)
Theorem terminating_released {B} `{TB : !TokenBucket B} limiter (s : St (Runtime B) S') k
    (max := MaxConcurrentReconciles termination_Register)
    (first := λ w : S', first_requests termination_Register (NodeClassObj <$> (map_to_list (classes (env w))).*2)) :
  running max termination_Reconcile termination_woken limiter first s → terminating (env s) k →
  owed (prov s) k ∧
  ∀ run lbl, fair max termination_Reconcile termination_woken run lbl → run 0 = s →
    ∀ n, terminating (env (run n)) k → (∀ j, n ≤ j → unused k (env (run j))) →
    ∃ j r e, n ≤ j ∧ lbl j = Runs k ∧
      termination_Reconcile k (env (run j)) = (Some (r, e), env (run (S j))) ∧ ¬ terminating (env (run (S j))) k.
Proof.
  intros Hr Hk. pose proof (running_exclusive _ _ _ _ _ _ Hr) as Hex.
  assert (∀ s, running max termination_Reconcile termination_woken limiter first s →
    terminating (env s) k → owed (prov s) k) as Howed.
  { intros s' Hr' Hk'. eapply (running_tended _ _ _ terminating); [|exact Hr'|exact Hk'].
    intros w j (n & Hn & _). eapply first_class; [by left|done|exact Hn]. }
  split; [by apply Howed|]. intros run lbl HF H0 n Hn Hun. rewrite <- H0 in *.
  assert (0 < max) as Hmax by (subst max; cbn; lia).
  destruct (owed_runs _ _ _ run lbl HF Hmax Hex n k) as (j & Hj & Hl); [by eapply Howed; [eapply run_running|]|].
  destruct (runs_round _ _ _ run lbl HF j k Hl) as (r & e & Hround). exists j, r, e. split_and!; [done..|].
  destruct (termination_round_of k (env (run j))) as (r' & e' & s' & Hrun & _ & Hrel).
  rewrite Hround in Hrun. injection Hrun as _ _ ->. by apply Hrel, Hun.
Qed.
End termination.

(** ** cmd/controller/main.go

    The operator, the cloud provider on its providers, and all controllers
    registered with one manager: karpenter's, which are given the cloud provider,
    then those of the repository. *)

Record Program := MkProgram {
  pg_operator : Operator;
  pg_cloudProvider : cloudprovider.CloudProvider;
  pg_controllers : list Registration;
}.
Definition main (opts : options.Options) (prices : gmap string (gmap string price)) (clients : Clients)
    (corecontrollers : cloudprovider.CloudProvider → list Registration) : result Program :=
  op ← NewOperator opts prices clients;
  let aliCloudProvider := cloud_view op in
  Ok (MkProgram op aliCloudProvider (corecontrollers aliCloudProvider ++ (Register <$> NewControllers opts))).

(** Every controller is there once: the two that are optional by their options,
    the others always; and no two are registered under the same name. *)
Lemma main_registers opts prices clients core p :
  main opts prices clients core = Ok p →
  pg_controllers p = core (cloud_view (pg_operator p)) ++ (Register <$> NewControllers opts) ∧
  NoDup (Named <$> (Register <$> NewControllers opts)) ∧
  ∀ c, c ∈ NewControllers opts ↔
    match c with
    | InterruptionController => options.Interruption opts = true
    | TelemetryController => options.TelemetryShare opts = true
    | _ => True
    end.
Proof.
  unfold main. destruct (NewOperator _ _ _) as [op| |]; [|done..]. intros [= <-]. split; [done|].
  unfold NewControllers. destruct (options.Interruption opts), (options.TelemetryShare opts); cbn;
    (split; [apply (bool_decide_unpack _); vm_compute; exact I|]); intros []; set_solver.
Qed.
End manager.
