(* ===== verification/ManagerExample.v ===== *)
(** * The controllers at work on a small cluster

    A cluster of NodeClasses and NodeClaims in one API server, and controllers
    run by schedules: the termination controller waits for the last NodeClaim and
    lets its NodeClass go, the status controller sits out an outage of the cloud
    services, and the unregistered-taint controller takes turn after turn. *)

From stdpp Require Import relations.
From S2P Require Import Prelude Effects Floats GoCache UnavailableOfferings Labels Scheduling Options.
From S2P Require Import CloudTypes Apis Conditions Utils Version Pricing VSwitchProvider.
From S2P Require Import SecurityGroupProvider InstanceTypeCalc InstanceTypeProvider InstanceSelect.
From S2P Require Import InstanceProvider ImageFamily KubeApi CloudProvider Ack Staleness.
From S2P Require Import GarbageCollection Tagging UnregisteredTaint ProviderControllers NodeClassHash.
From S2P Require Import NodeClassTermination NodeClassStatus Operator OperatorExample.
From S2P Require Import WorkQueue ControllerRuntime FairRuns Registration Manager.
Import operator registration manager ApiServer.

Module ManagerExample.
#[local] Existing Instance instancetypes.pricing_provider_view.
#[local] Existing Instance manager.provider_clock.

(** No limit on all retries together. *)
#[local] Program Instance no_bucket : TokenBucket () := {| reserve := λ _ b, (0%Z, b) |}.
Next Obligation. done. Qed.
Definition limiter : RateLimiter () := DefaultControllerRateLimiter ().

(** ** A cluster *)

Record cluster := MkCluster { c_server : server; c_classes : gmap string ECSNodeClass }.
Definition own_name (m : gmap string ECSNodeClass) : gmap string ECSNodeClass :=
  filter (λ kn, nc_Name kn.2 = kn.1) m.
Definition on_server {A} (m : server → A * server) (c : cluster) : A * cluster :=
  let '(a, sv) := m (c_server c) in (a, MkCluster sv (c_classes c)).
Definition set_classes (m : gmap string ECSNodeClass) (c : cluster) : cluster := MkCluster (c_server c) m.
(** An object that is being deleted goes with its last finalizer. *)
Definition store (k : string) (n : ECSNodeClass) (m : gmap string ECSNodeClass) : gmap string ECSNodeClass :=
  match meta_DeletionTimestamp (nc_Meta n), meta_Finalizers (nc_Meta n) with
  | Some _, [] => delete k m
  | _, _ => <[k := n]> m
  end.

#[local] Instance cluster_clock : HasClock cluster := λ c, sv_time (c_server c).
#[local] Instance cluster_events : EventRecorder cluster := λ evs c, MkCluster (publish evs (c_server c)) (c_classes c).
#[local] Instance cluster_claims : NodeClaimApi cluster := {|
  list_NodeClaims := λ sel, on_server (list_claims sel);
  patch_NodeClaim := λ a b, on_server (patch_claim a b);
  delete_NodeClaim := λ a, on_server (delete_claim a);
|}.
Definition read_class (k : string) (c : cluster) : result ECSNodeClass * cluster :=
  match own_name (c_classes c) !! k with Some n => (Ok n, c) | None => (not_found k, c) end.
#[local] Instance cluster_reader : KubeReader cluster := {|
  kube_NodePool := λ k c, (not_found k, c);
  kube_NodeClass := read_class;
|}.
Definition write_class (stored : ECSNodeClass) (f : ECSNodeClass → ECSNodeClass) (c : cluster) : result ECSNodeClass * cluster :=
  match own_name (c_classes c) !! nc_Name stored with
  | Some n => (Ok (f n), set_classes (store (nc_Name stored) (f n) (own_name (c_classes c))) c)
  | None => (not_found (nc_Name stored), c)
  end.
#[local] Instance cluster_writer : NodeClassWriter cluster := {|
  patch_NodeClass := λ stored wanted, write_class stored (nc_set_Finalizers (meta_Finalizers (nc_Meta wanted)));
  patch_NodeClassStatus := λ stored wanted, write_class stored (λ n, MkNodeClass (nc_Meta n) (nc_Spec n) (nc_Status wanted));
|}.

Lemma own_name_Some m k n : own_name m !! k = Some n ↔ m !! k = Some n ∧ nc_Name n = k.
Proof. unfold own_name. by rewrite map_lookup_filter_Some. Qed.
Lemma own_name_store m k n j n' :
  nc_Name n = k → own_name (store k n (own_name m)) !! j = Some n' →
  (j = k ∧ n' = n) ∨ (j ≠ k ∧ own_name m !! j = Some n').
Proof.
  intros Hn [H _]%own_name_Some. unfold store in H.
  assert (store k n (own_name m) !! j = Some n') as H' by exact H. clear H.
  unfold store in H'. destruct (decide (j = k)) as [->|Hne].
  - left. split; [done|]. repeat case_match; try (by rewrite lookup_insert_eq in H'; simplify_eq).
    by rewrite lookup_delete_eq in H'.
  - right. split; [done|]. repeat case_match; first [by rewrite lookup_insert_ne in H'|by rewrite lookup_delete_ne in H'].
Qed.

#[local] Program Instance cluster_store : ClaimStore cluster := {| claims := λ c, claims (c_server c) |}.
Next Obligation. intros c. exact (claims_named (c_server c)). Qed.
Next Obligation. intros sel [sv m] r c' H. by injection H as _ <-. Qed.
Next Obligation. intros sel [sv m] l c' H. injection H as Hl <-. eapply (list_complete sel sv). by rewrite <- Hl. Qed.
Next Obligation.
  intros a b [sv m] c' w' H Ha. cbn in H. unfold on_server in H. cbn in H.
  destruct (patch_claim a b sv) as [r sv'] eqn:Hp in H. injection H as -> <-. by eapply (patch_writes a b sv).
Qed.
Next Obligation.
  intros a b [sv m] r w' H Ha. cbn in H. unfold on_server in H. cbn in H.
  destruct (patch_claim a b sv) as [q sv'] eqn:Hp in H. injection H as -> <-. by eapply (patch_fails a b sv).
Qed.
Next Obligation.
  intros a b [sv m] e w' H. cbn in H. unfold on_server in H. cbn in H.
  destruct (patch_claim a b sv) as [q sv'] eqn:Hp in H. injection H as -> <-. by eapply (patch_not_found a b sv).
Qed.
Next Obligation.
  intros a [sv m] w' H. cbn in H. unfold on_server in H. cbn in H.
  destruct (delete_claim a sv) as [q sv'] eqn:Hp in H. injection H as -> <-. by eapply (delete_marks a sv).
Qed.
Next Obligation.
  intros a [sv m] r w' H. cbn in H. unfold on_server in H. cbn in H.
  destruct (delete_claim a sv) as [q sv'] eqn:Hp in H. injection H as -> <-. by eapply (delete_fails a sv).
Qed.
Next Obligation.
  intros a [sv m] e w' H. cbn in H. unfold on_server in H. cbn in H.
  destruct (delete_claim a sv) as [q sv'] eqn:Hp in H. injection H as -> <-. by eapply (delete_not_found a sv).
Qed.

#[local] Program Instance cluster_class_store : ClassStore cluster := {| classes := λ c, own_name (c_classes c) |}.
Next Obligation. by intros c k n [_ H]%own_name_Some. Qed.
Next Obligation. intros k c r c' H. cbn in H. unfold read_class in H. by destruct (own_name (c_classes c) !! k); injection H as _ <-. Qed.
Next Obligation.
  intros k c n c' H. cbn in H |- *. unfold read_class in H.
  destruct (own_name (c_classes c) !! k); [by injection H as -> _|discriminate H].
Qed.
Next Obligation.
  intros k c e c' H _. cbn in H |- *. unfold read_class in H. by destruct (own_name (c_classes c) !! k).
Qed.
Next Obligation.
  intros a b c n' c' H _ n Hn. cbn in H. unfold write_class in H.
  destruct (own_name (c_classes c) !! nc_Name a) as [n0|] eqn:H0 in H; [|discriminate H]. injection H as <- <-.
  cbn in Hn. apply own_name_Some in H0 as [_ H0]. apply own_name_store in Hn as [[_ ->]|[Hne _]]; [done|done|done].
Qed.
Next Obligation.
  intros a b c e c' H _. cbn in H. unfold write_class in H.
  destruct (own_name (c_classes c) !! nc_Name a) as [n0|] eqn:H0 in H; [discriminate H|]. by injection H as _ <-.
Qed.

#[local] Instance cluster_apart : StoresApart.
Proof.
  split.
  - intros sel [sv m] r c' H. by injection H as _ <-.
  - done.
  - intros k c r c' H. cbn in H. unfold read_class in H. by destruct (own_name (c_classes c) !! k); injection H as _ <-.
  - intros a b c r c' H. cbn in H. unfold write_class in H. by destruct (own_name (c_classes c) !! _); injection H as _ <-.
  - done.
Qed.

(** A nanosecond passes. *)
Definition tick (c : cluster) : cluster :=
  MkCluster (MkServer (sv_time (c_server c) + 1) (sv_claims (c_server c)) (sv_nodes (c_server c)) (sv_events (c_server c)))
    (c_classes c).
Definition ticking {P} (s : St P cluster) : St P cluster := MkSt (prov s) (tick (env s)).
#[local] Instance cluster_responsive : Responsive.
Proof.
  split.
  - intros k c. cbn. unfold read_class. destruct (own_name (c_classes c) !! k); [left|right; split; [done|]]; by eexists.
  - intros sel c. by eexists.
  - intros a b c Ha. cbn. unfold write_class. cbn in Ha. rewrite Ha. by eexists.
Qed.

(** Nothing a controller does here takes time. *)
Definition same_time (c c' : cluster) : Prop := sv_time (c_server c') = sv_time (c_server c).
#[local] Instance same_time_preorder : PreOrder same_time.
Proof. split; [done|]. intros c1 c2 c3 H1 H2. unfold same_time in *. congruence. Qed.
Lemma write_class_time stored f c : same_time c (write_class stored f c).2.
Proof. unfold write_class. by destruct (own_name _ !! _). Qed.
Lemma termination_time k (s : St () cluster) : same_time (env s) (env (termination_Reconcile k s).2).
Proof.
  assert (respects (on_env same_time) (result_only (AsReconciler (λ k, call (kube_NodeClass k)) no_requeue termination.Reconcile k))) as H.
  { unfold result_only, AsReconciler, termination.Reconcile, termination.finalize, termination.release.
    respects_walk; apply on_env_call; intros c; first [apply write_class_time|cbn; unfold read_class; by destruct (own_name _ !! _)|done]. }
  specialize (H s). unfold termination_Reconcile, calling. by destruct (result_only _ s).
Qed.
Lemma unused_quiet k : quiet termination_Reconcile (unused k) ticking.
Proof.
  split.
  - intros j s Hun. destruct (termination_round_of j s) as (r & e & s' & Hr & Hc & _). exists r, e, s'.
    pose proof (termination_time j s) as Ht. rewrite Hr in Ht. split_and!; [done| |].
    2:{ unfold clock, provider_clock, clock, cluster_clock. unfold same_time in Ht. cbn in Ht. lia. }
    intros name c. rewrite Hc. apply Hun.
  - intros s Hun. split; [exact Hun|]. unfold clock, provider_clock, clock, cluster_clock. cbn. lia.
Qed.

(** ** A NodeClass in use is deleted *)

Definition used : cluster := MkCluster TerminationExample.used {["default" := TerminationExample.leaving]}.
Definition first (s : St () cluster) : list Request :=
  first_requests termination_Register (NodeClassObj <$> (map_to_list (classes (env s))).*2).
(** The first round finds the NodeClaim in the way and asks for another one in
    ten minutes; a minute later the NodeClaim goes. *)
Definition waits : option (St (Runtime ()) (St () cluster)) :=
  schedule (MaxConcurrentReconciles termination_Register) termination_Reconcile termination_woken
    [DeliverA; StartA; RunA 0; FinishA 0; ReceiveA;
     ElsewhereA (λ s, MkSt () (MkCluster (MkServer (sv_time (c_server (env s)) + Minute) ∅ ∅ []) (c_classes (env s))))]
    (MkSt (boot limiter (first (MkSt () used))) (MkSt () used)).
Definition freed : St (Runtime ()) (St () cluster) := default (MkSt (boot limiter []) (MkSt () used)) waits.

Example freed_example :
  waits = Some freed ∧ rt_watch (prov freed) = ["default"] ∧
  is_Some (waitingEntryByData (rt_delayed (prov freed)) !! "default").
Proof. split_and!; [vm_compute; reflexivity..|vm_compute; by eexists]. Qed.

(** Taking turns from there, the controller lets the NodeClass go. *)
Lemma terminating_released_witness :
  owed (prov freed) "default" ∧
  ∃ j, ¬ terminating (env (taking_turns termination_Reconcile termination_woken ticking freed j)) "default".
Proof.
  assert (running (MaxConcurrentReconciles termination_Register) termination_Reconcile termination_woken limiter first freed) as Hr.
  { exists (MkSt () used). eapply schedule_runs. exact (proj1 freed_example). }
  assert (terminating (env freed) "default") as Ht.
  { exists TerminationExample.leaving. split; [vm_compute; reflexivity|]. split; [by eexists|vm_compute; reflexivity]. }
  assert (unused "default" (env freed)) as Hu by (intros name c H; vm_compute in H; by destruct name).
  assert (rt_workers (prov freed) = []) as Hw by (vm_compute; reflexivity).
  assert (0 < MaxConcurrentReconciles termination_Register) as Hmax by (vm_compute; lia).
  destruct (turns_fair _ _ termination_woken _ _ (unused_quiet "default") Hmax freed Hu Hw) as [HF HP].
  destruct (terminating_released limiter freed "default" Hr Ht) as [Ho Hrel]. split; [exact Ho|].
  destruct (Hrel _ _ HF eq_refl 0 Ht (λ j _, HP j)) as (j & r & e & _ & _ & _ & Hgone). by exists (S j).
Defined.

(** ** An outage

    No cloud service answers.  The controllers keep what they have, and keep
    trying. *)

Definition down {A} (c : cluster) : result A * cluster := (Err (ErrorString "service unavailable"), c).
#[local] Instance down_vpc : vswitch.VpcApi cluster := λ _, down.
#[local] Instance down_groups : securitygroup.EcsGroups cluster := λ _ _, down.
#[local] Instance down_images : imagefamily.ImageServices cluster :=
  {| imagefamily.DescribeKubernetesVersionMetadata := λ _, down; imagefamily.DescribeImages := λ _, down |}.
#[local] Instance down_version : version.Discovery cluster := down.

Notation fresh := StatusExample.controller.
Lemma down_vswitches n c :
  ∃ r, r ≠ Panic ∧ vswitch.List_ n (MkSt VSwitchExample.fresh c) = (r, MkSt VSwitchExample.fresh c) ∧
    (r = Ok [] ∨ ∃ e, r = Err e).
Proof.
  unfold vswitch.List_. destruct (VSwitchSelectorTerms (nc_Spec n)) as [|t ts]; [by eexists (Ok []); eauto|].
  cbn. eexists (Err _). split_and!; [done|reflexivity|by eauto].
Qed.
Lemma down_security_groups n c :
  SecurityGroupSelectorTerms (nc_Spec n) ≠ [] →
  ∃ e, securitygroup.List_ 5 n (MkSt SecurityGroupExample.start c) = (Err e, MkSt SecurityGroupExample.start c).
Proof.
  intros Hn. unfold securitygroup.List_. destruct (SecurityGroupSelectorTerms (nc_Spec n)) as [|t ts]; [done|].
  eexists. reflexivity.
Qed.
Lemma down_image_list n c : ∃ e, imagefamily.List_ n (MkSt ImageExample.start c) = (Err e, MkSt ImageExample.start c).
Proof. eexists. reflexivity. Qed.

Lemma down_VSwitch_Reconcile n c :
  ∃ n' r e, status.VSwitch_Reconcile n (MkSt fresh c) = (Ok (n', r, e), MkSt fresh c) ∧ nc_Spec n' = nc_Spec n.
Proof.
  unfold status.VSwitch_Reconcile, mbind, M_bind, attempt, status.on_vswitch. cbn [prov env status.vSwitch StatusExample.controller].
  destruct (down_vswitches n c) as (q & _ & -> & [->|[e ->]]); cbn; eexists _, _, _; (split; [reflexivity|done]).
Qed.
Lemma down_SecurityGroup_Reconcile n c :
  SecurityGroupSelectorTerms (nc_Spec n) ≠ [] →
  ∃ r e, status.SecurityGroup_Reconcile 5 n (MkSt fresh c) = (Ok (n, r, e), MkSt fresh c).
Proof.
  intros Hn. unfold status.SecurityGroup_Reconcile, mbind, M_bind, attempt, status.on_groups.
  cbn [prov env status.securityGroup StatusExample.controller].
  destruct (down_security_groups n c Hn) as [e ->]. cbn. by eexists _, _.
Qed.
Lemma down_Image_Reconcile n c : ∃ r e, status.Image_Reconcile n (MkSt fresh c) = (Ok (n, r, e), MkSt fresh c).
Proof.
  unfold status.Image_Reconcile, mbind, M_bind, attempt, status.on_images.
  cbn [prov env status.image StatusExample.controller]. destruct (down_image_list n c) as [e ->]. cbn. by eexists _, _.
Qed.
Lemma down_resolve n c :
  SecurityGroupSelectorTerms (nc_Spec n) ≠ [] →
  ∃ n' res errs, status.resolve_status 5 n (MkSt fresh c) = (Ok (n', res, errs), MkSt fresh c).
Proof.
  intros Hn. unfold status.resolve_status.
  set (n0 := status.set_true (clock c) ConditionTypeInstanceRAMReady n).
  rewrite (M_Ok_bind now _ _ (clock c) (MkSt fresh c)) by done.
  destruct (down_VSwitch_Reconcile n0 c) as (n1 & r1 & e1 & H1 & Hs). rewrite (M_Ok_bind _ _ _ _ _ H1).
  destruct (down_SecurityGroup_Reconcile n1 c) as (r2 & e2 & H2); [by rewrite Hs|]. rewrite (M_Ok_bind _ _ _ _ _ H2).
  destruct (down_Image_Reconcile n1 c) as (r3 & e3 & H3). rewrite (M_Ok_bind _ _ _ _ _ H3). by eexists _, _, _.
Qed.

(** What does not change meanwhile: nothing is cached, and every NodeClass asks
    for security groups. *)
Definition outage (s : St status.Controller cluster) : Prop :=
  prov s = fresh ∧ map_Forall (λ _ n, SecurityGroupSelectorTerms (nc_Spec n) ≠ []) (classes (env s)).
Lemma outage_write stored f c q c' :
  (∀ n, nc_Name (f n) = nc_Name n ∧ nc_Spec (f n) = nc_Spec n) → outage (MkSt fresh c) →
  write_class stored f c = (q, c') →
  same_time c c' ∧ outage (MkSt fresh c') ∧ match q with Ok n => SecurityGroupSelectorTerms (nc_Spec n) ≠ [] | Err _ => True | Panic => False end.
Proof.
  intros Hf [_ Hall]. unfold write_class. destruct (own_name (c_classes c) !! nc_Name stored) as [n|] eqn:Hn;
    intros [= <- <-]; [|by split].
  split; [done|]. pose proof (Hall _ _ Hn) as Hsg. destruct (Hf n) as [Hname Hspec]. apply own_name_Some in Hn as [_ Hn].
  rewrite Hspec. split; [|exact Hsg]. split; [done|]. intros j n' Hj. cbn in Hj.
  apply own_name_store in Hj as [[_ ->]|[_ Hj]]; [by rewrite Hspec|by apply Hall in Hj|congruence].
Qed.
Lemma outage_finalizer n c :
  outage (MkSt fresh c) → SecurityGroupSelectorTerms (nc_Spec n) ≠ [] →
  ∃ f c', status.ensure_finalizer n (MkSt fresh c) = (Ok f, MkSt fresh c') ∧ same_time c c' ∧ outage (MkSt fresh c') ∧
    match f with inr n' => SecurityGroupSelectorTerms (nc_Spec n') ≠ [] | inl _ => True end.
Proof.
  intros Ho Hn. unfold status.ensure_finalizer. case_bool_decide; [by exists (inr n), c|].
  match goal with |- context [patch_NodeClass n ?m] => destruct (patch_NodeClass n m c) as [q c'] eqn:Hp end.
  destruct (outage_write n (nc_set_Finalizers _) c q c' (λ _, conj eq_refl eq_refl) Ho Hp) as (Ht & Ho' & Hq).
  unfold mbind, M_bind, attempt. rewrite (call_run _ fresh c q c' Hp).
  destruct q as [n'|e|]; [|destruct (IsConflict e)|done]; by eexists _, c'.
Qed.
Lemma outage_round k s :
  outage s → ∃ r e s', status_Reconcile 5 k s = (Some (r, e), s') ∧ outage s' ∧ same_time (env s) (env s').
Proof.
  destruct s as [p c]. intros Ho. pose proof Ho as [Hp Hall]. cbn in Hp. subst p.
  unfold status_Reconcile, calling, AsReconciler, mbind, M_bind, attempt.
  destruct (own_name (c_classes c) !! k) as [n|] eqn:Hk; cbn [kube_NodeClass cluster_reader]; unfold call, read_class; cbn [prov env]; rewrite Hk.
  2:{ cbn. by eexists _, _, _. }
  destruct (outage_finalizer n c Ho (Hall _ _ Hk)) as (f & c1 & Hf & Ht1 & Ho1 & Hn1).
  unfold status.Reconcile. rewrite (M_Ok_bind _ _ _ _ _ Hf). destruct f as [[r e]|n1]; [by eexists _, _, _|].
  destruct (down_resolve n1 c1 Hn1) as (n2 & res & errs & Hr). rewrite (M_Ok_bind _ _ _ _ _ Hr).
  case_bool_decide; [by eexists _, _, _|]. unfold mbind, M_bind, attempt.
  destruct (patch_NodeClassStatus n1 n2 c1) as [q c2] eqn:Hw.
  destruct (outage_write n1 (λ n, MkNodeClass (nc_Meta n) (nc_Spec n) _) c1 q c2 (λ _, conj eq_refl eq_refl) Ho1 Hw) as (Ht2 & Ho2 & Hq).
  assert (same_time c c2) as Ht by (by etrans).
  rewrite (call_run _ fresh c1 q c2 Hw). destruct q as [n3|e|]; [|destruct (IsConflict e)|done]; by eexists _, _, _.
Qed.
Lemma outage_quiet : quiet (status_Reconcile 5) outage ticking.
Proof.
  split.
  - intros k s Ho. destruct (outage_round k s Ho) as (r & e & s' & Hr & Ho' & Ht). exists r, e, s'. split_and!; [done..|].
    unfold clock, provider_clock, clock, cluster_clock. unfold same_time in Ht. lia.
  - intros s Ho. split; [exact Ho|]. unfold clock, provider_clock, clock, cluster_clock. cbn. lia.
Qed.

Definition classes_first (s : St status.Controller cluster) : list Request :=
  first_requests status_Register (NodeClassObj <$> (map_to_list (classes (env s))).*2).
Definition booting : St status.Controller cluster :=
  MkSt fresh (MkCluster TerminationExample.unused {["default" := StatusExample.class]}).
(** The first round fails and is put back with the shortest back-off, with the
    event of its own status write still on the way. *)
Definition tried : option (St (Runtime ()) (St status.Controller cluster)) :=
  schedule (MaxConcurrentReconciles status_Register) (status_Reconcile 5) status_woken
    [DeliverA; StartA; RunA 0; FinishA 0; ReceiveA] (MkSt (boot (reasonable_RateLimiter ()) (classes_first booting)) booting).
Definition retried : St (Runtime ()) (St status.Controller cluster) :=
  default (MkSt (boot (reasonable_RateLimiter ()) []) booting) tried.

Example retried_example :
  tried = Some retried ∧
  waitingEntryByData (rt_delayed (prov retried)) !! "default" = Some (5 + 100 * Millisecond)%Z ∧
  rt_watch (prov retried) = ["default"].
Proof. split_and!; vm_compute; reflexivity. Qed.

(** Taking turns from there, the round comes. *)
Lemma status_kept_up_witness :
  owed (prov retried) "default" ∧
  ∃ j, turn_labels (status_Reconcile 5) status_woken ticking retried j = Runs "default".
Proof.
  assert (running (MaxConcurrentReconciles status_Register) (status_Reconcile 5) status_woken (reasonable_RateLimiter ())
    classes_first retried) as Hr.
  { exists booting. eapply schedule_runs. exact (proj1 retried_example). }
  assert (is_Some (classes (env (env retried)) !! "default")) as Hk by (vm_compute; by eexists).
  assert (outage (env retried)) as Ho by (split; [vm_compute; reflexivity|decide_compute]).
  assert (rt_workers (prov retried) = []) as Hw by (vm_compute; reflexivity).
  assert (0 < MaxConcurrentReconciles status_Register) as Hmax by (vm_compute; lia).
  destruct (turns_fair _ _ status_woken _ _ outage_quiet Hmax retried Ho Hw) as [HF _].
  destruct (status_kept_up 5 (reasonable_RateLimiter ()) retried "default" Hr Hk) as (Howed & _ & _ & Hround).
  split; [exact Howed|]. destruct (Hround _ _ HF eq_refl 0 Hk) as (j & r & e & _ & Hl & _). by exists j.
Defined.

(** ** Turn after turn *)

#[local] Existing Instance OperatorExample.ex_clock.
#[local] Existing Instance OperatorExample.ex_ack.
#[local] Existing Instance OperatorExample.ex_metadata.
#[local] Existing Instance OperatorExample.ex_disks.
#[local] Existing Instance OperatorExample.ex_types.
#[local] Existing Instance OperatorExample.ex_prices.
#[local] Existing Instance OperatorExample.ex_ecs.
#[local] Existing Instance OperatorExample.ex_limiter.
#[local] Existing Instance OperatorExample.ex_sleep.
#[local] Existing Instance OperatorExample.ex_kube.
#[local] Existing Instance OperatorExample.ex_events.
#[local] Existing Instance OperatorExample.ex_claims.
#[local] Existing Instance OperatorExample.ex_nodes.
#[local] Existing Instance OperatorExample.ex_order.

Notation program := (St System OperatorExample.world).
Definition untaint : M program Result :=
  part (λ _, ()) (λ _ s, s) (unregisteredtaint.Reconcile (λ _, 0%Z)).
Definition turns : option (St (Runtime ()) program) :=
  schedule (MaxConcurrentReconciles (Register UnregisteredTaintController)) (periodic_Reconcile untaint) (λ _ _, [])
    [DeliverA; StartA; RunA 0; FinishA 0; ReceiveA]
    (MkSt (boot limiter (first_requests (Register UnregisteredTaintController) [])) OperatorExample.boot).
Definition turned : St (Runtime ()) program := default (MkSt (boot limiter []) OperatorExample.boot) turns.
Example turned_example : turns = Some turned ∧ rt_workers (prov turned) = [].
Proof. split; vm_compute; reflexivity. Qed.

Definition later (s : program) : program :=
  MkSt (prov s) (OperatorExample.MkWorld (OperatorExample.w_time (env s) + 1) (OperatorExample.w_class (env s))
    (OperatorExample.w_machines (env s))).
Lemma untaint_quiet : quiet (periodic_Reconcile untaint) (λ _, True) later.
Proof.
  split.
  - intros k [p w] _. eexists _, _, _. split_and!; [reflexivity|done|]. 
    unfold clock, manager.provider_clock, clock, OperatorExample.ex_clock, OperatorExample.tick. cbn. lia.
  - intros s _. split; [done|]. unfold clock, manager.provider_clock, clock, OperatorExample.ex_clock. cbn. lia.
Qed.

(** Taking turns, there is always another round. *)
Lemma periodic_never_stops_witness :
  owed (prov turned) "" ∧
  ∀ n, ∃ j, n ≤ j ∧ turn_labels (periodic_Reconcile untaint) (λ _ _, []) later turned j = Runs "".
Proof.
  assert (running (MaxConcurrentReconciles (Register UnregisteredTaintController)) (periodic_Reconcile untaint) (λ _ _, [])
    limiter (λ _, first_requests (Register UnregisteredTaintController) []) turned) as Hr.
  { exists OperatorExample.boot. eapply schedule_runs. exact (proj1 turned_example). }
  destruct (turns_fair 1 _ (λ _ _, []) _ _ untaint_quiet ltac:(lia) turned I (proj2 turned_example)) as [HF _].
  destruct (periodic_never_stops OperatorExample.opts 5 (λ _, 0%Z) UnregisteredTaintController untaint limiter turned eq_refl Hr)
    as (Ho & _ & Hround).
  split; [exact Ho|]. intros n. destruct (Hround _ _ HF eq_refl n) as (j & r & e & Hj & Hl & _). by exists j.
Defined.
End ManagerExample.
